(* ===== verification/_CoqProject ===== *)
-Q . S2P
Prelude.v
RustStr.v
Decimal.v
Json.v
Crates.v
Errors.v
Fixtures.v
Ids.v
Manifest.v
Waz.v
Metadata.v
Signing.v
Store.v
Registry.v
Commit.v
Opening.v
Catalog.v
Install.v
Expanded.v
Legacy.v
Deploy.v
Capabilities.v
NetAddr.v
Setup.v
Packages.v
Startup.v
Profiles.v
Ocsp.v
Dns.v
Supervisor.v
EventLoop.v
Proxy.v
Outbound.v
Access.v
Guest.v
ContactStore.v
Sqlite.v
ContactDb.v
ContactSql.v
AccessDb.v
Contact.v
Delivery.v
Contacts.v
Permissions.v
Ownership.v
Layout.v
AppFiles.v
Routing.v
Development.v
Calls.v
Cli.v
AccessLog.v
Examples.v
Scenarios.v
Correspondence.v
Confinement.v
CallExamples.v
