(* ===== verification/Prelude.v ===== *)
(** * Pishoo: a verification library for the identity-bound gateway

    Pishoo serves one DHTTP identity.  It installs signed packages (a Lib, a
    WebAssembly backend with an OpenAPI document, and an App, static pages),
    keeps them in a SQLite registry and on disk, and routes requests to
    packages, to local upstreams and to other identities.

    ** Parts of the program and the files that model them

    - [Prelude], [RustStr], [Decimal], [Json], [NetAddr]: [Result] and its
      notations, and the parts of the Rust standard library and of
      [serde_json::Value] the program uses ([str] operations on UTF-8 bytes,
      decimal numerals, JSON values with [BTreeMap] objects, socket addresses).
    - [Crates]: one class per third-party crate ([DhttpHome], [Sha2], [ZipCrate],
      [X509], [Webpki], [Oas3], [Wasmparser], [HeaderMap], ...).  Their code is
      not in the repository; every component takes the classes it needs as
      section parameters, so its theorems hold for whatever the crate computes.
      Laws are stated only where a theorem needs one ([from_slice] inverts
      [to_json_string]; [HeaderMap] lookups after an insert or a removal).
    - [Errors]: [src/error.rs].
    - [Ids]: package identities and target paths ([src/package.rs]).
    - [Manifest]: component and OpenAPI validation ([src/package/manifest.rs]).
    - [Waz]: the archive codec, [Metadata]: package metadata, access
      declarations and contents ([src/package/format.rs]).
    - [Signing]: author chains, publication receipts, revocation lists
      ([src/package/signing.rs]).
    - [Store]: download, dependency resolution and installation order
      ([src/package/store.rs]).
    - [Registry]: the registration tables as finite maps and the statements on
      them ([src/package/files.rs], [src/routes/capabilities.rs],
      [src/package/sql/schema.sql]).
    - [Opening]: what opening the registry for a change repairs
      ([installation_database], [migrate_registration] of
      [src/package/files.rs]); [Install] and [Legacy] open it first.
    - [Commit]: the journalled switch of files and its recovery
      ([src/package/files.rs], [src/server/files.rs]).
    - [Install]: [install_packages], [remove_package], [install_store_package]
      over the whole state (registry, revocation directory, files, sandbox, and
      the journals a failed cleanup or rollback leaves), with the I/O errors of
      each part as an argument ([io_faults]).
    - [Expanded]: the routes of the packages on disk ([installed_routes], defined
      in [Install]) and the budgets of the archive; [Legacy]: the transfer of
      packages of older releases ([src/package/files/legacy.rs]).
    - [Startup]: a start over what an earlier process left ([restart]): the
      recovery of every journal from what is on disk ([src/server/files.rs]),
      [migrate_legacy_packages], and [load_libs] and [installed_apps], what is
      loaded from the registry and the disk ([src/sandbox.rs],
      [src/package/files.rs]).
    - [Guest]: the capabilities of a running Lib: identity, signatures,
      requests, and the invocations they belong to ([src/sandbox/host.rs],
      [src/sandbox/host/http.rs], [src/sandbox/runtime.rs]).
    - [Catalog]: what is shown of packages ([lib_metadata], [installed_catalog]
      of [src/package.rs]); [Packages]: the management interface
      ([pkg_management_request], [pkg_management_router]); [Deploy] states what
      an installation from the store amounts to.
    - [Capabilities]: access declarations over HTTP
      ([src/routes/capabilities.rs], [require_owner] of [src/package.rs]);
      [Permissions]: the catalogue that shows them ([src/routes/capabilities.rs],
      [src/contact/capabilities.rs]).
    - [Ownership]: who owns the files of an identity, every routine that hands
      them over, on a graph of inodes ([src/server/files.rs],
      [src/sandbox/runtime.rs], [src/package/files.rs], [src/setup.rs]).
    - [Layout]: the directories of an identity ([initialize_directories] of
      [src/server/files.rs]) and the data of a Lib ([Lib::load] of
      [src/sandbox/runtime.rs]), on files by path.
    - [Access]: who may call what ([src/routes/access.rs]); [AccessDb]: the
      inspection and initialization of the authorization database
      ([src/server/access.rs]).
    - [Setup]: the configuration database, listen mode and proxy mounts
      ([src/setup.rs]).
    - [Proxy]: route selection and the reverse proxy ([src/routes.rs],
      [src/routes/proxy.rs]); [Outbound]: [src/routes/outbound.rs].
    - [Profiles]: account homes and identity profiles; [Supervisor]: the servers
      and their reconciliation with profiles and settings; [EventLoop]: [run] as
      a step relation ([src/server/run.rs], [src/server.rs], [src/dns.rs],
      [src/lib.rs]).
    - [Ocsp]: the proof of the identity's certificate ([src/server/ocsp.rs]);
      [Dns]: one publication and one maintenance of DNS records ([src/dns.rs]);
      [AccessLog]: the lines of the access log ([serve_request] of
      [src/server.rs]); [Cli]: the command line ([src/main.rs]).
    - [AppFiles]: pages of Apps and static files ([src/package/files.rs],
      [src/sandbox.rs], [src/routes.rs]); [Routing]: which handler a path
      reaches ([src/server.rs], [src/sandbox.rs]); [Development]: the owner's
      local projects ([src/development.rs]).
    - [ContactStore]: the table of outbound contact requests and the statements
      on it; deliveries and deletions as interleaved steps
      ([src/contact/storage.rs] and the statements of the next two);
      [Sqlite], [ContactDb]: opening that database, its versions and migrations
      ([src/contact/storage.rs], [src/contact/sql]); [ContactSql]: its
      statements as SQL on rows, which refine those of [ContactStore];
      [Contact]: names, parameters, permissions; [Delivery]: one delivery with
      its exchanges ([src/contact/delivery.rs], [src/contact/access.rs]);
      [Contacts]: the router ([src/contact.rs]).
    - [Calls]: one request from [Access] through [Development] and [Routing] to
      the invocation of a Lib, and the requests that Lib sends to the identity
      ([src/server.rs], [src/sandbox.rs], [src/sandbox/host/http.rs]).
    - [Fixtures]: concrete crates and packages; [Examples], [Scenarios],
      [Correspondence], [Confinement], [CallExamples]: every property with
      hypotheses applied to them.

    A component requires the files of the components it calls: [Install] calls
    [Store] (which calls [Signing], [Metadata], [Waz], [Manifest], [Ids]),
    [Registry], [Opening] and [Commit]; [Startup] calls [Commit] and [Legacy] on
    the state of [Install]; [Packages] calls [Install] and [Catalog]; [Setup]
    shares the database of [Registry]; [Proxy] selects among the routes that
    [Setup] accepted; [Supervisor] reads the settings of [Setup], [EventLoop]
    runs its scans; [Routing] and [Development] choose among the handlers of
    [AppFiles], [Proxy] and [Outbound], [Calls] composes them with [Access] and
    [Guest]; [Contacts] and [Delivery] work on the table of [ContactStore] in a
    state monad over the world outside.

    ** How the code is translated

    A [str] and a byte slice are their bytes.  A function that returns
    [Result] returns [result error A]; [?] is [let?], an early return is
    [throw .. when ..].  State is passed: the database, the directories, the
    sandbox.  A panic of the code (an [unwrap], an index out of range) is the
    error value [panicked], so a theorem can exclude it.  A SQL transaction
    returns the new database or an error, and the caller keeps the old one
    after an error, as the rollback does.  A Rust [u64] is a [Z] whose bounds
    are checked where the code checks them.  The system clock, random names and
    the answers of the network are arguments.

    ** What the theorems show

    - The file transaction: a crash after any number of its steps, or an I/O
      error with or without a failing rollback, is resolved by recovery to the
      old or the new state of every package at once, and recovery may itself be
      interrupted ([Commit]).  This needs registration facts that the
      transaction changes: [recovery_equal_facts] shows what happens otherwise.
      A failing installation leaves database, files and
      sandbox alone; a succeeding one keeps the registry well formed and the
      owners of the packages ([Install], [Registry]).
    - Databases: opening the registry puts the operations of older versions in
      their place and registering keeps them there ([Opening]); the contact
      database of every version is brought to the present one with all its rows
      ([ContactDb]), and the SQL of the contact transactions, with NULLs and the
      constraints of the schema, does what the table of requests says
      ([ContactSql]); the authorization database is never replaced once it is
      recognized, whoever else initializes it ([AccessDb]); packages change
      authors only as the host's list says, file by file, and each group of them
      as a whole ([Legacy]).
    - Trust: what is installed was downloaded under the digest, receipt, author
      chain and metadata that belong to it ([Store], [Signing], and [Deploy],
      which ties the rows of the registry to the archives); cached
      revocation lists are authentic, current and never replaced by older ones.
    - Archives: accepted archives tile their bytes, stay in their budget and in
      their paths; what is signed determines the files ([Waz]); an installed one
      can always be walked by the check of routes ([Expanded]).
    - Resolution ends, is closed, and the order is topological whenever one
      exists ([Store]); the guard on cycles is exact ([Registry]).
    - Metadata, declarations, OpenAPI documents and components are accepted
      only in the form the rest of the program relies on ([Metadata],
      [Manifest]).
    - Configuration: management requests never panic, never lose other rules,
      say truly whether a change was stored unless handing over the files fails
      after it, and only ever leave local upstreams away from installed packages
      ([Setup]); route selection, upstream addresses, header cleaning and
      WebSocket handshakes ([Proxy]); requests to other identities only for the
      identity itself ([Outbound]); who is let through to a Lib ([Access]).
    - The management interface: a series of requests refines an abstract
      catalogue of packages and needs, and only the owner changes anything
      ([Packages]); an installation brings in everything the release requires,
      in the required versions ([Deploy]).
    - Restarts: the registry, the disk and the sandbox agree after every series
      of management requests whose journals are removed, so a restart loads
      exactly what was running, and a crash in the middle of an installation
      leaves the packages of before or of after it ([Startup], composing
      [Commit], [Install], [Legacy] and [Packages]); a journal that outlives its
      transaction can undo a later one ([stale_journal_restores]).
    - Confinement: a Lib's requests carry the authentication of its invocation
      and nothing it forged, go to the URI of the named identity and expect its
      owner on record, and stay within the limits ([Guest]).
    - Declarations: what an owner writes is what the catalogue shows
      ([Permissions]).
    - Files: the walk that repairs ownership ends, touches exactly the files of
      the identity and leaves links, linked files and other devices alone
      ([Ownership]); starting a server and loading a Lib lose no file, whatever
      goes wrong, and find everything in place the second time ([Layout]).
    - Servers: a scan keeps the running servers consistent with themselves
      whatever fails, converges to the settings on disk when nothing fails, and
      is then idle ([Supervisor]); every run of the loop is safe and ends with
      everything closed ([EventLoop]); discovery finds every profile once
      ([Profiles]).
    - The identity on the network: a proof is cached only when it validates
      ([Ocsp]); records are removed and published only for sockets and names
      that are there ([Dns]); the log has one line per request whatever is asked
      for ([AccessLog]); a command changes at most the profile it names, and
      signals only a process number in range ([Cli]).
    - Contacts: a lease is exclusive and a cancelled request final whatever
      interleaves ([ContactStore]); the status of a request comes from the
      accepted answer of its authenticated peer ([Delivery]); a request of the interface changes
      what it is allowed to and a failed deletion is undone ([Contacts]).
    - Requests: each path reaches the one handler that covers it ([Routing]);
      files stay below their directory ([AppFiles]); local projects are the
      owner's and never served from an outdated compilation ([Development]).

    ** Bounds and fuel

    [Store.resolve_fuel] is [S (101 * 100)]: at most 100 packages are resolved
    and each adds at most 100 dependencies, so the measure of the loop starts
    below it ([resolve_terminates]).  [Registry.cycle_fuel] bounds the recursive
    query by the number of recorded edges ([check_dependency_cycle_iff] shows
    that it is enough).  The ancestors of an archive path are unfolded with the
    length of the name as fuel.  [Ownership.walk] takes a directory per unit of
    fuel; on directories without cycles some fuel is enough, and more changes
    nothing ([repair_ownership_exact]).  [Legacy.collect_files] is the same walk
    with descent only towards the files of a release ([collect_files_ends]).
    Numerals are parsed and printed with the number of digits as fuel
    ([Decimal]).  The pages of the manager's contact list are
    read with fuel; a page per hundred contacts is enough ([list_pages_end]).

    ** What is not modelled

    The operating system below the steps (syncing, file modes), TLS and the
    DHTTP transport, the WebAssembly engine itself ([WasmRuntime] of
    [src/sandbox/runtime.rs]) and its fuel, what another process does between
    the last check of the authorization database and the copy over an existing
    file, the resolver and certificate libraries behind [src/dns.rs] and
    [src/server/ocsp.rs], the module list of [src/lib.rs], and the byte streams
    of bodies.  Replacing an older definition of the table of operations
    ([migrate_registration]) is taken to copy its rows.  At a start, reading
    the files of the packages fails only when they are missing, and handing the
    configuration files to their owner is taken to succeed (its failure is an
    argument of the management requests of [Setup]).

    ** Further work

    The rest of a start ([Layout], [AccessDb], [Setup], [Supervisor]) composed
    with [restart], the background runs of Libs as a step relation, and the
    integers of the contact statements at the width of SQLite. *)
From Stdlib Require Export ZArith Lia String Ascii.
From stdpp Require Export base option list gmap strings sorting.

#[global] Open Scope string_scope.
#[global] Open Scope list_scope.
#[global] Open Scope bool_scope.
#[global] Open Scope Z_scope.

#[global] Arguments String.append !_ _ : simpl nomatch.

(** ** Fallible code

    [Result] of the Rust code.  Functions translated from the source return
    [result E A]; the notations follow the shape of the source: [let?] is the
    [?] operator, [throw .. when ..] is an early [return Err(..)]. *)
Inductive result (E A : Type) : Type :=
| Ok (a : A)
| Err (e : E).
Arguments Ok {E A} a.
Arguments Err {E A} e.

Declare Scope rust_scope.
Delimit Scope rust_scope with rust.
#[global] Open Scope rust_scope.

Notation "'let?' x ':=' m 'in' k" :=
  (match m with Ok x => k | Err e => Err e end)
  (at level 10, x pattern, m at level 100, k at level 200,
   format "'[v' 'let?'  x  ':='  m  'in' '/' k ']'") : rust_scope.
Notation "'throw' e 'when' b ';;' k" :=
  (if b then Err e else k)
  (at level 10, e at level 9, b at level 99, k at level 200,
   format "'[v' 'throw'  e  'when'  b ';;' '/' k ']'") : rust_scope.

(** [ok_or e o] is [Option::ok_or]; [map_err] is [Result::map_err]; [ok] is
    [Result::ok]. *)
Definition ok_or {E A} (e : E) (o : option A) : result E A :=
  match o with Some a => Ok a | None => Err e end.
Definition map_err {E F A} (f : E -> F) (r : result E A) : result F A :=
  match r with Ok a => Ok a | Err e => Err (f e) end.
Definition ok {E A} (r : result E A) : option A :=
  match r with Ok a => Some a | Err _ => None end.
Definition is_ok {E A} (r : result E A) : bool :=
  match r with Ok _ => true | Err _ => false end.
Definition is_err {E A} (r : result E A) : bool := negb (is_ok r).
Definition result_map {E A B} (f : A -> B) (r : result E A) : result E B :=
  match r with Ok a => Ok (f a) | Err e => Err e end.

(** [collect::<Result<Vec<_>, _>>()] of a mapped iterator. *)
Fixpoint try_map {E A B} (f : A -> result E B) (l : list A) : result E (list B) :=
  match l with
  | [] => Ok []
  | a :: l => let? b := f a in let? bs := try_map f l in Ok (b :: bs)
  end.

(** A [for] loop whose body may return early with an error. *)
Fixpoint try_fold {E A S} (f : S -> A -> result E S) (s : S) (l : list A) : result E S :=
  match l with
  | [] => Ok s
  | a :: l => let? s := f s a in try_fold f s l
  end.

(** ** Automation *)

(** [simplify_ok]: invert every hypothesis [code = Ok r] one bind, guard or
    [ok_or] at a time, until no early return is left in it. *)
Ltac ok_step :=
  match goal with
  | H : Ok _ = Ok _ |- _ => injection H; clear H; intros; subst
  | H : Err _ = Err _ |- _ => injection H; clear H; intros; subst
  | H : Ok _ = Err _ |- _ => discriminate H
  | H : Err _ = Ok _ |- _ => discriminate H
  | H : Some _ = None |- _ => discriminate H
  | H : None = Some _ |- _ => discriminate H
  | H : Some _ = Some _ |- _ => injection H; clear H; intros; subst
  | H : true = false |- _ => discriminate H
  | H : false = true |- _ => discriminate H
  | H : match ?m with Ok _ => _ | Err _ => Err _ end = Ok _ |- _ =>
      let E := fresh "E" in destruct m eqn:E; [| discriminate H]
  | H : (if ?b then Err _ else _) = Ok _ |- _ =>
      let E := fresh "Hguard" in destruct b eqn:E; [discriminate H |]
  | H : (if ?b then _ else Err _) = Ok _ |- _ =>
      let E := fresh "Hguard" in destruct b eqn:E; [| discriminate H]
  | H : match ?m with Some _ => _ | None => Err _ end = Ok _ |- _ =>
      let E := fresh "E" in destruct m eqn:E; [| discriminate H]
  | H : match ?m with Some _ => Err _ | None => _ end = Ok _ |- _ =>
      let E := fresh "E" in destruct m eqn:E; [discriminate H |]
  | H : match ?m with Some _ => _ | None => None end = Some _ |- _ =>
      let E := fresh "E" in destruct m eqn:E; [| discriminate H]
  | H : (if ?b then _ else None) = Some _ |- _ =>
      let E := fresh "Hguard" in destruct b eqn:E; [| discriminate H]
  | H : (if ?b then None else _) = Some _ |- _ =>
      let E := fresh "Hguard" in destruct b eqn:E; [discriminate H |]
  | H : ok_or _ ?o = Ok _ |- _ =>
      let E := fresh "E" in destruct o eqn:E; cbn [ok_or] in H; [| discriminate H]
  | H : map_err _ ?o = Ok _ |- _ =>
      let E := fresh "E" in destruct o eqn:E; cbn [map_err] in H; [| discriminate H]
  end.
Ltac simplify_ok := repeat ok_step.

(** Boolean guards as propositions. *)
Ltac bool_step :=
  match goal with
  | H : (_ || _)%bool = false |- _ => apply orb_false_iff in H as [? ?]
  | H : (_ && _)%bool = true |- _ => apply andb_true_iff in H as [? ?]
  | H : negb _ = false |- _ => apply negb_false_iff in H
  | H : negb _ = true |- _ => apply negb_true_iff in H
  | H : String.eqb _ _ = true |- _ => apply String.eqb_eq in H
  | H : String.eqb _ _ = false |- _ => apply String.eqb_neq in H
  | H : (_ =? _)%Z = true |- _ => apply Z.eqb_eq in H
  | H : (_ =? _)%Z = false |- _ => apply Z.eqb_neq in H
  | H : (_ <? _)%Z = true |- _ => apply Z.ltb_lt in H
  | H : (_ <? _)%Z = false |- _ => apply Z.ltb_ge in H
  | H : (_ >? _)%Z = _ |- _ => rewrite Z.gtb_ltb in H
  | H : (_ >=? _)%Z = _ |- _ => rewrite Z.geb_leb in H
  | H : (_ <=? _)%Z = true |- _ => apply Z.leb_le in H
  | H : (_ <=? _)%Z = false |- _ => apply Z.leb_gt in H
  | H : ~ is_Some _ |- _ => apply eq_None_not_Some in H
  | H : bool_decide _ = true |- _ => apply bool_decide_eq_true in H
  | H : bool_decide _ = false |- _ => apply bool_decide_eq_false in H
  end.
Ltac simplify_bool := repeat bool_step.

Create HintDb pishoo.
Create Rewrite HintDb pishoo.
#[export] Hint Rewrite @length_app @length_map @length_cons : pishoo.

(** ** Generic lemmas on the traversals *)
Section traversals.
Context {E A B S : Type}.

Lemma try_map_Forall2 (f : A -> result E B) l bs :
  try_map f l = Ok bs <-> Forall2 (fun a b => f a = Ok b) l bs.
Proof.
  revert bs. induction l as [|a l IH]; intros bs; cbn.
  - split; [intros; simplify_ok; constructor | by inversion 1].
  - split.
    + intros H. simplify_ok. constructor; [done | by apply IH].
    + inversion 1 as [|? b ? bs' Hb Hbs]; subst. rewrite Hb.
      by apply IH in Hbs as ->.
Qed.

Lemma try_map_elem (f : A -> result E B) l bs b : try_map f l = Ok bs -> b ∈ bs -> exists a, a ∈ l /\ f a = Ok b.
Proof.
  revert bs. induction l as [|a l IH]; intros bs; cbn; [intros [= <-] Hb; by apply not_elem_of_nil in Hb|].
  intros Hm Hb. destruct (f a) as [b0|] eqn:Ha; [|done]. destruct (try_map f l) as [bs'|]; [|done]. injection Hm as <-.
  apply elem_of_cons in Hb as [->|Hb]; [exists a; split; [left|done]|].
  destruct (IH bs' eq_refl Hb) as (a' & Hin & Ha'). exists a'. split; [by right|done].
Qed.
Lemma try_map_image (f : A -> result E B) l bs a : try_map f l = Ok bs -> a ∈ l -> exists b, b ∈ bs /\ f a = Ok b.
Proof.
  revert bs. induction l as [|a0 l IH]; intros bs; cbn; [intros _ Ha; by apply not_elem_of_nil in Ha|].
  intros Hm Ha. destruct (f a0) as [b0|] eqn:Hb; [|done]. destruct (try_map f l) as [bs'|]; [|done]. injection Hm as <-.
  apply elem_of_cons in Ha as [->|Ha]; [exists b0; split; [left|done]|].
  destruct (IH bs' eq_refl Ha) as (b & Hin & Hf). exists b. split; [by right|done].
Qed.
Lemma try_map_length (f : A -> result E B) l bs :
  try_map f l = Ok bs -> length bs = length l.
Proof. intros H%try_map_Forall2. symmetry. by eapply Forall2_length. Qed.

Lemma try_fold_app (f : S -> A -> result E S) s l1 l2 :
  try_fold f s (l1 ++ l2) = (let? s' := try_fold f s l1 in try_fold f s' l2).
Proof.
  revert s. induction l1 as [|a l1 IH]; intros s; cbn; [done|].
  destruct (f s a); [apply IH | done].
Qed.

(** Invariant rule of the [for] loop: [P] holds of the processed prefix. *)
Lemma try_fold_ind (f : S -> A -> result E S) (P : list A -> S -> Prop) s0 :
  P [] s0 ->
  (forall pre a s s', P pre s -> f s a = Ok s' -> P (pre ++ [a]) s') ->
  forall l s', try_fold f s0 l = Ok s' -> P l s'.
Proof.
  intros H0 Hstep l.
  assert (forall pre s s', P pre s -> try_fold f s l = Ok s' -> P (pre ++ l) s') as Hgen.
  { induction l as [|a l IH]; intros pre s s' HP H; cbn in H.
    - simplify_ok. by rewrite app_nil_r.
    - simplify_ok. rewrite (cons_middle a), app_assoc. eapply IH; eauto. }
  intros s' H. by apply (Hgen [] s0 s').
Qed.

(** The error of a loop is the error of one of its steps. *)
Lemma try_fold_Err (f : S -> A -> result E S) (P : E -> Prop) :
  (forall s a e, f s a = Err e -> P e) -> forall l s e, try_fold f s l = Err e -> P e.
Proof.
  intros Hf l. induction l as [|a l IH]; intros s e; cbn; [done|].
  destruct (f s a) eqn:Ha; [apply IH|]. intros [= <-]. by eapply Hf.
Qed.
Lemma try_map_Err (f : A -> result E B) (P : E -> Prop) :
  (forall a e, f a = Err e -> P e) -> forall l e, try_map f l = Err e -> P e.
Proof.
  intros Hf l. induction l as [|a l IH]; intros e; cbn; [done|].
  destruct (f a) eqn:Ha; [|intros [= <-]; by eapply Hf].
  destruct (try_map f l) eqn:Hl; [done|]. intros [= <-]. by apply IH.
Qed.
End traversals.

Lemma negb_existsb {A} (p : A -> bool) l :
  existsb p l = false <-> Forall (fun x => p x = false) l.
Proof.
  induction l as [|a l IH]; cbn; [split; auto|].
  rewrite orb_false_iff, IH. split; [intros []; by constructor | by inversion 1].
Qed.

Lemma forallb_Forall {A} (p : A -> bool) l :
  forallb p l = true <-> Forall (fun x => p x = true) l.
Proof.
  induction l as [|a l IH]; cbn; [split; auto|].
  rewrite andb_true_iff, IH. split; [intros []; by constructor | by inversion 1].
Qed.

Lemma filter_snoc_True {A} (P : A -> Prop) `{forall x, Decision (P x)} l x :
  P x -> filter P (l ++ [x]) = filter P l ++ [x].
Proof. intros. rewrite filter_app, filter_cons_True by done. done. Qed.
Lemma filter_snoc_False {A} (P : A -> Prop) `{forall x, Decision (P x)} l x :
  ~ P x -> filter P (l ++ [x]) = filter P l.
Proof. intros. rewrite filter_app, filter_cons_False by done. by rewrite app_nil_r. Qed.
Lemma filter_map_nodup {A B} (P : A -> Prop) `{!forall x, Decision (P x)} (f : A -> B) (l : list A) :
  NoDup (map f l) -> NoDup (map f (filter P l)).
Proof.
  induction l as [|x l IH]; [done|]. intros [Hx Hl]%NoDup_cons. rewrite filter_cons.
  destruct (decide (P x)); cbn [map]; [|by apply IH]. apply NoDup_cons. split; [|by apply IH].
  intros (y & Hy & [_ Hin]%list_elem_of_filter)%list_elem_of_fmap. apply Hx. rewrite Hy. by apply list_elem_of_fmap_2.
Qed.

(** [BTreeSet]/[HashSet] insertion as a list without duplicates: [insert]
    returns whether the value was new. *)
Section mem.
Context {A : Type} `{EqDecision A}.

Definition mem (x : A) (l : list A) : bool := bool_decide (x ∈ l).

Lemma mem_true x l : mem x l = true <-> x ∈ l.
Proof. apply bool_decide_eq_true. Qed.
Lemma mem_false x l : mem x l = false <-> x ∉ l.
Proof. apply bool_decide_eq_false. Qed.
End mem.
#[export] Hint Rewrite @mem_true @mem_false : pishoo.
Ltac simplify_mem :=
  repeat match goal with
  | H : mem _ _ = true |- _ => apply mem_true in H
  | H : mem _ _ = false |- _ => apply mem_false in H
  end.

(** ** Machine integers *)
Definition u64_max : Z := 18446744073709551615.
Definition i64_max : Z := 9223372036854775807.
Definition i64_min : Z := -9223372036854775808.
Definition u32_max : Z := 4294967295.
Definition u16_max : Z := 65535.
Definition u8_max : Z := 255.
Definition in_i64 (z : Z) : bool := (i64_min <=? z) && (z <=? i64_max).

(** [checked_add] at the width whose largest value is [max]; [usize] and [u64]
    are 64 bits wide on the supported platforms. *)
Definition checked_add (max a b : Z) : option Z :=
  if a + b <=? max then Some (a + b) else None.
Definition checked_add_i64 (a b : Z) : option Z :=
  if in_i64 (a + b) then Some (a + b) else None.
Definition saturating_sub (a b : Z) : Z := Z.max 0 (a - b).

Lemma checked_add_Some max a b c : checked_add max a b = Some c -> c = a + b /\ c <= max.
Proof. unfold checked_add. intros H. simplify_ok. simplify_bool. lia. Qed.

Ltac simplify_checked :=
  repeat match goal with
  | H : checked_add _ _ _ = Some _ |- _ => apply checked_add_Some in H as [? ?]; subst
  end.

(** ** Sorting: the order a comparison function puts a list in ([sort], SQL's
    [ORDER BY]); equal elements keep their order. *)
Section sort_by.
Context {A : Type} (le : A -> A -> bool).
Fixpoint insert_by (x : A) (l : list A) : list A :=
  match l with
  | [] => [x]
  | y :: l' => if le x y then x :: l else y :: insert_by x l'
  end.
Definition sort_by (l : list A) : list A := foldr insert_by [] l.

Lemma insert_by_Permutation x l : insert_by x l ≡ₚ x :: l.
Proof. induction l as [|y l IH]; cbn; [done|]. destruct (le x y); [done|]. rewrite IH. constructor. Qed.
Lemma sort_by_Permutation l : sort_by l ≡ₚ l.
Proof. induction l as [|x l IH]; cbn; [done|]. by rewrite insert_by_Permutation, IH. Qed.
Lemma elem_of_sort_by x l : x ∈ sort_by l <-> x ∈ l.
Proof. by rewrite sort_by_Permutation. Qed.

Context (le_total : forall x y, le x y = true \/ le y x = true)
        (le_trans : forall x y z, le x y = true -> le y z = true -> le x z = true).
Lemma insert_by_sorted x l :
  StronglySorted (fun a b => le a b = true) l -> StronglySorted (fun a b => le a b = true) (insert_by x l).
Proof.
  induction 1 as [|y l Hs IH Hf]; cbn; [by repeat constructor|].
  destruct (le x y) eqn:Hxy.
  - constructor; [by constructor|]. constructor; [done|]. eapply Forall_impl; [exact Hf|]. eauto.
  - constructor; [done|]. rewrite insert_by_Permutation. constructor; [|done].
    destruct (le_total x y); congruence.
Qed.
Lemma sort_by_sorted l : StronglySorted (fun a b => le a b = true) (sort_by l).
Proof. induction l as [|x l IH]; cbn; [constructor | by apply insert_by_sorted]. Qed.
End sort_by.

(** Byte order is total ([String.leb_total]) and transitive. *)
Lemma string_leb_cons a b s t :
  String.leb (String a s) (String b t) = true <->
  (N_of_ascii a < N_of_ascii b)%N \/ (a = b /\ String.leb s t = true).
Proof.
  unfold String.leb. cbn. unfold Ascii.compare.
  destruct (N.compare_spec (N_of_ascii a) (N_of_ascii b)) as [Heq|Hlt|Hgt].
  - assert (a = b) as -> by (rewrite <- (ascii_N_embedding a), Heq; apply ascii_N_embedding).
    split; [by right | intros [?|[_ ?]]; [lia|done]].
  - split; [by left | done].
  - split; [done|]. intros [?|[-> _]]; lia.
Qed.
Lemma string_leb_trans x y z : String.leb x y = true -> String.leb y z = true -> String.leb x z = true.
Proof.
  revert y z. induction x as [|a x IH]; intros [|b y] [|c z]; try done.
  rewrite !string_leb_cons. intros [?|[-> ?]] [?|[-> ?]]; [left; lia|by left|by left|right; eauto].
Qed.

(** Byte order of strings, [NULL] first, and the order of pairs. *)
Definition opt_string_leb (a b : option string) : bool :=
  match a, b with
  | None, _ => true
  | Some _, None => false
  | Some a, Some b => String.leb a b
  end.
Definition pair_leb (a b : string * string) : bool :=
  if String.eqb a.1 b.1 then String.leb a.2 b.2 else String.leb a.1 b.1.
