(* ===== verification/RustStr.v ===== *)
(** * Strings of the Rust standard library

    A Rust [str] is modelled by its UTF-8 bytes, a Stdlib [string]; a byte
    slice ([&[u8]]) by the same type.  This file defines the [str] operations
    the program uses ([split], [split_once], [strip_prefix], [trim],
    [parse::<u64>] and others), with the facts the components share. *)
From S2P Require Import Prelude.

Fixpoint bytes_of (s : string) : list ascii :=
  match s with EmptyString => [] | String a s => a :: bytes_of s end.
Definition of_bytes : list ascii -> string := string_of_list_ascii.
Definition byte (n : Z) : ascii := ascii_of_N (Z.to_N n).
Definition code (a : ascii) : Z := Z.of_N (N_of_ascii a).

(** [str::len]: the number of bytes. *)
Definition slen (s : string) : Z := Z.of_nat (String.length s).

Definition all_bytes (p : ascii -> bool) (s : string) : bool := forallb p (bytes_of s).
Definition any_byte (p : ascii -> bool) (s : string) : bool := existsb p (bytes_of s).
Definition contains_char (c : ascii) (s : string) : bool := any_byte (Ascii.eqb c) s.
(** [s.contains(['a', 'b'])] *)
Definition contains_any (cs : list ascii) (s : string) : bool :=
  any_byte (fun a => existsb (Ascii.eqb a) cs) s.

(** [u8] and [char] classes. *)
Definition in_code_range (lo hi : Z) (a : ascii) : bool := (lo <=? code a) && (code a <=? hi).
Definition is_ascii_digit : ascii -> bool := in_code_range 48 57.
Definition is_ascii_lowercase : ascii -> bool := in_code_range 97 122.
Definition is_ascii_uppercase : ascii -> bool := in_code_range 65 90.
Definition to_lower (a : ascii) : ascii :=
  if is_ascii_uppercase a then byte (code a + 32) else a.
Definition to_upper (a : ascii) : ascii :=
  if is_ascii_lowercase a then byte (code a - 32) else a.
Definition string_map (f : ascii -> ascii) (s : string) : string :=
  of_bytes (map f (bytes_of s)).
Definition to_ascii_lowercase : string -> string := string_map to_lower.
Definition to_ascii_uppercase : string -> string := string_map to_upper.
Definition eq_ignore_ascii_case (a b : string) : bool :=
  String.eqb (to_ascii_lowercase a) (to_ascii_lowercase b).

(** [strip_prefix], [starts_with], [strip_suffix], [ends_with]. *)
Fixpoint strip_prefix (p s : string) : option string :=
  match p, s with
  | EmptyString, _ => Some s
  | String a p, String b s => if Ascii.eqb a b then strip_prefix p s else None
  | String _ _, EmptyString => None
  end.
Definition starts_with (p s : string) : bool :=
  match strip_prefix p s with Some _ => true | None => false end.
Definition srev (s : string) : string := of_bytes (rev (bytes_of s)).
Definition strip_suffix (p s : string) : option string :=
  match strip_prefix (srev p) (srev s) with Some r => Some (srev r) | None => None end.
Definition ends_with (p s : string) : bool := starts_with (srev p) (srev s).

(** [s.contains("pat")] *)
Fixpoint contains_str (p s : string) : bool :=
  starts_with p s || match s with EmptyString => false | String _ s => contains_str p s end.

(** [str::split] on the bytes satisfying [p]: never empty. *)
Fixpoint split_by (p : ascii -> bool) (s : string) : list string :=
  match s with
  | EmptyString => [EmptyString]
  | String a r =>
      if p a then EmptyString :: split_by p r
      else match split_by p r with
           | h :: t => String a h :: t
           | [] => [String a EmptyString]
           end
  end.
Definition split_on (c : ascii) : string -> list string := split_by (Ascii.eqb c).
Definition split_any (cs : list ascii) : string -> list string :=
  split_by (fun a => existsb (Ascii.eqb a) cs).

(** [split_once] at the first, [rsplit_once] at the last occurrence. *)
Fixpoint split_once (c : ascii) (s : string) : option (string * string) :=
  match s with
  | EmptyString => None
  | String a r =>
      if Ascii.eqb c a then Some (EmptyString, r)
      else match split_once c r with
           | Some (h, t) => Some (String a h, t)
           | None => None
           end
  end.
Fixpoint rsplit_once (c : ascii) (s : string) : option (string * string) :=
  match s with
  | EmptyString => None
  | String a r =>
      match rsplit_once c r with
      | Some (h, t) => Some (String a h, t)
      | None => if Ascii.eqb c a then Some (EmptyString, r) else None
      end
  end.
(** [split_once] at the first occurrence of a string pattern. *)
Fixpoint split_once_str (p s : string) : option (string * string) :=
  match strip_prefix p s with
  | Some t => Some (EmptyString, t)
  | None => match s with
            | EmptyString => None
            | String a r => match split_once_str p r with
                            | Some (h, t) => Some (String a h, t)
                            | None => None
                            end
            end
  end.
(** [s.split(c).next().unwrap_or("")] and [s.rsplit(c).next().unwrap()]. *)
Definition first_segment (c : ascii) (s : string) : string :=
  match split_on c s with h :: _ => h | [] => EmptyString end.
Definition last_segment (c : ascii) (s : string) : string :=
  List.last (split_on c s) EmptyString.

(** [trim_start_matches] and [trim_end_matches] of a character. *)
Fixpoint trim_start_matches (c : ascii) (s : string) : string :=
  match s with
  | String a r => if Ascii.eqb c a then trim_start_matches c r else s
  | EmptyString => EmptyString
  end.
Definition trim_end_matches (c : ascii) (s : string) : string :=
  srev (trim_start_matches c (srev s)).
(** [trim_end_matches] of a string pattern removes every trailing copy; the
    fuel is the length, and each removal of a nonempty pattern shortens. *)
Fixpoint trim_end_str_fuel (n : nat) (p s : string) : string :=
  match n with
  | O => s
  | S n => match strip_suffix p s with Some r => trim_end_str_fuel n p r | None => s end
  end.
Definition trim_end_str (p s : string) : string := trim_end_str_fuel (String.length s) p s.

Fixpoint join (sep : string) (l : list string) : string :=
  match l with
  | [] => EmptyString
  | [s] => s
  | s :: l => s +:+ sep +:+ join sep l
  end.

(** ** Characters

    [chars] decodes UTF-8; each character keeps its bytes. *)
Definition schar : Type := Z * string.
Definition cont (a : ascii) : Z := Z.land (code a) 63.
Fixpoint char_indices (s : string) : list schar :=
  match s with
  | EmptyString => []
  | String a r =>
      let x := code a in
      if x <? 128 then (x, String a EmptyString) :: char_indices r
      else match r with
      | EmptyString => [(x, String a EmptyString)]
      | String b r1 =>
          if x <? 224 then
            (Z.lor (Z.shiftl (Z.land x 31) 6) (cont b), String a (String b EmptyString))
              :: char_indices r1
          else match r1 with
          | EmptyString => [(x, s)]
          | String c r2 =>
              if x <? 240 then
                (Z.lor (Z.shiftl (Z.land x 15) 12) (Z.lor (Z.shiftl (cont b) 6) (cont c)),
                 String a (String b (String c EmptyString))) :: char_indices r2
              else match r2 with
              | EmptyString => [(x, s)]
              | String d r3 =>
                  (Z.lor (Z.shiftl (Z.land x 7) 18)
                     (Z.lor (Z.shiftl (cont b) 12) (Z.lor (Z.shiftl (cont c) 6) (cont d))),
                   String a (String b (String c (String d EmptyString)))) :: char_indices r3
              end
          end
      end
  end.
Definition chars (s : string) : list Z := map fst (char_indices s).

(** [char::is_control] (category Cc) and [char::is_whitespace] (White_Space). *)
Definition is_control (c : Z) : bool := (c <? 32) || ((127 <=? c) && (c <=? 159)).
Definition is_whitespace (c : Z) : bool :=
  ((9 <=? c) && (c <=? 13)) || existsb (Z.eqb c) [32; 133; 160; 5760; 8232; 8233; 8239; 8287; 12288]
  || ((8192 <=? c) && (c <=? 8202)).

(** [str::trim]: drop whitespace characters at both ends. *)
Fixpoint drop_ws (l : list schar) : list schar :=
  match l with
  | [] => []
  | (c, b) :: l' => if is_whitespace c then drop_ws l' else l
  end.
Definition trim (s : string) : string :=
  String.concat EmptyString (map snd (rev (drop_ws (rev (drop_ws (char_indices s)))))).
(** [s.trim().is_empty()] *)
Definition trim_is_empty (s : string) : bool := forallb is_whitespace (chars s).

(** ** Numbers *)
Fixpoint digits_value (acc : Z) (l : list ascii) : option Z :=
  match l with
  | [] => Some acc
  | a :: l => if is_ascii_digit a then digits_value (acc * 10 + (code a - 48)) l else None
  end.
(** [str::parse::<uN>]: an optional [+], at least one digit, no overflow. *)
Definition parse_unsigned (max : Z) (s : string) : option Z :=
  let digits := match s with
                | String "+" r => r
                | _ => s
                end in
  match bytes_of digits with
  | [] => None
  | l => match digits_value 0 l with
         | Some v => if v <=? max then Some v else None
         | None => None
         end
  end.
Definition parse_u64 : string -> option Z := parse_unsigned u64_max.
Definition parse_u32 : string -> option Z := parse_unsigned u32_max.
(** [str::parse::<i64>]: additionally an optional [-]. *)
Definition parse_i64 (s : string) : option Z :=
  match s with
  | String "-" r =>
      match bytes_of r with
      | [] => None
      | l => match digits_value 0 l with
             | Some v => if i64_min <=? - v then Some (- v) else None
             | None => None
             end
      end
  | _ => parse_unsigned i64_max s
  end.

(** Decimal formatting of a nonnegative integer ([{n}]). *)
Fixpoint show_pos_fuel (n : nat) (z : Z) (acc : string) : string :=
  match n with
  | O => acc
  | S n => let acc := String (byte (48 + z mod 10)) acc in
           if z / 10 =? 0 then acc else show_pos_fuel n (z / 10) acc
  end.
Definition show_nat_fuel (z : Z) : nat := S (Z.to_nat (Z.log2 z)).
Definition show_Z (z : Z) : string :=
  if z <? 0 then String "-" (show_pos_fuel (show_nat_fuel (- z)) (- z) EmptyString)
  else show_pos_fuel (show_nat_fuel z) z EmptyString.

Definition hex_digit (z : Z) : ascii := byte (if z <? 10 then 48 + z else 87 + z).
(** [format!("{b:02x}")] over the bytes. *)
Definition hex_lower (s : string) : string :=
  of_bytes (flat_map (fun a => [hex_digit (code a / 16); hex_digit (code a mod 16)]) (bytes_of s)).

(** Little-endian integers: [to_le_bytes], and [from_le_bytes] of a slice. *)
Fixpoint le_bytes (n : nat) (z : Z) : string :=
  match n with
  | O => EmptyString
  | S n => String (byte (z mod 256)) (le_bytes n (z / 256))
  end.
Fixpoint from_le (l : list ascii) : Z :=
  match l with [] => 0 | a :: l => code a + 256 * from_le l end.
(** [bytes[start .. start + len]] as [slice::get]. *)
Definition sub_bytes (s : string) (start len : Z) : option string :=
  if (0 <=? start) && (start + len <=? slen s)
  then Some (substring (Z.to_nat start) (Z.to_nat len) s) else None.

#[global] Arguments contains_any : simpl never.
#[global] Arguments contains_char : simpl never.
#[global] Arguments contains_str : simpl never.
#[global] Arguments all_bytes : simpl never.
#[global] Arguments any_byte : simpl never.
#[global] Arguments starts_with : simpl never.
#[global] Arguments split_on : simpl never.
#[global] Arguments chars : simpl never.
#[global] Arguments slen : simpl never.
#[global] Arguments last_segment : simpl never.
#[global] Arguments first_segment : simpl never.

(** ** Facts about strings *)
Lemma bytes_of_app a b : bytes_of (a +:+ b) = bytes_of a ++ bytes_of b.
Proof. induction a as [|x a IH]; cbn; congruence. Qed.
Lemma of_bytes_of s : of_bytes (bytes_of s) = s.
Proof. unfold of_bytes. induction s; cbn; congruence. Qed.
Lemma bytes_of_of l : bytes_of (of_bytes l) = l.
Proof. unfold of_bytes. induction l; cbn; congruence. Qed.
Lemma bytes_of_inj a b : bytes_of a = bytes_of b -> a = b.
Proof.
  intros H. by rewrite <- (of_bytes_of a), <- (of_bytes_of b), H.
Qed.
Lemma slen_bytes s : slen s = Z.of_nat (length (bytes_of s)).
Proof. unfold slen. f_equal. induction s; cbn; congruence. Qed.
Lemma slen_app a b : slen (a +:+ b) = slen a + slen b.
Proof. rewrite !slen_bytes, bytes_of_app. autorewrite with pishoo. lia. Qed.
Lemma length_app_str a b : String.length (a +:+ b) = (String.length a + String.length b)%nat.
Proof. induction a; cbn; lia. Qed.
Lemma slen_nonneg s : 0 <= slen s.
Proof. unfold slen. lia. Qed.
Lemma slen_zero s : slen s = 0 <-> s = EmptyString.
Proof. unfold slen. destruct s; cbn; split; intros; (lia || done). Qed.
Lemma app_assoc_str (a b c : string) : (a +:+ b) +:+ c = a +:+ (b +:+ c).
Proof. induction a as [|x a IH]; cbn; congruence. Qed.
Lemma app_nil_r_str (a : string) : a +:+ EmptyString = a.
Proof. induction a as [|x a IH]; cbn; congruence. Qed.
Lemma app_inv_head_str (a b c : string) : a +:+ b = a +:+ c -> b = c.
Proof. induction a as [|x a IH]; cbn; [done|]. intros [= H]. by apply IH. Qed.
Lemma app_inv_len (a a' b b' : string) :
  slen a = slen a' -> a +:+ b = a' +:+ b' -> a = a' /\ b = b'.
Proof.
  unfold slen. intros Hl%Nat2Z.inj H. revert a' Hl H.
  induction a as [|x a IH]; intros [|y a'] Hl H; cbn in *; try lia; [done|].
  injection H as -> H. destruct (IH a') as [-> ->]; auto.
Qed.
Lemma any_byte_app p a b : any_byte p (a +:+ b) = any_byte p a || any_byte p b.
Proof. unfold any_byte. by rewrite bytes_of_app, existsb_app. Qed.
Lemma all_bytes_app p a b : all_bytes p (a +:+ b) = all_bytes p a && all_bytes p b.
Proof. unfold all_bytes. by rewrite bytes_of_app, forallb_app. Qed.
#[export] Hint Rewrite bytes_of_app slen_app any_byte_app all_bytes_app : pishoo.

Lemma all_any_byte p q s :
  (forall a, p a = true -> q a = false) -> all_bytes p s = true -> any_byte q s = false.
Proof.
  unfold all_bytes, any_byte. intros Hpq. induction (bytes_of s) as [|a l IH]; cbn; [done|].
  rewrite andb_true_iff. intros [Ha Hl]. rewrite (Hpq _ Ha). by apply IH.
Qed.

Lemma strip_prefix_Some p s r : strip_prefix p s = Some r <-> s = p +:+ r.
Proof.
  revert s. induction p as [|a p IH]; intros [|b s]; cbn; try (split; congruence).
  destruct (Ascii.eqb_spec a b) as [->|Hab]; [|split; congruence].
  rewrite IH. split; [by intros -> | by intros [= ->]].
Qed.
Lemma strip_prefix_app p r : strip_prefix p (p +:+ r) = Some r.
Proof. by apply strip_prefix_Some. Qed.
Lemma starts_with_iff p s : starts_with p s = true <-> exists r, s = p +:+ r.
Proof.
  unfold starts_with. destruct (strip_prefix p s) as [r|] eqn:E.
  - apply strip_prefix_Some in E. split; eauto.
  - split; [done|]. intros [r ->]. by rewrite strip_prefix_app in E.
Qed.
#[export] Hint Rewrite strip_prefix_app : pishoo.

Lemma split_by_cons p s : exists h t, split_by p s = h :: t.
Proof. induction s as [|a s (h & t & IH)]; cbn; [eauto|]. rewrite IH. destruct (p a); eauto. Qed.
Lemma split_by_nonempty p s : split_by p s <> [].
Proof. destruct (split_by_cons p s) as (h & t & ->). done. Qed.

(** The segments contain no separator, and every other byte is kept. *)
Lemma split_by_segments p s : Forall (fun x => any_byte p x = false) (split_by p s).
Proof.
  induction s as [|a s IH]; cbn; [by repeat constructor|].
  destruct (p a) eqn:Ha; [by constructor|].
  destruct (split_by_cons p s) as (h & t & Hs). rewrite Hs in *.
  inversion IH as [|? ? Hh Ht]; subst. constructor; [|done].
  unfold any_byte in *. cbn. by rewrite Ha.
Qed.
Lemma split_by_no_sep p s : any_byte p s = false -> split_by p s = [s].
Proof.
  unfold any_byte. induction s as [|a s IH]; cbn; [done|].
  rewrite orb_false_iff. intros [-> Hs]. by rewrite (IH Hs).
Qed.
Lemma split_on_app c h t :
  contains_char c h = false -> split_on c (h +:+ String c t) = h :: split_on c t.
Proof.
  unfold contains_char, any_byte, split_on. induction h as [|a h IH]; cbn.
  - by rewrite Ascii.eqb_refl.
  - rewrite orb_false_iff. intros [-> Hh]. by rewrite IH.
Qed.
Lemma join_split c s : join (String c EmptyString) (split_on c s) = s.
Proof.
  unfold split_on. induction s as [|a s IH]; cbn; [done|].
  destruct (split_by_cons (Ascii.eqb c) s) as (h & t & Hs). rewrite Hs in *.
  destruct (Ascii.eqb_spec c a) as [->|Hc].
  - cbn in *. by rewrite IH.
  - destruct t; cbn in *; [by rewrite IH|]. by rewrite <- IH.
Qed.
Lemma split_on_elem_any c s x p :
  x ∈ split_on c s -> any_byte p s = false -> any_byte p x = false.
Proof.
  unfold split_on, any_byte. revert x. induction s as [|a s IH]; intros x; cbn.
  - intros ->%list_elem_of_singleton. done.
  - rewrite orb_false_iff. intros Hx [Ha Hs].
    destruct (split_by_cons (Ascii.eqb c) s) as (h & t & Hsp). rewrite Hsp in *.
    destruct (Ascii.eqb c a); apply elem_of_cons in Hx as [->|Hx]; try done.
    + by apply IH.
    + cbn. rewrite Ha. apply IH; [left|done].
    + apply IH; [by right|done].
Qed.

Lemma split_once_Some c s h t :
  split_once c s = Some (h, t) <-> s = h +:+ String c t /\ contains_char c h = false.
Proof.
  unfold contains_char, any_byte. revert h. induction s as [|a s IH]; intros h; cbn.
  - split; [done|]. intros [H _]. by destruct h.
  - destruct (Ascii.eqb_spec c a) as [->|Hc].
    + split; [intros [= <- <-]; done|]. intros [H Hh]. destruct h as [|b h]; cbn in *.
      * by injection H as ->.
      * injection H as -> _. by rewrite Ascii.eqb_refl in Hh.
    + destruct (split_once c s) as [[h' t']|] eqn:E; split.
      * intros [= <- <-]. destruct (proj1 (IH h') eq_refl) as [-> Hh']. cbn.
        split; [done|]. rewrite Hh'. apply orb_false_iff. split; [by apply Ascii.eqb_neq|done].
      * intros [H Hh]. destruct h as [|b h]; cbn in *; [congruence|].
        injection H as -> ->. apply orb_false_iff in Hh as [_ Hh].
        pose proof (proj2 (IH h) (conj eq_refl Hh)) as [= <- <-]. done.
      * done.
      * intros [H Hh]. destruct h as [|b h]; cbn in *; [congruence|].
        injection H as -> ->. apply orb_false_iff in Hh as [_ Hh].
        by discriminate (proj2 (IH h) (conj eq_refl Hh)).
Qed.
Lemma split_once_None c s : split_once c s = None <-> contains_char c s = false.
Proof.
  unfold contains_char, any_byte. induction s as [|a s IH]; cbn; [done|].
  destruct (Ascii.eqb c a); cbn; [done|]. rewrite <- IH.
  destruct (split_once c s) as [[??]|]; split; congruence.
Qed.

Lemma last_segment_no_sep c s : contains_char c s = false -> last_segment c s = s.
Proof. intros H. unfold last_segment, split_on. by rewrite split_by_no_sep. Qed.
Lemma split_on_cons_sep c s : split_on c (String c s) = EmptyString :: split_on c s.
Proof. unfold split_on. cbn. by rewrite Ascii.eqb_refl. Qed.
Lemma split_on_join c h t : split_on c (h +:+ String c t) = split_on c h ++ split_on c t.
Proof.
  induction h as [|a h IH]; cbn [String.append]; [apply split_on_cons_sep|].
  unfold split_on in *. cbn. rewrite IH. destruct (Ascii.eqb c a); [done|].
  destruct (split_by_cons (Ascii.eqb c) h) as (x & l & ->). done.
Qed.
Lemma last_segment_suffix c h t : contains_char c t = false -> last_segment c (h +:+ String c t) = t.
Proof.
  intros Ht. unfold last_segment. rewrite split_on_join. unfold split_on at 2. rewrite split_by_no_sep by done.
  by rewrite last_last.
Qed.
Lemma last_segment_app c h t :
  contains_char c h = false -> contains_char c t = false -> last_segment c (h +:+ String c t) = t.
Proof. intros _. apply last_segment_suffix. Qed.
Lemma first_segment_app c h t :
  contains_char c h = false -> first_segment c (h +:+ String c t) = h.
Proof. intros Hh. unfold first_segment. by rewrite split_on_app. Qed.
Lemma first_segment_no_sep c s : contains_char c s = false -> first_segment c s = s.
Proof. intros Hn. unfold first_segment, split_on. by rewrite split_by_no_sep. Qed.
Lemma first_segment_spec c s h :
  first_segment c s = h <->
  contains_char c h = false /\ exists rest, s = h +:+ rest /\ (rest = "" \/ exists tail, rest = String c tail).
Proof.
  split.
  - intros <-. destruct (split_once c s) as [[h' t]|] eqn:E.
    + apply split_once_Some in E as [-> Hh]. rewrite first_segment_app by done. eauto 6.
    + apply split_once_None in E. rewrite first_segment_no_sep by done. split; [done|].
      exists EmptyString. rewrite app_nil_r_str. auto.
  - intros (Hh & rest & -> & [->|[tail ->]]); [|by apply first_segment_app].
    rewrite app_nil_r_str. by apply first_segment_no_sep.
Qed.
Lemma last_segment_clean c s : contains_char c (last_segment c s) = false.
Proof.
  unfold last_segment, contains_char, split_on.
  pose proof (split_by_segments (Ascii.eqb c) s) as H.
  destruct (split_by_cons (Ascii.eqb c) s) as (h & t & Hs). rewrite Hs in *.
  rewrite Forall_forall in H. apply H. apply list_elem_of_In.
  destruct (exists_last (l := h :: t)) as (l & x & Hl); [done|]. rewrite Hl.
  rewrite last_last. apply in_or_app. right. by left.
Qed.

Lemma byte_code z : 0 <= z < 256 -> code (byte z) = z.
Proof.
  intros Hz. unfold code, byte. rewrite N_ascii_embedding; [lia|].
  apply N2Z.inj_lt. rewrite Z2N.id by lia. cbn. lia.
Qed.
Lemma code_byte a : byte (code a) = a.
Proof. unfold code, byte. rewrite N2Z.id. apply ascii_N_embedding. Qed.
Lemma code_range a : 0 <= code a < 256.
Proof. unfold code. pose proof (N_ascii_bounded a). lia. Qed.
Lemma code_inj a b : code a = code b -> a = b.
Proof. intros H. by rewrite <- (code_byte a), <- (code_byte b), H. Qed.

(** Fixed-width little-endian encoding is injective in its range. *)
Lemma slen_le_bytes n z : slen (le_bytes n z) = Z.of_nat n.
Proof.
  revert z. induction n as [|n IH]; intros z; [done|]. cbn [le_bytes].
  change (slen (String ?a ?b)) with (slen (String a EmptyString +:+ b)).
  rewrite slen_app, IH. unfold slen. cbn. lia.
Qed.
Lemma le_bytes_inj n z1 z2 :
  0 <= z1 < 256 ^ Z.of_nat n -> 0 <= z2 < 256 ^ Z.of_nat n ->
  le_bytes n z1 = le_bytes n z2 -> z1 = z2.
Proof.
  revert z1 z2. induction n as [|n IH]; intros z1 z2 H1 H2 H; [cbn in *; lia|].
  rewrite Nat2Z.inj_succ, Z.pow_succ_r in H1, H2 by lia. injection H as Hd Hr.
  apply (f_equal code) in Hd.
  rewrite !byte_code in Hd by (apply Z.mod_pos_bound; lia).
  assert (z1 / 256 = z2 / 256) as Hq by (apply IH; [| |done];
    (split; [apply Z.div_pos; lia | apply Z.div_lt_upper_bound; lia])).
  rewrite (Z.div_mod z1 256), (Z.div_mod z2 256) by lia. by rewrite Hq, Hd.
Qed.

(** Splitting at the last separator. *)
Lemma rsplit_once_None c s : rsplit_once c s = None <-> contains_char c s = false.
Proof.
  unfold contains_char, any_byte. induction s as [|a s IH]; cbn; [done|].
  destruct (rsplit_once c s) as [[h t]|] eqn:E.
  - split; [done|]. rewrite orb_false_iff. intros [_ H%IH]. done.
  - rewrite orb_false_iff. destruct (Ascii.eqb c a); [naive_solver|]. naive_solver.
Qed.
Lemma rsplit_once_Some c s h t :
  rsplit_once c s = Some (h, t) -> s = h +:+ String c t /\ contains_char c t = false.
Proof.
  revert h. induction s as [|a s IH]; intros h; cbn; [done|].
  destruct (rsplit_once c s) as [[h' t']|] eqn:E.
  - intros [= <- ->]. destruct (IH h' eq_refl) as [-> ?]. done.
  - destruct (Ascii.eqb_spec c a) as [->|]; [|done]. intros [= <- <-].
    split; [done|]. by apply rsplit_once_None.
Qed.
Lemma app_sep_last c h t p r :
  contains_char c t = false -> h +:+ String c t = p +:+ String c r ->
  (p = h /\ r = t) \/ exists r', h = p +:+ String c r' /\ r = r' +:+ String c t.
Proof.
  intros Ht. revert p. induction h as [|a h IH]; intros [|b p] H; cbn in H.
  - injection H as ->. by left.
  - injection H as -> ->. unfold contains_char in Ht. rewrite any_byte_app in Ht.
    apply orb_false_iff in Ht as [_ Ht]. unfold any_byte in Ht. cbn in Ht.
    by rewrite Ascii.eqb_refl in Ht.
  - injection H as -> <-. right. by exists h.
  - injection H as -> H. destruct (IH p H) as [[-> ->]|(r' & -> & ->)]; [by left|].
    right. by exists r'.
Qed.
Lemma slen_substring n m s : slen (substring n m s) <= Z.of_nat m.
Proof.
  unfold slen. apply Nat2Z.inj_le. revert n m. induction s as [|a s IH]; intros n m.
  - destruct n, m; cbn; lia.
  - destruct n; [destruct m; cbn; [lia|] | apply IH]. specialize (IH 0%nat m). lia.
Qed.

Lemma contains_any_char cs c s : contains_any cs s = false -> c ∈ cs -> contains_char c s = false.
Proof.
  unfold contains_any, contains_char, any_byte. rewrite !negb_existsb, !Forall_forall.
  intros Hs Hc a Ha. specialize (Hs a Ha). apply negb_existsb in Hs. rewrite Forall_forall in Hs.
  specialize (Hs c Hc). by rewrite Ascii.eqb_sym.
Qed.

(** ** Trailing characters *)
Lemma bytes_of_inj_iff a b : a = b <-> bytes_of a = bytes_of b.
Proof. split; [by intros -> | apply bytes_of_inj]. Qed.
Lemma bytes_of_srev s : bytes_of (srev s) = rev (bytes_of s).
Proof. unfold srev. by rewrite bytes_of_of. Qed.
Lemma srev_invol s : srev (srev s) = s.
Proof. apply bytes_of_inj. by rewrite !bytes_of_srev, rev_involutive. Qed.
Lemma trim_start_split c s :
  exists n, s = of_bytes (replicate n c) +:+ trim_start_matches c s.
Proof.
  induction s as [|a s (n & IH)]; [by exists O|]. cbn.
  destruct (Ascii.eqb_spec c a) as [->|]; [|by exists O]. exists (S n). cbn. by rewrite <- IH.
Qed.
Lemma trim_start_clean c s : starts_with (String c EmptyString) (trim_start_matches c s) = false.
Proof.
  induction s as [|a s IH]; [done|]. cbn. destruct (Ascii.eqb c a) eqn:Hc; [done|].
  unfold starts_with. cbn. by rewrite Hc.
Qed.
Lemma trim_end_clean c s : ends_with (String c EmptyString) (trim_end_matches c s) = false.
Proof. unfold ends_with, trim_end_matches. rewrite srev_invol. apply trim_start_clean. Qed.
(** What [trim_end_matches] removes is a run of the character. *)
Lemma trim_end_split c s : exists n, s = trim_end_matches c s +:+ of_bytes (replicate n c).
Proof.
  destruct (trim_start_split c (srev s)) as [n Hn]. exists n. apply bytes_of_inj.
  rewrite bytes_of_app, bytes_of_of. unfold trim_end_matches. rewrite bytes_of_srev.
  apply (f_equal bytes_of) in Hn. rewrite bytes_of_app, bytes_of_srev, bytes_of_of in Hn.
  apply (f_equal (@rev ascii)) in Hn. rewrite rev_involutive, rev_app_distr in Hn. rewrite Hn. f_equal.
  clear. induction n as [|n IH]; cbn; [done|]. rewrite IH. symmetry. apply replicate_cons_app.
Qed.
Lemma ends_with_iff p s : ends_with p s = true <-> exists r, s = r +:+ p.
Proof.
  unfold ends_with. rewrite starts_with_iff. split; intros [r Hr].
  - exists (srev r). apply (f_equal srev) in Hr. rewrite srev_invol in Hr. rewrite Hr. apply bytes_of_inj.
    by rewrite !bytes_of_app, !bytes_of_srev, bytes_of_app, rev_app_distr, bytes_of_srev, rev_involutive.
  - exists (srev r). rewrite Hr. apply bytes_of_inj.
    by rewrite !bytes_of_app, !bytes_of_srev, bytes_of_app, rev_app_distr.
Qed.
Lemma contains_str_unfold p s :
  contains_str p s = starts_with p s || match s with EmptyString => false | String _ s => contains_str p s end.
Proof. by destruct s. Qed.
Lemma contains_str_app p a b : contains_str p (a +:+ p +:+ b) = true.
Proof.
  induction a as [|x a IH].
  - assert (starts_with p (p +:+ b) = true) as Hs by (apply starts_with_iff; eauto).
    change ("" +:+ p +:+ b) with (p +:+ b). by rewrite contains_str_unfold, Hs.
  - change (String x a +:+ p +:+ b) with (String x (a +:+ p +:+ b)). by rewrite contains_str_unfold, IH, orb_true_r.
Qed.
