(* ===== verification/Decimal.v ===== *)
(** * Decimal numerals

    [show_Z] and the parsers of [RustStr] are inverse on canonical numerals:
    digits only, no leading zero. *)
From S2P Require Import Prelude RustStr.

Definition digit_value (a : ascii) : Z := code a - 48.
Definition digit (z : Z) : ascii := byte (48 + z).

Lemma digit_spec a : is_ascii_digit a = true <-> 0 <= digit_value a <= 9.
Proof. unfold is_ascii_digit, in_code_range, digit_value. rewrite andb_true_iff, !Z.leb_le. lia. Qed.
Lemma digit_value_digit z : 0 <= z <= 9 -> digit_value (digit z) = z.
Proof. intros. unfold digit_value, digit. rewrite byte_code by lia. lia. Qed.
Lemma digit_value_inj a b : digit_value a = digit_value b -> a = b.
Proof. unfold digit_value. intros. apply code_inj. lia. Qed.

Lemma digits_value_snoc acc l a :
  digits_value acc (l ++ [a]) =
  match digits_value acc l with
  | Some v => if is_ascii_digit a then Some (v * 10 + digit_value a) else None
  | None => None
  end.
Proof.
  revert acc. induction l as [|b l IH]; intros acc; cbn.
  - by destruct (is_ascii_digit a).
  - destruct (is_ascii_digit b); [apply IH | done].
Qed.

(** A numeral without leading zeros; the empty one stands for zero. *)
Definition stripped (l : list ascii) : Prop :=
  match l with [] => True | a :: _ => digit_value a <> 0 end.

Lemma stripped_snoc l a : stripped (l ++ [a]) -> stripped l.
Proof. by destruct l. Qed.

Lemma digits_value_mono acc l v : 0 <= acc -> digits_value acc l = Some v -> acc <= v /\ (0 < acc -> 0 < v).
Proof.
  revert acc v. induction l as [|a l IH]; intros acc v Hacc H; cbn in H; [simplify_ok; lia|].
  destruct (is_ascii_digit a) eqn:Ha; [|done]. apply digit_spec in Ha. unfold digit_value in Ha.
  apply IH in H; [|lia]. destruct H as [? ?]. split; [lia|]. intros. lia.
Qed.
Lemma stripped_zero l : stripped l -> digits_value 0 l = Some 0 -> l = [].
Proof.
  destruct l as [|a l]; [done|]. cbn. intros Hnz H. exfalso.
  destruct (is_ascii_digit a) eqn:Ha; [|done]. apply digit_spec in Ha. unfold digit_value in *.
  apply digits_value_mono in H as [_ H]; lia.
Qed.

Lemma stripped_unique l1 l2 v :
  stripped l1 -> stripped l2 -> digits_value 0 l1 = Some v -> digits_value 0 l2 = Some v -> l1 = l2.
Proof.
  revert l2 v. induction l1 as [|a l1 IH] using rev_ind; intros l2 v H1 H2 E1 E2.
  - cbn in E1. simplify_ok. by rewrite (stripped_zero l2).
  - destruct l2 as [|b l2 _] using rev_ind.
    { cbn in E2. simplify_ok. by rewrite (stripped_zero (l1 ++ [a])). }
    rewrite digits_value_snoc in E1, E2.
    destruct (digits_value 0 l1) as [v1|] eqn:V1, (digits_value 0 l2) as [v2|] eqn:V2; try done.
    destruct (is_ascii_digit a) eqn:Ha, (is_ascii_digit b) eqn:Hb; try done.
    apply digit_spec in Ha, Hb. simplify_ok.
    assert (v1 = v2 /\ digit_value a = digit_value b) as [-> ->%digit_value_inj] by lia.
    f_equal. eapply IH; eauto using stripped_snoc.
Qed.

(** ** [show_Z] *)
Lemma show_pos_spec n z acc :
  0 <= z -> (Z.to_nat (Z.log2 z) < n)%nat ->
  exists l, bytes_of (show_pos_fuel n z acc) = l ++ bytes_of acc /\ digits_value 0 l = Some z /\
    l <> [] /\ Forall (fun a => is_ascii_digit a = true) l /\ (0 < z -> stripped l) /\ (z = 0 -> l = [digit 0]).
Proof.
  revert z acc. induction n as [|n IH]; intros z acc Hz Hn; [lia|]. cbn [show_pos_fuel].
  assert (is_ascii_digit (digit (z mod 10)) = true) as Hd.
  { apply digit_spec. pose proof (Z.mod_pos_bound z 10). rewrite digit_value_digit; lia. }
  assert (digit_value (digit (z mod 10)) = z mod 10) as Hv.
  { pose proof (Z.mod_pos_bound z 10). apply digit_value_digit; lia. }
  pose proof (Z.div_mod z 10 ltac:(lia)) as Hdm.
  pose proof (Z.mod_pos_bound z 10 ltac:(lia)) as Hmb.
  destruct (Z.eqb_spec (z / 10) 0) as [H0|H0].
  - exists [digit (z mod 10)]. cbn. unfold digit_value in Hv. rewrite Hd, Hv.
    split_and!; [done| f_equal; lia |done|by constructor| |].
    + intros. cbn. unfold digit_value. lia.
    + intros ->. done.
  - assert (0 <= z / 10) by (apply Z.div_pos; lia).
    destruct (IH (z / 10) (String (digit (z mod 10)) acc)) as (l & Hl & Hlv & Hne & Hall & Hs & _).
    + done.
    + assert (Z.log2 (z / 10) < Z.log2 z); [|pose proof (Z.log2_nonneg (z / 10)); lia].
      apply Z.log2_lt_pow2; [lia|].
      pose proof (Z.log2_spec z ltac:(lia)) as [_ Hup].
      pose proof (Z.log2_pos z ltac:(lia)).
      rewrite Z.pow_succ_r in Hup by apply Z.log2_nonneg.
      lia.
    + exists (l ++ [digit (z mod 10)]). unfold digit in Hl |- *. rewrite Hl. cbn [bytes_of].
      rewrite <- app_assoc. split; [done|]. rewrite digits_value_snoc, Hlv. unfold digit in Hd, Hv. rewrite Hd, Hv.
      split_and!.
      * f_equal. lia.
      * by destruct l.
      * apply Forall_app. split; [done|by constructor].
      * intros. destruct l as [|a l]; [done|]. apply Hs. lia.
      * lia.
Qed.

(** The canonical numerals: those [show_Z] prints. *)
Definition canonical (s : string) : Prop :=
  s <> "" /\ all_bytes is_ascii_digit s = true /\ (slen s = 1 \/ starts_with "0" s = false).

Lemma starts_zero a s : starts_with "0" (String a s) = false <-> digit_value a <> 0.
Proof.
  destruct (Ascii.eqb_spec "0" a) as [<-|Hne].
  - by split; [|intros H; exfalso; apply H].
  - split; [intros _ H0; apply Hne, digit_value_inj; by rewrite H0|]. intros _.
    destruct (starts_with "0" (String a s)) eqn:E; [|done].
    apply starts_with_iff in E as [r E]. injection E as -> _. done.
Qed.

Lemma show_Z_value z : 0 <= z -> digits_value 0 (bytes_of (show_Z z)) = Some z.
Proof.
  intros Hz. unfold show_Z. rewrite (proj2 (Z.ltb_ge z 0)) by done.
  destruct (show_pos_spec (show_nat_fuel z) z "" Hz) as (l & -> & H & _); [unfold show_nat_fuel; lia|].
  by rewrite app_nil_r.
Qed.
Lemma show_Z_canonical z : 0 <= z -> canonical (show_Z z).
Proof.
  intros Hz. unfold show_Z. rewrite (proj2 (Z.ltb_ge z 0)) by done.
  destruct (show_pos_spec (show_nat_fuel z) z "" Hz) as (l & Hl & H & Hne & Hall & Hs & H0);
    [unfold show_nat_fuel; lia|].
  revert Hl. generalize (show_pos_fuel (show_nat_fuel z) z "") as s. intros s Hl.
  cbn in Hl. rewrite app_nil_r in Hl. unfold canonical. rewrite slen_bytes. unfold all_bytes. rewrite Hl.
  split_and!.
  - intros ->. by subst.
  - by apply forallb_Forall.
  - destruct (decide (z = 0)) as [->|]; [rewrite H0 by done; by left|]. right.
    destruct s as [|a s]; [by subst|]. apply starts_zero. cbn in Hl. subst l. apply Hs. lia.
Qed.

Lemma canonical_value s : canonical s -> exists v, 0 <= v /\ digits_value 0 (bytes_of s) = Some v.
Proof.
  intros (_ & Hd & _). unfold all_bytes in Hd.
  assert (forall l acc, 0 <= acc -> forallb is_ascii_digit l = true -> exists v, 0 <= v /\ digits_value acc l = Some v)
    as Hg; [|by apply Hg].
  induction l as [|a l IH]; cbn; intros acc Hacc Hl; [by eexists|].
  apply andb_true_iff in Hl as [Ha Hl]. rewrite Ha. apply IH; [|done].
  apply digit_spec in Ha. unfold digit_value in Ha. lia.
Qed.

Lemma canonical_inj s1 s2 :
  canonical s1 -> canonical s2 ->
  digits_value 0 (bytes_of s1) = digits_value 0 (bytes_of s2) -> s1 = s2.
Proof.
  intros H1 H2 Heq. destruct (canonical_value s1 H1) as (v & Hv & V1). rewrite V1 in Heq. symmetry in Heq.
  assert (forall s, canonical s -> digits_value 0 (bytes_of s) = Some v ->
    (v = 0 -> s = "0") /\ (v <> 0 -> stripped (bytes_of s))) as Hc.
  { intros s (Hne & Hall & Hz) V. destruct s as [|a s]; [done|]. rewrite starts_zero in Hz.
    assert (0 <= digit_value a <= 9) as Hd.
    { apply digit_spec. unfold all_bytes in Hall. cbn in Hall. by apply andb_true_iff in Hall as [? _]. }
    assert (digits_value (digit_value a) (bytes_of s) = Some v) as V'.
    { cbn in V. apply digit_spec in Hd. rewrite Hd in V. exact V. }
    destruct (digits_value_mono _ _ _ (proj1 Hd) V') as [Hle Hpos].
    destruct Hz as [Hl|Hz].
    - destruct s as [|]; [|exfalso; unfold slen in Hl; cbn in Hl; lia]. cbn in V'. simplify_ok.
      split; intros Hv0; [|done]. f_equal. apply digit_value_inj. by rewrite Hv0.
    - split; [|done]. intros ->. exfalso. lia. }
  apply bytes_of_inj. destruct (Hc s1 H1 V1) as [Z1 S1], (Hc s2 H2 Heq) as [Z2 S2].
  destruct (decide (v = 0)) as [Hv0|Hv0]; [by rewrite Z1, Z2 by done|].
  eapply stripped_unique; [by apply S1|by apply S2|done|done].
Qed.

(** ** [parse::<uN>] of canonical numerals *)
Lemma parse_digits max s :
  all_bytes is_ascii_digit s = true -> s <> "" ->
  parse_unsigned max s =
  match digits_value 0 (bytes_of s) with Some v => if v <=? max then Some v else None | None => None end.
Proof.
  intros Hd Hne. destruct s as [|a s]; [done|]. unfold parse_unsigned.
  assert (a <> "+"%char) as Ha by (intros ->; done).
  destruct a as [[] [] [] [] [] [] [] []]; try done.
Qed.
Lemma parse_show max z : 0 <= z <= max -> parse_unsigned max (show_Z z) = Some z.
Proof.
  intros [Hz Hm]. destruct (show_Z_canonical z Hz) as (Hne & Hd & _).
  rewrite parse_digits by done. rewrite show_Z_value by done. by rewrite (proj2 (Z.leb_le z max)).
Qed.
Lemma parse_canonical max s z :
  canonical s -> parse_unsigned max s = Some z <-> s = show_Z z /\ 0 <= z <= max.
Proof.
  intros Hc. split; [|intros [-> ?]; by apply parse_show].
  destruct (canonical_value s Hc) as (v & Hv & V). pose proof Hc as (Hne & Hd & _).
  rewrite parse_digits, V by done. intros H. simplify_ok. simplify_bool. split; [|lia].
  apply canonical_inj; [done|by apply show_Z_canonical|]. by rewrite V, show_Z_value.
Qed.
