(* ===== verification/Json.v ===== *)
(** * JSON values

    [serde_json::Value] as the program uses it: objects are [BTreeMap]s
    (association lists kept sorted by key), missing keys index to [Null].
    Integers keep their [u64]/[i64] range; a float is only ever compared, so it
    is represented by the bits of its [f64]. *)
From S2P Require Import Prelude RustStr.

Inductive json : Type :=
| JNull
| JBool (b : bool)
| JInt (z : Z)
| JFloat (bits : Z)
| JStr (s : string)
| JArr (l : list json)
| JObj (o : list (string * json)).

(** Induction principle reaching the values below arrays and objects. *)
Section json_nested_ind.
Context (P : json -> Prop)
  (Hnull : P JNull) (Hbool : forall b, P (JBool b)) (Hint : forall z, P (JInt z))
  (Hfloat : forall z, P (JFloat z)) (Hstr : forall s, P (JStr s))
  (Harr : forall l, Forall P l -> P (JArr l))
  (Hobj : forall o, Forall (fun kv => P kv.2) o -> P (JObj o)).

Fixpoint json_nested_ind (j : json) : P j :=
  match j with
  | JNull => Hnull
  | JBool b => Hbool b
  | JInt z => Hint z
  | JFloat z => Hfloat z
  | JStr s => Hstr s
  | JArr l => Harr l ((fix go l : Forall P l :=
      match l with [] => Forall_nil_2 _ | j :: l => Forall_cons_2 _ _ _ (json_nested_ind j) (go l) end) l)
  | JObj o => Hobj o ((fix go o : Forall (fun kv => P kv.2) o :=
      match o with
      | [] => Forall_nil_2 _
      | kv :: o => Forall_cons_2 _ _ _ (json_nested_ind kv.2) (go o)
      end) o)
  end.
End json_nested_ind.

Fixpoint json_eqb (a b : json) : bool :=
  match a, b with
  | JNull, JNull => true
  | JBool x, JBool y => Bool.eqb x y
  | JInt x, JInt y => x =? y
  | JFloat x, JFloat y => x =? y
  | JStr x, JStr y => String.eqb x y
  | JArr l, JArr m =>
      (fix go l m := match l, m with
         | [], [] => true
         | x :: l, y :: m => json_eqb x y && go l m
         | _, _ => false
         end) l m
  | JObj l, JObj m =>
      (fix go l m := match l, m with
         | [], [] => true
         | (k, x) :: l, (k', y) :: m => String.eqb k k' && (json_eqb x y && go l m)
         | _, _ => false
         end) l m
  | _, _ => false
  end.

Lemma json_eqb_eq a b : json_eqb a b = true <-> a = b.
Proof.
  revert b. induction a as [| | | | |l IH|o IH] using json_nested_ind; intros c;
    destruct c as [| | | | |m|m]; cbn; try (split; congruence).
  - rewrite Bool.eqb_true_iff. split; congruence.
  - rewrite Z.eqb_eq. split; congruence.
  - rewrite Z.eqb_eq. split; congruence.
  - rewrite String.eqb_eq. split; congruence.
  - revert m. induction IH as [|x l Hx _ IHl]; intros [|y m]; try (split; congruence).
    rewrite andb_true_iff, Hx, IHl. split; [intros [-> [= ->]]; done | by intros [= -> ->]].
  - revert m. induction IH as [|[k x] l Hx _ IHl]; intros [|[k' y] m]; try (split; congruence).
    cbn in Hx. rewrite !andb_true_iff, String.eqb_eq, Hx, IHl.
    split; [intros (-> & -> & [= ->]); done | by intros [= -> -> ->]].
Qed.
#[export] Instance json_eq_dec : EqDecision json.
Proof.
  intros a b. destruct (json_eqb a b) eqn:E.
  - left. by apply json_eqb_eq.
  - right. intros H%json_eqb_eq. congruence.
Defined.

(** ** Accessors *)
Fixpoint assoc {A} (k : string) (o : list (string * A)) : option A :=
  match o with
  | [] => None
  | (k', v) :: o => if String.eqb k k' then Some v else assoc k o
  end.
Definition as_str (v : json) : option string := match v with JStr s => Some s | _ => None end.
Definition as_array (v : json) : option (list json) := match v with JArr l => Some l | _ => None end.
Definition as_object (v : json) : option (list (string * json)) :=
  match v with JObj o => Some o | _ => None end.
Definition as_bool (v : json) : option bool := match v with JBool b => Some b | _ => None end.
Definition as_u64 (v : json) : option Z :=
  match v with JInt z => if 0 <=? z then Some z else None | _ => None end.
Definition as_i64 (v : json) : option Z :=
  match v with JInt z => if in_i64 z then Some z else None | _ => None end.
Definition is_null (v : json) : bool := match v with JNull => true | _ => false end.
Definition is_string (v : json) : bool := match v with JStr _ => true | _ => false end.
(** [value.get(key)] and [value[key]]. *)
Definition get (k : string) (v : json) : option json :=
  match v with JObj o => assoc k o | _ => None end.
Definition index (v : json) (k : string) : json := default JNull (get k v).
Notation "v .[ k ]" := (index v k) (at level 1, k at level 200, left associativity, format "v .[ k ]") : rust_scope.
Definition is_str (v : json) (s : string) : bool := json_eqb v (JStr s).
Definition is_true (v : json) : bool := json_eqb v (JBool true).
Definition str_at (v : json) (k : string) : option string := as_str v.[k].
Definition keys (o : list (string * json)) : list string := map fst o.
(** [as_str().unwrap()] where the caller has established a string. *)
Definition unwrap_str (v : json) : string := default EmptyString (as_str v).

(** ** Object construction: [BTreeMap::insert] and [remove]. *)
Fixpoint obj_insert {A} (k : string) (v : A) (o : list (string * A)) : list (string * A) :=
  match o with
  | [] => [(k, v)]
  | (k', v') :: o' =>
      if String.eqb k k' then (k, v) :: o'
      else if String.ltb k k' then (k, v) :: o else (k', v') :: obj_insert k v o'
  end.
Fixpoint obj_remove {A} (k : string) (o : list (string * A)) : list (string * A) :=
  match o with
  | [] => []
  | (k', v') :: o' => if String.eqb k k' then o' else (k', v') :: obj_remove k o'
  end.
(** [json!({ .. })] *)
Definition jobj (l : list (string * json)) : json :=
  JObj (fold_left (fun o kv => obj_insert kv.1 kv.2 o) l []).
(** [value[k] = v] on an object ([Null] becomes an object). *)
Definition set_key (k : string) (v w : json) : json :=
  match w with
  | JObj o => JObj (obj_insert k v o)
  | JNull => JObj [(k, v)]
  | _ => w
  end.
Definition remove_key (k : string) (w : json) : json :=
  match w with JObj o => JObj (obj_remove k o) | _ => w end.
Definition jopt {A} (f : A -> json) (o : option A) : json :=
  match o with Some a => f a | None => JNull end.

Lemma assoc_obj_insert {A} k v (o : list (string * A)) : assoc k (obj_insert k v o) = Some v.
Proof.
  induction o as [|[k' v'] o IH]; cbn; [by rewrite String.eqb_refl|].
  destruct (String.eqb k k') eqn:E; cbn; [by rewrite String.eqb_refl|].
  destruct (String.ltb k k'); cbn; [by rewrite String.eqb_refl | by rewrite E].
Qed.
Lemma assoc_obj_insert_ne {A} k k' v (o : list (string * A)) :
  k <> k' -> assoc k' (obj_insert k v o) = assoc k' o.
Proof.
  intros Hne. induction o as [|[k1 v1] o IH]; cbn.
  - destruct (String.eqb_spec k' k); congruence.
  - destruct (String.eqb_spec k k1) as [->|]; cbn.
    + destruct (String.eqb_spec k' k1); [congruence | done].
    + destruct (String.ltb k k1); cbn; [|by rewrite IH].
      destruct (String.eqb_spec k' k); [congruence | done].
Qed.
Lemma assoc_In {A} k v (o : list (string * A)) : assoc k o = Some v -> (k, v) ∈ o.
Proof.
  induction o as [|[k' v'] o IH]; cbn; [done|].
  destruct (String.eqb_spec k k') as [->|]; [intros [= ->]; left | right; auto].
Qed.
Lemma assoc_None {A} k (o : list (string * A)) : assoc k o = None <-> k ∉ map fst o.
Proof.
  induction o as [|[k' v'] o IH]; cbn; [split; [intros _; apply not_elem_of_nil|done]|].
  rewrite not_elem_of_cons. destruct (String.eqb_spec k k'); rewrite ?IH; naive_solver.
Qed.
Lemma as_str_Some v s : as_str v = Some s <-> v = JStr s.
Proof. destruct v; cbn; split; congruence. Qed.
Lemma is_str_true v s : is_str v s = true <-> v = JStr s.
Proof. apply json_eqb_eq. Qed.
Lemma index_insert_ne k k' v o : k' <> k -> (JObj (obj_insert k v o)).[k'] = (JObj o).[k'].
Proof. intros Hne. unfold index. cbn. by rewrite assoc_obj_insert_ne. Qed.
(** The key that was set, in an object. *)
Lemma index_set_key k v k' w s : str_at w k' = Some s -> (set_key k v w).[k] = v.
Proof. unfold str_at, index. destruct w; cbn; try done. intros _. by rewrite assoc_obj_insert. Qed.
Lemma index_set_key_ne k k' v w : k' <> k -> (set_key k v w).[k'] = w.[k'].
Proof.
  intros Hne. destruct w; cbn; try done; [|by apply index_insert_ne].
  unfold index. cbn. by destruct (String.eqb_spec k' k).
Qed.
