(* ===== verification/Crates.v ===== *)
(** * Interfaces of the third-party crates

    The code under [src/] calls libraries whose source is not part of the
    repository.  Each crate is a class of the functions the program calls; the
    components take the classes they need as section parameters, so every
    theorem holds for whatever the crate computes. *)
From S2P Require Import Prelude RustStr Json.

(** A subject key identifier of a DHTTP certificate chain. *)
Record ski : Type := Ski {
  owner_hash : string;
  client_and_server : bool; (* chain().usage() == ClientAndServer *)
  sequence : Z;
  ski_text : string;
}.

(** [dhttp_home]: names, certificate identities, signatures.  [None] is the
    crate's error. *)
Class DhttpHome := {
  normalize_name : string -> option string;
  extract_ski : list string -> option ski;
  verify_signature : string -> string -> string -> option bool; (* key, input, signature *)
  certificate_sequence : Z -> option Z; (* CertificateSequence::try_from *)
  owner_hash_ok : string -> bool; (* OwnerHash::try_from *)
}.

Class SerdeJson := {
  from_slice : string -> option json;
  to_json_string : json -> string;
  json_error : string -> string; (* Display of the error of from_slice *)
}.

Class Sha2 := { sha256 : string -> string }.
Class Base64 := { b64_decode : string -> option string; b64_encode : string -> string }.

(** [wasmparser::Payload]: the events the program distinguishes.  A payload
    carries the end of its section where it is one. *)
Inductive payload : Type :=
| Version (component : bool)
| ModuleSection
| ComponentSection
| End_
| CustomSection (name data : string) (range_end : Z)
| OtherPayload.
(** [parse_all] yields payloads, each with the end of [as_section] if it is a
    section, and stops after the error met at a malformed byte. *)
Class Wasmparser := { parse_all : string -> list (result string (payload * option Z)) }.

(** [oas3::OpenApiV3Spec] *)
Record operation : Type := Operation {
  operation_id : option string; summary : option string; op_description : option string
}.
Record path_item : Type := PathItem {
  reference : option string;
  methods : list (string * operation);
}.
Record openapi : Type := OpenApi {
  openapi_version : string;
  info_version : string;
  paths : option (list (string * path_item)); (* a BTreeMap *)
  document : json; (* to_value *)
}.
Class Oas3 := { parse_openapi : string -> result string openapi }.

(** [x509_parser]: the fields of a parsed certificate that are inspected. *)
Inductive general_name := DNSName (name : string) | OtherName.
Record basic_constraints := BasicConstraints {
  bc_critical : bool; bc_ca : bool; bc_path_len : option Z }.
Record key_usage := KeyUsage { ku_critical : bool; ku_flags : Z }.
Record ext_key_usage := ExtKeyUsage {
  eku_code_signing : bool; eku_any : bool; eku_server_auth : bool; eku_client_auth : bool;
  eku_email : bool; eku_time_stamping : bool; eku_ocsp : bool; eku_other_empty : bool }.
(** An extension accessor returns an error, nothing, or the extension. *)
Definition ext (A : Type) : Type := option (option A).
Record certificate := Certificate {
  key_algorithm : string; key_parameters : option string; signature_algorithm : string;
  constraints : ext basic_constraints; usage : ext key_usage; extended : ext ext_key_usage;
  alt_names : ext (list general_name);
  common_names : list (option string);
  subject : string;
  public_key : string; raw_serial : string;
  not_before : Z; not_after : Z
}.
Record revoked := Revoked { rev_serial : string; rev_critical : bool }.
Record crl := Crl {
  crl_issuer : string; crl_algorithm : string; tbs_algorithm_same : bool;
  extensions_ok : bool; critical_extensions : bool;
  revoked_certificates : list revoked;
  tbs_bytes : string; crl_signature : string;
  crl_number : option N; last_update : Z; next_update : option Z
}.
Class X509 := {
  (* remaining input and the parsed value *)
  parse_certificate : string -> option (string * certificate);
  parse_crl : string -> option (string * crl);
}.
(** [webpki] chain verification against one anchor at a time. *)
Inductive eku_required := CodeSigning | ServerAuth.
Class Webpki := {
  anchor_ok : string -> bool;
  end_entity_ok : string -> bool;
  (* leaf, intermediates, anchor, unix time, usage *)
  verify_for_usage : string -> list string -> string -> Z -> eku_required -> bool;
  valid_for_name : string -> string -> bool;
}.

(** [url], [percent_encoding], [form_urlencoded] and [http::Uri]. *)
Record url := Url { url_scheme : string; url_host : option string;
                    url_username : string; url_password : option string }.
Record uri_parts := UriParts {
  scheme : option string; authority : option string; path_and_query : option string }.
Class UrlCrates := {
  url_parse : string -> option url;
  percent_decode_utf8 : string -> option string;
  form_parse : string -> list (string * string);
  form_encode : string -> string; (* byte_serialize *)
  uri_parse : string -> option uri_parts;
}.
(** [PathAndQuery::path] and [query]; an empty path reads as [/]. *)
Definition uri_path (pq : string) : string :=
  let path := first_segment "?" pq in if String.eqb path "" then "/" else path.
Definition uri_query (pq : string) : option string :=
  match split_once "?" pq with Some (_, q) => Some q | None => None end.
Class UriValid := {
  (* [path.parse::<PathAndQuery>()] and [Uri::from_parts] *)
  path_and_query_parse : string -> option string;
  uri_from_parts : uri_parts -> option uri_parts;
}.

(** [http::HeaderMap], with header names in their canonical lower case.  The
    laws are the documented meaning of the operations: [remove] drops every
    value of a name, [insert] replaces them. *)
Class HeaderMap := {
  headers : Type;
  get_all : string -> headers -> list string;
  remove : string -> headers -> headers;
  insert_header : string -> string -> headers -> headers;
  header_name_parse : string -> option string; (* parse::<HeaderName> *)
  to_str : string -> option string;            (* HeaderValue::to_str *)
  header_value_parse : string -> option string; (* parse::<HeaderValue> *)
}.
Class HeaderLaws `{HeaderMap} := {
  get_all_remove : forall n m h, get_all n (remove m h) = if String.eqb n m then [] else get_all n h;
  get_all_insert : forall n m v h, get_all n (insert_header m v h) = if String.eqb n m then [v] else get_all n h;
}.
(** [headers.get(name)]: the first value; [contains_key]. *)
Definition get_header `{HeaderMap} (n : string) (h : headers) : option string := head (get_all n h).
Definition contains_key `{HeaderMap} (n : string) (h : headers) : bool :=
  match get_all n h with [] => false | _ => true end.
Class Sha1 := { sha1 : string -> string }.

(** [access_control] value parsers. *)
Class AccessControl := {
  grantee_ok : string -> bool;
  effect_ok : string -> bool;
  subject_ok : string -> bool; (* SubjectId::new *)
}.

(** [zip::ZipArchive] entries. *)
Inductive compression := Stored | Deflated | OtherCompression.
Record zip_entry := ZipEntry {
  name_raw : string; is_dir : bool; encrypted : bool; method_ : compression;
  unix_mode : option Z; entry_size : Z; header_start : Z; data_start : Z;
  compressed_size : Z; central_header_start : Z; entry_crc32 : Z;
  (* the decompressed bytes read from the entry, or a read error *)
  content : result string string
}.
Record zip_archive := ZipArchive {
  zip_offset : Z; zip_entries : list (result string zip_entry) (* by_index *) }.
Definition zip_len (a : zip_archive) : Z := Z.of_nat (length (zip_entries a)).
Class ZipCrate := {
  zip_open : string -> result string zip_archive;
  utf8_error_text : string -> string; (* Display of the error of from_utf8 *)
}.
