(* ===== verification/Errors.v ===== *)
(** * The error type ([src/error.rs])

    One constructor per variant.  Variants that wrap a foreign error keep its
    [Display] text; the two whose kind the program inspects ([std::io] and
    [rusqlite]) keep the kind as well. *)
From S2P Require Import Prelude RustStr.

Inductive io_kind := InvalidInput | NotFound | AlreadyExists | OtherIo.
Inductive sqlite_kind := ConstraintViolation | DatabaseBusy | DatabaseLocked | OtherSqlite.

Inductive error : Type :=
| BadRequest (s : string)
| InvalidConfig (s : string)
| InvalidComponent (s : string)
| InvalidIdentity (s : string)
| PackagePolicy (code : string) (status : Z)
| SigningStatusUnavailable
| IdentityMismatch
| MissingHandshake
| RouteNotFound
| MethodNotAllowed
| Denied
| Deadline
| GuestExitedWithoutResponse
| GuestRejectedResponse (e : string)
| Guest (e : string)
| Io (kind : io_kind) (e : string)
| Database (e : string)
| ConfigDatabase (kind : sqlite_kind) (e : string)
| Http (e : string)
| Dhttp (e : string)
| Task (e : string)
| ShutdownDeadline.

#[export] Instance io_kind_eq_dec : EqDecision io_kind.
Proof. solve_decision. Defined.
#[export] Instance sqlite_kind_eq_dec : EqDecision sqlite_kind.
Proof. solve_decision. Defined.
#[export] Instance error_eq_dec : EqDecision error.
Proof. solve_decision. Defined.

Definition status (self : error) : Z :=
  match self with
  | PackagePolicy _ status => status
  | SigningStatusUnavailable => 503
  | BadRequest _ => 400
  | IdentityMismatch => 421
  | RouteNotFound => 404
  | MethodNotAllowed => 405
  | Denied | InvalidIdentity _ => 403
  | Deadline => 504
  | Dhttp _ => 502
  | _ => 500
  end.

Definition display (self : error) : string :=
  match self with
  | PackagePolicy code _ => code
  | SigningStatusUnavailable => "signing_status_unavailable"
  | BadRequest s | InvalidConfig s | InvalidComponent s | InvalidIdentity s => s
  | Guest e => "guest execution: " +:+ e
  | Io _ e => "I/O: " +:+ e
  | Database e => "access database: " +:+ e
  | ConfigDatabase _ e => "configuration database: " +:+ e
  | Http e => "HTTP: " +:+ e
  | Dhttp e => "DHTTP: " +:+ e
  | Task e => "application task: " +:+ e
  | GuestRejectedResponse e => "guest rejected response: " +:+ e
  | IdentityMismatch => "request authority does not match endpoint"
  | MissingHandshake => "trusted handshake is missing"
  | RouteNotFound => "route not found"
  | MethodNotAllowed => "method not allowed"
  | Denied => "permission denied"
  | Deadline => "execution deadline exceeded"
  | GuestExitedWithoutResponse => "guest exited without a response"
  | ShutdownDeadline => "application shutdown deadline exceeded"
  end.

Definition is_server_error (status : Z) : bool := (500 <=? status) && (status <? 600).

(** [std::io::Error::new(ErrorKind::InvalidInput, ..)], the conflict error of
    the management routes. *)
Definition conflict (message : string) : error := Io InvalidInput message.

(** [signing::policy] *)
Definition policy (code : string) (status : Z) : error := PackagePolicy code status.

Abbreviation Result := (result error).

(** A panic of the source ([unwrap] of [None], an index out of bounds).  No
    error of the program carries this text; where a definition can produce it,
    a theorem shows that it does not. *)
Definition panicked : error := Task "panicked".
