(* ===== verification/Fixtures.v ===== *)
(** * Concrete crates and data for the examples

    One instance of every interface of [Crates]: small functions that behave
    like the crates on the inputs of the examples (a JSON codec with its round
    trip, stored ZIP archives, a certificate chain, an association list of
    headers).  No theorem of the other files depends on them; the witnesses
    evaluate the definitions with them. *)
From S2P Require Import Prelude RustStr Decimal Json Crates.

(** ** A JSON codec: [from_slice] inverts [to_json_string]. *)
Fixpoint enc_pos (p : positive) (r : string) : string :=
  match p with
  | xH => String "." r
  | xO p => String "0" (enc_pos p r)
  | xI p => String "1" (enc_pos p r)
  end.
Fixpoint dec_pos (s : string) : option (positive * string) :=
  match s with
  | String "." r => Some (xH, r)
  | String "0" r => match dec_pos r with Some (p, r) => Some (xO p, r) | None => None end
  | String "1" r => match dec_pos r with Some (p, r) => Some (xI p, r) | None => None end
  | _ => None
  end.
Definition enc_Z (z : Z) (r : string) : string :=
  match z with Z0 => String "z" r | Zpos p => String "+" (enc_pos p r) | Zneg p => String "-" (enc_pos p r) end.
Definition dec_Z (s : string) : option (Z * string) :=
  match s with
  | String "z" r => Some (0, r)
  | String "+" r => match dec_pos r with Some (p, r) => Some (Zpos p, r) | None => None end
  | String "-" r => match dec_pos r with Some (p, r) => Some (Zneg p, r) | None => None end
  | _ => None
  end.
(** Strings end with a tilde; a tilde or a backslash is escaped. *)
Fixpoint enc_str (s r : string) : string :=
  match s with
  | EmptyString => String "~" r
  | String "~" s => String "\" (String "~" (enc_str s r))
  | String "\" s => String "\" (String "\" (enc_str s r))
  | String a s => String a (enc_str s r)
  end.
Fixpoint dec_str (s : string) : option (string * string) :=
  match s with
  | EmptyString => None
  | String "~" r => Some (EmptyString, r)
  | String "\" (String a r) => match dec_str r with Some (s, r) => Some (String a s, r) | None => None end
  | String a r => match dec_str r with Some (s, r) => Some (String a s, r) | None => None end
  end.
Fixpoint enc (j : json) (r : string) : string :=
  match j with
  | JNull => String "n" r
  | JBool true => String "t" r
  | JBool false => String "f" r
  | JInt z => String "i" (enc_Z z r)
  | JFloat z => String "d" (enc_Z z r)
  | JStr s => String "s" (enc_str s r)
  | JArr l => String "[" (foldr (fun x acc => String "," (enc x acc)) (String "]" r) l)
  | JObj o => String "{" (foldr (fun kv acc => String "," (enc_str kv.1 (enc kv.2 acc))) (String "}" r) o)
  end.
Fixpoint dec (n : nat) (s : string) : option (json * string) :=
  match n with
  | O => None
  | S n =>
      match s with
      | String "n" r => Some (JNull, r)
      | String "t" r => Some (JBool true, r)
      | String "f" r => Some (JBool false, r)
      | String "i" r => match dec_Z r with Some (z, r) => Some (JInt z, r) | None => None end
      | String "d" r => match dec_Z r with Some (z, r) => Some (JFloat z, r) | None => None end
      | String "s" r => match dec_str r with Some (s, r) => Some (JStr s, r) | None => None end
      | String "[" r => match dec_items n r with Some (l, r) => Some (JArr l, r) | None => None end
      | String "{" r => match dec_fields n r with Some (o, r) => Some (JObj o, r) | None => None end
      | _ => None
      end
  end
with dec_items (n : nat) (s : string) : option (list json * string) :=
  match n with
  | O => None
  | S n =>
      match s with
      | String "]" r => Some ([], r)
      | String "," r =>
          match dec n r with
          | Some (x, r) => match dec_items n r with Some (l, r) => Some (x :: l, r) | None => None end
          | None => None
          end
      | _ => None
      end
  end
with dec_fields (n : nat) (s : string) : option (list (string * json) * string) :=
  match n with
  | O => None
  | S n =>
      match s with
      | String "}" r => Some ([], r)
      | String "," r =>
          match dec_str r with
          | Some (k, r) =>
              match dec n r with
              | Some (x, r) => match dec_fields n r with Some (l, r) => Some ((k, x) :: l, r) | None => None end
              | None => None
              end
          | None => None
          end
      | _ => None
      end
  end.

Lemma dec_enc_pos p r : dec_pos (enc_pos p r) = Some (p, r).
Proof. induction p as [p IH|p IH|]; cbn; [by rewrite IH..|done]. Qed.
Lemma dec_enc_Z z r : dec_Z (enc_Z z r) = Some (z, r).
Proof. destruct z; cbn; [done|by rewrite dec_enc_pos..]. Qed.
Lemma dec_enc_str s r : dec_str (enc_str s r) = Some (s, r).
Proof.
  induction s as [|a s IH]; [done|].
  destruct a as [[] [] [] [] [] [] [] []]; cbn; by rewrite IH.
Qed.

(** The depth of calls the decoder needs. *)
Fixpoint weight (j : json) : nat :=
  match j with
  | JArr l => S (S (foldr (fun x n => weight x + S n)%nat O l))
  | JObj o => S (S (foldr (fun kv n => weight kv.2 + S n)%nat O o))
  | _ => 1%nat
  end.
Lemma length_enc_pos p r : (String.length r <= String.length (enc_pos p r))%nat.
Proof. induction p; cbn; lia. Qed.
Lemma length_enc_Z z r : (String.length r <= String.length (enc_Z z r))%nat.
Proof. destruct z as [|p|p]; cbn; [lia|pose proof (length_enc_pos p r); lia..]. Qed.
Lemma length_enc_str s r : (String.length r <= String.length (enc_str s r))%nat.
Proof.
  induction s as [|a s IH]; [cbn; lia|].
  destruct a as [[] [] [] [] [] [] [] []]; cbn; lia.
Qed.
Lemma enc_length j r : (weight j + String.length r <= String.length (enc j r))%nat.
Proof.
  revert r. induction j as [|[]|z|z|s|l IH|o IH] using json_nested_ind; intros r; cbn; try lia.
  - pose proof (length_enc_Z z r). lia.
  - pose proof (length_enc_Z z r). lia.
  - pose proof (length_enc_str s r). lia.
  - induction IH as [|x l Hx _ IHl]; cbn; [lia|].
    match goal with |- context [enc x ?rest] => specialize (Hx rest) end. lia.
  - induction IH as [|[k x] l Hx _ IHl]; cbn in *; [lia|].
    match goal with |- context [enc_str k ?rest] => pose proof (length_enc_str k rest) end.
    match goal with |- context [enc x ?rest] => specialize (Hx rest) end. lia.
Qed.
Lemma dec_enc j n r : (weight j <= n)%nat -> dec n (enc j r) = Some (j, r).
Proof.
  revert n r. induction j as [|[]|z|z|s|l IH|o IH] using json_nested_ind; intros n r Hn;
    (destruct n as [|n]; [cbn in Hn; lia|]); cbn; try done.
  - by rewrite dec_enc_Z.
  - by rewrite dec_enc_Z.
  - by rewrite dec_enc_str.
  - assert (dec_items n (foldr (fun x acc => String "," (enc x acc)) (String "]" r) l) = Some (l, r)) as ->; [|done].
    cbn in Hn. apply le_S_n in Hn. revert n Hn. induction IH as [|x l Hx _ IHl]; intros [|n] Hn; cbn in *; try lia; [done|].
    rewrite Hx by lia. by rewrite IHl by lia.
  - assert (dec_fields n (foldr (fun kv acc => String "," (enc_str kv.1 (enc kv.2 acc))) (String "}" r) o) = Some (o, r)) as ->; [|done].
    cbn in Hn. apply le_S_n in Hn. revert n Hn. induction IH as [|[k x] l Hx _ IHl]; intros [|n] Hn; cbn in *; try lia; [done|].
    rewrite dec_enc_str, Hx by lia. by rewrite IHl by lia.
Qed.
#[local] Notation codec_decode := (fun s => match dec (S (String.length s)) s with Some (j, EmptyString) => Some j | _ => None end).
Definition json_codec : SerdeJson :=
  {| from_slice := codec_decode; to_json_string := fun j => enc j ""; json_error := fun _ => "invalid JSON" |}.
Lemma json_codec_roundtrip v : @from_slice json_codec (@to_json_string json_codec v) = Some v.
Proof.
  cbn [from_slice to_json_string json_codec]. rewrite dec_enc; [done|].
  pose proof (enc_length v ""). cbn in *. lia.
Qed.

(** ** Digests, Base64, names and certificates *)
(** 32 bytes that depend on the length and the sum of the input. *)
Definition toy_sha2 : Sha2 :=
  {| sha256 s := le_bytes 32 (fold_left (fun n a => n + code a) (bytes_of s) (slen s * 65536)) |}.
Lemma toy_sha2_length b : slen (@sha256 toy_sha2 b) = 32.
Proof. apply slen_le_bytes. Qed.
Definition toy_sha1 : Sha1 := {| sha1 s := s |}.
Definition toy_base64 : Base64 := {| b64_decode s := Some s; b64_encode s := s |}.
Definition store_owner : string := "ffc3e50e1dfb7baca1cc07a7cbfcf8cb34a9bf5a9c25024fcf9a9786bb230746".
Definition toy_home : DhttpHome :=
  {| normalize_name s := if String.eqb s "" then None else Some (to_ascii_lowercase s);
     extract_ski chain := match chain with
                          | [] => None
                          | c :: _ => Some (Ski (if String.eqb c "store" then store_owner else "owner") true 1 "ski")
                          end;
     verify_signature key input signature := Some (String.eqb signature "sig");
     certificate_sequence z := Some z;
     owner_hash_ok s := true |}.
Definition toy_access : AccessControl :=
  {| grantee_ok s := true; effect_ok s := true; subject_ok s := true |}.
Definition toy_webpki : Webpki :=
  {| anchor_ok s := true; end_entity_ok s := true; verify_for_usage l i a t u := true; valid_for_name l n := true |}.

(** The author [a] signs with [leaf], issued by [issuer]. *)
Definition toy_eku (server : bool) : ext_key_usage := ExtKeyUsage true false server server false false false true.
Definition toy_leaf : certificate :=
  Certificate "1.2.840.10045.2.1" (Some "1.3.132.0.34") "1.2.840.10045.4.3.3"
    (Some (Some (BasicConstraints true false None))) (Some (Some (KeyUsage true 1))) (Some (Some (toy_eku false)))
    (Some (Some [DNSName "a"])) [Some "a"] "CN=a" "key" (String (byte 7) "") 0 1000.
Definition toy_issuer : certificate :=
  Certificate "1.2.840.10045.2.1" (Some "1.3.132.0.34") "1.2.840.10045.4.3.3"
    (Some (Some (BasicConstraints true true (Some 0)))) (Some (Some (KeyUsage true 97))) (Some (Some (toy_eku false)))
    (Some None) [Some "issuer"] "CN=issuer" "issuer key" (String (byte 1) "") 0 1000.
(** Revocation lists by number: [crl1] revokes nothing, [crl2] the leaf. *)
Definition toy_crl (n : N) (serials : list string) : crl :=
  Crl "CN=issuer" "1.2.840.10045.4.3.3" true true false (map (fun s => Revoked s false) serials) "tbs" "sig" (Some n) 0 (Some 1000).
Definition toy_x509 : X509 :=
  {| parse_certificate s :=
       if String.eqb s "leaf" || String.eqb s "store" then Some ("", toy_leaf)
       else if String.eqb s "issuer" then Some ("", toy_issuer) else None;
     parse_crl s :=
       if String.eqb s "crl1" then Some ("", toy_crl 1 [])
       else if String.eqb s "crl2" then Some ("", toy_crl 2 [String (byte 7) ""]) else None |}.

(** ** Stored ZIP archives *)
Definition signature_bytes (a b : Z) : string := "PK" +:+ of_bytes [byte a; byte b].
Definition zip_sizes (data : string) : string := le_bytes 4 0 +:+ le_bytes 4 (slen data) +:+ le_bytes 4 (slen data).
Definition zip_local (file : string * string) : string :=
  signature_bytes 3 4 +:+ le_bytes 2 20 +:+ le_bytes 2 0 +:+ le_bytes 2 0 +:+ le_bytes 4 0 +:+ zip_sizes file.2
  +:+ le_bytes 2 (slen file.1) +:+ le_bytes 2 0 +:+ file.1 +:+ file.2.
Definition zip_central (offset : Z) (file : string * string) : string :=
  signature_bytes 1 2 +:+ le_bytes 2 20 +:+ le_bytes 2 20 +:+ le_bytes 2 0 +:+ le_bytes 2 0 +:+ le_bytes 4 0
  +:+ zip_sizes file.2 +:+ le_bytes 2 (slen file.1) +:+ le_bytes 2 0 +:+ le_bytes 2 0 +:+ le_bytes 2 0
  +:+ le_bytes 2 0 +:+ le_bytes 4 0 +:+ le_bytes 4 offset +:+ file.1.
Fixpoint zip_parts (offset : Z) (files : list (string * string)) : string * string :=
  match files with
  | [] => ("", "")
  | file :: files =>
      let local := zip_local file in
      let '(locals, centrals) := zip_parts (offset + slen local) files in
      (local +:+ locals, zip_central offset file +:+ centrals)
  end.
Definition make_zip (files : list (string * string)) : string :=
  let '(locals, centrals) := zip_parts 0 files in
  let count := Z.of_nat (length files) in
  locals +:+ centrals +:+ signature_bytes 5 6 +:+ le_bytes 2 0 +:+ le_bytes 2 0 +:+ le_bytes 2 count +:+ le_bytes 2 count
  +:+ le_bytes 4 (slen centrals) +:+ le_bytes 4 (slen locals) +:+ le_bytes 2 0.
Definition zip_field (l : list ascii) (offset len : nat) : Z := from_le (take len (drop offset l)).
(** The entries of the central directory, from its remaining bytes [l]. *)
Fixpoint zip_read (count : nat) (all l : list ascii) (at_ : Z) : list (result string zip_entry) :=
  match count with
  | O => []
  | S count =>
      let name := Z.to_nat (zip_field l 28 2) in
      let size := zip_field l 24 4 in
      let start := zip_field l 42 4 in
      let data := start + 30 + Z.of_nat name in
      Ok {| name_raw := of_bytes (take name (drop 46 l)); is_dir := false; encrypted := false; method_ := Stored;
            unix_mode := None; entry_size := size; header_start := start; data_start := data; compressed_size := size;
            central_header_start := at_; entry_crc32 := zip_field l 16 4;
            content := Ok (of_bytes (take (Z.to_nat size) (drop (Z.to_nat data) all))) |}
      :: zip_read count all (drop (46 + name) l) (at_ + 46 + Z.of_nat name)
  end.
Definition toy_zip : ZipCrate :=
  {| zip_open bytes :=
       let all := bytes_of bytes in
       let end_ := (length all - 22)%nat in
       let start := zip_field all (end_ + 16) 4 in
       Ok (ZipArchive 0 (zip_read (Z.to_nat (zip_field all (end_ + 10) 2)) all (drop (Z.to_nat start) all) start));
     utf8_error_text s := "invalid UTF-8" |}.

(** ** URLs *)
(** [scheme://authority/path?query]; a missing path is [/]. *)
Definition toy_uri (s : string) : option uri_parts :=
  match split_once_str "://" s with
  | Some (scheme, rest) =>
      match split_once "/" rest with
      | Some (authority, path) => Some (UriParts (Some scheme) (Some authority) (Some ("/" +:+ path)))
      | None => Some (UriParts (Some scheme) (Some rest) (Some "/"))
      end
  | None => None
  end.
Definition toy_urls : UrlCrates :=
  {| url_parse s := None; percent_decode_utf8 s := Some s;
     form_parse s := omap (split_once "=") (split_on "&" s); form_encode s := s; uri_parse := toy_uri |}.
Definition toy_valid : UriValid := {| path_and_query_parse s := Some s; uri_from_parts p := Some p |}.

(** ** Components: the magic and the embedded document *)
Definition wasm_magic : string := String (byte 0) ("asm" +:+ of_bytes [byte 13; byte 0; byte 1; byte 0]).
Definition make_wasm (document : string) : string := wasm_magic +:+ document.
Definition toy_wasm : Wasmparser :=
  {| parse_all bytes :=
       match strip_prefix wasm_magic bytes with
       | Some document => [Ok (Version true, None); Ok (CustomSection "pishoo:openapi" document (slen bytes), Some (slen bytes)); Ok (End_, None)]
       | None => [Err "malformed"]
       end |}.
Definition toy_methods (item : list (string * json)) : list (string * operation) :=
  map (fun m => (to_ascii_uppercase m.1, Operation (str_at m.2 "operationId") (str_at m.2 "summary") None)) item.
Definition toy_oas : Oas3 :=
  {| parse_openapi bytes :=
       match @from_slice json_codec bytes with
       | Some doc => Ok (OpenApi (unwrap_str doc.["openapi"]) (unwrap_str doc.["info"].["version"])
                          (map (fun e => (e.1, PathItem None (toy_methods (default [] (as_object e.2))))) <$> as_object doc.["paths"]) doc)
       | None => Err "invalid OpenAPI"
       end |}.

(** ** Headers: an association list, names in lower case *)
Definition toy_headers : HeaderMap :=
  {| headers := list (string * string);
     get_all n h := omap (fun kv => if String.eqb kv.1 n then Some kv.2 else None) h;
     remove n h := filter (fun kv => kv.1 <> n) h;
     insert_header n v h := (n, v) :: filter (fun kv => kv.1 <> n) h;
     header_name_parse s := if String.eqb s "" then None else Some (to_ascii_lowercase s);
     to_str s := Some s;
     header_value_parse s := Some s |}.
Lemma toy_get_filter n m (h : list (string * string)) :
  omap (fun kv => if String.eqb kv.1 n then Some kv.2 else None) (filter (fun kv => kv.1 <> m) h)
  = if String.eqb n m then [] else omap (fun kv => if String.eqb kv.1 n then Some kv.2 else None) h.
Proof.
  induction h as [|[k v] h IH]; [by destruct (String.eqb n m)|].
  rewrite filter_cons. cbn in *. destruct (decide (k <> m)) as [Hk|Hk]; cbn; rewrite IH;
    destruct (String.eqb_spec n m) as [Hnm|Hnm], (String.eqb_spec k n) as [Hkn|Hkn]; try done; exfalso; congruence || (apply Hk; congruence).
Qed.
#[export] Instance toy_header_laws : @HeaderLaws toy_headers.
Proof.
  split.
  - intros n m h. apply toy_get_filter.
  - intros n m v h. cbn. rewrite toy_get_filter, String.eqb_sym. by destruct (String.eqb n m).
Qed.

(** ** A package: author [a], an App with one page *)
Definition encode (j : json) : string := enc j "".
Definition toy_manifest (name : string) (dependencies : list json) (backend : list (string * json)) : json :=
  jobj ([("format", JStr "waz/1");
         ("package", jobj [("author", JStr "a"); ("name", JStr name); ("version", JStr "1.0.0"); ("title", JStr "t");
                           ("description", JStr "d"); ("license", JStr "l"); ("release-notes", JStr "n")]);
         ("dependencies", JArr dependencies); ("frontend", JStr "public")] ++ backend).
Definition toy_envelope : json :=
  jobj [("version", JInt 1); ("certificates", JArr [JStr "leaf"; JStr "issuer"]); ("signature", JStr "sig")].
Definition toy_files (name : string) (dependencies : list json) : list (string * string) :=
  [("manifest.json", encode (toy_manifest name dependencies []));
   ("public/index.html", "hi"); ("signature.json", encode toy_envelope)].
(** The package [a/b], and [a/c] which depends on it. *)
Definition toy_dependency (name : string) : json :=
  jobj [("author", JStr "a"); ("name", JStr name); ("version", JStr "1.0.0")].
Definition files_b : list (string * string) := Eval vm_compute in toy_files "b" [].
Definition files_c : list (string * string) := Eval vm_compute in toy_files "c" [toy_dependency "b"].
Definition waz_b : string := Eval vm_compute in make_zip files_b.
Definition waz_c : string := Eval vm_compute in make_zip files_c.

(** ** The store's record of a package, verified at time 10 *)
Definition hex_digest (s : string) : string := hex_lower (@sha256 toy_sha2 s).
Definition toy_release_facts (name : string) (waz : string) : list (string * json) :=
  [("author", JStr "a"); ("name", JStr name); ("version", JStr "1.0.0"); ("package_sha256", JStr (hex_digest waz));
   ("size", JInt (slen waz)); ("author_owner_hash", JStr "owner")].
Definition toy_receipt (name : string) (waz : string) : json :=
  jobj [("certificates", JArr [JStr "store"; JStr "issuer"]); ("signature", JStr "sig");
        ("payload", JStr (encode (jobj (toy_release_facts name waz ++
           [("format", JStr "pishoo-publication/1"); ("registry", JStr "store.dhttp.net");
            ("registry_owner_hash", JStr store_owner);
            ("leaf_fingerprint_sha256", JStr (hex_digest "leaf")); ("issuer_id", JStr (hex_digest "issuer"));
            ("verified_at", JInt 10)]))))].
Definition toy_metadata (name : string) (dependencies : list json) (waz : string) : json :=
  let path := "/store/v1/packages/a/" +:+ name +:+ "/versions/1.0.0" in
  jobj (toy_release_facts name waz ++
    [("id", JStr ("a/" +:+ name)); ("status", JStr "published"); ("download_path", JStr (path +:+ "/package.waz"));
     ("signature", jobj [("verified_at", JInt 10); ("purpose", JStr "code_signing");
        ("leaf_fingerprint_sha256", JStr (hex_digest "leaf")); ("issuer_id", JStr (hex_digest "issuer"));
        ("ski", JStr "ski"); ("serial_number", JStr "07")]);
     ("publication_receipt", toy_receipt name waz); ("dependencies", JArr dependencies);
     ("title", JStr "t"); ("description", JStr "d"); ("changelog", JStr "n");
     ("signer_certificates", JArr [JStr "leaf"; JStr "issuer"])]).
Definition metadata_b : json := Eval vm_compute in toy_metadata "b" [] waz_b.
Definition metadata_c : json := Eval vm_compute in toy_metadata "c" [toy_dependency "b"] waz_c.
