(* ===== verification/Ids.v ===== *)
(** * Package identities ([src/package.rs], [src/package/files.rs])

    A package id is a short name, or [publisher/name] with a normalized
    publisher. *)
From S2P Require Import Prelude RustStr Json Crates Errors.

Definition is_standard_author (author : string) : bool :=
  String.eqb author "std.dhttp.net" || String.eqb author "dev.genmeta.tech.dhttp.net".

Definition name_byte (b : ascii) : bool :=
  is_ascii_lowercase b || is_ascii_digit b || Ascii.eqb b "-".
Definition starts_lowercase (name : string) : bool :=
  match bytes_of name with b :: _ => is_ascii_lowercase b | [] => false end.

Section ids.
Context `{DhttpHome}.

(** [normalize_name(s).as_deref() == Some(s)] *)
Definition normalized (s : string) : bool := bool_decide (normalize_name s = Some s).

Definition valid_id (id : string) : Result unit :=
  let? name := match split_once "/" id with
               | Some (publisher, name) =>
                   if normalized publisher then Ok name
                   else Err (BadRequest "invalid Lib publisher")
               | None => Ok id
               end in
  throw (BadRequest "invalid Lib id") when
    (slen name >? 63) || negb (starts_lowercase name) || negb (all_bytes name_byte name);;
  Ok tt.

Definition check_resource_identity (metadata : json) (id : string) : Result unit :=
  match split_once "/" id with
  | Some (publisher, name) =>
      throw (InvalidComponent "Lib ID and manifest identity disagree") when
        negb (is_str metadata.["publisher"] publisher) || negb (is_str metadata.["name"] name);;
      Ok tt
  | None => Ok tt
  end.
End ids.

(** [id.rsplit('/').next().unwrap()] and [id.split('/').next().unwrap_or("")] *)
Definition short_name (id : string) : string := last_segment "/" id.
Definition id_author (id : string) : string := first_segment "/" id.
Definition id_publisher (id : string) : option string :=
  match split_once "/" id with Some (p, _) => Some p | None => None end.
(** The mount prefix of an installed Lib. *)
Definition lib_prefix (id : string) : string :=
  if match id_publisher id with Some publisher => is_standard_author publisher | None => false end
  then "/std" else "/" +:+ short_name id.

(** ** Properties *)

(** The names [valid_id] accepts. *)
Definition name_ok (name : string) : Prop :=
  slen name <= 63 /\ starts_lowercase name = true /\ all_bytes name_byte name = true.

Lemma name_byte_not c : Ascii.eqb "/" c || Ascii.eqb "." c || Ascii.eqb "\" c = true -> name_byte c = false.
Proof. intros Hc. destruct c as [[] [] [] [] [] [] [] []]; vm_compute in *; congruence. Qed.
Lemma name_ok_clean name c :
  name_ok name -> Ascii.eqb "/" c || Ascii.eqb "." c || Ascii.eqb "\" c = true ->
  contains_char c name = false.
Proof.
  intros (_ & _ & Hb) Hc%name_byte_not. eapply all_any_byte; [|exact Hb].
  intros a Ha. destruct (Ascii.eqb_spec c a); congruence.
Qed.
Lemma name_ok_no_slash name : name_ok name -> contains_char "/" name = false.
Proof. intros H. by apply (name_ok_clean name "/" H). Qed.

Section id_facts.
Context `{DhttpHome}.

Lemma valid_id_cases id :
  valid_id id = Ok tt <->
  name_ok id \/
  exists publisher name, id = publisher +:+ "/" +:+ name /\ normalize_name publisher = Some publisher
    /\ contains_char "/" publisher = false /\ name_ok name.
Proof.
  unfold valid_id, normalized.
  assert (forall name, (if (slen name >? 63) || negb (starts_lowercase name) || negb (all_bytes name_byte name)
    then Err (BadRequest "invalid Lib id") else Ok tt) = Ok tt <-> name_ok name) as Hname.
  { intros name. unfold name_ok. rewrite Z.gtb_ltb. split.
    - intros Hn. simplify_ok. simplify_bool. done.
    - intros (Hl%Z.ltb_ge & -> & ->). by rewrite Hl. }
  destruct (split_once "/" id) as [[p n]|] eqn:E.
  - apply split_once_Some in E as [-> Hp]. case_bool_decide as Hn; cbn.
    + rewrite Hname. split; [|intros [Hok|(p' & n' & Heq & _ & Hp' & Hok)]].
      * intros Hok. right. exists p, n. done.
      * exfalso. apply name_ok_no_slash in Hok. unfold contains_char in Hok.
        rewrite any_byte_app in Hok. apply orb_false_iff in Hok as [_ Hok]. done.
      * pose proof (proj2 (split_once_Some "/" (p +:+ String "/" n) p n) (conj eq_refl Hp)) as E1.
        pose proof (proj2 (split_once_Some "/" (p +:+ String "/" n) p' n') (conj Heq Hp')) as E2.
        rewrite E1 in E2. by injection E2 as -> ->.
    + split; [done|]. intros [Hok|(p' & n' & Heq & Hnp & Hp' & Hok)].
      * exfalso. apply name_ok_no_slash in Hok. unfold contains_char in Hok.
        rewrite any_byte_app in Hok. apply orb_false_iff in Hok as [_ Hok]. done.
      * pose proof (proj2 (split_once_Some "/" (p +:+ String "/" n) p n) (conj eq_refl Hp)) as E1.
        pose proof (proj2 (split_once_Some "/" (p +:+ String "/" n) p' n') (conj Heq Hp')) as E2.
        rewrite E1 in E2. injection E2 as -> ->. done.
  - cbn. rewrite Hname. split; [by left|]. intros [Hok|(p & n & -> & _ & Hp & _)]; [done|].
    apply split_once_None in E. unfold contains_char in E. rewrite any_byte_app in E.
    apply orb_false_iff in E as [_ E]. done.
Qed.

Lemma valid_id_short id : valid_id id = Ok tt -> name_ok (short_name id).
Proof.
  intros [Hok|(p & n & -> & _ & Hp & Hok)]%valid_id_cases; unfold short_name.
  - by rewrite last_segment_no_sep by by apply name_ok_no_slash.
  - change (p +:+ "/" +:+ n) with (p +:+ String "/" n).
    by rewrite last_segment_app by (done || by apply name_ok_no_slash).
Qed.

(** A valid identifier's short name is a single safe path component, and the identifier is that name
    alone or after one normalised publisher. *)
Theorem valid_id_path_component id :
  valid_id id = Ok tt ->
  name_ok (short_name id) /\ short_name id <> "." /\ short_name id <> ".." /\ short_name id <> "" /\
  (id = short_name id \/
   exists publisher, id = publisher +:+ "/" +:+ short_name id /\
     normalize_name publisher = Some publisher /\ contains_char "/" publisher = false).
Proof.
  intros Hv. pose proof (valid_id_short id Hv) as Hs.
  split; [done|]. repeat split; try (intros Heq; rewrite Heq in Hs; destruct Hs as (? & ? & ?); done).
  apply valid_id_cases in Hv as [Hok|(p & n & -> & Hn & Hp & Hok)].
  - left. unfold short_name. by rewrite last_segment_no_sep by by apply name_ok_no_slash.
  - right. exists p. unfold short_name. change (p +:+ "/" +:+ n) with (p +:+ String "/" n).
    by rewrite last_segment_app by (done || by apply name_ok_no_slash).
Qed.
Lemma short_name_clean id : contains_char "/" (short_name id) = false.
Proof. apply last_segment_clean. Qed.
Lemma short_name_qualified author name : contains_char "/" name = false -> short_name (author +:+ "/" +:+ name) = name.
Proof. intros Hn. change (author +:+ "/" +:+ name) with (author +:+ String "/" name). by apply last_segment_suffix. Qed.
Lemma valid_id_split id author name :
  valid_id id = Ok tt -> split_once "/" id = Some (author, name) ->
  short_name id = name /\ contains_char "/" author = false /\ id = author +:+ "/" +:+ name.
Proof.
  intros Hv Hs. apply split_once_Some in Hs as [-> Ha].
  apply valid_id_cases in Hv as [Hok|(p & n & Heq & _ & Hp & Hok)].
  - exfalso. apply name_ok_no_slash in Hok. unfold contains_char in Hok.
    rewrite any_byte_app in Hok. by apply orb_false_iff in Hok as [_ Hok].
  - pose proof (proj2 (split_once_Some "/" (p +:+ String "/" n) p n) (conj eq_refl Hp)) as E1.
    pose proof (proj2 (split_once_Some "/" (p +:+ String "/" n) author name) (conj (eq_sym Heq) Ha)) as E2.
    rewrite E1 in E2. injection E2 as -> ->. split; [|done].
    by apply short_name_qualified, name_ok_no_slash.
Qed.
End id_facts.
