(* ===== verification/Manifest.v ===== *)
(** * Component and OpenAPI validation ([src/package/manifest.rs]) *)
From S2P Require Import Prelude RustStr Json Crates Errors Ids.

Definition mib : Z := 1024 * 1024.
Definition invalid (s : string) : error := InvalidComponent s.

(** [valid_path], which [src/setup.rs] repeats. *)
Definition valid_path (path : string) : bool :=
  starts_with "/" path
  && negb (contains_str "//" path)
  && negb (contains_any ["?"; "#"; "%"; "\"]%char path)
  && negb (existsb (fun p => String.eqb p "." || String.eqb p "..") (split_on "/" path))
  && negb (existsb (fun c => is_whitespace c || is_control c) (chars path)).

Section openapi_validation.
Context `{Oas3}.

(** The body of the loop over [item.methods()]. *)
Definition check_operation_id (ids : list string) (op : string * operation) : Result (list string) :=
  match operation_id op.2 with
  | Some id => throw (invalid "duplicate operationId") when mem id ids;; Ok (id :: ids)
  | None => Ok ids
  end.
(** The body of the loop over [paths]. *)
Definition check_path_item (ids : list string) (entry : string * path_item) : Result (list string) :=
  let '(path, item) := entry in
  throw (invalid "unsupported API path") when
    negb (valid_path path) || contains_any ["{"; "}"]%char path;;
  match reference item with
  | Some _ => Err (invalid "path-level references are unsupported")
  | None => try_fold check_operation_id ids (methods item)
  end.

Definition validate_openapi (bytes : string) : Result openapi :=
  throw (invalid "OpenAPI exceeds 1 MiB") when slen bytes >? mib;;
  let? openapi := map_err InvalidComponent (parse_openapi bytes) in
  throw (invalid "only OpenAPI 3.1.x is supported") when
    negb (starts_with "3.1." (openapi_version openapi));;
  let? paths := ok_or (invalid "missing OpenAPI paths") (paths openapi) in
  let? _ := try_fold check_path_item [] paths in
  Ok openapi.
End openapi_validation.

Section component_validation.
Context `{DhttpHome, SerdeJson, Sha2, Base64, Wasmparser, Oas3, X509}.

(** Shared by the component and package signature checks:
    [certificate.subject_alternative_name()] names the publisher. *)
Definition names_publisher (cert : certificate) (publisher : string) : Result bool :=
  match alt_names cert with
  | None => Err (invalid "invalid signer names")
  | Some None => Ok false
  | Some (Some names) =>
      Ok (existsb (fun n => match n with DNSName d => String.eqb d publisher | OtherName => false end) names)
  end.
Definition decode_certificate (value : json) : Result string :=
  let? text := ok_or (invalid "invalid signer certificate") (as_str value) in
  ok_or (invalid "invalid signer certificate encoding") (b64_decode text).

Definition verify_component_signature (bytes : string) (signed_end : Z) (envelope document : string) :
    Result unit :=
  let? envelope := ok_or (invalid "invalid signature envelope") (from_slice envelope) in
  throw (invalid "unsupported signature envelope") when
    match as_object envelope with Some o => negb (Z.of_nat (length o) =? 3) | None => true end
    || negb (bool_decide (as_u64 envelope.["version"] = Some 1));;
  let? certificates :=
    ok_or (invalid "missing signer certificates")
      (match as_array envelope.["certificates"] with Some (c :: cs) => Some (c :: cs) | _ => None end) in
  let? certificates := try_map decode_certificate certificates in
  let? (remaining, certificate) :=
    ok_or (invalid "invalid signer certificate") (parse_certificate (hd "" certificates)) in
  throw (invalid "trailing signer certificate data") when negb (slen remaining =? 0);;
  let? document := ok_or (invalid "invalid signed OpenAPI") (from_slice document) in
  let? publisher :=
    ok_or (invalid "invalid signed publisher")
      (match as_str document.["x-pishoo"].["publisher"] with
       | Some name => if normalized name then Some name else None
       | None => None
       end) in
  let? _ := ok_or (invalid "invalid signer owner_hash") (extract_ski certificates) in
  let? named := names_publisher certificate publisher in
  throw (invalid "signer certificate and publisher disagree") when negb named;;
  let? text := ok_or (invalid "missing signature") (as_str envelope.["signature"]) in
  let? signature := ok_or (invalid "invalid signature encoding") (b64_decode text) in
  throw (invalid "invalid signature size") when (slen signature =? 0) || (slen signature >? 8192);;
  let input := "pishoo-lib-signature-v1" +:+ String (byte 0) EmptyString
               +:+ sha256 (substring 0 (Z.to_nat signed_end) bytes) in
  let? verified :=
    ok_or (invalid "unsupported publisher signing key") (verify_signature (public_key certificate) input signature) in
  throw (invalid "publisher signature verification failed") when negb verified;;
  Ok tt.

(** The local variables of the payload loop. *)
Record scan := Scan {
  s_document : option string; s_depth : Z; s_component : bool;
  s_section_end : Z; s_signature : option (Z * string) }.
Definition scan0 : scan := Scan None 0 false 8 None.

Definition scan_payload (bytes : string) (s : scan) (item : result string (payload * option Z)) : Result scan :=
  let? (payload, section) := map_err InvalidComponent item in
  let next_end := if s_depth s =? 0 then section else None in
  let? s :=
    match payload with
    | Version true =>
        if s_depth s =? 0
        then Ok (Scan (s_document s) (s_depth s) true (s_section_end s) (s_signature s)) else Ok s
    | ModuleSection | ComponentSection =>
        Ok (Scan (s_document s) (s_depth s + 1) (s_component s) (s_section_end s) (s_signature s))
    | End_ =>
        if s_depth s >? 0
        then Ok (Scan (s_document s) (s_depth s - 1) (s_component s) (s_section_end s) (s_signature s)) else Ok s
    | CustomSection name data range_end =>
        if (s_depth s =? 0) && String.eqb name "pishoo:openapi" then
          throw (invalid "duplicate pishoo:openapi section") when bool_decide (is_Some (s_document s));;
          throw (invalid "OpenAPI exceeds 1 MiB") when slen data >? mib;;
          Ok (Scan (Some data) (s_depth s) (s_component s) (s_section_end s) (s_signature s))
        else if String.eqb name "pishoo:signature" then
          throw (invalid "signature must be a unique bounded final section") when
            negb (s_depth s =? 0) || bool_decide (is_Some (s_signature s))
            || negb (range_end =? slen bytes) || (slen data >? 64 * 1024);;
          Ok (Scan (s_document s) (s_depth s) (s_component s) (s_section_end s) (Some (s_section_end s, data)))
        else Ok s
    | _ => Ok s
    end in
  Ok (match next_end with
      | Some e => Scan (s_document s) (s_depth s) (s_component s) e (s_signature s)
      | None => s
      end).

Definition validate_lib (bytes : string) : Result openapi :=
  throw (invalid "component exceeds 64 MiB") when slen bytes >? 64 * mib;;
  let? s := try_fold (scan_payload bytes) scan0 (parse_all bytes) in
  throw (invalid "lib.wasm must be a component") when negb (s_component s);;
  let? document := ok_or (invalid "missing pishoo:openapi section") (s_document s) in
  let? _ := match s_signature s with
            | Some (signed_end, envelope) => verify_component_signature bytes signed_end envelope document
            | None => Ok tt
            end in
  validate_openapi document.
End component_validation.

(** ** The embedded OpenAPI document

    [package_openapi] ([src/package/format.rs]) and [Lib::load]
    ([src/sandbox/runtime.rs]) read the document of an already validated
    backend with the same loop; only the error texts differ. *)
Section embedded_openapi.
Context `{Wasmparser}.

Definition openapi_payload (malformed : string -> error) (s : option string * Z)
    (item : result string (payload * option Z)) : Result (option string * Z) :=
  let '(document, depth) := s in
  let? (payload, _) := map_err malformed item in
  match payload with
  | ModuleSection | ComponentSection => Ok (document, depth + 1)
  | End_ => if depth >? 0 then Ok (document, depth - 1) else Ok (document, depth)
  | CustomSection name data _ =>
      if String.eqb name "pishoo:openapi" then
        throw (invalid "OpenAPI must be a unique bounded top-level section") when
          negb (depth =? 0) || bool_decide (is_Some document) || (slen data >? mib);;
        Ok (Some data, depth)
      else Ok (document, depth)
  | _ => Ok (document, depth)
  end.

(** [Lib::load]: the executable's own metadata. *)
Definition load_document (bytes : string) : Result string :=
  let? (document, _) := try_fold (openapi_payload InvalidComponent) (None, 0) (parse_all bytes) in
  ok_or (invalid "missing pishoo:openapi section") document.
End embedded_openapi.

(** ** Properties *)
Definition operation_ids (ops : list (string * operation)) : list string :=
  omap (fun op => operation_id op.2) ops.
Definition api_operation_ids (paths : list (string * path_item)) : list string :=
  flat_map (fun entry => operation_ids (methods entry.2)) paths.
(** What an acceptable path entry is. *)
Definition path_entry_ok (entry : string * path_item) : Prop :=
  valid_path entry.1 = true /\ contains_any ["{"; "}"]%char entry.1 = false /\ reference entry.2 = None.

(** The loop over the operations succeeds exactly when the new ids are fresh
    and distinct, and then remembers them. *)
Lemma check_operation_ids ids ops ids' :
  NoDup ids ->
  (try_fold check_operation_id ids ops = Ok ids' <->
   ids' = rev (operation_ids ops) ++ ids /\ NoDup ids').
Proof.
  revert ids. induction ops as [|[m op] ops IH]; intros ids Hnd; cbn.
  - split; [intros; simplify_ok; done | by intros [-> ?]].
  - unfold check_operation_id at 1. cbn. destruct (operation_id op) as [id|]; cbn.
    + unfold mem. case_bool_decide as Hin; cbn.
      * split; [done|]. intros [-> Hd]. exfalso. rewrite <- app_assoc in Hd. cbn in Hd.
        apply NoDup_app in Hd as (_ & _ & Hd). apply NoDup_cons in Hd as [Hd _]. done.
      * rewrite IH by by constructor. by rewrite <- app_assoc.
    + by apply IH.
Qed.

Lemma check_path_items ids paths ids' :
  NoDup ids ->
  (try_fold check_path_item ids paths = Ok ids' <->
   Forall path_entry_ok paths /\ ids' = rev (api_operation_ids paths) ++ ids /\ NoDup ids').
Proof.
  revert ids. induction paths as [|[path item] paths IH]; intros ids Hnd; cbn.
  { split; [intros; simplify_ok; done | by intros (_ & -> & _)]. }
  rewrite Forall_cons. unfold path_entry_ok at 1. cbn.
  destruct (valid_path path) eqn:Hv, (contains_any ["{"; "}"]%char path) eqn:Hb; cbn;
    try (split; [done | intros (((? & ? & ?) & _) & _); congruence]).
  destruct (reference item); cbn; [split; [done | intros (((? & ? & ?) & _) & _); congruence]|].
  destruct (try_fold check_operation_id ids (methods item)) as [ids1|e] eqn:E.
  - apply check_operation_ids in E as [-> Hnd1]; [|done].
    cbn. rewrite IH by done. unfold api_operation_ids. rewrite rev_app_distr, <- app_assoc.
    naive_solver.
  - split; [done|]. intros (_ & -> & Hd). exfalso.
    rewrite rev_app_distr, <- app_assoc in Hd. apply NoDup_app in Hd as (_ & _ & Hd).
    assert (try_fold check_operation_id ids (methods item) = Ok (rev (operation_ids (methods item)) ++ ids))
      as Hok by (by apply check_operation_ids). congruence.
Qed.

Section openapi_facts.
Context `{Oas3}.

(** C39: An OpenAPI document is accepted exactly when it is at most 1 MiB, parses, has version 3.1, has
    paths, every path is plain and free of references and templates, and no operation id occurs twice. *)
Theorem validate_openapi_iff bytes api :
  validate_openapi bytes = Ok api <->
  slen bytes <= mib /\ parse_openapi bytes = Ok api /\
  starts_with "3.1." (openapi_version api) = true /\
  exists ps, paths api = Some ps /\ Forall path_entry_ok ps /\ NoDup (api_operation_ids ps).
Proof.
  unfold validate_openapi. split.
  - intros Hv. simplify_ok. apply check_path_items in E1 as (Hps & -> & Hnd); [|constructor].
    simplify_bool. split; [lia|]. repeat split; try done. exists a0.
    rewrite app_nil_r, <- Permutation_rev in Hnd. done.
  - intros (Hlen & Hp & Hver & ps & Hps & Hall & Hnd).
    replace (slen bytes >? mib) with false by (symmetry; rewrite Z.gtb_ltb; by apply Z.ltb_ge).
    rewrite Hp. cbn. rewrite Hver, Hps. cbn.
    assert (try_fold check_path_item [] ps = Ok (rev (api_operation_ids ps) ++ [])) as ->; [|done].
    apply check_path_items; [constructor|]. rewrite app_nil_r. split_and!; [done..|].
    by rewrite <- Permutation_rev.
Qed.
End openapi_facts.

(** The custom sections of a payload stream with the nesting depth each one
    is met at: the reference reading of the stream. *)
Definition section_step (acc : Z * list (Z * string * string)) (item : result string (payload * option Z)) :
    Z * list (Z * string * string) :=
  let '(depth, found) := acc in
  match item with
  | Ok (ModuleSection, _) | Ok (ComponentSection, _) => (depth + 1, found)
  | Ok (End_, _) => (if depth >? 0 then depth - 1 else depth, found)
  | Ok (CustomSection name data _, _) => (depth, found ++ [(depth, name, data)])
  | _ => (depth, found)
  end.
Definition custom_sections (items : list (result string (payload * option Z))) : list (Z * string * string) :=
  (fold_left section_step items (0, [])).2.
(** The top-level documents and all signatures, wherever they are nested. *)
Definition is_openapi (s : Z * string * string) : Prop := s.1.1 = 0 /\ s.1.2 = "pishoo:openapi".
Definition is_signature (s : Z * string * string) : Prop := s.1.2 = "pishoo:signature".
#[export] Instance is_openapi_dec s : Decision (is_openapi s) := _.
#[export] Instance is_signature_dec s : Decision (is_signature s) := _.

Section component_facts.
Context `{DhttpHome, SerdeJson, Sha2, Base64, Wasmparser, Oas3, X509}.

(** Loop invariant: the scan keeps the top-level document and the signature
    of the reference reading. *)
Definition scan_inv (pre : list (result string (payload * option Z))) (s : scan) : Prop :=
  exists found, fold_left section_step pre (0, []) = (s_depth s, found) /\
    filter is_openapi found = (fun d => (0, "pishoo:openapi", d)) <$> option_list (s_document s) /\
    filter is_signature found =
      (fun d => (0, "pishoo:signature", d.2)) <$> option_list (s_signature s).

Lemma scan_inv_step bytes pre item s s' :
  scan_inv pre s -> scan_payload bytes s item = Ok s' -> scan_inv (pre ++ [item]) s'.
Proof.
  intros (found & Hfold & Hdoc & Hsig) Hs. unfold scan_inv. rewrite fold_left_app, Hfold. cbn.
  unfold scan_payload in Hs. destruct item as [[p sec]|]; cbn in Hs; [|done].
  destruct p as [c| | | |name data re|].
  1-4,6: exists found; destruct c || idtac;
    destruct (s_depth s =? 0), (s_depth s >? 0), sec; cbn in Hs; simplify_ok; done.
  exists (found ++ [(s_depth s, name, data)]).
  destruct (String.eqb_spec name "pishoo:openapi") as [->|Hno].
  - rewrite (filter_snoc_False is_signature) by done.
    destruct (Z.eqb_spec (s_depth s) 0) as [Hd|Hd]; cbn in Hs.
    + simplify_ok. simplify_bool. rewrite Hguard in Hdoc.
      rewrite filter_snoc_True by done. rewrite Hdoc, Hsig, Hd. destruct sec; cbn; by rewrite ?Hd.
    + simplify_ok. rewrite filter_snoc_False by (intros [Hd' _]; by cbn in Hd'). rewrite Hdoc, Hsig. done.
  - rewrite andb_false_r in Hs. rewrite (filter_snoc_False is_openapi) by (intros [_ Hd']; by cbn in Hd').
    destruct (String.eqb_spec name "pishoo:signature") as [->|Hns]; cbn in Hs.
    + simplify_ok. simplify_bool.
      match goal with He : s_signature s = None, Hd : s_depth s = 0 |- _ => rewrite He in Hsig; rewrite Hd in * end.
      rewrite filter_snoc_True by done. rewrite Hdoc, Hsig. destruct sec; done.
    + simplify_ok. rewrite filter_snoc_False by done. rewrite Hdoc, Hsig.
      destruct (if s_depth s =? 0 then sec else None); done.
Qed.

(** A backend component is accepted only within the size limit, with exactly one top-level OpenAPI
    section that validates, and either no signature section or exactly one whose signature verifies over
    the component and the document. *)
Theorem validate_lib_sound bytes api :
  validate_lib bytes = Ok api ->
  slen bytes <= 64 * mib /\
  exists doc, filter is_openapi (custom_sections (parse_all bytes)) = [(0, "pishoo:openapi", doc)] /\
    validate_openapi doc = Ok api /\
    (filter is_signature (custom_sections (parse_all bytes)) = [] \/
     exists signed_end envelope,
       filter is_signature (custom_sections (parse_all bytes)) = [(0, "pishoo:signature", envelope)] /\
       verify_component_signature bytes signed_end envelope doc = Ok tt).
Proof.
  unfold validate_lib. intros Hv. simplify_ok. simplify_bool. split; [lia|].
  assert (scan_inv (parse_all bytes) a) as (found & Hfold & Hdoc & Hsig).
  { refine (try_fold_ind (scan_payload bytes) scan_inv scan0 _ _ _ _ E).
    - by exists [].
    - intros. by eapply scan_inv_step. }
  unfold custom_sections. rewrite Hfold. cbn. rewrite E2 in Hdoc. exists a0.
  rewrite Hdoc, Hsig. split; [done|]. split; [done|].
  destruct (s_signature a) as [[e env]|]; [right | by left].
  destruct a1. eauto.
Qed.
End component_facts.
