(* ===== verification/Waz.v ===== *)
(** * The WAZ archive codec ([src/package/format.rs], second half)

    A package file set is a [BTreeMap<String, Vec<u8>>], an association list
    sorted by name. *)
From S2P Require Import Prelude RustStr Json Crates Errors.

Abbreviation PackageFiles := (list (string * string)).
Definition WAZ_LIMIT : Z := 64 * 1024 * 1024.

(** [std::str::from_utf8] *)
Definition between (lo hi x : Z) : bool := (lo <=? x) && (x <=? hi).
Fixpoint utf8_valid (l : list Z) : bool :=
  match l with
  | [] => true
  | x :: r =>
      if x <? 128 then utf8_valid r
      else match r with
      | [] => false
      | b :: r1 =>
          if between 194 223 x then between 128 191 b && utf8_valid r1
          else match r1 with
          | [] => false
          | c :: r2 =>
              if between 224 239 x then
                between (if x =? 224 then 160 else 128) (if x =? 237 then 159 else 191) b
                && between 128 191 c && utf8_valid r2
              else match r2 with
              | [] => false
              | d :: r3 =>
                  between 240 244 x
                  && between (if x =? 240 then 144 else 128) (if x =? 244 then 143 else 191) b
                  && between 128 191 c && between 128 191 d && utf8_valid r3
              end
          end
      end
  end.

Definition waz_is_zip (bytes : string) : bool := starts_with ("PK" +:+ of_bytes [byte 3; byte 4]) bytes.

Definition waz_path (path : string) : bool :=
  negb (slen path =? 0)
  && (slen path <=? 1024)
  && negb (contains_any ["\"; ":"; "?"; "#"; "%"]%char path)
  && negb (existsb (fun c => is_control c || is_whitespace c) (chars path))
  && (Z.of_nat (length (split_on "/" path)) <=? 33)
  && forallb (fun part => negb (String.eqb part "" || String.eqb part "." || String.eqb part "..")) (split_on "/" path)
  && (existsb (String.eqb path) ["manifest.json"; "signature.json"; "backend.wasm"; "README.md"; "CHANGELOG.md"]
      || starts_with "public/" path).

(** Little-endian fields at an offset of a byte slice. *)
Definition u16_at (s : string) (offset : nat) : Z := from_le (take 2 (drop offset (bytes_of s))).
Definition u32_at (s : string) (offset : nat) : Z := from_le (take 4 (drop offset (bytes_of s))).

(** [BTreeMap<usize, usize>]: a list sorted by key. *)
Fixpoint span_insert (k v : Z) (m : list (Z * Z)) : list (Z * Z) :=
  match m with
  | [] => [(k, v)]
  | (k', v') :: m' =>
      if k =? k' then (k, v) :: m'
      else if k <? k' then (k, v) :: m else (k', v') :: span_insert k v m'
  end.
Definition span_has (k : Z) (m : list (Z * Z)) : bool := existsb (fun e => fst e =? k) m.

(** The contiguity loops over [spans] and [central_spans]. *)
Definition contiguous (message : string) (cursor : Z) (spans : list (Z * Z)) : result string Z :=
  try_fold (fun cursor span => throw message when negb (fst span =? cursor);; Ok (snd span)) cursor spans.

Record waz_state := WazState {
  w_files : PackageFiles; w_spans : list (Z * Z); w_central : list (Z * Z); w_remaining : Z }.

Definition compression_is (a b : compression) : bool :=
  match a, b with Stored, Stored | Deflated, Deflated | OtherCompression, OtherCompression => true | _, _ => false end.
Definition waz_limit (name : string) : Z :=
  if String.eqb name "manifest.json" then 1024 * 1024
  else if String.eqb name "signature.json" then 64 * 1024
  else if String.eqb name "backend.wasm" then WAZ_LIMIT
  else 16 * 1024 * 1024.
Definition waz_bad_entry (files : PackageFiles) (name : string) (entry : zip_entry) : bool :=
  negb (waz_path name)
  || is_dir entry
  || encrypted entry
  || negb (compression_is (method_ entry) Stored || compression_is (method_ entry) Deflated)
  || match unix_mode entry with
     | Some mode => let kind := Z.land mode 61440 in negb ((kind =? 0) || (kind =? 32768))
     | None => false
     end
  || bool_decide (is_Some (assoc name files)).

Section waz.
Context `{ZipCrate}.

(** The checks of one central header: its span, or an error. *)
Definition waz_central (bytes : string) (end_ directory_start : Z) (central_spans : list (Z * Z))
    (flags : Z) (entry : zip_entry) : result string (list (Z * Z)) :=
  let central_start := central_header_start entry in
  let? _ := ok_or "ZIP directory overflow" (checked_add u64_max central_start 46) in
  let? central := ok_or "truncated ZIP central header" (sub_bytes bytes central_start 46) in
  let central_length := 46 + u16_at central 28 + u16_at central 30 + u16_at central 32 in
  let? central_end := ok_or "ZIP directory span overflow" (checked_add u64_max central_start central_length) in
  throw "invalid ZIP central header" when
    negb (starts_with ("PK" +:+ of_bytes [byte 1; byte 2]) central)
    || (central_start <? directory_start)
    || (central_end >? end_)
    || negb (u16_at central 8 =? flags)
    || span_has central_start central_spans;;
  Ok (span_insert central_start central_end central_spans).

(** One iteration of the loop over the archive entries. *)
Definition waz_entry (bytes : string) (end_ directory_start : Z) (s : waz_state)
    (entry : result string zip_entry) : result string waz_state :=
  let? entry := entry in
  let? name := if utf8_valid (map code (bytes_of (name_raw entry))) then Ok (name_raw entry)
               else Err (utf8_error_text (name_raw entry)) in
  throw ("invalid, duplicate or unsupported ZIP entry: " +:+ name) when waz_bad_entry (w_files s) name entry;;
  let limit := Z.min (waz_limit name) (w_remaining s) in
  let size := entry_size entry in
  throw ("ZIP entry exceeds its decompressed size limit: " +:+ name) when size >? limit;;
  let start := header_start entry in
  let data := data_start entry in
  let? stop := ok_or "ZIP span overflow" (checked_add u64_max data (compressed_size entry)) in
  let? _ := ok_or "ZIP header overflow" (checked_add u64_max start 30) in
  let? header := ok_or "truncated ZIP local header" (sub_bytes bytes start 30) in
  let name_length := u16_at header 26 in
  let extra_length := u16_at header 28 in
  let flags := u16_at header 6 in
  let? central_spans := waz_central bytes end_ directory_start (w_central s) flags entry in
  throw "ZIP local header disagrees with the central directory" when
    negb (starts_with ("PK" +:+ of_bytes [byte 3; byte 4]) header)
    || negb (Z.land flags (Z.lnot 2054) =? 0)
    || negb (bool_decide (sub_bytes bytes (start + 30) name_length = Some name))
    || negb (start + 30 + name_length + extra_length =? data)
    || negb (u16_at header 8 =? if compression_is (method_ entry) Stored then 0 else 8)
    || negb (u32_at header 14 =? entry_crc32 entry)
    || negb (u32_at header 18 =? compressed_size entry)
    || negb (u32_at header 22 =? entry_size entry)
    || (stop >? directory_start)
    || span_has start (w_spans s);;
  let spans := span_insert start stop (w_spans s) in
  let? read := content entry in
  let content := substring 0 (Z.to_nat (size + 1)) read in
  throw "ZIP decompressed size disagrees with header" when negb (slen content =? size);;
  Ok (WazState (obj_insert name content (w_files s)) spans central_spans (w_remaining s - slen content)).

(** The [while let Some((parent, _)) = ancestor.rsplit_once('/')] loop; each
    parent is shorter, so the length of the name is enough fuel. *)
Fixpoint waz_ancestors (fuel : nat) (files : PackageFiles) (directories : list string) (ancestor : string) :
    result string (list string) :=
  match fuel with
  | O => Ok directories
  | S fuel =>
      match rsplit_once "/" ancestor with
      | None => Ok directories
      | Some (parent, _) =>
          throw "ZIP file conflicts with a directory" when bool_decide (is_Some (assoc parent files));;
          let directories := if mem parent directories then directories else parent :: directories in
          throw "ZIP expanded directory entry budget exceeded" when
            Z.of_nat (length directories) + Z.of_nat (length files) >? 10000;;
          waz_ancestors fuel files directories parent
      end
  end.

Definition waz_read (bytes : string) : result string PackageFiles :=
  throw "expected a bounded standard ZIP package" when
    (slen bytes >? WAZ_LIMIT) || negb (waz_is_zip bytes) || (slen bytes <? 22);;
  let end_ := slen bytes - 22 in
  let eocd := substring (Z.to_nat end_) 22 bytes in
  let count := u16_at eocd 10 in
  let directory_size := u32_at eocd 12 in
  let directory_start := u32_at eocd 16 in
  throw "invalid ZIP end record or entry budget" when
    negb (starts_with ("PK" +:+ of_bytes [byte 5; byte 6]) eocd)
    || negb (u16_at eocd 4 =? 0) || negb (u16_at eocd 6 =? 0) || negb (u16_at eocd 20 =? 0)
    || negb (u16_at eocd 8 =? count) || (count =? 0) || (count >? 4096)
    || negb (bool_decide (checked_add u64_max directory_start directory_size = Some end_));;
  let? archive := zip_open bytes in
  throw "ZIP central directory disagrees with archive" when
    negb (zip_len archive =? count) || negb (zip_offset archive =? 0);;
  let? s := try_fold (waz_entry bytes end_ directory_start) (WazState [] [] [] WAZ_LIMIT) (zip_entries archive) in
  let? cursor := contiguous "overlapping or unindexed ZIP data" 0 (w_spans s) in
  throw "unindexed ZIP data before directory" when negb (cursor =? directory_start);;
  let? cursor := contiguous "overlapping or unindexed ZIP directory" cursor (w_central s) in
  throw "unindexed ZIP directory data" when negb (cursor =? end_);;
  let files := w_files s in
  let? _ := try_fold (fun directories name => waz_ancestors (String.length name) files directories name)
              [] (map fst files) in
  throw "ZIP package requires manifest.json" when negb (bool_decide (is_Some (assoc "manifest.json" files)));;
  Ok files.
End waz.

(** ** The signed payload digest *)
Section payload.
Context `{Sha2}.

(** What is fed to the digest for one file. *)
Definition waz_record (file : string * string) : string :=
  le_bytes 4 (slen file.1) +:+ file.1 +:+ le_bytes 8 (slen file.2) +:+ sha256 file.2.
Definition waz_signed_files (files : PackageFiles) : PackageFiles :=
  List.filter (fun file => negb (String.eqb file.1 "signature.json")) files.
Definition waz_payload_input (files : PackageFiles) : string :=
  "pishoo-waz-payload-v1" +:+ String (byte 0) EmptyString
  +:+ String.concat "" (map waz_record (waz_signed_files files)).
Definition waz_payload (files : PackageFiles) : string := hex_lower (sha256 (waz_payload_input files)).
End payload.

(** [u8::from_str_radix(&payload[i..i + 2], 16).unwrap()] over the pairs. *)
Definition hex_value (a : ascii) : Z :=
  let c := code a in
  if is_ascii_digit a then c - 48 else if between 97 102 c then c - 87 else c - 55.
Fixpoint unhex (l : list ascii) : list ascii :=
  match l with
  | a :: b :: l => byte (16 * hex_value a + hex_value b) :: unhex l
  | _ => []
  end.

(** ** Properties *)

(** [tiles lo hi spans]: the spans partition [lo .. hi] in order. *)
Fixpoint tiles (lo hi : Z) (spans : list (Z * Z)) : Prop :=
  match spans with
  | [] => lo = hi
  | (a, b) :: spans => a = lo /\ tiles b hi spans
  end.
Lemma contiguous_tiles msg lo hi spans : contiguous msg lo spans = Ok hi <-> tiles lo hi spans.
Proof.
  unfold contiguous. revert lo. induction spans as [|[a b] spans IH]; intros lo; cbn.
  - split; [by intros [=] | by intros ->].
  - destruct (Z.eqb_spec a lo) as [->|]; cbn; [rewrite IH; naive_solver|]. naive_solver.
Qed.
Lemma tiles_app lo mid hi s1 s2 : tiles lo mid s1 -> tiles mid hi s2 -> tiles lo hi (s1 ++ s2).
Proof. revert lo. induction s1 as [|[a b] s1 IH]; intros lo; cbn; [by intros -> | intros [-> ?]; auto]. Qed.

Lemma span_insert_perm k v m : span_has k m = false -> Permutation (span_insert k v m) ((k, v) :: m).
Proof.
  unfold span_has. induction m as [|[k' v'] m IH]; cbn; [done|]. rewrite orb_false_iff, Z.eqb_neq.
  intros [Hk Hm]. destruct (Z.eqb_spec k k'); [congruence|]. destruct (k <? k'); [done|].
  rewrite IH by done. apply Permutation_swap.
Qed.

Lemma obj_insert_perm {A} k (v : A) o : assoc k o = None -> Permutation (obj_insert k v o) ((k, v) :: o).
Proof.
  induction o as [|[k' v'] o IH]; cbn; [done|].
  destruct (String.eqb k k') eqn:E; [done|]. intros Ho. destruct (String.ltb k k'); [done|].
  rewrite IH by done. apply Permutation_swap.
Qed.

Section waz_facts.
Context `{ZipCrate}.

Definition local_span (e : zip_entry) : Z * Z := (header_start e, data_start e + compressed_size e).
Definition central_span (bytes : string) (e : zip_entry) : Z * Z :=
  let central := default "" (sub_bytes bytes (central_header_start e) 46) in
  (central_header_start e,
   central_header_start e + (46 + u16_at central 28 + u16_at central 30 + u16_at central 32)).

(** What one accepted entry adds to the loop state. *)
Lemma waz_entry_Ok bytes end_ dstart s item s' :
  waz_entry bytes end_ dstart s item = Ok s' ->
  exists e data, item = Ok e /\ waz_path (name_raw e) = true /\
    assoc (name_raw e) (w_files s) = None /\
    w_files s' = obj_insert (name_raw e) data (w_files s) /\
    slen data = entry_size e /\ slen data <= waz_limit (name_raw e) /\ slen data <= w_remaining s /\
    w_remaining s' = w_remaining s - slen data /\
    Permutation (w_spans s') (local_span e :: w_spans s) /\
    Permutation (w_central s') (central_span bytes e :: w_central s).
Proof.
  unfold waz_entry, waz_central. intros Hs. simplify_ok. simplify_bool.
  simplify_checked. unfold waz_bad_entry in *. simplify_bool.
  eexists _, _. split; [reflexivity|]. cbn.
  split_and!; try done; try lia.
  - by apply span_insert_perm.
  - unfold central_span.
    match goal with Hc : sub_bytes _ (central_header_start _) _ = Some _ |- _ => rewrite Hc end.
    by apply span_insert_perm.
Qed.

Definition total_size (files : PackageFiles) : Z := foldr (fun f n => slen f.2 + n) 0 files.
Lemma total_size_perm f1 f2 : Permutation f1 f2 -> total_size f1 = total_size f2.
Proof. unfold total_size. induction 1; cbn; lia. Qed.
Definition file_ok (f : string * string) : Prop := waz_path f.1 = true /\ slen f.2 <= waz_limit f.1.

(** Loop invariant of [waz_read] after the entries [pre]. *)
Definition waz_inv (bytes : string) (pre : list (result string zip_entry)) (s : waz_state) : Prop :=
  exists entries, pre = Ok <$> entries /\
    Permutation (w_spans s) (local_span <$> entries) /\
    Permutation (w_central s) (central_span bytes <$> entries) /\
    Permutation ((fun f => (f.1, slen f.2)) <$> w_files s) ((fun e => (name_raw e, entry_size e)) <$> entries) /\
    NoDup (w_files s).*1 /\ Forall file_ok (w_files s) /\
    total_size (w_files s) + w_remaining s = WAZ_LIMIT /\ 0 <= w_remaining s.

Lemma waz_inv_step bytes end_ dstart pre item s s' :
  waz_inv bytes pre s -> waz_entry bytes end_ dstart s item = Ok s' -> waz_inv bytes (pre ++ [item]) s'.
Proof.
  intros (es & -> & Hl & Hc & Hf & Hnd & Hall & Htot & Hrem)
    (e & data & -> & Hp & Hnew & Hfs & Hsz & Hlim & Hb & Hr & Hl' & Hc')%waz_entry_Ok.
  pose proof (obj_insert_perm (name_raw e) data (w_files s) Hnew) as Hins.
  exists (es ++ [e]). rewrite !fmap_app, Hr, Hfs. cbn. split_and!.
  - done.
  - rewrite Hl', Hl. apply Permutation_cons_append.
  - rewrite Hc', Hc. apply Permutation_cons_append.
  - rewrite Hins. cbn. rewrite Hsz, Hf. apply Permutation_cons_append.
  - rewrite Hins. cbn. constructor; [by apply assoc_None|done].
  - rewrite Hins. by constructor.
  - rewrite (total_size_perm _ _ Hins). cbn. unfold total_size in *. lia.
  - lia.
Qed.

Lemma waz_read_inv bytes files :
  waz_read bytes = Ok files ->
  22 <= slen bytes /\
  exists archive s dstart, zip_open bytes = Ok archive /\ waz_inv bytes (zip_entries archive) s /\
    w_files s = files /\ is_Some (assoc "manifest.json" files) /\
    tiles 0 dstart (w_spans s) /\ tiles dstart (slen bytes - 22) (w_central s) /\
    exists dirs, try_fold (fun d name => waz_ancestors (String.length name) files d name) [] (map fst files) = Ok dirs.
Proof.
  unfold waz_read. intros Hr. simplify_ok. simplify_bool. subst.
  split; [lia|]. exists a, a0, (u32_at (substring (Z.to_nat (slen bytes - 22)) 22 bytes) 16).
  rewrite !contiguous_tiles in *. split_and!; try done; [|by eexists].
  eapply (try_fold_ind _ (waz_inv bytes)); [| |done].
  - exists []. cbn. split_and!; try done; constructor.
  - intros. by eapply waz_inv_step.
Qed.

(** The ancestor loop checks every proper parent of the name. *)
Lemma waz_ancestors_clean fuel files dirs name dirs' :
  (String.length name <= fuel)%nat -> waz_ancestors fuel files dirs name = Ok dirs' ->
  forall parent rest, name = parent +:+ "/" +:+ rest -> assoc parent files = None.
Proof.
  revert dirs name. induction fuel as [|fuel IH]; intros dirs name Hf Hok parent rest ->.
  { destruct parent; cbn in Hf; lia. }
  cbn in Hok. destruct (rsplit_once "/" _) as [[h t]|] eqn:E.
  - simplify_ok. simplify_bool. apply rsplit_once_Some in E as [E Ht].
    destruct (app_sep_last "/" h t parent rest Ht (eq_sym E)) as [[-> _]|(r' & -> & ->)]; [done|].
    refine (IH _ _ _ Hok parent r' eq_refl).
    cbn in Hf. rewrite E, length_app_str in Hf. cbn in Hf. lia.
  - apply rsplit_once_None in E. unfold contains_char in E. rewrite any_byte_app in E.
    apply orb_false_iff in E as [_ E]. done.
Qed.

(** The files returned from an archive have distinct, relative, allow-listed paths, no file's path is a
    directory prefix of another's, and the manifest is among them. *)
Theorem waz_read_paths bytes files :
  waz_read bytes = Ok files ->
  NoDup files.*1 /\
  (forall name data, (name, data) ∈ files -> waz_path name = true) /\
  (forall parent rest data data', (parent +:+ "/" +:+ rest, data) ∈ files -> (parent, data') ∉ files) /\
  exists manifest, ("manifest.json", manifest) ∈ files.
Proof.
  intros (_ & archive & s & dstart & _ & Hinv & <- & Hman & _ & _ & dirs & Hdirs)%waz_read_inv.
  destruct Hinv as (es & _ & _ & _ & _ & Hnd & Hall & _ & _).
  split; [done|]. split_and!.
  - intros name data Hin. rewrite Forall_forall in Hall. by apply (Hall _ Hin).
  - intros parent rest data data' Hin Hin'.
    assert (assoc parent (w_files s) = None) as Hnone.
    { apply (list_elem_of_fmap_2 fst) in Hin. cbn in Hin.
      apply list_elem_of_split in Hin as (l1 & l2 & Hsp). change (map fst (w_files s)) with ((w_files s).*1) in Hdirs. rewrite Hsp in Hdirs.
      rewrite try_fold_app in Hdirs. cbn in Hdirs. simplify_ok.
      eapply waz_ancestors_clean; [|done|done]. done. }
    apply assoc_None in Hnone. apply Hnone. by apply (list_elem_of_fmap_2 fst) in Hin'.
  - destruct Hman as [m Hm]. exists m. by apply assoc_In.
Qed.

(** The files returned from an archive stay within the total size limit, each within the limit for its
    path, and no name is longer than 1024 bytes. *)
Theorem waz_read_budget bytes files :
  waz_read bytes = Ok files ->
  total_size files <= WAZ_LIMIT /\
  forall name data, (name, data) ∈ files -> slen data <= waz_limit name /\ slen name <= 1024.
Proof.
  intros (_ & archive & s & dstart & _ & Hinv & <- & _)%waz_read_inv.
  destruct Hinv as (es & _ & _ & _ & _ & _ & Hall & Htot & Hrem). split; [lia|].
  intros name data Hin. rewrite Forall_forall in Hall. destruct (Hall _ Hin) as [Hp Hl].
  split; [done|]. unfold waz_path in Hp. cbn in Hp. simplify_bool. lia.
Qed.

(** C33: A package archive is accepted only when its local records, central records and end record tile
    the byte string exactly, with no gap, overlap or trailing data, and the files returned are exactly
    the entries of the central directory with their declared sizes. *)
Theorem waz_read_tiles bytes files :
  waz_read bytes = Ok files ->
  exists archive entries spans,
    zip_open bytes = Ok archive /\ zip_entries archive = Ok <$> entries /\
    Permutation ((fun f => (f.1, slen f.2)) <$> files) ((fun e => (name_raw e, entry_size e)) <$> entries) /\
    Permutation spans ((local_span <$> entries) ++ (central_span bytes <$> entries)) /\
    tiles 0 (slen bytes - 22) spans.
Proof.
  intros (_ & archive & s & dstart & Hopen & Hinv & <- & _ & Ht1 & Ht2 & _)%waz_read_inv.
  destruct Hinv as (es & Hes & Hl & Hc & Hf & _).
  exists archive, es, (w_spans s ++ w_central s). split_and!; try done.
  - by rewrite Hl, Hc.
  - by eapply tiles_app.
Qed.
End waz_facts.

(** Archive names cannot leave the directory they are unpacked in. *)
Lemma split_segments_all c s p :
  forallb p (split_on c s) = true -> Forall (fun x => p x = true /\ contains_char c x = false) (split_on c s).
Proof.
  intros Hp%forallb_Forall. pose proof (split_by_segments (Ascii.eqb c) s) as Hs.
  unfold split_on in *. rewrite !Forall_forall in *. intros x Hx. split; [by apply Hp | by apply Hs].
Qed.

(** An accepted archive path consists of at most 33 components, none empty, a dot, a double dot or
    holding a separator, and is one of the fixed names or lies under public/. *)
Theorem waz_path_contained path :
  waz_path path = true ->
  join "/" (split_on "/" path) = path /\
  Forall (fun part => part <> "" /\ part <> "." /\ part <> ".." /\ contains_char "/" part = false
            /\ contains_char "\" part = false) (split_on "/" path) /\
  (length (split_on "/" path) <= 33)%nat /\
  (path ∈ ["manifest.json"; "signature.json"; "backend.wasm"; "README.md"; "CHANGELOG.md"]
   \/ exists tail, path = "public/" +:+ tail).
Proof.
  unfold waz_path. intros Hp. simplify_bool. split_and!.
  - apply join_split.
  - assert (any_byte (Ascii.eqb "\") path = false) as Hbs.
    { eapply contains_any_char; [eassumption | left]. }
    pose proof (split_segments_all _ _ _ H1) as Hall.
    apply Forall_forall. intros x Hx. rewrite Forall_forall in Hall. destruct (Hall x Hx) as [Hn Hc].
    simplify_bool. split_and!; try done. by eapply split_on_elem_any.
  - lia.
  - apply orb_true_iff in H0 as [Hm|Hs]; [left | right; by apply starts_with_iff].
    apply existsb_exists in Hm as (x & Hx & ->%String.eqb_eq). by apply list_elem_of_In.
Qed.

Section payload_facts.
Context `{Sha2}.

(** The facts about one file that the publisher's signature covers. *)
Definition signed_facts (f : string * string) : string * Z * string := (f.1, slen f.2, sha256 f.2).
Definition encodable (f : string * string) : Prop := slen f.1 < 2 ^ 32 /\ slen f.2 < 2 ^ 64.

Lemma waz_record_inj f1 f2 r1 r2 :
  (forall b, slen (sha256 b) = 32) -> encodable f1 -> encodable f2 ->
  waz_record f1 +:+ r1 = waz_record f2 +:+ r2 -> signed_facts f1 = signed_facts f2 /\ r1 = r2.
Proof.
  intros Hsha [Hn1 Hc1] [Hn2 Hc2]. unfold waz_record, signed_facts. rewrite !app_assoc_str. intros Heq.
  apply app_inv_len in Heq as [Hl Heq]; [|by rewrite !slen_le_bytes].
  apply le_bytes_inj in Hl; [|pose proof (slen_nonneg f1.1); cbn; lia|pose proof (slen_nonneg f2.1); cbn; lia].
  apply app_inv_len in Heq as [-> Heq]; [|done].
  apply app_inv_len in Heq as [Hs Heq]; [|by rewrite !slen_le_bytes].
  apply le_bytes_inj in Hs; [|pose proof (slen_nonneg f1.2); cbn; lia|pose proof (slen_nonneg f2.2); cbn; lia].
  apply app_inv_len in Heq as [-> ->]; [|by rewrite !Hsha]. by rewrite Hs.
Qed.

Lemma concat_cons x l : String.concat "" (x :: l) = x +:+ String.concat "" l.
Proof. destruct l; cbn; [by rewrite app_nil_r_str|done]. Qed.

(** The byte string that is signed determines the signed files: two file lists with the same payload
    have the same names, sizes and content digests, so a signature cannot be moved to other content. *)
Theorem waz_payload_input_inj files1 files2 :
  (forall b, slen (sha256 b) = 32) ->
  Forall encodable (waz_signed_files files1) -> Forall encodable (waz_signed_files files2) ->
  waz_payload_input files1 = waz_payload_input files2 ->
  map signed_facts (waz_signed_files files1) = map signed_facts (waz_signed_files files2).
Proof.
  intros Hsha H1 H2 Heq. unfold waz_payload_input in Heq.
  apply app_inv_head_str in Heq. injection Heq as Heq. cbn in Heq.
  revert H1 H2 Heq. generalize (waz_signed_files files1) (waz_signed_files files2). clear files1 files2.
  intros l1. induction l1 as [|f1 l1 IH]; intros [|f2 l2] H1 H2; cbn [map]; rewrite ?concat_cons.
  - done.
  - unfold waz_record. cbn. intros [=].
  - unfold waz_record. cbn. intros [=].
  - inversion H1; inversion H2; subst. intros Heq.
    apply waz_record_inj in Heq as [-> Heq]; [|done..]. f_equal. by apply IH.
Qed.
End payload_facts.
