(* ===== verification/Metadata.v ===== *)
(** * Package metadata, declarations and contents ([src/package/format.rs]) *)
From S2P Require Import Prelude RustStr Decimal Json Crates Errors Ids Manifest Waz.

Definition METHODS : list string :=
  ["get"; "head"; "post"; "put"; "patch"; "delete"; "options"; "trace"].

Definition text (value : json) (key : string) : Result string :=
  match get key value with
  | Some (JStr s) => if trim_is_empty s then Err (invalid ("missing or empty " +:+ key)) else Ok s
  | _ => Err (invalid ("missing or empty " +:+ key))
  end.

Definition release_version (value : string) : bool :=
  let parts := split_on "." value in
  Nat.eqb (length parts) 3
  && forallb (fun part =>
       negb (slen part =? 0)
       && all_bytes is_ascii_digit part
       && bool_decide (is_Some (parse_u64 part))
       && ((slen part =? 1) || negb (starts_with "0" part))) parts.

Definition valid_name (value : string) : bool :=
  (slen value <=? 63) && starts_lowercase value && all_bytes name_byte value.

(** [routes::reserved] *)
Definition reserved (path : string) : bool := String.eqb path "/std" || starts_with "/std/" path.

(** [path == prefix || path.strip_prefix(prefix).is_some_and(|t| t.starts_with('/'))] *)
Definition under (prefix path : string) : bool :=
  String.eqb path prefix
  || match strip_prefix prefix path with Some tail => starts_with "/" tail | None => false end.

Definition unknown_key (allowed : list string) (value : json) : bool :=
  match as_object value with
  | None => true
  | Some o => existsb (fun key => negb (existsb (String.eqb key) allowed)) (keys o)
  end.

Section metadata.
Context `{DhttpHome, SerdeJson, UrlCrates}.

(** The loop over the declared dependencies: the ids seen so far and the
    projected dependencies. *)
Definition add_dependency (id : string) (acc : list string * list json) (dependency : json) :
    Result (list string * list json) :=
  let '(ids, out) := acc in
  let? author := text dependency "author" in
  let? dep_name := text dependency "name" in
  let? dep_version := text dependency "version" in
  let dep_id := author +:+ "/" +:+ dep_name in
  throw (invalid "invalid, duplicate or self package dependency") when
    match as_object dependency with Some o => negb (Nat.eqb (length o) 3) | None => true end
    || is_err (valid_id dep_id)
    || negb (normalized author)
    || negb (release_version dep_version)
    || mem dep_id ids
    || String.eqb dep_id id;;
  Ok (dep_id :: ids,
      out ++ [jobj [("publisher", JStr author); ("name", JStr dep_name); ("version", JStr dep_version)]]).

(** The checks of the optional repository URL. *)
Definition check_repository (repository : json) : Result unit :=
  let? raw := ok_or (invalid "repository must be a nonempty HTTPS URL")
    (match as_str repository with Some s => if trim_is_empty s then None else Some s | None => None end) in
  let? url := ok_or (invalid "invalid repository URL") (url_parse raw) in
  let authority := match split_any ["/"; "?"; "#"]%char (substring 8 (String.length raw - 8) raw) with
                   | a :: _ => a | [] => "" end in
  throw (invalid "repository must be an HTTPS URL with a host and without credentials") when
    negb (String.eqb (url_scheme url) "https")
    || negb (bool_decide (is_Some (url_host url)))
    || negb (match sub_bytes raw 0 8 with Some s => eq_ignore_ascii_case s "https://" | None => false end)
    || String.eqb authority ""
    || negb (String.eqb (url_username url) "")
    || bool_decide (is_Some (url_password url))
    || contains_char "@" authority
    || existsb is_whitespace (chars raw);;
  Ok tt.

Definition runtime_paths_disagree (manifest : json) (files : PackageFiles) (has_lib has_app : bool) : bool :=
  (has_lib && negb (is_str manifest.["backend"] "backend.wasm"))
  || (has_app && negb (is_str manifest.["frontend"] "public"))
  || negb (Bool.eqb has_lib (bool_decide (is_Some (assoc "backend.wasm" files))))
  || negb (Bool.eqb has_app (existsb (fun f => starts_with "public/" (fst f)) files))
  || (has_app && negb (bool_decide (is_Some (assoc "public/index.html" files))))
  || (negb has_lib && negb has_app).

Definition package_metadata (files : PackageFiles) : Result json :=
  let? bytes := ok_or (invalid "missing manifest.json") (assoc "manifest.json" files) in
  let? manifest := ok_or (invalid "invalid package manifest") (from_slice bytes) in
  throw (invalid "unsupported WAZ manifest format or field") when
    negb (is_str manifest.["format"] "waz/1")
    || unknown_key ["format"; "package"; "dependencies"; "backend"; "frontend"] manifest;;
  let package := manifest.["package"] in
  throw (invalid "unknown WAZ package field") when
    unknown_key ["author"; "name"; "version"; "title"; "description"; "license"; "release-notes"; "repository"] package;;
  let? publisher := text package "author" in
  let? name := text package "name" in
  let id := publisher +:+ "/" +:+ name in
  let? _ := map_err (fun _ => invalid "invalid full package identity") (valid_id id) in
  throw (invalid "author must be normalized") when negb (normalized publisher);;
  let? version := text package "version" in
  throw (invalid "version must be MAJOR.MINOR.PATCH") when negb (release_version version);;
  let? dependencies :=
    ok_or (invalid "dependencies requires an explicit array with at most 100 packages")
      (match as_array manifest.["dependencies"] with
       | Some v => if Z.of_nat (length v) <=? 100 then Some v else None
       | None => None
       end) in
  let? (_, dependencies_out) := try_fold (add_dependency id) ([], []) dependencies in
  let has_lib := bool_decide (is_Some (get "backend" manifest)) in
  let has_app := bool_decide (is_Some (get "frontend" manifest)) in
  throw (invalid "WAZ manifest runtime paths disagree with package files") when
    runtime_paths_disagree manifest files has_lib has_app;;
  let? title := text package "title" in
  let? description := text package "description" in
  let? license := text package "license" in
  let? changelog := text package "release-notes" in
  let value := jobj [("id", JStr id); ("publisher", JStr publisher); ("name", JStr name);
    ("version", JStr version); ("title", JStr title); ("description", JStr description);
    ("license", JStr license); ("changelog", JStr changelog); ("dependencies", JArr dependencies_out);
    ("has_lib", JBool has_lib); ("has_app", JBool has_app)] in
  let value := if has_app then set_key "entry" (JStr "/") value else value in
  match get "repository" package with
  | Some repository =>
      let? _ := check_repository repository in
      Ok (set_key "repository" repository value)
  | None => Ok value
  end.
End metadata.

(** ** Access declarations of the OpenAPI document *)
Section declarations.
Context `{AccessControl}.

(** [x.get(modern)] with the deprecated declaration as fallback; both at
    once are an error. *)
Definition one_of (duplicate : error) (modern legacy : option json) : Result (option json) :=
  match modern, legacy with
  | Some _, Some _ => Err duplicate
  | Some g, None => Ok (Some g)
  | None, g => Ok g
  end.

(** The loop over [initial-access] rules: the grantees seen so far. *)
Definition add_grantee (grantees : list string) (rule : json) : Result (list string) :=
  throw (invalid "initial-access requires only grantee and effect") when
    match as_object rule with Some o => negb (Nat.eqb (length o) 2) | None => true end;;
  let? grantee := text rule "grantee" in
  throw (invalid "invalid grantee") when negb (grantee_ok grantee);;
  let? effect := text rule "effect" in
  throw (invalid "invalid effect") when negb (effect_ok effect);;
  throw (invalid "duplicate initial-access grantee") when mem grantee grantees;;
  Ok (grantee :: grantees).
Definition check_initial_access (initial : json) : Result unit :=
  let? rules := ok_or (invalid "initial-access must be an array") (as_array initial) in
  let? grantees := try_fold add_grantee [] rules in
  throw (invalid "conflicting wildcard grantees") when
    mem "*?" grantees && (mem "**" grantees || mem "?" grantees);;
  Ok tt.

(** [operations] and [annotated] of [validate_declarations]. *)
Record annotations := Annotations {
  a_operations : gmap string (string * string);
  a_annotated : gmap string (gset string) }.
Definition group_insert (group id : string) (m : gmap string (gset string)) : gmap string (gset string) :=
  <[group := {[id]} ∪ default ∅ (m !! group)]> m.

(** One [method] of one path item. *)
Definition declare_operation (path : string) (item : json) (s : annotations) (method : string) : Result annotations :=
  match get method item with
  | None => Ok s
  | Some operation =>
      let? id := text operation "operationId" in
      let? _ := text operation "summary" in
      throw (invalid "duplicate operationId") when bool_decide (is_Some (a_operations s !! id));;
      let operations := <[id := (path, method)]> (a_operations s) in
      let op_extension := operation.["x-pishoo"] in
      throw (invalid "template operations are unsupported") when
        match as_object op_extension with
        | Some o => existsb (fun key => negb (existsb (String.eqb key) ["access-group"; "initial-access"])) (keys o)
        | None => false
        end;;
      let? group := one_of (invalid "duplicate access-group declarations")
                      (get "x-access-group" operation) (get "access-group" op_extension) in
      let? annotated :=
        match group with
        | Some group =>
            let? group := ok_or (invalid "invalid access-group")
              (match as_str group with Some s => if valid_name s then Some s else None | None => None end) in
            Ok (group_insert group id (a_annotated s))
        | None => Ok (a_annotated s)
        end in
      let? _ := match get "initial-access" op_extension with
                | Some initial => check_initial_access initial
                | None => Ok tt
                end in
      Ok (Annotations operations annotated)
  end.
Definition declare_path (s : annotations) (entry : string * json) : Result annotations :=
  let '(path, item) := entry in
  throw (invalid "business API cannot contain host mounting prefixes") when
    existsb (fun mount => under mount path) ["/api"; "/app"];;
  try_fold (declare_operation path item) s METHODS.

(** [declared], [members] and [app_group]. *)
Record groups := Groups {
  g_declared : gmap string (gset string); g_members : gset string; g_app : bool }.
Definition add_member (operations : gmap string (string * string)) (name : string) (s : groups) (id : json) :
    Result groups :=
  let? id := ok_or (invalid "unknown group operation")
    (match as_str id with Some id => if bool_decide (is_Some (operations !! id)) then Some id else None | None => None end) in
  throw (invalid "overlapping or duplicate group operation") when bool_decide (id ∈ g_members s);;
  Ok (Groups (group_insert name id (g_declared s)) ({[id]} ∪ g_members s) (g_app s)).
Definition check_group_title (group : json) : Result unit :=
  match as_object group.["title"] with
  | Some titles =>
      throw (invalid "localized group title requires en and zh-CN") when
        negb (Nat.eqb (length titles) 2) || negb (bool_decide (is_Some (assoc "en" titles)))
        || negb (bool_decide (is_Some (assoc "zh-CN" titles)));;
      let? _ := text group.["title"] "en" in
      let? _ := text group.["title"] "zh-CN" in Ok tt
  | None => let? _ := text group "title" in Ok tt
  end.
Definition declare_group (operations : gmap string (string * string)) (s : groups) (entry : string * json) : Result groups :=
  let '(name, group) := entry in
  throw (invalid "invalid group name") when negb (valid_name name);;
  let? _ := check_group_title group in
  throw (invalid "group app must be a boolean") when
    match get "app" group with Some (JBool _) => false | Some _ => true | None => false end;;
  let? s := if is_true group.["app"]
            then throw (invalid "app entry belongs to multiple groups") when g_app s;;
                 Ok (Groups (g_declared s) (g_members s) true)
            else Ok s in
  let? ids := ok_or (invalid "group must contain operations")
    (match as_array group.["operations"] with Some (i :: l) => Some (i :: l) | _ => None end) in
  try_fold (add_member operations name) s ids.

Definition validate_declarations (document : json) : Result unit :=
  let? _ := text document.["info"] "title" in
  let extension := document.["x-pishoo"] in
  throw (invalid "external templates are not part of store v1") when bool_decide (is_Some (get "templates" extension));;
  throw (invalid "OpenAPI cannot declare package metadata") when
    match as_object extension with
    | Some o => existsb (fun k => negb (String.eqb k "access-groups")) (keys o)
    | None => false
    end;;
  let? groups := one_of (invalid "duplicate access-groups declarations")
                   (get "x-access-groups" document) (get "access-groups" extension) in
  let? paths := ok_or (invalid "paths must be an object") (as_object document.["paths"]) in
  let? s := try_fold declare_path (Annotations ∅ ∅) paths in
  let? declared :=
    match groups with
    | Some groups =>
        let? groups := ok_or (invalid "access-groups must be an object") (as_object groups) in
        let? g := try_fold (declare_group (a_operations s)) (Groups ∅ ∅ false) groups in
        Ok (g_declared g)
    | None => Ok ∅
    end in
  throw (invalid "access-groups disagree with operation annotations") when
    negb (bool_decide (declared = a_annotated s));;
  Ok tt.
End declarations.

(** ** The package as a whole *)
Section contents.
Context `{DhttpHome, SerdeJson, UrlCrates, Sha2, Base64, Wasmparser, Oas3, X509, AccessControl}.

Definition package_openapi (files : PackageFiles) : Result string :=
  let? backend := ok_or (invalid "package has no backend") (assoc "backend.wasm" files) in
  let? (document, _) := try_fold (openapi_payload (fun _ => invalid "malformed backend")) (None, 0) (parse_all backend) in
  ok_or (invalid "missing embedded OpenAPI") document.

Definition component_magic : string :=
  String (byte 0) ("asm" +:+ of_bytes [byte 13; byte 0; byte 1; byte 0]).
Definition check_backend (backend : string) : Result unit :=
  throw (invalid "backend must be a WASM component") when negb (starts_with component_magic backend);;
  try_fold (fun _ item =>
    let? (payload, _) := map_err (fun _ => invalid "malformed backend") item in
    match payload with
    | CustomSection name _ _ =>
        throw (invalid "backend must not embed a second publisher signature") when
          String.eqb name "pishoo:signature";; Ok tt
    | _ => Ok tt
    end) tt (parse_all backend).

Definition native_prefixes : list string :=
  ["/acl"; "/contact"; "/contacts"; "/sys"; "/pishoo"; "/file"; "/dhttp"].
Definition api_paths (api : openapi) : list string := map fst (default [] (paths api)).

Definition validate_contents (files : PackageFiles) : Result json :=
  let? metadata := package_metadata files in
  throw (invalid "package name conflicts with the native std namespace") when is_str metadata.["name"] "std";;
  let publisher := unwrap_str metadata.["publisher"] in
  throw (invalid "ordinary Lib name conflicts with the frontend app namespace") when
    is_str metadata.["name"] "app" && is_true metadata.["has_lib"] && negb (is_standard_author publisher);;
  let? _ := match assoc "backend.wasm" files with
            | Some backend => check_backend backend
            | None => Ok tt
            end in
  if bool_decide (is_Some (assoc "backend.wasm" files)) then
    let? raw := package_openapi files in
    let? api := validate_openapi raw in
    throw (invalid "standard Lib conflicts with a reserved API path") when
      is_standard_author publisher
      && existsb (fun path => reserved path || existsb (fun prefix => under prefix path) native_prefixes) (api_paths api);;
    throw (invalid "standard Lib paths must stay under its package name") when
      is_standard_author publisher
      && existsb (fun path => negb (under ("/" +:+ unwrap_str metadata.["name"]) path)) (api_paths api);;
    let? document := ok_or (invalid "invalid OpenAPI JSON") (from_slice raw) in
    throw (invalid "OpenAPI version differs from package version") when
      negb (json_eqb document.["info"].["version"] metadata.["version"]);;
    let? _ := validate_declarations document in
    let groups := match get "x-access-groups" document with
                  | Some g => Some g
                  | None => get "access-groups" document.["x-pishoo"]
                  end in
    throw (invalid "app capability requires this package's public resources") when
      negb (is_true metadata.["has_app"])
      && match groups with
         | Some g => match as_object g with
                     | Some o => existsb (fun e => is_true (snd e).["app"]) o
                     | None => false
                     end
         | None => false
         end;;
    Ok metadata
  else Ok metadata.

Definition decode_signer (value : json) : Result string :=
  let? text := ok_or (invalid "invalid certificate encoding") (as_str value) in
  let? der := ok_or (invalid "invalid certificate encoding") (b64_decode text) in
  throw (invalid "empty signer certificate") when slen der =? 0;;
  Ok der.

Definition verify_package_signature (files : PackageFiles) (document : json) : Result unit :=
  let? data := ok_or (invalid "missing or oversized publisher signature")
    (match assoc "signature.json" files with
     | Some data => if slen data <=? 64 * 1024 then Some data else None
     | None => None
     end) in
  let? envelope := ok_or (invalid "invalid signature envelope") (from_slice data) in
  throw (invalid "unsupported signature envelope") when
    match as_object envelope with Some o => negb (Nat.eqb (length o) 3) | None => true end
    || negb (bool_decide (as_u64 envelope.["version"] = Some 1))
    || match as_array envelope.["certificates"] with Some (_ :: _) => false | _ => true end;;
  let? encoded := text envelope "signature" in
  let? signature := ok_or (invalid "invalid signature encoding") (b64_decode encoded) in
  throw (invalid "invalid signature size") when (slen signature =? 0) || (slen signature >? 8192);;
  let? certificates := try_map decode_signer (default [] (as_array envelope.["certificates"])) in
  let? (remaining, certificate) := ok_or (invalid "invalid signer certificate")
    (parse_certificate (hd "" certificates)) in
  throw (invalid "trailing signer certificate data") when negb (slen remaining =? 0);;
  let publisher := unwrap_str document.["publisher"] in
  let? _ := ok_or (invalid "invalid signer owner_hash") (extract_ski certificates) in
  let? named := names_publisher certificate publisher in
  throw (invalid "signer certificate and publisher disagree") when negb named;;
  let input := "pishoo-waz-signature-v1" +:+ String (byte 0) EmptyString
               +:+ of_bytes (unhex (bytes_of (waz_payload files))) in
  let? verified := ok_or (invalid "unsupported publisher signing key")
    (verify_signature (public_key certificate) input signature) in
  throw (policy "package_signature_invalid" 422) when negb verified;;
  Ok tt.
End contents.

(** ** Versions *)
Definition version_part_ok (part : string) : bool :=
  negb (slen part =? 0)
  && all_bytes is_ascii_digit part
  && bool_decide (is_Some (parse_u64 part))
  && ((slen part =? 1) || negb (starts_with "0" part)).

Lemma version_part part :
  version_part_ok part = true <-> exists n, 0 <= n <= u64_max /\ part = show_Z n.
Proof.
  unfold version_part_ok. split.
  - intros Hp. simplify_bool.
    match goal with H : is_Some _ |- _ => destruct H as [n Hn] end.
    assert (canonical part) as Hc.
    { unfold canonical. split_and!; [|done|].
      - intros ->. done.
      - match goal with H : (_ || _)%bool = true |- _ => apply orb_true_iff in H as [H|H] end; simplify_bool; auto. }
    apply parse_canonical in Hn as [-> ?]; eauto.
  - intros (n & Hn & ->). destruct (show_Z_canonical n) as (Hne & Hd & Hz); [lia|].
    rewrite Hd. unfold parse_u64. rewrite parse_show by done.
    rewrite (proj2 (Z.eqb_neq _ 0)) by (by rewrite slen_zero). cbn.
    destruct Hz as [->| ->]; [done|]. by rewrite orb_true_r.
Qed.

Lemma show_Z_no_dot n : 0 <= n -> contains_char "." (show_Z n) = false.
Proof.
  intros Hn. destruct (show_Z_canonical n Hn) as (_ & Hd & _).
  eapply all_any_byte; [|exact Hd]. intros a Ha. by destruct (Ascii.eqb_spec "." a) as [<-|].
Qed.

(** A text is a release version exactly when it is three 64-bit unsigned decimal numbers in canonical
    form joined by dots. *)
Theorem release_version_iff value :
  release_version value = true <->
  exists major minor patch,
    0 <= major <= u64_max /\ 0 <= minor <= u64_max /\ 0 <= patch <= u64_max /\
    value = show_Z major +:+ "." +:+ show_Z minor +:+ "." +:+ show_Z patch.
Proof.
  unfold release_version. fold version_part_ok. split.
  - intros [Hlen Hall]%andb_true_iff. apply Nat.eqb_eq in Hlen.
    destruct (split_on "." value) as [|a [|b [|c [|]]]] eqn:E; try done.
    apply forallb_Forall in Hall. rewrite !Forall_cons, !version_part in Hall.
    destruct Hall as ((x & ? & ->) & (y & ? & ->) & (z & ? & ->) & _).
    exists x, y, z. split_and!; try lia. rewrite <- (join_split "." value), E. done.
  - intros (x & y & z & ? & ? & ? & ->).
    assert (split_on "." (show_Z x +:+ "." +:+ show_Z y +:+ "." +:+ show_Z z) = [show_Z x; show_Z y; show_Z z]) as ->.
    { change ("." +:+ show_Z y +:+ "." +:+ show_Z z) with (String "." (show_Z y +:+ String "." (show_Z z))).
      rewrite !split_on_app by (apply show_Z_no_dot; lia).
      unfold split_on. by rewrite split_by_no_sep by (apply show_Z_no_dot; lia). }
    apply andb_true_iff. split; [done|]. apply forallb_Forall.
    repeat constructor; apply version_part; eauto.
Qed.

(** ** Metadata of an accepted manifest *)
Definition dependency_id (dependency : json) : string :=
  unwrap_str dependency.["publisher"] +:+ "/" +:+ unwrap_str dependency.["name"].

Section metadata_facts.
Context `{DhttpHome, SerdeJson, UrlCrates}.

Definition dependency_ok (dependency : json) : Prop :=
  valid_id (dependency_id dependency) = Ok tt /\
  normalized (unwrap_str dependency.["publisher"]) = true /\
  release_version (unwrap_str dependency.["version"]) = true.

Definition dependency_inv (id : string) (pre : list json) (s : list string * list json) : Prop :=
  s.1 = rev (map dependency_id s.2) /\ NoDup s.1 /\ id ∉ s.1 /\
  Forall dependency_ok s.2 /\ length s.2 = length pre.

Lemma add_dependency_inv id pre d s s' :
  dependency_inv id pre s -> add_dependency id s d = Ok s' -> dependency_inv id (pre ++ [d]) s'.
Proof.
  destruct s as [ids out]. intros (Hids & Hnd & Hself & Hok & Hlen) Hs. cbn in *.
  unfold add_dependency in Hs. simplify_ok. simplify_bool.
  match goal with H : mem _ _ = false |- _ => apply mem_false in H end.
  match goal with H : is_err (valid_id ?i) = false |- _ => destruct (valid_id i) as [[]|] eqn:Hv; [clear H|done] end.
  unfold dependency_inv. cbn. rewrite map_app, rev_app_distr, !length_app, Hlen. cbn.
  split_and!.
  - done.
  - by constructor.
  - intros [Heq|Hin]%elem_of_cons; [by subst|done].
  - apply Forall_app. split; [done|]. constructor; [|done]. unfold dependency_ok. done.
  - done.
Qed.

Lemma add_dependencies id l s :
  try_fold (add_dependency id) ([], []) l = Ok s -> dependency_inv id l s.
Proof.
  apply try_fold_ind; [|intros; by eapply add_dependency_inv].
  repeat split; try constructor. apply not_elem_of_nil.
Qed.

Lemma package_metadata_facts files value :
  package_metadata files = Ok value ->
  exists publisher name dependencies,
    str_at value "publisher" = Some publisher /\ normalized publisher = true /\
    str_at value "name" = Some name /\
    str_at value "id" = Some (publisher +:+ "/" +:+ name) /\ valid_id (publisher +:+ "/" +:+ name) = Ok tt /\
    release_version (unwrap_str value.["version"]) = true /\
    value.["dependencies"] = JArr dependencies /\ Z.of_nat (length dependencies) <= 100 /\
    NoDup (map dependency_id dependencies) /\ (publisher +:+ "/" +:+ name) ∉ map dependency_id dependencies /\
    Forall dependency_ok dependencies /\
    value.["has_lib"] = JBool (bool_decide (is_Some (assoc "backend.wasm" files))) /\
    value.["has_app"] = JBool (existsb (fun f => starts_with "public/" (fst f)) files) /\
    (is_true value.["has_lib"] || is_true value.["has_app"] = true) /\
    (is_true value.["has_app"] = true -> is_Some (assoc "public/index.html" files)).
Proof.
  unfold package_metadata. intros Hp. simplify_ok.
  match goal with H : valid_id _ = Ok ?u |- _ => destruct u end.
  match goal with H : try_fold _ _ _ = Ok ?s |- _ => destruct s as [ids deps]; apply add_dependencies in H as (Hids & Hnd & Hself & Hok & Hlen) end.
  cbn in Hids, Hself, Hok, Hlen. subst ids. cbn in Hnd. rewrite <- Permutation_rev in Hnd.
  rewrite <- Permutation_rev in Hself. simplify_ok.
  unfold runtime_paths_disagree in *. simplify_bool.
  repeat match goal with Hb : Bool.eqb _ _ = true |- _ => apply Bool.eqb_prop in Hb; rewrite Hb in * end.
  set (base := jobj _) in Hp. set (app := existsb _ files) in *.
  assert (forall k, k <> "entry" -> k <> "repository" -> value.[k] = base.[k]) as Hval.
  { intros k Hk1 Hk2. destruct (get "repository" _); destruct app; simplify_ok;
      unfold base, index; cbn;
      by rewrite ?(proj2 (String.eqb_neq _ _) Hk1), ?(proj2 (String.eqb_neq _ _) Hk2). }
  exists a1, a2, deps. unfold str_at. rewrite !Hval by done. unfold base.
  split_and!; try done; [lia| |].
  - cbn. unfold is_true. cbn. by destruct (bool_decide _), app.
  - unfold is_true. cbn. intros Happ. destruct app; [|done]. cbn in *. by simplify_bool.
Qed.

(** C38: Package metadata is accepted only in its canonical form: normalised publisher, valid
    identifier, a three-number version, at most 100 distinct well-formed dependencies without the
    package itself, and has_lib and has_app flags that match the files, at least one set, and an App
    with an index page. *)
Theorem package_metadata_sound files value :
  package_metadata files = Ok value ->
  exists publisher name dependencies,
    str_at value "publisher" = Some publisher /\ normalized publisher = true /\
    str_at value "name" = Some name /\
    str_at value "id" = Some (publisher +:+ "/" +:+ name) /\ valid_id (publisher +:+ "/" +:+ name) = Ok tt /\
    release_version (unwrap_str value.["version"]) = true /\
    value.["dependencies"] = JArr dependencies /\ Z.of_nat (length dependencies) <= 100 /\
    NoDup (map dependency_id dependencies) /\ (publisher +:+ "/" +:+ name) ∉ map dependency_id dependencies /\
    Forall dependency_ok dependencies /\
    value.["has_lib"] = JBool (bool_decide (is_Some (assoc "backend.wasm" files))) /\
    value.["has_app"] = JBool (existsb (fun f => starts_with "public/" (fst f)) files) /\
    (is_true value.["has_lib"] || is_true value.["has_app"] = true) /\
    (is_true value.["has_app"] = true -> is_Some (assoc "public/index.html" files)).
Proof. apply package_metadata_facts. Qed.
End metadata_facts.

(** ** Groups and annotations agree *)
Definition in_group (m : gmap string (gset string)) (group id : string) : Prop :=
  exists ids, m !! group = Some ids /\ id ∈ ids.
Definition item_operations (item : json) : list json := omap (fun m => get m item) METHODS.
Definition document_operations (paths : list (string * json)) : list json :=
  flat_map (fun e => item_operations e.2) paths.
Definition access_group (operation : json) : option json :=
  match get "x-access-group" operation with
  | Some g => Some g
  | None => get "access-group" operation.["x-pishoo"]
  end.
(** The operation [id] is annotated with [group]. *)
Definition annotated_with (paths : list (string * json)) (group id : string) : Prop :=
  exists operation, operation ∈ document_operations paths /\
    str_at operation "operationId" = Some id /\ access_group operation = Some (JStr group).
(** The group object lists the operation [id]. *)
Definition lists_operation (declared : list (string * json)) (group id : string) : Prop :=
  exists body ids, (group, body) ∈ declared /\ as_array body.["operations"] = Some ids /\ JStr id ∈ ids.

Lemma in_group_insert group id m g i :
  in_group (group_insert group id m) g i <-> in_group m g i \/ (g = group /\ i = id).
Proof.
  unfold in_group, group_insert. destruct (decide (g = group)) as [->|Hne].
  - rewrite lookup_insert_eq. split.
    + intros (ids & [= <-] & Hi). destruct (m !! group) eqn:E; cbn in Hi; set_solver.
    + intros [(ids & E & Hi)|[_ ->]]; eexists; split; try done; [rewrite E; cbn|]; set_solver.
  - rewrite lookup_insert_ne by done. naive_solver.
Qed.
Lemma document_operations_snoc pre path item :
  document_operations (pre ++ [(path, item)]) = document_operations pre ++ item_operations item.
Proof. unfold document_operations. rewrite flat_map_app. cbn [flat_map snd]. by rewrite app_nil_r. Qed.
Lemma one_of_Some e modern legacy g :
  one_of e modern legacy = Ok g -> g = match modern with Some x => Some x | None => legacy end.
Proof. unfold one_of. destruct modern, legacy; congruence. Qed.
Lemma text_Some value key s : text value key = Ok s -> str_at value key = Some s.
Proof.
  unfold text, str_at, index. destruct (get key value) as [[]|]; cbn; try done.
  destruct (trim_is_empty s0); by intros [= ->].
Qed.

Section declaration_facts.
Context `{AccessControl}.

Definition annotations_inv (ops : list json) (s : annotations) : Prop :=
  (forall id, is_Some (a_operations s !! id) <-> id ∈ omap (fun op => str_at op "operationId") ops) /\
  NoDup (omap (fun op => str_at op "operationId") ops) /\
  (forall g id, in_group (a_annotated s) g id <->
    exists op, op ∈ ops /\ str_at op "operationId" = Some id /\ access_group op = Some (JStr g)).

Lemma declare_operation_inv path item ops s m s' :
  annotations_inv ops s -> declare_operation path item s m = Ok s' ->
  annotations_inv (ops ++ option_list (get m item)) s'.
Proof.
  intros (Hops & Hnd & Hann) Hs. unfold declare_operation in Hs.
  destruct (get m item) as [op|]; [|simplify_ok; by rewrite app_nil_r].
  simplify_ok.
  match goal with H : text op "operationId" = Ok ?i |- _ => rename i into id; apply text_Some in H; rename H into Hid end.
  match goal with H : one_of _ _ _ = Ok ?g |- _ => apply one_of_Some in H; fold (access_group op) in H; subst g end.
  simplify_bool.
  assert (id ∉ omap (fun op => str_at op "operationId") ops) as Hfresh.
  { intros Hin. apply Hops in Hin. match goal with H : _ !! id = None |- _ => rewrite H in Hin end. by destruct Hin. }
  unfold annotations_inv. cbn. rewrite omap_app. cbn. rewrite Hid. split_and!.
  - intros i. rewrite lookup_insert_is_Some, elem_of_app, list_elem_of_singleton, Hops.
    destruct (decide (id = i)); naive_solver.
  - apply NoDup_app. split; [done|]. split; [|apply NoDup_singleton].
    intros x Hx ->%list_elem_of_singleton. done.
  - intros g i.
    match goal with H : match access_group op with _ => _ end = Ok ?a |- _ =>
      assert (in_group a g i <-> in_group (a_annotated s) g i \/ (access_group op = Some (JStr g) /\ i = id)) as -> end.
    { destruct (access_group op) as [group|] eqn:Eg; simplify_ok; [|naive_solver].
      match goal with He : as_str group = Some _ |- _ => apply as_str_Some in He as -> end.
      rewrite in_group_insert. naive_solver. }
    rewrite Hann. setoid_rewrite elem_of_app. setoid_rewrite list_elem_of_singleton. naive_solver.
Qed.

Lemma declare_path_inv pre s entry s' :
  annotations_inv (document_operations pre) s -> declare_path s entry = Ok s' ->
  annotations_inv (document_operations (pre ++ [entry])) s'.
Proof.
  destruct entry as [path item]. intros Hinv Hs. unfold declare_path in Hs. simplify_ok.
  rewrite document_operations_snoc.
  refine (try_fold_ind (declare_operation path item)
    (fun ms s => annotations_inv (document_operations pre ++ omap (fun m => get m item) ms) s) s _ _ METHODS s' Hs).
  - cbn. by rewrite app_nil_r.
  - intros ms m t t' IH Ht. rewrite omap_app, app_assoc. eapply declare_operation_inv in IH; [|done].
    cbn. by destruct (get m item).
Qed.

Lemma declare_paths paths s :
  try_fold declare_path (Annotations ∅ ∅) paths = Ok s -> annotations_inv (document_operations paths) s.
Proof.
  apply (try_fold_ind declare_path (fun pre => annotations_inv (document_operations pre))).
  - split_and!; cbn.
    + intros id. rewrite lookup_empty. split; [by intros []|by intros ?%not_elem_of_nil].
    + constructor.
    + intros g id. split; [intros (? & Hl & _); by rewrite lookup_empty in Hl|].
      by intros (? & ?%not_elem_of_nil & _).
  - intros. by eapply declare_path_inv.
Qed.

Definition groups_inv (pre : list (string * json)) (s : groups) : Prop :=
  forall g id, in_group (g_declared s) g id <-> lists_operation pre g id.

Lemma add_members ops name ids s s' :
  try_fold (add_member ops name) s ids = Ok s' ->
  forall g id, in_group (g_declared s') g id <-> in_group (g_declared s) g id \/ (g = name /\ JStr id ∈ ids).
Proof.
  apply (try_fold_ind (add_member ops name) (fun pre t => forall g id, in_group (g_declared t) g id <->
    in_group (g_declared s) g id \/ (g = name /\ JStr id ∈ pre))).
  - intros g id. split; [by left|]. by intros [?|[_ ?%not_elem_of_nil]].
  - intros pre a t t' IH Ht g id. unfold add_member in Ht. simplify_ok. cbn.
    match goal with He : as_str a = Some _ |- _ => apply as_str_Some in He as -> end.
    rewrite in_group_insert, IH, elem_of_app, list_elem_of_singleton. naive_solver.
Qed.

Lemma declare_group_inv ops pre s entry s' :
  groups_inv pre s -> declare_group ops s entry = Ok s' -> groups_inv (pre ++ [entry]) s'.
Proof.
  destruct entry as [name body]. intros Hinv Hs g id. unfold declare_group in Hs. simplify_ok.
  match goal with H : (if is_true _ then _ else _) = Ok ?t |- _ =>
    assert (g_declared t = g_declared s) as Hd by (destruct (is_true _); simplify_ok; done) end.
  match goal with H : try_fold _ _ ?l = Ok _ |- _ =>
    assert (as_array body.["operations"] = Some l) as Hl;
    [destruct (as_array body.["operations"]) as [[]|]; by simplify_ok|];
    rewrite (add_members _ _ _ _ _ H), Hd, (Hinv g id) end.
  unfold lists_operation. setoid_rewrite elem_of_app. setoid_rewrite list_elem_of_singleton.
  split.
  - intros [(b & ids & ? & ? & ?)|[-> Hin]]; eauto 10.
  - intros (b & ids & [Hin|[= -> ->]] & Ha & Hj); [left; eauto|right]. rewrite Ha in Hl. by injection Hl as <-.
Qed.

(** Declared access groups and operation annotations agree both ways: an operation is listed in a group
    exactly when it is annotated with it, and operation ids are unique in the document. *)
Theorem validate_declarations_agree document :
  validate_declarations document = Ok tt ->
  exists paths, as_object document.["paths"] = Some paths /\
    NoDup (omap (fun op => str_at op "operationId") (document_operations paths)) /\
    match (match get "x-access-groups" document with
           | Some g => Some g
           | None => get "access-groups" document.["x-pishoo"]
           end) with
    | Some groups => exists declared, as_object groups = Some declared /\
        forall group id, lists_operation declared group id <-> annotated_with paths group id
    | None => forall group id, ~ annotated_with paths group id
    end.
Proof.
  unfold validate_declarations. intros Hv. simplify_ok.
  match goal with H : one_of _ _ _ = Ok ?g |- _ => apply one_of_Some in H; subst g end.
  match goal with H : as_object document.["paths"] = Some ?p |- _ => exists p end. split; [done|].
  match goal with H : try_fold declare_path _ _ = Ok _ |- _ => apply declare_paths in H as (_ & Hnd & Hann) end.
  split; [done|]. simplify_bool. subst.
  destruct (match get "x-access-groups" document with Some _ => _ | None => _ end) as [groups|].
  - simplify_ok. eexists. split; [done|]. intros group id. unfold annotated_with. rewrite <- Hann.
    match goal with H : try_fold (declare_group _) _ _ = Ok ?s, Hd : g_declared ?s = _ |- _ =>
      rewrite <- Hd; refine (iff_sym (try_fold_ind _ groups_inv _ _ _ _ _ H group id)) end.
    + intros g i. split; [intros (? & Hl & _); cbn in Hl; by rewrite lookup_empty in Hl|].
      by intros (? & ? & ?%not_elem_of_nil & _).
    + intros. by eapply declare_group_inv.
  - intros g i Ha. simplify_ok. unfold annotated_with in Ha. apply Hann in Ha as (? & Hl & _).
    match goal with He : ∅ = _ |- _ => rewrite <- He in Hl end. by rewrite lookup_empty in Hl.
Qed.
End declaration_facts.

(** ** Where a package may serve its API *)
Section contents_facts.
Context `{DhttpHome, SerdeJson, UrlCrates, Sha2, Base64, Wasmparser, Oas3, X509, AccessControl}.

(** No path the native routes own. *)
Definition outside_native (path : string) : Prop :=
  reserved path = false /\ Forall (fun prefix => under prefix path = false) native_prefixes.

(** A package with a backend is accepted only when the backend is a component whose embedded OpenAPI
    document passes validation, has consistent declarations and the version of the package, and a
    package of the standard author declares only routes under its own name and outside the native ones. *)
Theorem validate_contents_backend files metadata backend :
  validate_contents files = Ok metadata -> assoc "backend.wasm" files = Some backend ->
  starts_with component_magic backend = true /\
  exists raw api document,
    package_openapi files = Ok raw /\ validate_openapi raw = Ok api /\ from_slice raw = Some document /\
    validate_declarations document = Ok tt /\
    document.["info"].["version"] = metadata.["version"] /\
    str_at metadata "name" <> Some "std" /\
    (is_standard_author (unwrap_str metadata.["publisher"]) = true ->
     Forall (fun path => outside_native path /\ under ("/" +:+ unwrap_str metadata.["name"]) path = true) (api_paths api)).
Proof.
  unfold validate_contents. intros Hv Hb. rewrite Hb in Hv. simplify_ok.
  rewrite (bool_decide_true (is_Some (Some backend))) in Hv by done.
  match goal with H : check_backend _ = Ok _ |- _ => unfold check_backend in H end.
  simplify_ok. simplify_bool. split; [done|].
  match goal with H : json_eqb _ _ = true |- _ => apply json_eqb_eq in H end.
  do 3 eexists. split_and!; try done.
  - match goal with H : validate_declarations _ = Ok ?u |- _ => by destruct u end.
  - intros Hstd%as_str_Some. unfold is_str in *. rewrite Hstd in *. done.
  - intros Hstd. rewrite Hstd in *. cbn [andb] in *.
    repeat match goal with H : existsb _ _ = false |- _ => apply negb_existsb in H end.
    apply Forall_and. split;
      match goal with Hall : Forall _ _ |- _ =>
        refine (Forall_impl _ _ _ Hall _); intros path Hp; cbn beta in Hp; simplify_bool;
        first [done | split; [done | by apply negb_existsb]]
      end.
Qed.
End contents_facts.
