(* ===== verification/Signing.v ===== *)
(** * Developer trust, publication receipts and revocation lists
      ([src/package/signing.rs])

    The system clock ([now]), the pinned root certificate ([root_der]) and the
    state of the CRL directory are arguments; a CRL directory is a finite map
    from file names to bytes. *)
From S2P Require Import Prelude RustStr Decimal Json Crates Errors Ids Manifest Waz Metadata.

(** [store::STORE_NAME] and [store::STORE_OWNER] of a release build. *)
Definition STORE_NAME : string := "store.dhttp.net".
Definition STORE_OWNER : string := "ffc3e50e1dfb7baca1cc07a7cbfcf8cb34a9bf5a9c25024fcf9a9786bb230746".

(** [2..=3].contains(&len) *)
Definition chain_length {A} (l : list A) : bool :=
  (2 <=? Z.of_nat (length l)) && (Z.of_nat (length l) <=? 3).
Definition contains_chain_length (v : json) : option (list json) :=
  match as_array v with
  | Some chain => if chain_length chain then Some chain else None
  | None => None
  end.

(** [BigUint::to_bytes_be] *)
Fixpoint be_digits (fuel : nat) (n : N) (acc : list Z) : list Z :=
  match fuel with
  | O => acc
  | S fuel => let acc := Z.of_N (n mod 256) :: acc in
              if N.eqb (n / 256) 0 then acc else be_digits fuel (n / 256) acc
  end.
Definition to_bytes_be (n : N) : list Z := be_digits (S (N.to_nat (N.log2 n))) n [].
(** [Vec<u8>::cmp] and the derived order of [Option]. *)
Fixpoint bytes_cmp (a b : list Z) : comparison :=
  match a, b with
  | [], [] => Eq
  | [], _ :: _ => Lt
  | _ :: _, [] => Gt
  | x :: a, y :: b => match Z.compare x y with Eq => bytes_cmp a b | c => c end
  end.
Definition opt_bytes_gt (a b : option (list Z)) : bool :=
  match a, b with
  | Some _, None => true
  | Some a, Some b => match bytes_cmp a b with Gt => true | _ => false end
  | None, _ => false
  end.
(** The length-prefixed number of [validate_crl]. *)
Definition ordered (n : N) : list Z := Z.of_nat (length (to_bytes_be n)) :: to_bytes_be n.

Section signing.
Context `{DhttpHome, SerdeJson, UrlCrates, Sha2, Base64, Wasmparser, Oas3, X509, AccessControl, Webpki, ZipCrate}.
Variable root_der : string.

(** *** Certificate chain of a package *)
Definition developer_certificate_required : error := policy "developer_certificate_required" 422.
Definition decode_with (bad : error) (value : json) : Result string :=
  let? text := ok_or bad (as_str value) in ok_or bad (b64_decode text).
Definition certificates (files : PackageFiles) : Result (list string) :=
  let bad := developer_certificate_required in
  let? data := ok_or bad (assoc "signature.json" files) in
  let? envelope := ok_or bad (from_slice data) in
  let? chain := ok_or bad (contains_chain_length envelope.["certificates"]) in
  try_map (decode_with bad) chain.

Definition untrusted : error := policy "signing_certificate_untrusted" 422.
Definition parse_complete (bad : error) (der : string) : Result certificate :=
  let? (remaining, cert) := ok_or bad (parse_certificate der) in
  throw bad when negb (slen remaining =? 0);;
  Ok cert.
(** [.map_err(|_| bad())?.ok_or_else(bad)?] on an extension. *)
Definition extension {A} (bad : error) (e : ext A) : Result A :=
  let? found := ok_or bad e in ok_or bad found.

(** One of the first two certificates of the chain: leaf and issuer. *)
Definition check_certificate (index : Z) (cert : certificate) : Result unit :=
  throw untrusted when
    negb (String.eqb (key_algorithm cert) "1.2.840.10045.2.1")
    || negb (bool_decide (key_parameters cert = Some "1.3.132.0.34"))
    || negb (String.eqb (signature_algorithm cert) "1.2.840.10045.4.3.3");;
  let? bc := extension untrusted (constraints cert) in
  let? ku := extension untrusted (usage cert) in
  let? eku := extension untrusted (extended cert) in
  throw developer_certificate_required when
    negb (bc_critical bc)
    || negb (ku_critical ku)
    || negb (eku_code_signing eku)
    || eku_any eku
    || negb (Bool.eqb (eku_server_auth eku) (eku_client_auth eku))
    || eku_email eku
    || eku_time_stamping eku
    || eku_ocsp eku
    || negb (eku_other_empty eku)
    || ((index =? 0) && (bc_ca bc || bool_decide (is_Some (bc_path_len bc)) || negb (ku_flags ku =? 1)))
    || ((index =? 1) && (negb (bc_ca bc) || negb (bool_decide (bc_path_len bc = Some 0))
                         || negb (Z.land (ku_flags ku) 33 =? 33)
                         || negb (Z.land (ku_flags ku) (Z.lxor u16_max 97) =? 0)));;
  Ok tt.
Definition check_indexed (index : Z) (cert : certificate) : Result Z :=
  let? _ := check_certificate index cert in Ok (index + 1).

Definition identity_mismatch : error := policy "signing_identity_mismatch" 403.

Definition verify_chain_with_root (chain : list string) (domain : string) (at_ : Z) : Result unit :=
  let bad := untrusted in
  throw bad when negb (chain_length chain) || (at_ <? 0);;
  let? parsed := try_map (parse_complete bad) chain in
  let? _ := try_fold check_indexed 0 (take 2 parsed) in
  let? leaf_cert := ok_or panicked (head parsed) in
  let? names := extension bad (alt_names leaf_cert) in
  throw identity_mismatch when
    match names with [DNSName name] => negb (String.eqb name domain) | _ => true end
    || negb (normalized domain);;
  throw identity_mismatch when
    match common_names leaf_cert with
    | [name] => negb (bool_decide (name = Some domain))
    | _ => true
    end;;
  let? ski := ok_or bad (extract_ski chain) in
  throw bad when negb (client_and_server ski);;
  throw bad when (Nat.eqb (length chain) 3) && negb (bool_decide (chain !! 2%nat = Some root_der));;
  throw bad when negb (anchor_ok root_der);;
  let? leaf := ok_or panicked (head chain) in
  throw bad when negb (end_entity_ok leaf);;
  throw bad when negb (verify_for_usage leaf (take 1 (drop 1 chain)) root_der at_ CodeSigning);;
  Ok tt.

(** [verify_chain]: the pinned root of a release build. *)
Definition verify_chain := verify_chain_with_root.

Definition facts (files : PackageFiles) (domain : string) (at_ : Z) : Result json :=
  let? chain := certificates files in
  let? _ := verify_chain chain domain at_ in
  let? chain0 := ok_or panicked (head chain) in
  let? (_, leaf) := ok_or panicked (parse_certificate chain0) in
  let? ski := ok_or identity_mismatch (extract_ski chain) in
  let? chain1 := ok_or panicked (chain !! 1%nat) in
  Ok (jobj [("leaf_fingerprint_sha256", JStr (hex_lower (sha256 chain0)));
            ("issuer_id", JStr (hex_lower (sha256 chain1)));
            ("serial_number", JStr (to_ascii_uppercase (hex_lower (raw_serial leaf))));
            ("ski", JStr (ski_text ski)); ("sequence", JInt (sequence ski));
            ("leaf_der", JStr (b64_encode chain0));
            ("author_owner_hash", JStr (owner_hash ski));
            ("valid_not_before", JInt (not_before leaf)); ("valid_not_after", JInt (not_after leaf))]).

(** *** [format::read_package_at] *)
Definition read_package_at (bytes : string) (at_ : Z) : Result PackageFiles :=
  let? files := map_err invalid (waz_read bytes) in
  let? metadata := validate_contents files in
  let? chain := certificates files in
  let? publisher := ok_or panicked (as_str metadata.["publisher"]) in
  let? _ := verify_chain chain publisher at_ in
  let? _ := verify_package_signature files metadata in
  Ok files.
Definition read_package (now : Z) (bytes : string) : Result PackageFiles := read_package_at bytes now.

(** *** Publication receipts *)
Definition publication_invalid : error := policy "package_publication_invalid" 422.
Definition expected_receipt (metadata : json) (at_ : Z) : json :=
  jobj [("format", JStr "pishoo-publication/1"); ("registry", JStr STORE_NAME);
        ("registry_owner_hash", JStr STORE_OWNER);
        ("author", metadata.["author"]); ("name", metadata.["name"]); ("version", metadata.["version"]);
        ("package_sha256", metadata.["package_sha256"]); ("size", metadata.["size"]);
        ("author_owner_hash", metadata.["author_owner_hash"]);
        ("leaf_fingerprint_sha256", metadata.["signature"].["leaf_fingerprint_sha256"]);
        ("issuer_id", metadata.["signature"].["issuer_id"]); ("verified_at", JInt at_)].
Definition receipt_prefix : string := "pishoo-publication-receipt-v1" +:+ String (byte 0) EmptyString.

Definition verify_receipt_with_root (metadata : json) (at_ : Z) : Result unit :=
  let bad := publication_invalid in
  let receipt := metadata.["publication_receipt"] in
  let? payload := decode_with bad receipt.["payload"] in
  throw bad when slen payload >? 16 * 1024;;
  let? value := ok_or bad (from_slice payload) in
  throw bad when negb (json_eqb value (expected_receipt metadata at_));;
  let? encoded := ok_or bad (contains_chain_length receipt.["certificates"]) in
  let? chain := try_map (decode_with bad) encoded in
  throw bad when (Nat.eqb (length chain) 3) && negb (bool_decide (chain !! 2%nat = Some root_der));;
  throw bad when negb (anchor_ok root_der);;
  let? leaf := ok_or panicked (head chain) in
  throw bad when negb (end_entity_ok leaf);;
  throw bad when at_ <? 0;;
  throw bad when negb (verify_for_usage leaf (take 1 (drop 1 chain)) root_der at_ ServerAuth);;
  throw bad when negb (valid_for_name leaf STORE_NAME);;
  let? ski := ok_or bad (extract_ski chain) in
  throw bad when negb (String.eqb (owner_hash ski) STORE_OWNER);;
  let? cert := parse_complete bad leaf in
  let? signature := decode_with bad receipt.["signature"] in
  let? verified := ok_or bad (verify_signature (public_key cert) (receipt_prefix +:+ payload) signature) in
  throw bad when negb verified;;
  Ok tt.
Definition verify_receipt (now : Z) (metadata : json) (at_ : Z) : Result unit :=
  throw publication_invalid when
    (at_ <=? 0) || (at_ >? now) || negb (is_str metadata.["signature"].["purpose"] "code_signing");;
  verify_receipt_with_root metadata at_.

(** *** Revocation lists *)
Definition revocation_list_invalid : error := policy "signing_revocation_list_invalid" 422.
Definition crl_limit : Z := 4 * 1024 * 1024.
(** [KeyUsage::crl_sign]: bit 6 of the flags. *)
Definition crl_sign (ku : key_usage) : bool := Z.testbit (ku_flags ku) 6.

(** The authenticated list, before its number is looked at. *)
Definition authenticate_crl (bytes : string) (issuer : certificate) : Result crl :=
  let bad := revocation_list_invalid in
  let? (rest, list) := ok_or bad (parse_crl bytes) in
  throw bad when negb (slen rest =? 0) || negb (String.eqb (crl_issuer list) (subject issuer));;
  let? ku := ok_or bad (usage issuer) in
  throw bad when
    match ku with Some ku => negb (crl_sign ku) | None => true end
    || negb (String.eqb (crl_algorithm list) "1.2.840.10045.4.3.3")
    || negb (tbs_algorithm_same list)
    || negb (extensions_ok list)
    || critical_extensions list
    || existsb rev_critical (revoked_certificates list);;
  let? verified := ok_or bad (verify_signature (public_key issuer) (tbs_bytes list) (crl_signature list)) in
  throw bad when negb verified;;
  Ok list.
Definition revokes (list : crl) (leaf : certificate) : bool :=
  existsb (fun e => String.eqb (rev_serial e) (raw_serial leaf)) (revoked_certificates list).
Definition stale (list : crl) (now : Z) : bool :=
  (last_update list >? now)
  || match next_update list with
     | Some t => (t <=? now) || (t <=? last_update list)
     | None => true
     end.

Definition validate_crl (bytes : string) (chain : list string) (now : Z) (enforce : bool) : Result (list Z) :=
  let bad := revocation_list_invalid in
  throw bad when slen bytes >? crl_limit;;
  throw bad when negb (bool_decide (is_Some (parse_crl bytes)));;
  let? chain1 := ok_or panicked (chain !! 1%nat) in
  let? (_, issuer) := ok_or bad (parse_certificate chain1) in
  let? chain0 := ok_or panicked (chain !! 0%nat) in
  let? (_, leaf) := ok_or bad (parse_certificate chain0) in
  let? list := authenticate_crl bytes issuer in
  let? number := ok_or bad (crl_number list) in
  throw bad when Z.of_nat (length (to_bytes_be number)) >? 20;;
  if enforce then
    throw (policy "signing_certificate_revoked" 403) when revokes list leaf;;
    throw (policy "signing_revocation_list_stale" 503) when stale list now;;
    Ok (ordered number)
  else Ok (ordered number).

(** Failures of the file system during one import: reading the cached list,
    writing the temporary file (before [persist]), syncing the directory
    (after it). *)
Record faults := Faults { f_read : option error; f_write : option error; f_sync : option error }.
Definition no_faults : faults := Faults None None None.
Definition fault (f : option error) : Result unit := match f with Some e => Err e | None => Ok tt end.

Definition transpose {A B} (f : A -> Result B) (o : option A) : Result (option B) :=
  match o with Some a => let? b := f a in Ok (Some b) | None => Ok None end.

Definition crl_path (chain1 : string) : string := hex_lower (sha256 chain1) +:+ ".crl".

(** Everything before the first write: the path, the cached and the supplied
    list, and the numbers of both. *)
Record crl_plan := CrlPlan {
  p_chain : list string; p_path : string;
  p_cached : option string; p_incoming : option string;
  p_old : option (list Z); p_new : option (list Z) }.
Definition plan_revocations (flt : faults) (files : PackageFiles) (directory : gmap string string)
    (supplied : json) (now : Z) : Result crl_plan :=
  let bad := revocation_list_invalid in
  let? chain := certificates files in
  let? chain1 := ok_or panicked (chain !! 1%nat) in
  let path := crl_path chain1 in
  let? _ := fault (f_read flt) in
  let cached := directory !! path in
  throw bad when match cached with Some bytes => slen bytes >? crl_limit | None => false end;;
  let? incoming := transpose (fun s => ok_or bad (b64_decode s)) (as_str supplied) in
  let? old := transpose (fun b => validate_crl b chain now false) cached in
  let? new := transpose (fun b => validate_crl b chain now false) incoming in
  Ok (CrlPlan chain path cached incoming old new).
Definition select_crl (p : crl_plan) : option string :=
  match p_old p, p_new p with
  | Some old, Some new => match bytes_cmp old new with Lt => p_incoming p | _ => p_cached p end
  | _, Some _ => p_incoming p
  | _, None => p_cached p
  end.

Definition check_revocations (flt : faults) (files : PackageFiles) (directory : gmap string string)
    (supplied : json) (now : Z) : gmap string string * Result unit :=
  match plan_revocations flt files directory supplied now with
  | Err e => (directory, Err e)
  | Ok p =>
      match select_crl p with
      | None => (directory, Ok tt)
      | Some bytes =>
          let store := bool_decide (p_incoming p = Some bytes) && opt_bytes_gt (p_new p) (p_old p) in
          let enforce := let? _ := validate_crl bytes (p_chain p) now true in Ok tt in
          if store then
            match fault (f_write flt) with
            | Err e => (directory, Err e)
            | Ok _ =>
                let directory := <[p_path p := bytes]> directory in
                match fault (f_sync flt) with
                | Err e => (directory, Err e)
                | Ok _ => (directory, enforce)
                end
            end
          else (directory, enforce)
      end
  end.
End signing.

(** ** CRL numbers: length-first byte order is numeric order *)
Fixpoint be_value (l : list Z) : Z :=
  match l with [] => 0 | x :: l => x * 256 ^ Z.of_nat (length l) + be_value l end.
Definition octet (x : Z) : Prop := 0 <= x < 256.

Lemma be_value_snoc l d : be_value (l ++ [d]) = be_value l * 256 + d.
Proof.
  induction l as [|x l IH]; cbn [app be_value]; [cbn; lia|].
  rewrite IH, length_app. cbn [length]. rewrite Nat2Z.inj_add, Z.pow_add_r by lia. cbn. lia.
Qed.
Lemma be_value_bound l : Forall octet l -> 0 <= be_value l < 256 ^ Z.of_nat (length l).
Proof.
  induction 1 as [|x l Hx _ IH]; cbn [be_value length]; [cbn; lia|].
  rewrite Nat2Z.inj_succ, Z.pow_succ_r by lia. unfold octet in Hx. nia.
Qed.

(** Minimal numerals: no leading zero, except for zero itself. *)
Definition minimal (l : list Z) : Prop := l = [0] \/ exists x l', l = x :: l' /\ x <> 0.

Lemma be_digits_spec fuel n acc :
  (N.to_nat (N.log2 n) < fuel)%nat ->
  exists l, be_digits fuel n acc = l ++ acc /\ be_value l = Z.of_N n /\ Forall octet l /\ minimal l.
Proof.
  revert n acc. induction fuel as [|fuel IH]; intros n acc Hf; [lia|]. cbn [be_digits].
  pose proof (N.div_mod n 256 ltac:(lia)) as Hdm. pose proof (N.mod_lt n 256 ltac:(lia)) as Hlt.
  revert Hdm Hlt. generalize (n mod 256)%N as r. generalize (n / 256)%N as q. intros q r Hdm Hlt.
  assert (octet (Z.of_N r)) as Hd by (unfold octet; lia).
  destruct (N.eqb_spec q 0) as [H0|H0].
  - exists [Z.of_N r]. split_and!; [done|cbn; lia|by constructor|].
    destruct (decide (Z.of_N r = 0)) as [->|]; [by left|right; eauto].
  - destruct (IH q (Z.of_N r :: acc)) as (l & -> & Hv & Ho & Hm).
    { assert (N.log2 q < N.log2 n)%N; [|lia].
      apply N.log2_lt_pow2; [lia|]. pose proof (N.log2_spec n ltac:(lia)) as [_ Hup].
      rewrite N.pow_succ_r' in Hup. lia. }
    exists (l ++ [Z.of_N r]). rewrite <- app_assoc, be_value_snoc, Hv. split_and!; [done|lia| |].
    + apply Forall_app. split; [done|]. by constructor.
    + right. destruct Hm as [->|(x & l' & -> & Hx)]; [cbn in Hv; lia|]. cbn. eauto.
Qed.
Lemma to_bytes_be_spec n :
  be_value (to_bytes_be n) = Z.of_N n /\ Forall octet (to_bytes_be n) /\ minimal (to_bytes_be n).
Proof.
  destruct (be_digits_spec (S (N.to_nat (N.log2 n))) n []) as (l & Hl & H); [lia|].
  unfold to_bytes_be. by rewrite Hl, app_nil_r.
Qed.

Lemma bytes_cmp_value a b :
  length a = length b -> Forall octet a -> Forall octet b -> bytes_cmp a b = (be_value a ?= be_value b).
Proof.
  revert b. induction a as [|x a IH]; intros [|y b] Hlen Ha Hb; try done. cbn in Hlen |- *.
  inversion Ha as [|? ? Hx Ha']; inversion Hb as [|? ? Hy Hb']; subst. injection Hlen as Hlen.
  rewrite (IH b Hlen Ha' Hb'), Hlen.
  pose proof (be_value_bound a Ha') as Ba. pose proof (be_value_bound b Hb') as Bb. rewrite Hlen in Ba.
  set (p := 256 ^ Z.of_nat (length b)) in *. unfold octet in *.
  symmetry. destruct (Z.compare_spec x y) as [->|Hlt|Hgt].
  - destruct (Z.compare_spec (be_value a) (be_value b)).
    + by apply Z.compare_eq_iff; f_equal.
    + apply Z.compare_lt_iff. lia.
    + apply Z.compare_gt_iff. lia.
  - apply Z.compare_lt_iff. nia.
  - apply Z.compare_gt_iff. nia.
Qed.
Lemma minimal_shorter a b :
  (length a < length b)%nat -> Forall octet a -> Forall octet b -> minimal a -> minimal b -> be_value a < be_value b.
Proof.
  intros Hlen Ha Hb Hma [->|(x & l & -> & Hx)].
  - destruct Hma as [->|(y & l & -> & _)]; cbn in Hlen; lia.
  - inversion Hb as [|? ? Ho Hl]; subst. apply be_value_bound in Ha, Hl. unfold octet in Ho. cbn in Hlen |- *.
    assert (256 ^ Z.of_nat (length a) <= 256 ^ Z.of_nat (length l)) by (apply Z.pow_le_mono_r; lia). nia.
Qed.

Lemma ordered_cmp n m : bytes_cmp (ordered n) (ordered m) = (n ?= m)%N.
Proof.
  unfold ordered. cbn [bytes_cmp].
  destruct (to_bytes_be_spec n) as (Hn & On & Mn), (to_bytes_be_spec m) as (Hm & Om & Mm).
  rewrite <- N2Z.inj_compare, <- Hn, <- Hm.
  destruct (Z.compare_spec (Z.of_nat (length (to_bytes_be n))) (Z.of_nat (length (to_bytes_be m)))) as [E|L|G].
  - apply bytes_cmp_value; [lia|done..].
  - symmetry. apply Z.compare_lt_iff, minimal_shorter; try done. lia.
  - symmetry. apply Z.compare_gt_iff, minimal_shorter; try done. lia.
Qed.

Lemma ordered_inj n m : ordered n = ordered m -> n = m.
Proof.
  intros Heq. assert (bytes_cmp (ordered n) (ordered m) = Eq) as He
    by (rewrite Heq, ordered_cmp; apply N.compare_refl).
  rewrite ordered_cmp in He. by apply N.compare_eq in He.
Qed.

(** The byte order on padded list numbers is the order of the numbers. *)
Theorem crl_order_numeric old new :
  opt_bytes_gt (Some (ordered new)) (Some (ordered old)) = true <-> (old < new)%N.
Proof.
  cbn [opt_bytes_gt]. rewrite ordered_cmp.
  destruct (N.compare_spec new old); split; intros; try done; lia.
Qed.

(** ** Revocations *)
Section revocation_facts.
Context `{DhttpHome, SerdeJson, UrlCrates, Sha2, Base64, Wasmparser, Oas3, X509, AccessControl, Webpki, ZipCrate}.

Definition revoked_error : error := policy "signing_certificate_revoked" 403.
Definition stale_error : error := policy "signing_revocation_list_stale" 503.

(** [bytes] is a list signed by the issuer of [chain], numbered [n]; [leaf] is
    the signer the list is held against. *)
Definition authentic (bytes : string) (chain : list string) (list : crl) (leaf : certificate) (n : N) : Prop :=
  slen bytes <= crl_limit /\
  (exists c0 c1 rest0 rest1 issuer, chain !! 0%nat = Some c0 /\ chain !! 1%nat = Some c1 /\
     parse_certificate c1 = Some (rest1, issuer) /\ parse_certificate c0 = Some (rest0, leaf) /\
     authenticate_crl bytes issuer = Ok list) /\
  crl_number list = Some n /\ Z.of_nat (length (to_bytes_be n)) <= 20.

Lemma authenticate_parses bytes issuer list :
  authenticate_crl bytes issuer = Ok list -> is_Some (parse_crl bytes).
Proof. unfold authenticate_crl. intros Ha. destruct (parse_crl bytes); by simplify_ok. Qed.

Lemma validate_crl_authentic bytes chain list leaf n now enforce :
  authentic bytes chain list leaf n ->
  validate_crl bytes chain now enforce =
  if enforce && revokes list leaf then Err revoked_error
  else if enforce && stale list now then Err stale_error else Ok (ordered n).
Proof.
  intros (Hlen & (c0 & c1 & r0 & r1 & issuer & Hc0 & Hc1 & P1 & P0 & Ha) & Hn & Hsz).
  unfold validate_crl. rewrite Z.gtb_ltb, (proj2 (Z.ltb_ge crl_limit (slen bytes))) by done.
  rewrite (bool_decide_true _ (authenticate_parses _ _ _ Ha)). cbn [negb].
  rewrite Hc1, Hc0. cbn. rewrite P1, P0. cbn. rewrite Ha, Hn. cbn.
  rewrite Z.gtb_ltb, (proj2 (Z.ltb_ge 20 _)) by done. by destruct enforce.
Qed.
Lemma authentic_inv bytes chain now enforce l :
  validate_crl bytes chain now enforce = Ok l ->
  exists list leaf n, authentic bytes chain list leaf n /\ l = ordered n.
Proof.
  unfold validate_crl. intros Hv.
  assert (forall (b1 b2 : bool) (e1 e2 : error) (x y : Datatypes.list Z),
    (if enforce then if b1 then Err e1 else if b2 then Err e2 else Ok x else Ok x) = Ok y -> y = x) as Hend
    by (intros [] [] *; destruct enforce; congruence).
  repeat (simplify_ok; match goal with p : string * certificate |- _ => destruct p end).
  simplify_ok. apply Hend in Hv as ->. simplify_bool.
  do 3 eexists. split; [|done]. split; [lia|]. split_and!; [|eassumption|lia].
  do 5 eexists. by split_and!.
Qed.

Lemma authentic_number bytes chain list leaf n list' leaf' n' :
  authentic bytes chain list leaf n -> authentic bytes chain list' leaf' n' -> ordered n = ordered n'.
Proof.
  intros Ha%(validate_crl_authentic _ _ _ _ _ 0 false) Hb%(validate_crl_authentic _ _ _ _ _ 0 false).
  cbn in *. congruence.
Qed.

Lemma transpose_Ok {A B} (f : A -> Result B) o r :
  transpose f o = Ok r ->
  match o with Some a => exists b, f a = Ok b /\ r = Some b | None => r = None end.
Proof. destruct o; cbn; intros; simplify_ok; eauto. Qed.

(** What a plan guarantees about the two lists. *)
Lemma plan_Ok flt files directory supplied now p :
  plan_revocations flt files directory supplied now = Ok p ->
  certificates files = Ok (p_chain p) /\
  (exists c1, p_chain p !! 1%nat = Some c1 /\ p_path p = crl_path c1) /\
  p_cached p = directory !! p_path p /\
  match p_cached p with
  | Some b => exists list leaf n, authentic b (p_chain p) list leaf n /\ p_old p = Some (ordered n)
  | None => p_old p = None
  end /\
  match p_incoming p with
  | Some b => exists list leaf n, authentic b (p_chain p) list leaf n /\ p_new p = Some (ordered n)
  | None => p_new p = None /\ as_str supplied = None
  end.
Proof.
  unfold plan_revocations. intros Hp. simplify_ok. cbn.
  match goal with Ht : transpose _ (as_str supplied) = Ok ?i |- _ =>
    assert (i = None -> as_str supplied = None) by (apply transpose_Ok in Ht; destruct (as_str supplied); naive_solver) end.
  repeat match goal with Ht : transpose (fun b => validate_crl b _ _ _) ?o = Ok _ |- _ =>
    apply transpose_Ok in Ht; destruct o end;
  split_and!; eauto;
  repeat match goal with Hx : exists b, _ |- _ => destruct Hx as (? & (? & ? & ? & ? & ->)%authentic_inv & ->) end;
  eauto 10.
Qed.

(** The list that is selected is numbered at least as high as the cached one,
    and it is the one on disk afterwards unless writing it failed. *)
Lemma select_newest flt files directory supplied now p :
  plan_revocations flt files directory supplied now = Ok p ->
  match select_crl p with
  | Some bytes => exists list leaf n, authentic bytes (p_chain p) list leaf n /\
      (forall old, p_old p = Some (ordered old) -> (old <= n)%N) /\
      (bool_decide (p_incoming p = Some bytes) && opt_bytes_gt (p_new p) (p_old p) = false ->
       directory !! p_path p = Some bytes)
  | None => directory !! p_path p = None /\ as_str supplied = None
  end.
Proof.
  intros (Hc & _ & Hcached & Hold & Hnew)%plan_Ok. unfold select_crl. rewrite Hcached in Hold |- *.
  assert (forall n old, Some (ordered n) = Some (ordered old) -> (old <= n)%N) as Hle.
  { intros n old Heq%(inj Some)%ordered_inj. lia. }
  destruct (directory !! p_path p) as [cb|], (p_incoming p) as [ib|].
  - destruct Hold as (lo & fo & no & Ao & ->), Hnew as (ln & fn & nn & An & ->).
    cbn [opt_bytes_gt]. rewrite !ordered_cmp, (N.compare_antisym no nn).
    destruct (N.compare_spec no nn) as [->|Hlt|Hgt]; cbn.
    + exists lo, fo, nn. rewrite andb_false_r. auto.
    + exists ln, fn, nn. split_and!; [done| |by rewrite bool_decide_true].
      intros old Heq. apply Hle in Heq. lia.
    + exists lo, fo, no. rewrite andb_false_r. auto.
  - destruct Hold as (lo & fo & no & Ao & ->), Hnew as [-> _]. exists lo, fo, no. auto.
  - destruct Hnew as (ln & fn & nn & An & ->). rewrite Hold. exists ln, fn, nn.
    rewrite bool_decide_true by done. done.
  - destruct Hnew as [-> Hs]. by rewrite Hold.
Qed.

(** C17: Whatever the outcome and whichever file operation fails, the revocation check never replaces an
    authentic cached list by an older one: afterwards the directory still holds an authentic list for
    that issuer whose number is no smaller, and no other file of the directory is touched. *)
Theorem check_revocations_monotonic flt files directory supplied now directory' r chain c1 bytes list leaf old :
  check_revocations flt files directory supplied now = (directory', r) ->
  certificates files = Ok chain -> chain !! 1%nat = Some c1 ->
  directory !! crl_path c1 = Some bytes -> authentic bytes chain list leaf old ->
  (forall path, path <> crl_path c1 -> directory' !! path = directory !! path) /\
  exists bytes' list' leaf' new, directory' !! crl_path c1 = Some bytes' /\
    authentic bytes' chain list' leaf' new /\ (old <= new)%N.
Proof.
  intros Hr Hchain Hc1 Hb Ha.
  assert (directory' = directory ->
    (forall path, path <> crl_path c1 -> directory' !! path = directory !! path) /\
    exists bytes' list' leaf' new, directory' !! crl_path c1 = Some bytes' /\
      authentic bytes' chain list' leaf' new /\ (old <= new)%N) as Hsame.
  { intros ->. split; [done|]. exists bytes, list, leaf, old. split_and!; [done..|lia]. }
  unfold check_revocations in Hr.
  destruct (plan_revocations flt files directory supplied now) as [p|] eqn:Hp; [|apply Hsame; congruence].
  pose proof (select_newest _ _ _ _ _ _ Hp) as Hsel.
  apply plan_Ok in Hp as (Hc & (c1' & Hc1' & Hpath) & Hcached & Hold & _).
  rewrite Hchain in Hc. injection Hc as Hc. rewrite <- Hc in *. rewrite Hc1 in Hc1'. injection Hc1' as <-.
  rewrite Hpath in *. rewrite Hcached, Hb in Hold. destruct Hold as (l & f & n & Al & Hold).
  destruct (select_crl p) as [sel|]; [|apply Hsame; congruence].
  destruct Hsel as (ls & fs & ns & As & Hnew & _).
  destruct (bool_decide _ && _); [|apply Hsame; congruence].
  assert (directory' = directory \/ directory' = <[crl_path c1 := sel]> directory) as [->| ->].
  { destruct (f_write flt), (f_sync flt); cbn in Hr; injection Hr as <- _; auto. }
  { by apply Hsame. }
  split; [intros path Hne; by rewrite lookup_insert_ne|].
  exists sel, ls, fs, ns. rewrite lookup_insert_eq. split_and!; [done..|].
  apply Hnew. rewrite Hold. f_equal. apply authentic_number with (1 := Al) (2 := Ha).
Qed.

(** C16: When the revocation check accepts a signed package, the revocation list left in the directory
    for the signing issuer is authentic, currently valid and does not list the leaf certificate; with no
    list in the directory none was supplied either and the directory is unchanged. *)
Theorem check_revocations_enforced flt files directory supplied now directory' chain c1 :
  check_revocations flt files directory supplied now = (directory', Ok tt) ->
  certificates files = Ok chain -> chain !! 1%nat = Some c1 ->
  match directory' !! crl_path c1 with
  | Some bytes => exists list leaf n, authentic bytes chain list leaf n /\
      Forall (fun e => rev_serial e <> raw_serial leaf) (revoked_certificates list) /\
      last_update list <= now /\
      exists next, next_update list = Some next /\ now < next /\ last_update list < next
  | None => directory' = directory /\ as_str supplied = None
  end.
Proof.
  intros Hr Hchain Hc1. unfold check_revocations in Hr.
  destruct (plan_revocations flt files directory supplied now) as [p|] eqn:Hp; [|congruence].
  pose proof (select_newest _ _ _ _ _ _ Hp) as Hsel.
  apply plan_Ok in Hp as (Hc & (c1' & Hc1' & Hpath) & _).
  rewrite Hchain in Hc. injection Hc as Hc. rewrite <- Hc in *. rewrite Hc1 in Hc1'. injection Hc1' as <-.
  rewrite Hpath in *.
  destruct (select_crl p) as [sel|]; [|injection Hr as <-; destruct Hsel as [-> Hs]; done].
  destruct Hsel as (list & leaf & n & Ha & _ & Hkeep).
  rewrite (validate_crl_authentic _ _ _ _ _ now true Ha) in Hr. cbn [andb] in Hr.
  assert (directory' !! crl_path c1 = Some sel /\ revokes list leaf = false /\ stale list now = false)
    as (-> & Hrev & Hst).
  { destruct (bool_decide _ && _); [destruct (f_write flt), (f_sync flt); cbn in Hr; try congruence|];
      injection Hr as <- Hr; simplify_ok; rewrite ?lookup_insert_eq; auto. }
  exists list, leaf, n. split; [done|]. unfold stale in Hst. destruct (next_update list) as [t|]; simplify_bool; [|done].
  apply negb_existsb in Hrev. split.
  { eapply Forall_impl; [exact Hrev|]. cbn. intros e He. by apply String.eqb_neq in He. }
  split; [lia|]. exists t. split; [done|lia].
Qed.

Definition opt_authentic (chain : list string) (o : option string) (n : option N) : Prop :=
  match o, n with
  | Some b, Some n => exists list leaf, authentic b chain list leaf n
  | None, None => True
  | _, _ => False
  end.
Lemma plan_compute files directory supplied now chain c1 incoming old new :
  certificates files = Ok chain -> chain !! 1%nat = Some c1 ->
  transpose (fun s => ok_or revocation_list_invalid (b64_decode s)) (as_str supplied) = Ok incoming ->
  opt_authentic chain (directory !! crl_path c1) old -> opt_authentic chain incoming new ->
  plan_revocations no_faults files directory supplied now =
    Ok (CrlPlan chain (crl_path c1) (directory !! crl_path c1) incoming (ordered <$> old) (ordered <$> new)).
Proof.
  intros Hc Hc1 Hin Hold Hnew. unfold plan_revocations. rewrite Hc. cbn. rewrite Hc1. cbn. rewrite Hin.
  assert (forall o n, opt_authentic chain o n ->
    transpose (fun b => validate_crl b chain now false) o = Ok (ordered <$> n) /\
    match o with Some bytes => slen bytes >? crl_limit | None => false end = false) as Hgo.
  { intros [b|] [m|] Ho; try done. destruct Ho as (list & leaf & Ha). cbn.
    rewrite (validate_crl_authentic _ _ _ _ _ now false Ha). destruct Ha as (Hlen & _).
    by rewrite Z.gtb_ltb, (proj2 (Z.ltb_ge _ _)). }
  destruct (Hgo _ _ Hold) as [-> ->], (Hgo _ _ Hnew) as [-> _]. done.
Qed.

(** A supplied newer list that revokes the leaf is stored although the check fails, and every later
    check with no list supplied fails too. *)
Theorem check_revocations_sticky files directory supplied now now' chain c1 bytes list leaf n :
  certificates files = Ok chain -> chain !! 1%nat = Some c1 ->
  as_str supplied ≫= b64_decode = Some bytes -> authentic bytes chain list leaf n ->
  revokes list leaf = true ->
  (directory !! crl_path c1 = None \/
   exists cached list' leaf' old, directory !! crl_path c1 = Some cached /\
     authentic cached chain list' leaf' old /\ (old < n)%N) ->
  check_revocations no_faults files directory supplied now =
    (<[crl_path c1 := bytes]> directory, Err revoked_error) /\
  check_revocations no_faults files (<[crl_path c1 := bytes]> directory) JNull now' =
    (<[crl_path c1 := bytes]> directory, Err revoked_error).
Proof.
  intros Hc Hc1 Hs Ha Hrev Hcached.
  destruct (as_str supplied) as [enc|] eqn:Henc; [|done]. cbn in Hs.
  assert (exists old, opt_authentic chain (directory !! crl_path c1) old /\
    opt_bytes_gt (Some (ordered n)) (ordered <$> old) = true) as (old & Hold & Hgt).
  { destruct Hcached as [->|(cached & l' & f' & old & -> & Ha' & Hlt)]; [by exists None|].
    exists (Some old). split; [by exists l', f'|]. cbn [opt_bytes_gt fmap option_fmap option_map].
    by rewrite ordered_cmp, (proj2 (N.compare_gt_iff n old)). }
  assert (opt_authentic chain (Some bytes) (Some n)) as Hauth by (by exists list, leaf).
  split; unfold check_revocations.
  - erewrite (plan_compute _ _ _ _ _ _ (Some bytes) old (Some n)); try done; [|rewrite Henc; cbn; by rewrite Hs].
    unfold select_crl. cbn [p_old p_new p_incoming p_cached p_chain p_path].
    assert (match ordered <$> old with
            | Some o => match bytes_cmp o (ordered n) with Lt => Some bytes | _ => directory !! crl_path c1 end
            | None => Some bytes end = Some bytes) as Hsel.
    { destruct old as [old|]; [|done]. cbn [opt_bytes_gt fmap option_fmap option_map] in Hgt |- *.
      rewrite ordered_cmp in Hgt |- *. rewrite N.compare_antisym.
      by destruct (n ?= old)%N. }
    cbn [fmap option_fmap option_map] in Hgt, Hsel |- *. rewrite Hsel, Hgt, bool_decide_true by done. cbn.
    by rewrite (validate_crl_authentic _ _ _ _ _ now true Ha), Hrev.
  - rewrite (plan_compute _ _ _ _ _ _ None (Some n) None) by (done || by rewrite lookup_insert_eq).
    unfold select_crl. cbn. rewrite lookup_insert_eq. cbn.
    by rewrite (validate_crl_authentic _ _ _ _ _ now' true Ha), Hrev.
Qed.
End revocation_facts.

(** ** Accepted certificate chains *)
Section chain_facts.
Context `{DhttpHome, SerdeJson, UrlCrates, Sha2, Base64, Wasmparser, Oas3, X509, AccessControl, Webpki, ZipCrate}.
Variable root_der : string.

(** A code-signing end entity, and a code-signing issuer below the root. *)
Definition p384 (cert : certificate) : Prop :=
  key_algorithm cert = "1.2.840.10045.2.1" /\ key_parameters cert = Some "1.3.132.0.34" /\
  signature_algorithm cert = "1.2.840.10045.4.3.3".
Definition signing_leaf (cert : certificate) : Prop :=
  p384 cert /\ exists bc ku eku, constraints cert = Some (Some bc) /\ usage cert = Some (Some ku) /\
    extended cert = Some (Some eku) /\ bc_ca bc = false /\ ku_flags ku = 1 /\
    eku_code_signing eku = true /\ eku_any eku = false.
Definition signing_issuer (cert : certificate) : Prop :=
  p384 cert /\ exists bc ku eku, constraints cert = Some (Some bc) /\ usage cert = Some (Some ku) /\
    extended cert = Some (Some eku) /\ bc_ca bc = true /\ bc_path_len bc = Some 0 /\
    Z.land (ku_flags ku) 33 = 33 /\ eku_code_signing eku = true /\ eku_any eku = false.

Lemma extension_Ok {A} bad (e : ext A) a : extension bad e = Ok a -> e = Some (Some a).
Proof. unfold extension. destruct e as [[]|]; cbn; congruence. Qed.
Lemma parse_complete_Ok bad der cert : parse_complete bad der = Ok cert -> parse_certificate der = Some ("", cert).
Proof.
  unfold parse_complete. destruct (parse_certificate der) as [[rest c]|]; cbn; [|done].
  destruct (Z.eqb_spec (slen rest) 0) as [E%slen_zero|]; cbn; [|done]. by intros [= ->]; subst.
Qed.
Lemma check_certificate_Ok index cert u :
  check_certificate index cert = Ok u ->
  (index = 0 -> signing_leaf cert) /\ (index = 1 -> signing_issuer cert).
Proof.
  unfold check_certificate. intros Hc. simplify_ok.
  repeat match goal with He : extension _ _ = Ok _ |- _ => apply extension_Ok in He end.
  simplify_bool. unfold signing_leaf, signing_issuer, p384.
  split; intros ->; cbn [Z.eqb andb Pos.eqb] in *; simplify_bool; split; eauto 20;
    do 3 eexists; split_and!; eauto.
Qed.

(** C18: A certificate chain is accepted only when it is leaf, issuer and optionally the pinned root;
    the leaf and issuer have the signing profile, the leaf names exactly the normalised domain in its
    only alternative name and its only common name, its key identifier permits client and server use,
    and the path verifies for code signing at the given time. *)
Theorem verify_chain_sound chain domain at_ :
  verify_chain root_der chain domain at_ = Ok tt ->
  0 <= at_ /\ normalize_name domain = Some domain /\
  exists leaf_der issuer_der rest leaf issuer ski,
    chain = leaf_der :: issuer_der :: rest /\ (rest = [] \/ rest = [root_der]) /\
    parse_certificate leaf_der = Some ("", leaf) /\ parse_certificate issuer_der = Some ("", issuer) /\
    signing_leaf leaf /\ signing_issuer issuer /\
    alt_names leaf = Some (Some [DNSName domain]) /\ common_names leaf = [Some domain] /\
    extract_ski chain = Some ski /\ client_and_server ski = true /\
    verify_for_usage leaf_der [issuer_der] root_der at_ CodeSigning = true.
Proof.
  unfold verify_chain, verify_chain_with_root. intros Hv. simplify_ok. simplify_bool.
  unfold chain_length in *. simplify_bool.
  destruct chain as [|leaf_der [|issuer_der rest]]; cbn [length] in *; try lia.
  match goal with Hp : try_map _ _ = Ok _ |- _ => cbn [try_map] in Hp end. simplify_ok.
  cbn [take try_fold head] in *. simplify_ok. unfold check_indexed in *. simplify_ok.
  repeat match goal with Hp : parse_complete _ _ = Ok _ |- _ => apply parse_complete_Ok in Hp end.
  repeat match goal with Hp : extension _ _ = Ok _ |- _ => apply extension_Ok in Hp end.
  repeat match goal with Hp : check_certificate _ _ = Ok _ |- _ => apply check_certificate_Ok in Hp as [? ?] end.
  split; [done|]. split; [by unfold normalized in *; simplify_bool|].
  do 6 eexists. split; [done|]. split_and!; try done; eauto.
  - destruct rest as [|c [|]]; [by left| |cbn in *; lia]. right. cbn in *. by simplify_bool; simplify_ok.
  - match goal with Hn : match ?ns with [] => _ | _ => _ end = false |- _ =>
      destruct ns as [|[name|] [|]]; cbn in Hn; try done; simplify_bool; by subst end.
  - match goal with Hn : match common_names _ with [] => _ | _ => _ end = false |- _ =>
      destruct (common_names _) as [|name [|]]; try done; simplify_bool; by subst end.
Qed.

(** For a verified chain the facts the registry records are always produced, with the owner hash of the
    leaf's key identifier and the digest of the issuer certificate. *)
Theorem facts_total files chain domain at_ :
  certificates files = Ok chain -> verify_chain root_der chain domain at_ = Ok tt ->
  exists value ski, facts root_der files domain at_ = Ok value /\ extract_ski chain = Some ski /\
    str_at value "author_owner_hash" = Some (owner_hash ski) /\
    str_at value "issuer_id" = (fun der => hex_lower (sha256 der)) <$> chain !! 1%nat.
Proof.
  intros Hc Hv. unfold facts. rewrite Hc, Hv.
  apply verify_chain_sound in Hv as (_ & _ & l & i & rest & leaf & issuer & ski & -> & _ & Hl & _ & _ & _ & _ & _ & Hs & _).
  cbn. rewrite Hl. cbn. rewrite Hs. cbn. by do 2 eexists.
Qed.
End chain_facts.
