(* ===== verification/Store.v ===== *)
(** * The package store client ([src/package/store.rs])

    Downloads are requests to an abstract endpoint; resolving a package and its
    dependencies is a loop over a stack of pending releases. *)
From S2P Require Import Prelude RustStr Decimal Json Crates Errors Ids Manifest Waz Metadata Signing.

(** *** The endpoint *)
Inductive frame := DataFrame (data : string) | TrailerFrame | FailedFrame.
(** A response of the endpoint; a request or a frame that does not arrive in
    time is a failed one, both are reported as [SigningStatusUnavailable]. *)
Record response := Response {
  r_authority : option (string * list string); (* RemoteAuthority: name, certificates *)
  r_status : Z;
  r_content_type : option string;
  r_body : list frame
}.
Class StoreEndpoint := {
  (* GET of a URI with an Accept value, the remote owner pinned *)
  endpoint_get : string -> string -> option response
}.

Definition resource : Type := string * string * json.
Definition r_id (r : resource) : string := r.1.1.
Definition r_bytes (r : resource) : string := r.1.2.
Definition r_proof (r : resource) : json := r.2.
(** publisher, name, version *)
Definition release : Type := string * string * string.

Section store.
Context `{DhttpHome, SerdeJson, UrlCrates, Sha2, Base64, Wasmparser, Oas3, X509, AccessControl, Webpki, ZipCrate, StoreEndpoint}.
Variable root_der : string.
Variable now : Z.

Definition read_body (limit : Z) (bytes : string) (f : frame) : Result string :=
  match f with
  | FailedFrame => Err SigningStatusUnavailable
  | TrailerFrame => Err (BadRequest "store response trailers are unsupported")
  | DataFrame data =>
      throw (InvalidComponent "store response exceeds its size limit") when
        slen data >? saturating_sub limit (slen bytes);;
      Ok (bytes +:+ data)
  end.
Definition content_type_is (content_type : string) (header : option string) : bool :=
  match header with
  | Some value => eq_ignore_ascii_case (trim (first_segment ";" value)) content_type
  | None => false
  end.
Definition store_get (path : string) (limit : Z) : Result string :=
  let uri := "https://" +:+ STORE_NAME +:+ path in
  throw (BadRequest "invalid store URI") when negb (bool_decide (is_Some (uri_parse uri)));;
  throw (InvalidIdentity "invalid pinned store identity") when negb (owner_hash_ok STORE_OWNER);;
  let content_type := if ends_with ".waz" path then "application/zip" else "application/json" in
  let? response := ok_or SigningStatusUnavailable (endpoint_get uri content_type) in
  let? (remote_name, remote_certificates) := ok_or MissingHandshake (r_authority response) in
  let? ski := ok_or (InvalidIdentity "invalid store identity") (extract_ski remote_certificates) in
  throw (InvalidIdentity "store identity does not match the pinned owner") when
    negb (String.eqb remote_name STORE_NAME) || negb (String.eqb (owner_hash ski) STORE_OWNER);;
  throw RouteNotFound when r_status response =? 404;;
  throw (BadRequest "store version has been withdrawn") when r_status response =? 410;;
  throw SigningStatusUnavailable when negb (r_status response =? 200);;
  throw (InvalidComponent "unexpected store response content type") when
    negb (content_type_is content_type (r_content_type response));;
  try_fold (read_body limit) EmptyString (r_body response).

Definition upgrade_required : error := policy "package_policy_upgrade_required" 422.
Definition publication_time (metadata : json) : Result Z :=
  let signature := metadata.["signature"] in
  let? at_ := ok_or upgrade_required
    (match as_i64 signature.["verified_at"] with
     | Some at_ => if (at_ >? 0) && (at_ <=? now) then Some at_ else None
     | None => None
     end) in
  throw upgrade_required when negb (is_str signature.["purpose"] "code_signing");;
  let? _ := verify_receipt root_der now metadata at_ in
  Ok at_.

(** [trim_start_matches('0').to_ascii_lowercase()] of a serial number. *)
Definition serial (v : json) : option string :=
  match as_str v with Some s => Some (to_ascii_lowercase (trim_start_matches "0" s)) | None => None end.
Definition release_dependency (dependency : json) : json :=
  jobj [("author", dependency.["publisher"]); ("name", dependency.["name"]); ("version", dependency.["version"])].
(** [metadata.get(key).is_some_and(|v| Some(v) != document.get(key))] *)
Definition optional_differs (key : string) (metadata document : json) : bool :=
  match get key metadata with
  | Some v => negb (bool_decide (Some v = get key document))
  | None => false
  end.
Definition decode_invalid (value : json) : Result string :=
  let? text := ok_or (invalid "invalid signer certificate") (as_str value) in
  ok_or (invalid "invalid signer certificate encoding") (b64_decode text).

Definition verify_release (bytes : string) (metadata : json) (publisher name version : string) : Result unit :=
  let digest := hex_lower (sha256 bytes) in
  throw (invalid "store package digest or size mismatch") when
    negb (is_str metadata.["package_sha256"] digest)
    || negb (bool_decide (as_u64 metadata.["size"] = Some (slen bytes)));;
  let signature := metadata.["signature"] in
  let? at_ := publication_time metadata in
  let? package := read_package_at root_der bytes at_ in
  let? facts := facts root_der package publisher at_ in
  throw (invalid "publication signature differs from package certificate") when
    existsb (fun key => negb (json_eqb signature.[key] facts.[key])) ["leaf_fingerprint_sha256"; "issuer_id"; "ski"];;
  throw (invalid "publication serial differs from package certificate") when
    negb (bool_decide (serial signature.["serial_number"] = serial facts.["serial_number"]));;
  let? document := package_metadata package in
  let? data := ok_or panicked (assoc "signature.json" package) in
  let? envelope := ok_or (invalid "invalid signature envelope") (from_slice data) in
  let dependencies := map release_dependency (default [] (as_array document.["dependencies"])) in
  throw (invalid "store metadata differs from signed package manifest") when
    negb (is_str metadata.["id"] (publisher +:+ "/" +:+ name))
    || negb (is_str metadata.["name"] name)
    || negb (is_str metadata.["version"] version)
    || negb (is_str document.["publisher"] publisher)
    || negb (is_str metadata.["author"] publisher)
    || negb (is_str document.["name"] name)
    || negb (is_str document.["version"] version)
    || negb (json_eqb metadata.["dependencies"] (JArr dependencies))
    || existsb (fun key => negb (json_eqb metadata.[key] document.[key])) ["title"; "description"; "changelog"]
    || optional_differs "entry" metadata document
    || optional_differs "license" metadata document;;
  throw (invalid "signer certificates differ from the authenticated store proof") when
    negb (json_eqb envelope.["certificates"] metadata.["signer_certificates"]);;
  let? encoded := ok_or (invalid "missing signer certificates") (as_array envelope.["certificates"]) in
  let? certificates := try_map decode_invalid encoded in
  let? ski := ok_or (invalid "invalid publisher owner_hash") (extract_ski certificates) in
  throw (invalid "publisher owner_hash differs from the authenticated store proof") when
    negb (is_str metadata.["author_owner_hash"] (owner_hash ski));;
  Ok tt.

Definition download_release (publisher name version : string) : Result (string * json) :=
  let id := publisher +:+ "/" +:+ name in
  let? _ := valid_id id in
  throw (BadRequest "version must be MAJOR.MINOR.PATCH") when
    negb (Nat.eqb (length (split_on "." version)) 3)
    || existsb (fun part => negb (bool_decide (is_Some (parse_u64 part))) || (slen part =? 0)
                            || negb (all_bytes is_ascii_digit part)
                            || ((slen part >? 1) && starts_with "0" part)) (split_on "." version);;
  let path := "/store/v1/packages/" +:+ publisher +:+ "/" +:+ name +:+ "/versions/" +:+ version in
  let? raw := store_get path (8 * 1024 * 1024) in
  let? metadata := ok_or (InvalidComponent "invalid store metadata") (from_slice raw) in
  let download := path +:+ "/package.waz" in
  throw (InvalidComponent "store release identity, status or download path changed") when
    negb (is_str metadata.["id"] id) || negb (is_str metadata.["author"] publisher)
    || negb (is_str metadata.["name"] name) || negb (is_str metadata.["version"] version)
    || negb (is_str metadata.["status"] "published") || negb (is_str metadata.["download_path"] download);;
  let? _ := publication_time metadata in
  let? size := ok_or (InvalidComponent "invalid store package size")
    (match as_u64 metadata.["size"] with
     | Some size => if (size >? 0) && (size <=? 64 * 1024 * 1024) then Some size else None
     | None => None
     end) in
  let? bytes := store_get download size in
  let? _ := verify_release bytes metadata publisher name version in
  Ok (bytes, metadata).

(** *** Resolving the dependencies of a release *)

(** [proof["signature"]["verified_at"].as_i64()] *)
Definition verified_at (proof : json) : option Z := as_i64 proof.["signature"].["verified_at"].
(** The metadata of a downloaded package. *)
Definition resource_document (missing : error) (bytes : string) (proof : json) : Result json :=
  let? at_ := ok_or missing (verified_at proof) in
  let? files := read_package_at root_der bytes at_ in
  package_metadata files.
Definition document_dependencies (document : json) : list json := default [] (as_array document.["dependencies"]).
Definition pending_release (dep : json) : release :=
  (unwrap_str dep.["publisher"], unwrap_str dep.["name"], unwrap_str dep.["version"]).
Definition release_id (r : release) : string := r.1.1 +:+ "/" +:+ r.1.2.

Definition find_resource (id : string) (resources : list resource) : option resource :=
  find (fun r => String.eqb (r_id r) id) resources.

(** The release before the installed one, for a package installed without an
    owner: proof of continuity. *)
Definition attach_previous (installed : list json) (id publisher name : string) (proof : json) : Result json :=
  match find (fun p => is_str p.["id"] id) installed with
  | Some current =>
      if is_null current.["author_owner_hash"] then
        let conflict := policy "publisher_ownership_conflict" 409 in
        let? old_version := ok_or conflict (as_str current.["version"]) in
        match download_release publisher name old_version with
        | Ok (_, previous) => Ok (set_key "_previous_release" previous proof)
        | Err SigningStatusUnavailable => Err SigningStatusUnavailable
        | Err _ => Err conflict
        end
      else Ok proof
  | None => Ok proof
  end.

(** One release popped from the stack [pending] (its head is the top). *)
Definition resolve_step (installed : list json) (item : release) (pending : list release) (resources : list resource) :
    Result (list release * list resource) :=
  let '(publisher, name, version) := item in
  let id := release_id item in
  match find_resource id resources with
  | Some r =>
      throw (conflict ("conflicting dependency versions for " +:+ id)) when
        negb (is_str (r_proof r).["version"] version);;
      Ok (pending, resources)
  | None =>
      throw (BadRequest "installation exceeds 100 packages") when Z.of_nat (length resources) >=? 100;;
      throw (conflict "conflicting package authors") when
        existsb (fun r => negb (String.eqb (r_id r) id) && String.eqb (last_segment "/" (r_id r)) name) resources;;
      throw (conflict ("package " +:+ name +:+ " is already installed by another author")) when
        existsb (fun entry => is_str entry.["name"] name && negb (is_str entry.["id"] id)) installed;;
      let? (bytes, proof) := download_release publisher name version in
      let? proof := attach_previous installed id publisher name proof in
      let? document := resource_document panicked bytes proof in
      Ok (rev (map pending_release (document_dependencies document)) ++ pending,
          resources ++ [(id, bytes, proof)])
  end.

(** [while let Some(..) = pending.pop()]; [None] when the fuel runs out. *)
Fixpoint resolve (fuel : nat) (installed : list json) (pending : list release) (resources : list resource) :
    option (Result (list resource)) :=
  match pending with
  | [] => Some (Ok resources)
  | item :: pending =>
      match fuel with
      | O => None
      | S fuel =>
          match resolve_step installed item pending resources with
          | Err e => Some (Err e)
          | Ok (pending, resources) => resolve fuel installed pending resources
          end
      end
  end.
(** Every step removes a pending release or adds one of at most 100 packages
    with at most 100 dependencies each. *)
Definition resolve_fuel : nat := S (101 * 100).

(** *** [order_packages] *)
Definition dependencies_ready (ordered : list resource) (document : json) : bool :=
  forallb (fun dep => existsb (fun r => String.eqb (r_id r) (dependency_id dep)) ordered)
    (document_dependencies document).
(** The first resource whose dependencies are all ordered. *)
Fixpoint find_ready (index : nat) (ordered resources : list resource) : Result (option nat) :=
  match resources with
  | [] => Ok None
  | r :: resources =>
      let? doc := resource_document upgrade_required (r_bytes r) (r_proof r) in
      if dependencies_ready ordered doc then Ok (Some index) else find_ready (S index) ordered resources
  end.
Fixpoint order_loop (fuel : nat) (ordered resources : list resource) : Result (list resource) :=
  match fuel with
  | O => Ok ordered
  | S fuel =>
      match resources with
      | [] => Ok ordered
      | _ =>
          let? ready := find_ready 0 ordered resources in
          let? index := ok_or (BadRequest "cyclic package dependencies") ready in
          order_loop fuel (ordered ++ option_list (resources !! index)) (delete index resources)
      end
  end.
(** Each round removes one resource, so their number bounds the rounds. *)
Definition order_packages (resources : list resource) : Result (list resource) :=
  order_loop (length resources) [] resources.
End store.

(** ** Dependency order *)
Section order_facts.
Context `{DhttpHome, SerdeJson, UrlCrates, Sha2, Base64, Wasmparser, Oas3, X509, AccessControl, Webpki, ZipCrate, StoreEndpoint}.
Variable root_der : string.

Definition resource_deps (r : resource) : option (list string) :=
  (fun doc => map dependency_id (document_dependencies doc)) <$>
    ok (resource_document root_der upgrade_required (r_bytes r) (r_proof r)).
(** All dependencies of [r] are packages of [before]. *)
Definition depends_only_on (before : list resource) (r : resource) : Prop :=
  exists deps, resource_deps r = Some deps /\ Forall (fun d => d ∈ map r_id before) deps.
(** Dependencies come first. *)
Fixpoint topological (before l : list resource) : Prop :=
  match l with
  | [] => True
  | r :: l => depends_only_on before r /\ topological (before ++ [r]) l
  end.

Lemma dependencies_ready_spec ordered document :
  dependencies_ready ordered document = true <->
  Forall (fun d => d ∈ map r_id ordered) (map dependency_id (document_dependencies document)).
Proof.
  unfold dependencies_ready. rewrite forallb_Forall, Forall_map. apply Forall_iff. intros d. cbn.
  rewrite existsb_exists. split.
  - intros (r & Hr & He%String.eqb_eq). rewrite <- He. apply list_elem_of_In, in_map, Hr.
  - intros (r & <- & Hr)%list_elem_of_In%in_map_iff. exists r. split; [done|]. apply String.eqb_refl.
Qed.

Lemma topological_app before l r :
  topological before (l ++ [r]) <-> topological before l /\ depends_only_on (before ++ l) r.
Proof.
  revert before. induction l as [|x l IH]; intros before; cbn.
  - rewrite app_nil_r. tauto.
  - rewrite IH, <- app_assoc. cbn. tauto.
Qed.

Lemma find_ready_Some index ordered rs i :
  find_ready root_der index ordered rs = Ok (Some i) ->
  exists k r, i = (index + k)%nat /\ rs !! k = Some r /\ depends_only_on ordered r.
Proof.
  revert index. induction rs as [|r rs IH]; intros index Hf; cbn in Hf; [done|]. simplify_ok.
  destruct (dependencies_ready ordered a) eqn:Hr.
  - simplify_ok. exists 0%nat, r. split_and!; [lia|done|]. exists (map dependency_id (document_dependencies a)).
    unfold resource_deps. rewrite E. cbn. by rewrite <- dependencies_ready_spec.
  - apply IH in Hf as (k & x & -> & Hk & Hx). exists (S k), x. split_and!; [lia|done|done].
Qed.
Lemma find_ready_exists index ordered rs x :
  Forall (fun r => is_Some (resource_deps r)) rs -> x ∈ rs -> depends_only_on ordered x ->
  exists i, find_ready root_der index ordered rs = Ok (Some i).
Proof.
  revert index. induction rs as [|r rs IH]; intros index Hall Hx Hd; [by apply not_elem_of_nil in Hx|].
  inversion Hall as [|? ? Hr Hrs]; subst. cbn. unfold resource_deps in Hr.
  destruct (resource_document _ _ _ _) as [doc|] eqn:E; [|by destruct Hr].
  destruct (dependencies_ready ordered doc) eqn:Hready; [eauto|].
  apply elem_of_cons in Hx as [->|Hx]; [|by apply IH].
  exfalso. destruct Hd as (deps & Hdeps & Hin). unfold resource_deps in Hdeps. rewrite E in Hdeps.
  injection Hdeps as <-. apply dependencies_ready_spec in Hin. congruence.
Qed.

Lemma order_loop_sound fuel ordered rs l :
  (length rs <= fuel)%nat -> topological [] ordered ->
  order_loop root_der fuel ordered rs = Ok l -> l ≡ₚ ordered ++ rs /\ topological [] l.
Proof.
  revert ordered rs. induction fuel as [|fuel IH]; intros ordered rs Hf Ht Hl; cbn in Hl.
  { destruct rs; [|cbn in Hf; lia]. simplify_ok. by rewrite app_nil_r. }
  destruct rs as [|r0 rs]; [simplify_ok; by rewrite app_nil_r|].
  set (all := r0 :: rs) in *. simplify_ok.
  match goal with Hr : find_ready _ _ _ _ = Ok _ |- _ => apply find_ready_Some in Hr as (k & r & -> & Hk & Hd) end.
  cbn [Nat.add] in Hl. rewrite Hk in Hl. cbn in Hl.
  assert (all ≡ₚ r :: delete k all) as Hp by (by apply delete_Permutation).
  apply IH in Hl as [Hl Htop].
  - split; [|done]. rewrite Hl, <- app_assoc. by apply Permutation_app_head.
  - apply Permutation_length in Hp. cbn [length] in Hp. unfold all in *. cbn [length] in *. lia.
  - by apply topological_app.
Qed.

(** In an order of all resources, the first one that is not placed yet is ready. *)
Lemma first_unplaced (before l ordered rs : list resource) :
  topological before l -> (forall x, x ∈ before -> x ∈ ordered) ->
  (forall x, x ∈ l -> x ∈ ordered \/ x ∈ rs) -> (exists x, x ∈ l /\ x ∉ ordered) ->
  exists x, x ∈ rs /\ depends_only_on ordered x.
Proof.
  revert before. induction l as [|r l IH]; intros before Ht Hb Hl Hx.
  { destruct Hx as (x & Hx%not_elem_of_nil & _). done. }
  destruct Ht as [Hd Ht].
  assert (r ∈ ordered \/ (r ∈ rs /\ r ∉ ordered)) as [Hr|[Hr _]].
  { pose proof (Hl r ltac:(left)). destruct (decide (r ∈ ordered)); tauto. }
  - apply (IH (before ++ [r])); [done| | |].
    + intros x [?| ->%list_elem_of_singleton]%elem_of_app; auto.
    + intros x Hin. apply Hl. by right.
    + destruct Hx as (x & [->|Hin]%elem_of_cons & Hno); [done|eauto].
  - exists r. split; [done|]. destruct Hd as (deps & Hdeps & Hall). exists deps. split; [done|].
    eapply Forall_impl; [exact Hall|]. cbn. intros d (x & <- & Hin)%list_elem_of_In%in_map_iff.
    apply list_elem_of_In, in_map, list_elem_of_In, Hb, list_elem_of_In, Hin.
Qed.

Lemma order_loop_complete fuel ordered rs l :
  (length rs <= fuel)%nat -> NoDup (ordered ++ rs) ->
  Forall (fun r => is_Some (resource_deps r)) rs ->
  l ≡ₚ ordered ++ rs -> topological [] l ->
  exists out, order_loop root_der fuel ordered rs = Ok out.
Proof.
  revert ordered rs. induction fuel as [|fuel IH]; intros ordered rs Hf Hnd Hall Hp Ht; cbn; [eauto|].
  destruct rs as [|r0 rs]; [eauto|]. set (all := r0 :: rs) in *.
  destruct (first_unplaced [] l ordered all) as (x & Hx & Hd).
  { done. } { by intros x ?%not_elem_of_nil. } { intros x. by rewrite Hp, elem_of_app. }
  { exists r0. rewrite Hp. split; [apply elem_of_app; right; left|].
    apply NoDup_app in Hnd as (_ & Hdis & _). intros Hin. apply (Hdis r0 Hin). left. }
  destruct (find_ready_exists 0 ordered all x) as [i Hi]; [done..|]. rewrite Hi. cbn.
  apply find_ready_Some in Hi as (k & r & -> & Hk & Hd'). cbn [Nat.add]. rewrite Hk. cbn.
  assert (all ≡ₚ r :: delete k all) as Hdel by (by apply delete_Permutation).
  apply IH.
  - apply Permutation_length in Hdel. cbn [length] in Hdel. unfold all in *. cbn [length] in *. lia.
  - rewrite <- app_assoc. cbn. by rewrite <- Hdel.
  - rewrite Hdel in Hall. by inversion Hall.
  - rewrite Hp, <- app_assoc. by apply Permutation_app_head.
  - done.
Qed.

(** The installation order is a permutation of the resolved packages in which every package comes after
    all of its dependencies that are in the list. *)
Theorem order_packages_sound resources ordered :
  order_packages root_der resources = Ok ordered -> ordered ≡ₚ resources /\ topological [] ordered.
Proof. intros Ho. by apply order_loop_sound in Ho. Qed.

(** C15: Ordering succeeds exactly when a topological order of the resolved packages exists; it fails
    only on a genuine cycle. *)
Theorem order_packages_complete resources :
  NoDup resources -> Forall (fun r => is_Some (resource_deps r)) resources ->
  (exists ordered, order_packages root_der resources = Ok ordered) <->
  (exists l, l ≡ₚ resources /\ topological [] l).
Proof.
  intros Hnd Hall. split.
  - intros [l Hl]. exists l. by apply order_loop_sound in Hl.
  - intros (l & Hp & Ht). by eapply order_loop_complete.
Qed.
End order_facts.

(** ** The closure of a release *)
Section resolve_facts.
Context `{DhttpHome, SerdeJson, UrlCrates, Sha2, Base64, Wasmparser, Oas3, X509, AccessControl, Webpki, ZipCrate, StoreEndpoint}.
Variable root_der : string.
Variable now : Z.
Local Abbreviation resolve := (resolve root_der now).
Local Abbreviation resolve_step := (resolve_step root_der now).

(** The stack still holds [m] steps at most. *)
Definition resolve_measure (pending : list release) (resources : list resource) : nat :=
  (length pending + 101 * (100 - length resources))%nat.

Lemma resource_document_dependencies e bytes proof doc :
  resource_document root_der e bytes proof = Ok doc ->
  (length (document_dependencies doc) <= 100)%nat.
Proof.
  unfold resource_document. intros Hd. simplify_ok.
  match goal with Hm : package_metadata _ = Ok _ |- _ =>
    apply package_metadata_facts in Hm as (p & n & deps & _ & _ & _ & _ & _ & _ & Hdeps & Hlen & _) end.
  unfold document_dependencies. rewrite Hdeps. cbn. lia.
Qed.

Lemma resolve_step_measure installed item pending resources pending' resources' :
  resolve_step installed item pending resources = Ok (pending', resources') ->
  (resolve_measure pending' resources' < resolve_measure (item :: pending) resources)%nat.
Proof.
  destruct item as [[publisher name] version]. unfold Store.resolve_step, resolve_measure. intros Hs.
  destruct (find_resource _ _); simplify_ok; [cbn; lia|].
  match goal with p : string * json |- _ => destruct p end. simplify_ok. simplify_bool.
  match goal with Hd : resource_document _ _ _ _ = Ok _ |- _ => apply resource_document_dependencies in Hd end.
  rewrite !length_app, length_rev, length_map. cbn [length] in *. lia.
Qed.

Lemma resolve_total installed fuel pending resources :
  (resolve_measure pending resources <= fuel)%nat -> is_Some (resolve fuel installed pending resources).
Proof.
  revert pending resources. induction fuel as [|fuel IH]; intros pending resources Hf.
  - destruct pending; cbn; [done|]. unfold resolve_measure in Hf. cbn in Hf. lia.
  - destruct pending as [|item pending]; cbn; [done|].
    destruct (resolve_step installed item pending resources) as [[p r]|] eqn:E; [|done].
    apply resolve_step_measure in E. apply IH. lia.
Qed.

(** A package of [resources] is the release. *)
Definition satisfies (resources : list resource) (rel : release) : Prop :=
  exists r, r ∈ resources /\ r_id r = release_id rel /\ str_at (r_proof r) "version" = Some rel.2.
(** The releases the packages depend on. *)
Definition required (resources : list resource) (rel : release) : Prop :=
  exists r doc dep, r ∈ resources /\ resource_document root_der panicked (r_bytes r) (r_proof r) = Ok doc /\
    dep ∈ document_dependencies doc /\ rel = pending_release dep.
(** The package was downloaded and verified under its id. *)
Definition verified_resource (installed : list json) (r : resource) : Prop :=
  exists publisher name version proof, r_id r = publisher +:+ "/" +:+ name /\ short_name (r_id r) = name /\
    valid_id (r_id r) = Ok tt /\
    download_release root_der now publisher name version = Ok (r_bytes r, proof) /\
    str_at (r_proof r) "version" = Some version /\
    is_Some (ok (resource_document root_der panicked (r_bytes r) (r_proof r))) /\
    Forall (fun entry => is_str entry.["name"] name = true -> is_str entry.["id"] (r_id r) = true) installed.

Definition resolve_inv (installed : list json) (root : release) (pending : list release) (resources : list resource) : Prop :=
  (length resources <= 100)%nat /\ NoDup (map r_id resources) /\ NoDup (map (short_name ∘ r_id) resources) /\
  Forall (verified_resource installed) resources /\
  (root ∈ pending \/ satisfies resources root) /\
  (forall rel, required resources rel -> rel ∈ pending \/ satisfies resources rel).

Lemma find_resource_None id resources : find_resource id resources = None -> id ∉ map r_id resources.
Proof.
  unfold find_resource. intros Hf (r & <- & Hr)%list_elem_of_In%in_map_iff.
  eapply find_none in Hf; [|exact Hr]. cbn in Hf. by rewrite String.eqb_refl in Hf.
Qed.
Lemma find_resource_Some id resources r : find_resource id resources = Some r -> r ∈ resources /\ r_id r = id.
Proof.
  unfold find_resource. intros [Hin He]%find_some. apply list_elem_of_In in Hin.
  by apply String.eqb_eq in He.
Qed.

Lemma release_short publisher name :
  valid_id (publisher +:+ "/" +:+ name) = Ok tt -> short_name (publisher +:+ "/" +:+ name) = name.
Proof.
  change (publisher +:+ "/" +:+ name) with (publisher +:+ String "/" name).
  intros [Hok|(p & n & Heq & _ & Hp & Hok)]%valid_id_cases; apply name_ok_no_slash in Hok.
  - unfold contains_char in Hok. rewrite any_byte_app in Hok. by apply orb_false_iff in Hok as [_ Hok].
  - change (p +:+ "/" +:+ n) with (p +:+ String "/" n) in Heq. symmetry in Heq.
    destruct (app_sep_last _ _ _ _ _ Hok Heq) as [[-> ->]|(r' & -> & _)].
    + unfold short_name. by rewrite last_segment_app.
    + unfold contains_char in Hp. rewrite any_byte_app in Hp. by apply orb_false_iff in Hp as [_ Hp].
Qed.

Lemma download_release_Ok publisher name version bytes proof :
  download_release root_der now publisher name version = Ok (bytes, proof) ->
  valid_id (publisher +:+ "/" +:+ name) = Ok tt /\ str_at proof "version" = Some version.
Proof.
  unfold download_release. intros Hd. simplify_ok. simplify_bool.
  match goal with Hu : valid_id _ = Ok ?u |- _ => destruct u end. split; [done|].
  unfold str_at. by repeat match goal with Hi : is_str _ _ = true |- _ => apply is_str_true in Hi; rewrite ?Hi; clear Hi end.
Qed.
Lemma attach_previous_version installed id publisher name proof proof' version :
  str_at proof "version" = Some version ->
  attach_previous root_der now installed id publisher name proof = Ok proof' ->
  str_at proof' "version" = Some version.
Proof.
  intros Hv. unfold attach_previous. destruct (find _ installed) as [c|]; [|intros; by simplify_ok].
  destruct (is_null _); [|intros; by simplify_ok]. intros Ha. simplify_ok.
  destruct (download_release _ _ _ _ _) as [[b prev]|[]]; simplify_ok.
  unfold str_at, index in *. destruct proof; try done. cbn in Hv |- *.
  by rewrite assoc_obj_insert_ne.
Qed.

Lemma satisfies_perm l l' rel : l ≡ₚ l' -> satisfies l rel <-> satisfies l' rel.
Proof. intros Hp. unfold satisfies. by setoid_rewrite Hp. Qed.
Lemma required_perm l l' rel : l ≡ₚ l' -> required l rel <-> required l' rel.
Proof. intros Hp. unfold required. by setoid_rewrite Hp. Qed.
Lemma satisfies_app resources more rel : satisfies resources rel -> satisfies (resources ++ more) rel.
Proof. intros (r & Hr & H'). exists r. split; [apply elem_of_app; by left|done]. Qed.

(** The package added by a step. *)
Lemma resolve_step_added installed item pending resources pending' resources' :
  find_resource (release_id item) resources = None ->
  resolve_step installed item pending resources = Ok (pending', resources') ->
  (length resources < 100)%nat /\
  exists bytes proof doc, resources' = resources ++ [(release_id item, bytes, proof)] /\
    pending' = rev (map pending_release (document_dependencies doc)) ++ pending /\
    resource_document root_der panicked bytes proof = Ok doc /\
    str_at proof "version" = Some item.2 /\
    verified_resource installed (release_id item, bytes, proof) /\
    (short_name (release_id item) ∉ map (short_name ∘ r_id) resources).
Proof.
  destruct item as [[publisher name] version]. intros Hf Hs. unfold Store.resolve_step in Hs. rewrite Hf in Hs.
  simplify_ok. match goal with p : string * json |- _ => destruct p as [bytes proof0] end. simplify_ok.
  match goal with Hd : download_release _ _ _ _ _ = _, Ha : attach_previous _ _ _ _ _ _ _ = _ |- _ =>
    pose proof (download_release_Ok _ _ _ _ _ Hd) as [Hvalid Hver];
    pose proof (attach_previous_version _ _ _ _ _ _ _ Hver Ha) as Hver' end.
  pose proof (release_short _ _ Hvalid) as Hshort. simplify_bool.
  repeat match goal with He : existsb _ _ = false |- _ => apply negb_existsb in He end.
  split; [lia|]. do 3 eexists. split_and!; [done..| |].
  - exists publisher, name, version. eexists. cbn [r_id r_bytes r_proof fst snd] in *. unfold r_id; cbn.
    split_and!; try done.
    + match goal with Hd : resource_document _ _ _ _ = Ok _ |- _ => rewrite Hd end. done.
    + match goal with Hi : Forall _ installed |- _ => eapply Forall_impl; [exact Hi|] end.
      intros e He Hn. cbn in He. rewrite Hn in He. cbn [negb andb] in He. by simplify_bool.
  - change (release_id (publisher, name, version)) with (publisher +:+ "/" +:+ name) in *.
    rewrite Hshort. intros (r & Hr & Hin)%list_elem_of_In%in_map_iff.
    match goal with Hi : Forall _ resources |- _ =>
      rewrite Forall_forall in Hi; specialize (Hi r (proj2 (list_elem_of_In _ _) Hin)); cbn beta in Hi end.
    change (last_segment "/" (r_id r) = name) in Hr. rewrite Hr, String.eqb_refl, andb_true_r in *.
    simplify_bool. apply find_resource_None in Hf. apply Hf, list_elem_of_In, in_map_iff. eauto.
Qed.

Lemma resolve_step_inv installed root item pending resources pending' resources' :
  resolve_inv installed root (item :: pending) resources ->
  resolve_step installed item pending resources = Ok (pending', resources') ->
  resolve_inv installed root pending' resources'.
Proof.
  intros (Hlen & Hnd & Hnds & Hver & Hroot & Hreq) Hs.
  destruct (find_resource (release_id item) resources) as [r|] eqn:Hf.
  - destruct item as [[publisher name] version]. unfold Store.resolve_step in Hs. rewrite Hf in Hs. simplify_ok. simplify_bool.
    apply find_resource_Some in Hf as [Hin Hid].
    assert (satisfies resources' (publisher, name, version)) as Hsat.
    { exists r. split_and!; [done..|]. unfold str_at. by rewrite (proj1 (is_str_true _ _) Hguard). }
    split_and!; [done..| |].
    + destruct Hroot as [[->|?]%elem_of_cons|?]; auto.
    + intros rel Hr. destruct (Hreq rel Hr) as [[->|?]%elem_of_cons|?]; auto.
  - destruct (resolve_step_added _ _ _ _ _ _ Hf Hs) as (Hlt & bytes & proof & doc & -> & -> & Hdoc & Hv & Hvr & Hshort).
    apply find_resource_None in Hf.
    assert (satisfies (resources ++ [(release_id item, bytes, proof)]) item) as Hsat.
    { eexists. split; [apply elem_of_app; right; by left|]. done. }
    assert (forall rel, rel ∈ item :: pending \/ satisfies resources rel ->
      rel ∈ rev (map pending_release (document_dependencies doc)) ++ pending \/
      satisfies (resources ++ [(release_id item, bytes, proof)]) rel) as Hkeep.
    { intros rel [[->|Hin]%elem_of_cons|Hs']; [by right|left; apply elem_of_app; by right|right; by apply satisfies_app]. }
    split_and!.
    + rewrite length_app. cbn. lia.
    + rewrite map_app. apply NoDup_app. split_and!; [done| |apply NoDup_singleton].
      intros x Hx ->%list_elem_of_singleton. done.
    + rewrite map_app. apply NoDup_app. split_and!; [done| |apply NoDup_singleton].
      intros x Hx ->%list_elem_of_singleton. done.
    + apply Forall_app. split; [done|]. by constructor.
    + by apply Hkeep.
    + intros rel (r & d & dep & [Hin| ->%list_elem_of_singleton]%elem_of_app & Hd & Hdep & ->).
      * apply Hkeep, Hreq. by exists r, d, dep.
      * left. apply elem_of_app. left. cbn in Hd. rewrite Hdoc in Hd. injection Hd as <-.
        rewrite <- Permutation_rev. apply list_elem_of_In, in_map, list_elem_of_In, Hdep.
Qed.

Lemma resolve_result installed root fuel pending resources out :
  resolve_inv installed root pending resources -> resolve fuel installed pending resources = Some (Ok out) ->
  resolve_inv installed root [] out.
Proof.
  revert pending resources. induction fuel as [|fuel IH]; intros [|item pending] resources Hinv Hr; cbn in Hr;
    try (injection Hr as <-; done); [done|].
  destruct (resolve_step installed item pending resources) as [[p r]|] eqn:E; [|done].
  eapply IH; [|exact Hr]. by eapply resolve_step_inv.
Qed.

Lemma resolve_facts installed root resources :
  resolve resolve_fuel installed [root] [] = Some (Ok resources) ->
  (length resources <= 100)%nat /\ NoDup (map r_id resources) /\ NoDup (map (short_name ∘ r_id) resources) /\
  Forall (verified_resource installed) resources /\
  satisfies resources root /\ (forall rel, required resources rel -> satisfies resources rel).
Proof.
  intros Hr. apply (resolve_result _ root) in Hr as (? & ? & ? & ? & Hroot & Hreq).
  - split_and!; try done.
    + destruct Hroot as [?%not_elem_of_nil|?]; done.
    + intros rel Hrel. by destruct (Hreq rel Hrel) as [?%not_elem_of_nil|?].
  - split_and!; [cbn; lia|constructor..|left; by left|].
    by intros rel (r & ? & ? & ?%not_elem_of_nil & _).
Qed.

(** C13: Dependency resolution returns at most 100 packages, each once by identifier and by directory
    name, each downloaded and verified under its own identifier and never under the directory name of
    another installed package, and closed: the requested release and every release a chosen package
    depends on is among them at exactly that version. *)
Theorem resolve_closed installed root resources :
  resolve resolve_fuel installed [root] [] = Some (Ok resources) ->
  (length resources <= 100)%nat /\ NoDup (map r_id resources) /\ NoDup (map (short_name ∘ r_id) resources) /\
  Forall (verified_resource installed) resources /\
  satisfies resources root /\ (forall rel, required resources rel -> satisfies resources rel).
Proof. apply resolve_facts. Qed.

(** C14: The resolution work-list loop ends for every repository answer and every root: the fuel
    S(101*100) given to it is enough, so it always returns a resolution or an error. *)
Theorem resolve_terminates installed root :
  exists r, resolve resolve_fuel installed [root] [] = Some r.
Proof. apply resolve_total. unfold resolve_measure, resolve_fuel. cbn [length]. lia. Qed.

Lemma publication_time_Ok metadata at_ :
  publication_time root_der now metadata = Ok at_ ->
  verified_at metadata = Some at_ /\ 0 < at_ <= now /\ verify_receipt root_der now metadata at_ = Ok tt.
Proof.
  unfold publication_time, verified_at. intros Hp. simplify_ok.
  match goal with Hm : match as_i64 ?v with _ => _ end = Some _ |- _ => destruct (as_i64 v); [|done] | _ => idtac end.
  simplify_ok. simplify_bool. split; [done|]. split; [lia|].
  match goal with Hu : verify_receipt _ _ _ _ = Ok ?u |- _ => by destruct u end.
Qed.

Lemma verify_release_facts bytes metadata publisher name version u :
  verify_release root_der now bytes metadata publisher name version = Ok u ->
  as_u64 metadata.["size"] = Some (slen bytes) /\
  str_at metadata "package_sha256" = Some (hex_lower (sha256 bytes)) /\
  str_at metadata "id" = Some (publisher +:+ "/" +:+ name) /\ str_at metadata "version" = Some version /\
  exists at_ files document,
    verified_at metadata = Some at_ /\ 0 < at_ <= now /\ verify_receipt root_der now metadata at_ = Ok tt /\
    read_package_at root_der bytes at_ = Ok files /\ package_metadata files = Ok document /\
    str_at document "publisher" = Some publisher /\ str_at document "name" = Some name /\
    str_at document "version" = Some version /\
    metadata.["dependencies"] = JArr (map release_dependency (document_dependencies document)).
Proof.
  unfold verify_release. intros Hv. simplify_ok. simplify_bool.
  repeat match goal with Hi : is_str _ _ = true |- _ => apply is_str_true in Hi end.
  match goal with Hj : json_eqb _ (JArr _) = true |- _ => apply json_eqb_eq in Hj end.
  match goal with Hp : publication_time _ _ _ = Ok _ |- _ => apply publication_time_Ok in Hp as (? & ? & ?) end.
  unfold str_at. repeat match goal with Hi : _ = JStr _ |- _ => rewrite Hi; clear Hi end.
  split_and!; try done. do 3 eexists. split_and!; try eassumption; try lia;
    by match goal with Hi : ?v = JStr _ |- as_str ?v = _ => rewrite Hi end.
Qed.

(** C12: A downloaded release is returned only when its bytes have the digest of the release record, the
    record carries a receipt that the platform key verifies, the archive is signed by an author chain
    valid at the release time, and the signed metadata inside the archive names the same publisher,
    package, version and dependencies that were asked for. *)
Theorem download_release_authentic publisher name version bytes metadata :
  download_release root_der now publisher name version = Ok (bytes, metadata) ->
  0 < slen bytes <= 64 * mib /\
  str_at metadata "package_sha256" = Some (hex_lower (sha256 bytes)) /\
  str_at metadata "id" = Some (publisher +:+ "/" +:+ name) /\
  exists at_ files document,
    verified_at metadata = Some at_ /\ 0 < at_ <= now /\ verify_receipt root_der now metadata at_ = Ok tt /\
    read_package_at root_der bytes at_ = Ok files /\ package_metadata files = Ok document /\
    str_at document "publisher" = Some publisher /\ str_at document "name" = Some name /\
    str_at document "version" = Some version /\
    metadata.["dependencies"] = JArr (map release_dependency (document_dependencies document)).
Proof.
  unfold download_release. intros Hd. simplify_ok.
  match goal with Hv : verify_release _ _ _ _ _ _ _ = Ok _ |- _ => apply verify_release_facts in Hv as (Hsize & Hsha & Hid & _ & Hrest) end.
  match goal with Hs : as_u64 metadata.["size"] = Some ?z |- _ => lazymatch z with slen _ => fail | _ => assert (z = slen bytes) by congruence; subst end end.
  simplify_bool. split; [unfold mib; lia|]. by split_and!.
Qed.
End resolve_facts.
