(* ===== verification/Registry.v ===== *)
(** * The installation registry ([src/package/files.rs], [src/routes/capabilities.rs])

    The registration part of the configuration database as finite maps, with
    the constraints of [src/package/sql/schema.sql]: primary and unique keys,
    foreign keys ([foreign_keys] is on), CHECKs.  The schema is the current one
    (an [author] column, the views [lib] and [app]); a query without [ORDER BY]
    yields its rows in the order of [map_to_list].  A statement that violates one
    returns the constraint error; a transaction that fails is rolled back by
    its caller, so an operation returns the new database or an error. *)
From S2P Require Import Prelude RustStr Json Crates Errors Ids Manifest Waz Metadata Signing.

(** A row of [package]. *)
Record row := Row {
  row_name : string; row_author : option string; row_version : string;
  row_title : option string; row_description : option string;
  row_license : option string; row_repository : option string;
  installed_at : option Z; upgraded_at : option Z;
  has_lib : bool; has_app : bool;
  author_owner_hash : option string; package_sha256 : option string;
  signer_leaf_fingerprint_sha256 : option string
}.
Record database := Database {
  package : gmap string row;                                   (* name *)
  package_dependency : gmap (string * string) string;          (* package, dependency: version *)
  lib_capability : gmap (string * string) string;              (* lib, capability: title *)
  lib_capability_operation : gmap (string * string) (string * string); (* method, path: lib, capability *)
  proxy_location : list (string * string)                      (* location, target *)
}.
Definition set_package p db := Database p (package_dependency db) (lib_capability db) (lib_capability_operation db) (proxy_location db).
Definition set_dependency d db := Database (package db) d (lib_capability db) (lib_capability_operation db) (proxy_location db).
Definition set_acl c o db := Database (package db) (package_dependency db) c o (proxy_location db).

Definition violation (message : string) : error := ConfigDatabase ConstraintViolation message.

(** [CASE WHEN author IS NULL THEN name ELSE author||'/'||name END] *)
Definition identity (r : row) : string :=
  match row_author r with Some author => author +:+ "/" +:+ row_name r | None => row_name r end.
(** The views [lib] and [app]; any other kind is the table itself. *)
Definition of_kind (kind : string) (r : row) : bool :=
  if String.eqb kind "app" then has_app r else if String.eqb kind "lib" then has_lib r else true.

Section registry.
Context `{DhttpHome, SerdeJson, Sha2, Base64, Wasmparser, Oas3, X509}.

Definition registered_record (records : list (string * string)) (r : row) : Result (list (string * string)) :=
  let id := identity r in
  let? _ := valid_id id in
  throw (InvalidConfig "invalid or conflicting installed package name") when
    negb (String.eqb (short_name id) (row_name r))
    || existsb (fun other => String.eqb (short_name other.1) (row_name r)) records;;
  Ok (records ++ [(id, row_version r)]).
Definition kind_rows (db : database) (kind : string) : list row :=
  sort_by (fun a b => String.leb (identity a) (identity b)) (filter (fun r => of_kind kind r = true) (map_to_list (package db)).*2).
Definition registered_packages (db : database) (kind : string) (id : option string) : Result (list (string * string)) :=
  let rows := filter (fun r => match id with Some i => String.eqb (identity r) i | None => true end = true) (kind_rows db kind) in
  let? records := try_fold registered_record [] rows in
  throw RouteNotFound when bool_decide (is_Some id) && bool_decide (records = []);;
  Ok records.

Definition check_name (db : database) (id : string) (kind : string) : Result unit :=
  match package db !! short_name id with
  | Some r =>
      throw (conflict ("name is already installed as " +:+ identity r +:+ "; cannot install " +:+ id)) when
        of_kind kind r && negb (String.eqb (identity r) id);;
      Ok tt
  | None => Ok tt
  end.

(** *** Capabilities of a package: id, title, (method, path) *)
Definition capability : Type := string * string * list (string * string).
Definition declared_groups (document : json) : option json :=
  match get "x-access-groups" document with
  | Some g => Some g
  | None => get "access-groups" document.["x-pishoo"]
  end.
Definition group_endpoints (document : json) (id : string) : list (string * string) :=
  flat_map (fun entry => flat_map (fun method =>
      match as_str <$> access_group (entry.2).[method] with
      | Some (Some group) => if String.eqb group id then [(to_ascii_uppercase method, entry.1)] else []
      | _ => []
      end) METHODS)
    (default [] (as_object document.["paths"])).
Definition text_or_json (v : json) : string := match as_str v with Some s => s | None => to_json_string v end.
Definition capability_rows (files : PackageFiles) : Result (list capability) :=
  let? raw := package_openapi files in
  let? document := ok_or (InvalidComponent (json_error raw)) (from_slice raw) in
  match declared_groups document ≫= as_object with
  | Some groups =>
      Ok (map (fun g => (g.1, text_or_json (g.2).["title"], sort_by pair_leb (group_endpoints document g.1))) groups)
  | None => Ok []
  end.

(** *** Routes of a package: path and methods *)
Definition app_mount (id : string) : string := "/app/" +:+ short_name id.
Definition package_routes (files : PackageFiles) (id kind : string) : Result (list (string * list string)) :=
  if String.eqb kind "lib" then
    let prefix := lib_prefix id in
    let? raw := package_openapi files in
    let? api := validate_openapi raw in
    Ok (fold_left (fun routes e => obj_insert (prefix +:+ e.1) (map fst (methods e.2)) routes) (default [] (paths api)) [])
  else
    let static := omap (fun f => strip_prefix "public/" f.1) files in
    let routes := fold_left (fun routes path =>
      obj_insert (app_mount id +:+ "/" +:+ (if String.eqb path "index.html" then "" else path)) ["GET"; "HEAD"] routes) static [] in
    Ok (obj_insert (app_mount id) ["GET"; "HEAD"] routes).

(** The path of a proxy location. *)
Definition location_path (location : string) : string :=
  trim_end_matches "/" (default location (strip_prefix "= " location)).
Definition check_mount (db : database) (id kind : string) : Result unit :=
  if String.eqb kind "app" || negb (is_standard_author (id_author id)) then
    let mount := if String.eqb kind "app" then app_mount id else "/" +:+ short_name id in
    match find (fun l => under mount (location_path l.1)) (proxy_location db) with
    | Some l => Err (conflict (kind +:+ " " +:+ mount +:+ " conflicts with configured proxy " +:+ l.1))
    | None => Ok tt
    end
  else Ok tt.
(** Routes of the installed packages come from their files on disk:
    [installed_routes other_kind other]. *)
Definition route_conflict (kind other_kind : string) (routes : list (string * list string))
    (installed : string * list string) : bool :=
  match assoc installed.1 routes with
  | Some ours => (String.eqb kind "lib" && String.eqb other_kind "lib")
                 || existsb (fun m => existsb (String.eqb m) ours) installed.2
  | None => false
  end.
Definition check_other (installed_routes : string -> string -> Result (list (string * list string)))
    (id kind other_kind : string) (routes : list (string * list string)) (other : string) : Result unit :=
  if String.eqb other id then Ok tt else
  let? theirs := installed_routes other_kind other in
  match find (route_conflict kind other_kind routes) theirs with
  | Some r => Err (conflict ("route " +:+ r.1 +:+ " conflicts with installed " +:+ other_kind +:+ " " +:+ other))
  | None => Ok tt
  end.
Definition check_routes (installed_routes : string -> string -> Result (list (string * list string)))
    (db : database) (id kind : string) (files : PackageFiles) : Result unit :=
  let? _ := check_mount db id kind in
  let? routes := package_routes files id kind in
  try_fold (fun _ other_kind =>
    let? others := registered_packages db other_kind None in
    try_fold (fun _ other => check_other installed_routes id kind other_kind routes other.1) tt others)
    tt ["lib"; "app"].

(** *** SQL statements on the permission tables *)
(** Only the ASCII space is trimmed by SQLite's [trim]. *)
Definition sql_blank (s : string) : bool := all_bytes (Ascii.eqb " ") s.
Definition insert_capability (name id title : string) (db : database) : Result database :=
  throw (violation "CHECK") when (slen id =? 0) || sql_blank title;;
  throw (violation "PRIMARY KEY") when bool_decide (is_Some (lib_capability db !! (name, id)));;
  Ok (set_acl (<[(name, id) := title]> (lib_capability db)) (lib_capability_operation db) db).
Definition insert_operation (name id : string) (db : database) (endpoint : string * string) : Result database :=
  let '(method, path) := endpoint in
  throw (violation "CHECK") when
    (slen method =? 0) || negb (String.eqb method (to_ascii_uppercase method))
    || negb (starts_with "/" path) || (slen path <=? 1);;
  throw (violation "UNIQUE") when bool_decide (is_Some (lib_capability_operation db !! (method, path)));;
  throw (violation "FOREIGN KEY") when negb (bool_decide (is_Some (lib_capability db !! (name, id))));;
  Ok (set_acl (lib_capability db) (<[(method, path) := (name, id)]> (lib_capability_operation db)) db).
Definition delete_capabilities (name : string) (db : database) : database :=
  set_acl (filter (fun e => e.1.1 <> name) (lib_capability db))
          (filter (fun e => e.2.1 <> name) (lib_capability_operation db)) db.

(** [routes::permissions] *)
Definition insert_group (name : string) (db : database) (group : capability) : Result database :=
  let '(id, title, endpoints) := group in
  let? db := insert_capability name id title db in
  try_fold (insert_operation name id) db endpoints.
Definition permissions (name : string) (groups : list capability) (db : database) : Result database :=
  try_fold (insert_group name) (delete_capabilities name db) groups.

(** *** Dependencies *)
Definition declared_dependencies (api : json) : list (string * string) :=
  map (fun dep => (dependency_id dep, unwrap_str dep.["version"])) (default [] (as_array api.["dependencies"])).
(** [SELECT dependency_name FROM package_dependency WHERE package_name=?1] *)
Definition dependencies_of (db : database) (name : string) : list string :=
  omap (fun e => if String.eqb e.1.1 name then Some e.1.2 else None) (map_to_list (package_dependency db)).

(** The depth-first search: [pending] is the stack, its head the top. *)
Fixpoint cycle_search (fuel : nat) (db : database) (name : string) (pending : list string) (seen : gset string) : option bool :=
  match pending with
  | [] => Some false
  | current :: pending =>
      match fuel with
      | O => None
      | S fuel =>
          if String.eqb current name then Some true
          else if bool_decide (current ∈ seen) then cycle_search fuel db name pending seen
          else cycle_search fuel db name (rev (dependencies_of db current) ++ pending) ({[current]} ∪ seen)
      end
  end.
(** Every name is expanded at most once, so at most one item per edge is
    pushed. *)
Definition cycle_fuel (db : database) : nat := S (size (package_dependency db)).
Definition cycle_error (id : string) : error := conflict ("cyclic backend dependency involving " +:+ id).
Definition check_dependency_cycle (db : database) (id dependency : string) : Result unit :=
  match cycle_search (cycle_fuel db) db (short_name id) [short_name dependency] ∅ with
  | Some false => Ok tt
  | Some true => Err (cycle_error id)
  | None => Err panicked
  end.

(** [INSERT INTO package_dependency]: CHECK, primary key and foreign keys. *)
Definition insert_dependency (name dependency version : string) (db : database) : Result database :=
  throw (violation "CHECK") when String.eqb name dependency;;
  throw (violation "PRIMARY KEY") when bool_decide (is_Some (package_dependency db !! (name, dependency)));;
  throw (violation "FOREIGN KEY") when
    negb (bool_decide (is_Some (package db !! name))) || negb (bool_decide (is_Some (package db !! dependency)));;
  Ok (set_dependency (<[(name, dependency) := version]> (package_dependency db)) db).
Definition delete_dependencies (name : string) (db : database) : database :=
  set_dependency (filter (fun e => e.1.1 <> name) (package_dependency db)) db.

(** The installed packages that require another version of [name]. *)
Definition required_versions (db : database) (name id version : string) : list string :=
  map snd (sort_by (fun a b => String.leb a.1 b.1)
    (omap (fun e => if String.eqb e.1.2 name && negb (String.eqb e.2 version)
                    then match package db !! e.1.1 with
                         | Some p => Some (row_name p, identity p +:+ " requires " +:+ id +:+ "@" +:+ e.2)
                         | None => None
                         end
                    else None) (map_to_list (package_dependency db)))).

(** [INSERT INTO package .. ON CONFLICT(name) DO UPDATE]: an update keeps
    [installed_at]. *)
Definition new_row (now : Z) (id : string) (api : json) (previous : option row) : row :=
  {| row_name := short_name id;
     row_author := match split_once "/" id with Some (author, _) => Some author | None => None end;
     row_version := unwrap_str api.["version"];
     row_title := as_str api.["title"]; row_description := as_str api.["description"];
     row_license := as_str api.["license"]; row_repository := as_str api.["repository"];
     installed_at := match previous with Some r => installed_at r | None => Some now end;
     upgraded_at := match previous with Some _ => Some now | None => None end;
     has_lib := is_true api.["has_lib"]; has_app := is_true api.["has_app"];
     author_owner_hash := as_str api.["author_owner_hash"];
     package_sha256 := as_str api.["package_sha256"];
     signer_leaf_fingerprint_sha256 := as_str api.["signer_leaf_fingerprint_sha256"] |}.
Definition upsert_package (now : Z) (id : string) (api : json) (db : database) : Result database :=
  let r := new_row now id api (package db !! short_name id) in
  throw (violation "CHECK") when negb (has_lib r || has_app r);;
  Ok (set_package (<[row_name r := r]> (package db)) db).

(** One declared dependency of [id]. *)
Definition save_dependency (id : string) (db : database) (dep : string * string) : Result database :=
  let '(dependency, version) := dep in
  let? (dependency_author, dependency_name) := ok_or panicked (split_once "/" dependency) in
  throw (conflict ("dependency " +:+ dependency +:+ "@" +:+ version +:+ " is not installed")) when
    match package db !! dependency_name with
    | Some r => negb (bool_decide (row_author r = Some dependency_author) && String.eqb (row_version r) version)
    | None => true
    end;;
  let? _ := check_dependency_cycle db id dependency in
  insert_dependency (short_name id) dependency_name version db.

(** The groups of the package with host paths, and the app entry of the
    groups declared for it. *)
Definition app_group (declarations : option json) (id : string) : bool :=
  match declarations ≫= get id with Some group => is_true group.["app"] | None => false end.
Definition registration_groups (id : string) (api : json) (files : PackageFiles) : Result (list capability) :=
  if is_true api.["has_lib"] then
    let? groups := capability_rows files in
    let prefix := match split_once "/" id with
                  | Some (author, _) => if is_standard_author author then "/std" else "/" +:+ short_name id
                  | None => "/" +:+ short_name id
                  end in
    let groups := map (fun g : capability => (g.1, map (fun e => (e.1, prefix +:+ e.2)) g.2)) groups in
    let? raw := package_openapi files in
    let? document := ok_or (InvalidComponent (json_error raw)) (from_slice raw) in
    try_map (fun g : capability =>
      if app_group (declared_groups document) g.1.1 then
        throw (InvalidComponent "app capability requires this package's public resources") when
          negb (is_true api.["has_app"]);;
        Ok (g.1, g.2 ++ [("GET", app_mount id)])
      else Ok g) groups
  else Ok [].

Definition ownership_conflict : error := policy "publisher_ownership_conflict" 409.
Definition save_registration (now : Z) (id : string) (api : json) (files : PackageFiles) (db : database) : Result database :=
  let? _ := check_name db id "pkg" in
  let name := short_name id in
  throw ownership_conflict when
    match package db !! name with
    | Some r => match author_owner_hash r with
                | Some owner => negb (bool_decide (as_str api.["author_owner_hash"] = Some owner))
                | None => false
                end
    | None => false
    end;;
  let? version := ok_or panicked (as_str api.["version"]) in
  let required := required_versions db name id version in
  throw (conflict ("package version is required by installed dependencies: " +:+ join "; " required)) when
    negb (bool_decide (required = []));;
  let? db := upsert_package now id api db in
  let db := delete_dependencies name db in
  let? db := try_fold (save_dependency id) db (declared_dependencies api) in
  let? groups := registration_groups id api files in
  permissions name groups db.

(** *** Removal: the statements of [remove_package] *)
(** [DELETE FROM package]: outgoing dependencies cascade, incoming ones
    restrict. *)
Definition delete_package (name : string) (db : database) : Result database :=
  throw (violation "FOREIGN KEY") when
    existsb (fun e => String.eqb e.1.2 name && negb (String.eqb e.1.1 name)) (map_to_list (package_dependency db));;
  Ok (delete_dependencies name (set_package (delete name (package db)) db)).
Definition referenced (name : string) (db : database) : bool :=
  existsb (fun e => String.eqb e.1.2 name) (map_to_list (package_dependency db)).
Definition unregister (id : string) (db : database) : Result database :=
  let name := short_name id in
  throw (conflict "package is required by installed dependencies") when referenced name db;;
  let? db := permissions name [] db in
  delete_package name db.

(** *** Queries *)
Definition opt_str (o : option string) : json := jopt JStr o.
Definition registered_dependencies (db : database) (name : string) : list json :=
  map (fun r : row * string => jobj [("publisher", opt_str (row_author r.1)); ("name", JStr (row_name r.1)); ("version", JStr r.2)])
    (sort_by (fun a b => if bool_decide (row_author a.1 = row_author b.1) then String.leb (row_name a.1) (row_name b.1)
                         else opt_string_leb (row_author a.1) (row_author b.1))
      (omap (fun e => if String.eqb e.1.1 name then (fun p => (p, e.2)) <$> package db !! e.1.2 else None)
         (map_to_list (package_dependency db)))).
Definition registered_metadata (db : database) (id : string) : Result json :=
  let? r := ok_or RouteNotFound
    (find (fun r => String.eqb (identity r) id) (map_to_list (package db)).*2) in
  let value := jobj [("id", JStr id); ("name", JStr (row_name r)); ("author", opt_str (row_author r)); ("version", JStr (row_version r));
    ("title", JStr (default (row_name r) (row_title r))); ("description", opt_str (row_description r));
    ("license", opt_str (row_license r)); ("repository", opt_str (row_repository r));
    ("installed_at", jopt JInt (installed_at r)); ("upgraded_at", jopt JInt (upgraded_at r));
    ("has_lib", JBool (has_lib r)); ("has_app", JBool (has_app r));
    ("author_owner_hash", opt_str (author_owner_hash r)); ("package_sha256", opt_str (package_sha256 r));
    ("signer_leaf_fingerprint_sha256", opt_str (signer_leaf_fingerprint_sha256 r)); ("endpoints", JArr [])] in
  let value := set_key "dependencies" (JArr (registered_dependencies db (short_name id))) value in
  Ok (if has_app r then set_key "entry" (JStr "/") value else value).
Definition installed_packages (db : database) (id : option string) : Result json :=
  let? rows := registered_packages db "pkg" id in
  let? values := try_map (fun r => registered_metadata db r.1) rows in
  match id with
  | Some _ => ok_or RouteNotFound (last values)
  | None => Ok (JArr values)
  end.
End registry.

(** ** Dependency cycles *)
Definition edge (db : database) (p d : string) : Prop := is_Some (package_dependency db !! (p, d)).
Definition acyclic (db : database) : Prop := forall n, ~ tc (edge db) n n.

Lemma dependencies_of_spec db p d : d ∈ dependencies_of db p <-> edge db p d.
Proof.
  unfold dependencies_of, edge. rewrite list_elem_of_omap. split.
  - intros ([[p' d'] v] & Hin%elem_of_map_to_list & Hd). cbn in Hd.
    destruct (String.eqb_spec p' p) as [->|]; [|done]. injection Hd as ->. eauto.
  - intros [v Hv]. exists (p, d, v). rewrite elem_of_map_to_list. cbn. by rewrite String.eqb_refl.
Qed.

Definition unseen (db : database) (seen : gset string) : nat :=
  length (filter (fun e : string * string * string => e.1.1 ∉ seen) (map_to_list (package_dependency db))).
Lemma unseen_le db seen : (unseen db seen <= size (package_dependency db))%nat.
Proof. unfold unseen. rewrite <- length_map_to_list. apply length_filter. Qed.
Lemma unseen_expand db seen c :
  c ∉ seen -> (length (dependencies_of db c) + unseen db ({[c]} ∪ seen) = unseen db seen)%nat.
Proof.
  intros Hc. unfold dependencies_of, unseen.
  induction (map_to_list (package_dependency db)) as [|[[p d] v] l IH]; [done|].
  rewrite !filter_cons. cbn [omap list_omap fst snd].
  destruct (String.eqb_spec p c) as [->|Hne]; cbn [fst snd] in *.
  - rewrite (decide_False (P := c ∉ {[c]} ∪ seen)) by set_solver. rewrite (decide_True (P := c ∉ seen)) by done.
    cbn [length]. rewrite <- IH. done.
  - destruct (decide (p ∉ seen)) as [Hp|Hp].
    + rewrite (decide_True (P := p ∉ {[c]} ∪ seen)) by set_solver. cbn [length]. rewrite <- IH. apply Nat.add_succ_r.
    + rewrite (decide_False (P := p ∉ {[c]} ∪ seen)) by set_solver. done.
Qed.

Lemma cycle_search_total fuel db name pending seen :
  (length pending + unseen db seen <= fuel)%nat -> is_Some (cycle_search fuel db name pending seen).
Proof.
  revert pending seen. induction fuel as [|fuel IH]; intros [|c pending] seen Hf; cbn [cycle_search]; [done|cbn in Hf; lia|done|].
  destruct (String.eqb c name); [done|]. destruct (decide (c ∈ seen)) as [Hc|Hc].
  - rewrite bool_decide_true by done. apply IH. cbn in Hf. lia.
  - rewrite bool_decide_false by done. apply IH. rewrite length_app, length_rev.
    pose proof (unseen_expand db seen c Hc). cbn in Hf. lia.
Qed.

Lemma cycle_search_true fuel db name pending seen :
  cycle_search fuel db name pending seen = Some true -> exists p, p ∈ pending /\ rtc (edge db) p name.
Proof.
  revert pending seen. induction fuel as [|fuel IH]; intros [|c pending] seen Hs; cbn in Hs; try done.
  destruct (String.eqb_spec c name) as [->|]; [exists name; split; [by left|done]|].
  destruct (bool_decide _).
  - apply IH in Hs as (p & Hp & Hr). exists p. split; [by right|done].
  - apply IH in Hs as (p & [Hp|Hp]%elem_of_app & Hr); [|exists p; split; [by right|done]].
    rewrite <- Permutation_rev in Hp. apply dependencies_of_spec in Hp. exists c. split; [by left|].
    by eapply rtc_l.
Qed.

(** A set that contains the stack and is closed under dependencies, without
    [name]: no name is reachable from the stack. *)
Lemma cycle_search_false fuel db name pending (seen : gset string) :
  cycle_search fuel db name pending seen = Some false ->
  name ∉ seen -> (forall s d, s ∈ seen -> edge db s d -> d ∈ seen \/ d ∈ pending) ->
  exists closed : gset string, seen ⊆ closed /\ (forall p, p ∈ pending -> p ∈ closed) /\ name ∉ closed /\
    forall s d, s ∈ closed -> edge db s d -> d ∈ closed.
Proof.
  revert pending seen. induction fuel as [|fuel IH]; intros [|c pending] seen Hs Hn Hc; cbn in Hs; try done.
  1,2: exists seen; split_and!; [done|by intros ? ?%not_elem_of_nil|done|];
    intros s d Hin He; by destruct (Hc s d Hin He) as [?|?%not_elem_of_nil].
  destruct (String.eqb_spec c name) as [->|Hne]; [done|].
  destruct (decide (c ∈ seen)) as [Hin|Hin].
  - rewrite bool_decide_true in Hs by done. apply IH in Hs as (S & HS & Hp & HnS & Hcl); [|done|].
    + exists S. split_and!; [done| |done|done]. intros p [->|Hp']%elem_of_cons; [set_solver|auto].
    + intros s d Hs' He. destruct (Hc s d Hs' He) as [?|[->|?]%elem_of_cons]; auto.
  - rewrite bool_decide_false in Hs by done. apply IH in Hs as (S & HS & Hp & HnS & Hcl).
    + exists S. split_and!; [set_solver| |done|done].
      intros p [->|Hp']%elem_of_cons; [set_solver|apply Hp, elem_of_app; by right].
    + set_solver.
    + intros s d [->%elem_of_singleton|Hs']%elem_of_union He.
      * right. apply elem_of_app. left. rewrite <- Permutation_rev. by apply dependencies_of_spec.
      * destruct (Hc s d Hs' He) as [?|[->|?]%elem_of_cons]; [left|left|right; apply elem_of_app]; set_solver.
Qed.

Lemma check_cycle_spec `{DhttpHome} db id dependency :
  (check_dependency_cycle db id dependency = Ok tt /\ ~ rtc (edge db) (short_name dependency) (short_name id)) \/
  (check_dependency_cycle db id dependency = Err (cycle_error id) /\ rtc (edge db) (short_name dependency) (short_name id)).
Proof.
  unfold check_dependency_cycle.
  destruct (cycle_search_total (cycle_fuel db) db (short_name id) [short_name dependency] ∅) as [b Hb].
  { unfold cycle_fuel. cbn [length]. apply le_n_S, unseen_le. }
  rewrite Hb. destruct b.
  - right. split; [done|]. apply cycle_search_true in Hb as (p & ->%list_elem_of_singleton & Hr). done.
  - left. split; [done|]. intros Hr.
    apply cycle_search_false in Hb as (S & _ & Hp & Hn & Hcl); [|set_solver..].
    apply Hn. specialize (Hp _ (list_elem_of_here _ _)). revert Hp. clear Hn.
    induction Hr as [|x y z Hxy _ IH]; [done|]. intros Hx. apply IH; eauto.
Qed.

(** C35: The recursive query that guards a new dependency accepts it exactly when the package cannot be
    reached from the dependency along the recorded dependencies, and its fuel is always enough. *)
Theorem check_dependency_cycle_iff `{DhttpHome} db id dependency :
  (check_dependency_cycle db id dependency = Ok tt <->
   ~ rtc (edge db) (short_name dependency) (short_name id)) /\
  check_dependency_cycle db id dependency <> Err panicked.
Proof. destruct (check_cycle_spec db id dependency) as [[-> ?]|[-> ?]]; by split. Qed.

(** ** Permission declarations *)
(** The endpoints group [c] of [groups] declares. *)
Definition group_declares (groups : list capability) (c : string) (e : string * string) : Prop :=
  exists title endpoints, (c, title, endpoints) ∈ groups /\ e ∈ endpoints.
Definition same_registrations (db db' : database) : Prop :=
  package db' = package db /\ package_dependency db' = package_dependency db /\ proxy_location db' = proxy_location db.

Section permission_facts.
Context (name : string).

Lemma insert_operations id endpoints db db' :
  try_fold (insert_operation name id) db endpoints = Ok db' ->
  same_registrations db db' /\ lib_capability db' = lib_capability db /\
  (forall e lc, lib_capability_operation db' !! e = Some lc <->
     lib_capability_operation db !! e = Some lc \/ (e ∈ endpoints /\ lc = (name, id))) /\
  (endpoints <> [] -> is_Some (lib_capability db !! (name, id))).
Proof.
  apply (try_fold_ind _ (fun pre d => same_registrations db d /\ lib_capability d = lib_capability db /\
    (forall e lc, lib_capability_operation d !! e = Some lc <->
       lib_capability_operation db !! e = Some lc \/ (e ∈ pre /\ lc = (name, id))) /\
    (pre <> [] -> is_Some (lib_capability db !! (name, id))))).
  - split_and!; try done. intros e lc. split; [by left|]. by intros [?|[?%not_elem_of_nil _]].
  - intros pre [method path] d d' ((Hp & Hd & Hx) & Hc & Ho & Hi) Hs. unfold insert_operation in Hs. simplify_ok.
    simplify_bool. cbn. split_and!; [by split_and!|done| |].
    + intros e lc. destruct (decide (e = (method, path))) as [->|Hne].
      * rewrite lookup_insert_eq. rewrite elem_of_app, list_elem_of_singleton.
        assert (lib_capability_operation db !! (method, path) = None) as ->; [|naive_solver].
        apply eq_None_not_Some. intros [x Hx']. assert (lib_capability_operation d !! (method, path) = Some x) by (apply Ho; auto).
        congruence.
      * rewrite lookup_insert_ne by done. rewrite Ho, elem_of_app, list_elem_of_singleton. naive_solver.
    + intros _. by rewrite <- Hc.
Qed.

Definition groups_inv (db0 : database) (pre : list capability) (db : database) : Prop :=
  same_registrations db0 db /\
  (forall lc title, lib_capability db !! lc = Some title <->
     (lc.1 <> name /\ lib_capability db0 !! lc = Some title) \/
     (lc.1 = name /\ exists endpoints, (lc.2, title, endpoints) ∈ pre)) /\
  (forall e lc, lib_capability_operation db !! e = Some lc <->
     (lc.1 <> name /\ lib_capability_operation db0 !! e = Some lc) \/
     (lc.1 = name /\ group_declares pre lc.2 e)).

Lemma permissions_inv groups db db' : permissions name groups db = Ok db' -> groups_inv db groups db'.
Proof.
  apply (try_fold_ind _ (groups_inv db)).
  - unfold delete_capabilities. split_and!; cbn; [done| |].
    + intros lc title. rewrite map_lookup_filter_Some. split; [tauto|].
      intros [?|(_ & ? & ?%not_elem_of_nil)]; [tauto|done].
    + intros e lc. rewrite map_lookup_filter_Some. split; [tauto|].
      intros [?|(_ & ? & ? & ?%not_elem_of_nil & _)]; [tauto|done].
  - intros pre [[id title] endpoints] d d' ((Hp & Hd & Hx) & Hc & Ho) Hs. unfold insert_group in Hs. simplify_ok.
    unfold insert_capability in *. simplify_ok. simplify_bool.
    match goal with Hf : try_fold _ _ _ = Ok _ |- _ => apply insert_operations in Hf as ((Hp' & Hd' & Hx') & Hc' & Ho' & _) end.
    cbn in *. split_and!.
    + by split_and!; etrans.
    + intros lc t. rewrite Hc'. destruct (decide (lc = (name, id))) as [->|Hne].
      * rewrite lookup_insert_eq. cbn. setoid_rewrite elem_of_app. setoid_rewrite list_elem_of_singleton.
        split; [intros [= <-]; eauto|]. intros [[? _]|(_ & eps & [Hin|[= <- _]])]; [done| |done].
        exfalso. assert (lib_capability d !! (name, id) = Some t) by (apply Hc; eauto). congruence.
      * rewrite lookup_insert_ne by done. rewrite Hc. setoid_rewrite elem_of_app. setoid_rewrite list_elem_of_singleton.
        destruct lc as [l c]. cbn. naive_solver.
    + intros e [l c]. rewrite Ho', Ho. unfold group_declares. cbn. setoid_rewrite elem_of_app.
      setoid_rewrite list_elem_of_singleton. naive_solver.
Qed.

(** Writing the access groups of a package replaces its own capability-operation assignments by exactly
    the declared ones, leaves the other packages' and all registrations alone, and no operation ends up
    in two groups of the package. *)
Theorem permissions_replace groups db db' :
  permissions name groups db = Ok db' ->
  same_registrations db db' /\
  (forall e c, lib_capability_operation db' !! e = Some (name, c) <-> group_declares groups c e) /\
  (forall e lib c, lib <> name ->
     lib_capability_operation db' !! e = Some (lib, c) <-> lib_capability_operation db !! e = Some (lib, c)) /\
  (forall e c c', group_declares groups c e -> group_declares groups c' e -> c = c').
Proof.
  intros (Hr & _ & Ho)%permissions_inv.
  assert (forall e c, lib_capability_operation db' !! e = Some (name, c) <-> group_declares groups c e) as Hown.
  { intros e c. rewrite Ho. cbn. naive_solver. }
  split_and!; [done|done| |].
  - intros e lib c Hne. rewrite Ho. cbn. naive_solver.
  - intros e c c' H1%Hown H2%Hown. congruence.
Qed.
End permission_facts.

(** ** The invariant of the registry *)
Record db_ok (db : database) : Prop := DbOk {
  ok_names : forall n r, package db !! n = Some r -> row_name r = n /\ contains_char "/" n = false;
  ok_contents : forall n r, package db !! n = Some r -> has_lib r || has_app r = true;
  (* both ends are installed, the target in exactly the required version *)
  ok_dependencies : forall p d v, package_dependency db !! (p, d) = Some v ->
    is_Some (package db !! p) /\ exists r, package db !! d = Some r /\ row_version r = v;
  ok_acyclic : acyclic db;
  ok_operations : forall e lc, lib_capability_operation db !! e = Some lc -> is_Some (lib_capability db !! lc)
}.

Section invariant_facts.
Context `{DhttpHome, SerdeJson, Sha2, Base64, Wasmparser, Oas3, X509}.

Lemma edge_insert m db n d v p x :
  package_dependency db = <[(n, d) := v]> m -> edge db p x -> (p = n /\ x = d) \/ is_Some (m !! (p, x)).
Proof.
  unfold edge. intros ->. destruct (decide ((p, x) = (n, d))) as [[= -> ->]|Hne]; [by left|].
  rewrite lookup_insert_ne by done. by right.
Qed.

(** Adding an edge whose target does not reach its source. *)
Lemma acyclic_insert db db' n d v :
  acyclic db -> ~ rtc (edge db) d n -> package_dependency db' = <[(n, d) := v]> (package_dependency db) -> acyclic db'.
Proof.
  intros Hac Hnr Heq.
  assert (forall x y, tc (edge db') x y -> tc (edge db) x y \/ (rtc (edge db) x n /\ rtc (edge db) d y)) as Hpath.
  { intros x y Hr. induction Hr as [x y Hxy|x y z Hxy _ IH];
      destruct (edge_insert _ _ _ _ _ _ _ Heq Hxy) as [[-> ->]|He].
    - right. split; apply rtc_refl.
    - left. by apply tc_once.
    - right. split; [apply rtc_refl|]. destruct IH as [?%tc_rtc|[_ ?]]; done.
    - destruct IH as [?|[? ?]]; [left; by eapply tc_l|right; split; [by eapply rtc_l|done]]. }
  intros x [?|[Hx Hd]]%Hpath; [by eapply Hac|]. apply Hnr. by etrans.
Qed.

Lemma acyclic_sub db db' :
  acyclic db -> package_dependency db' ⊆ package_dependency db -> acyclic db'.
Proof.
  intros Hac Hsub n Hn. apply (Hac n). revert Hn. generalize n at 2 4. intros m Hn.
  assert (forall x y, edge db' x y -> edge db x y) as He.
  { intros x y [v Hv]. exists v. by eapply lookup_weaken. }
  induction Hn; [apply tc_once|eapply tc_l]; eauto.
Qed.

(** Changing only the permission tables. *)
Lemma db_ok_permissions name groups db db' : db_ok db -> permissions name groups db = Ok db' -> db_ok db'.
Proof.
  intros [Hn Hc Hd Ha Ho] ((Hp & Hdep & _) & Hcap & Hop)%permissions_inv.
  split; rewrite ?Hp, ?Hdep; try done.
  - eapply acyclic_sub; [exact Ha|]. by rewrite Hdep.
  - intros e [l c] [[Hne He]|[Heq (t & eps & Hin & _)]]%Hop; cbn in *.
    + destruct (Ho _ _ He) as [t Ht]. exists t. apply Hcap. by left.
    + subst. exists t. apply Hcap. right. eauto.
Qed.

Lemma db_ok_delete_dependencies name db : db_ok db -> db_ok (delete_dependencies name db).
Proof.
  intros [Hn Hc Hd Ha Ho]. split; cbn; try done.
  - intros p d v [Hv _]%map_lookup_filter_Some. by apply Hd.
  - eapply acyclic_sub; [exact Ha|]. apply map_filter_subseteq.
Qed.

Lemma upsert_ok now id api db db' :
  db_ok db -> (forall p v, package_dependency db !! (p, short_name id) = Some v -> v = unwrap_str api.["version"]) ->
  upsert_package now id api db = Ok db' ->
  db_ok db' /\ package db' = <[short_name id := new_row now id api (package db !! short_name id)]> (package db) /\
  package_dependency db' = package_dependency db /\ lib_capability_operation db' = lib_capability_operation db /\
  proxy_location db' = proxy_location db.
Proof.
  intros [Hn Hc Hd Ha Ho] Hver. unfold upsert_package. intros Hu. simplify_ok. simplify_bool. cbn.
  split; [|done]. split; cbn.
  - intros n r. destruct (decide (n = short_name id)) as [->|Hne]; [rewrite lookup_insert_eq|rewrite lookup_insert_ne by done].
    + intros [= <-]. split; [done|]. apply last_segment_clean.
    + apply Hn.
  - intros n r. destruct (decide (n = short_name id)) as [->|Hne]; [rewrite lookup_insert_eq|rewrite lookup_insert_ne by done].
    + by intros [= <-].
    + apply Hc.
  - intros p d v Hv. destruct (Hd p d v Hv) as [Hp (r & Hr & Hrv)]. split.
    + rewrite lookup_insert_is_Some'. by right.
    + destruct (decide (d = short_name id)) as [->|Hne]; [|exists r; by rewrite lookup_insert_ne].
      rewrite lookup_insert_eq. eexists. split; [done|]. cbn. by rewrite (Hver p v Hv).
  - done.
  - done.
Qed.

Lemma required_versions_empty db name id version :
  db_ok db -> required_versions db name id version = [] ->
  forall p v, package_dependency db !! (p, name) = Some v -> v = version.
Proof.
  intros Hok Hr p v Hv. unfold required_versions in Hr. apply map_eq_nil in Hr.
  destruct (decide (v = version)) as [|Hne]; [done|]. exfalso.
  destruct (ok_dependencies _ Hok _ _ _ Hv) as [[r Hp] _].
  match type of Hr with sort_by ?le ?l = [] => assert (forall x, x ∉ l) as Hno end.
  { intros x. rewrite <- (elem_of_sort_by), Hr. apply not_elem_of_nil. }
  eapply Hno. apply list_elem_of_omap. exists (p, name, v). rewrite elem_of_map_to_list. split; [done|].
  cbn. rewrite String.eqb_refl. apply String.eqb_neq in Hne. rewrite Hne. cbn. by rewrite Hp.
Qed.

Lemma save_dependency_ok id db dep db' :
  db_ok db -> save_dependency id db dep = Ok db' ->
  db_ok db' /\ package db' = package db /\ lib_capability_operation db' = lib_capability_operation db /\
  lib_capability db' = lib_capability db /\
  exists author d, dep.1 = author +:+ "/" +:+ d /\ contains_char "/" author = false /\
    package_dependency db !! (short_name id, d) = None /\
    package_dependency db' = <[(short_name id, d) := dep.2]> (package_dependency db).
Proof.
  intros Hok Hs. destruct dep as [dependency version]. unfold save_dependency in Hs. simplify_ok.
  match goal with p : string * string |- _ => destruct p as [author d] end. simplify_ok.
  match goal with Hsp : split_once _ _ = Some _ |- _ => apply split_once_Some in Hsp as [-> Hauthor] end.
  destruct (package db !! d) as [r|] eqn:Hr; [|done]. simplify_bool. subst version.
  match goal with Hc : check_dependency_cycle _ _ _ = Ok ?u |- _ =>
    destruct (check_cycle_spec db id (author +:+ String "/" d)) as [[_ Hn]|[Hx _]]; [clear Hc|congruence] end.
  unfold insert_dependency in Hs. simplify_ok. simplify_bool. cbn.
  destruct Hok as [Hnm Hct Hd Ha Ho]. destruct (Hnm _ _ Hr) as [_ Hslash].
  split; [|by split_and!; [done..|]; exists author, d].
  split; cbn; try done.
  - intros p x v. destruct (decide ((p, x) = (short_name id, d))) as [[= -> ->]|Hne].
    + rewrite lookup_insert_eq. intros [= <-]. eauto.
    + rewrite lookup_insert_ne by done. apply Hd.
  - eapply acyclic_insert; [exact Ha| |done].
    unfold short_name at 1 in Hn. by rewrite last_segment_app in Hn.
Qed.

(** Dependency rows of a package that declares [deps]. *)
Definition declares (deps : list (string * string)) (d v : string) : Prop :=
  exists author, (author +:+ "/" +:+ d, v) ∈ deps /\ contains_char "/" author = false.

Lemma save_dependencies_ok id deps db db' :
  db_ok db -> (forall d, package_dependency db !! (short_name id, d) = None) ->
  try_fold (save_dependency id) db deps = Ok db' ->
  db_ok db' /\ package db' = package db /\ lib_capability_operation db' = lib_capability_operation db /\
  lib_capability db' = lib_capability db /\
  (forall d v, package_dependency db' !! (short_name id, d) = Some v <-> declares deps d v) /\
  (forall p d, p <> short_name id -> package_dependency db' !! (p, d) = package_dependency db !! (p, d)).
Proof.
  intros Hok Hnone.
  apply (try_fold_ind _ (fun pre d => db_ok d /\ package d = package db /\
    lib_capability_operation d = lib_capability_operation db /\ lib_capability d = lib_capability db /\
    (forall x v, package_dependency d !! (short_name id, x) = Some v <-> declares pre x v) /\
    (forall p x, p <> short_name id -> package_dependency d !! (p, x) = package_dependency db !! (p, x)))).
  - split_and!; try done. intros d v. rewrite Hnone. split; [done|]. by intros (? & ?%not_elem_of_nil & _).
  - intros pre dep d d' (Hokd & Hp & Ho & Hc & Hown & Hother) Hs.
    destruct (save_dependency_ok _ _ _ _ Hokd Hs) as (Hok' & Hp' & Ho' & Hc' & author & x & Hdep & Hauthor & Hfresh & Hd').
    split_and!; [done|congruence|congruence|congruence| |].
    + intros y v. rewrite Hd'. unfold declares. setoid_rewrite elem_of_app. setoid_rewrite list_elem_of_singleton.
      destruct dep as [dependency version]. cbn in Hdep, Hd' |- *. destruct (decide (y = x)) as [->|Hne].
      * rewrite lookup_insert_eq. split; [intros [= <-]; exists author; subst; auto|].
        intros (au & [Hin|[= _ ->]] & Hau); [|done]. exfalso.
        assert (package_dependency d !! (short_name id, x) = Some v) by (apply Hown; by exists au). congruence.
      * rewrite lookup_insert_ne by congruence. rewrite Hown. split; [intros (au & ? & ?); exists au; auto|].
        intros (au & [Hin|[= Heq ->]] & Hau); [by exists au|]. exfalso. rewrite Hdep in Heq.
        change (au +:+ String "/" y = author +:+ String "/" x) in Heq.
        pose proof (proj2 (split_once_Some "/" _ au y) (conj eq_refl Hau)) as S1.
        pose proof (proj2 (split_once_Some "/" _ author x) (conj Heq Hauthor)) as S2. congruence.
    + intros p y Hne. rewrite Hd', lookup_insert_ne by congruence. by apply Hother.
Qed.

Lemma save_registration_facts now id api files db db' :
  db_ok db -> save_registration now id api files db = Ok db' ->
  db_ok db' /\
  package db' = <[short_name id := new_row now id api (package db !! short_name id)]> (package db) /\
  (forall d v, package_dependency db' !! (short_name id, d) = Some v <-> declares (declared_dependencies api) d v) /\
  (forall p d, p <> short_name id -> package_dependency db' !! (p, d) = package_dependency db !! (p, d)) /\
  (forall r owner, package db !! short_name id = Some r -> author_owner_hash r = Some owner ->
     as_str api.["author_owner_hash"] = Some owner) /\
  (forall e lib c, lib <> short_name id ->
     lib_capability_operation db' !! e = Some (lib, c) <-> lib_capability_operation db !! e = Some (lib, c)).
Proof.
  intros Hok Hs. unfold save_registration in Hs. simplify_ok. simplify_bool.
  match goal with Hv : as_str api.["version"] = Some ?v |- _ =>
    assert (unwrap_str api.["version"] = v) as Hver by (unfold unwrap_str; by rewrite Hv) end.
  match goal with Hr : required_versions _ _ _ _ = [] |- _ =>
    pose proof (required_versions_empty _ _ _ _ Hok Hr) as Hreq end.
  match goal with Hu : upsert_package _ _ _ _ = Ok _ |- _ =>
    apply upsert_ok in Hu as (Hok1 & Hp1 & Hd1 & Ho1 & _); [|done|by rewrite Hver] end.
  match goal with Hf : try_fold _ _ _ = Ok _ |- _ =>
    apply save_dependencies_ok in Hf as (Hok2 & Hp2 & Ho2 & _ & Hown & Hother);
      [|by apply db_ok_delete_dependencies|] end.
  2: { intros d. cbn. apply map_lookup_filter_None. right. by intros x _ []. }
  pose proof (permissions_inv _ _ _ _ Hs) as ((Hp3 & Hd3 & _) & _ & Hop3).
  split; [by eapply db_ok_permissions|]. cbn in Hp2, Hother, Ho2. rewrite Hp3, Hp2, Hd3.
  split_and!; [done|done| | |].
  2: { intros r owner Hr Ho. clear - Hr Ho Hguard. rewrite Hr, Ho in Hguard. by simplify_bool. }
  - intros p d Hne. rewrite Hother by done. rewrite Hd1.
    destruct (package_dependency db !! (p, d)) as [v|] eqn:Epd.
    + by apply map_lookup_filter_Some.
    + apply map_lookup_filter_None. by left.
  - intros e lib c Hne. rewrite Hop3, Ho2, Ho1. cbn. naive_solver.
Qed.

(** Saving a registration keeps the registry well formed, writes exactly the package's own row, replaces
    exactly its own dependency rows by the declared ones, leaves the capability assignments of other
    packages alone, and never changes the recorded owner of an existing row. *)
Theorem save_registration_ok now id api files db db' :
  db_ok db -> save_registration now id api files db = Ok db' ->
  db_ok db' /\
  package db' = <[short_name id := new_row now id api (package db !! short_name id)]> (package db) /\
  (forall d v, package_dependency db' !! (short_name id, d) = Some v <-> declares (declared_dependencies api) d v) /\
  (forall p d, p <> short_name id -> package_dependency db' !! (p, d) = package_dependency db !! (p, d)) /\
  (forall r owner, package db !! short_name id = Some r -> author_owner_hash r = Some owner ->
     as_str api.["author_owner_hash"] = Some owner) /\
  (forall e lib c, lib <> short_name id ->
     lib_capability_operation db' !! e = Some (lib, c) <-> lib_capability_operation db !! e = Some (lib, c)).
Proof. apply save_registration_facts. Qed.

(** The listed rows include every row of the kind. *)
Lemma kind_rows_elem db kind n r : package db !! n = Some r -> of_kind kind r = true -> r ∈ kind_rows db kind.
Proof.
  intros Hr Hk. apply elem_of_sort_by, list_elem_of_filter. split; [done|].
  apply list_elem_of_fmap. exists (n, r). split; [done|]. by apply elem_of_map_to_list.
Qed.
Lemma registered_records_Ok records rows records' :
  try_fold registered_record records rows = Ok records' -> length records' = (length records + length rows)%nat.
Proof.
  revert records. induction rows as [|r rows IH]; intros records Hf; cbn in Hf; simplify_ok; [cbn; lia|].
  apply IH in Hf. unfold registered_record in *. simplify_ok. rewrite length_app in Hf. cbn in *. lia.
Qed.
Lemma registered_records_Err records rows : try_fold registered_record records rows <> Err RouteNotFound.
Proof.
  enough (forall e, try_fold registered_record records rows = Err e -> e <> RouteNotFound) by naive_solver.
  apply try_fold_Err. intros rs r e. unfold registered_record, valid_id.
  destruct (split_once _ _) as [[]|]; [destruct (normalized _)|]; cbn; repeat case_match; intros; simplify_eq; done.
Qed.
Lemma registered_packages_missing db id n r :
  registered_packages db "pkg" (Some id) = Err RouteNotFound -> package db !! n = Some r -> identity r <> id.
Proof.
  unfold registered_packages. intros Hreg Hr Hid. set (rows := filter _ _) in Hreg.
  destruct (try_fold registered_record [] rows) as [records|e] eqn:Hf.
  - cbn in Hreg. destruct (bool_decide (records = [])) eqn:Hn; [|done]. simplify_bool.
    apply registered_records_Ok in Hf. cbn in Hf. assert (r ∈ rows) as Hin.
    { apply list_elem_of_filter. split; [by apply String.eqb_eq|]. by eapply kind_rows_elem. }
    rewrite Hn in Hf. by destruct rows; [apply not_elem_of_nil in Hin|].
  - cbn in Hreg. injection Hreg as ->. by apply registered_records_Err in Hf.
Qed.

Lemma referenced_spec name db : referenced name db = true <-> exists p, edge db p name.
Proof.
  unfold referenced, edge. rewrite existsb_exists. split.
  - intros ([[p d] v] & Hin & He). apply list_elem_of_In, elem_of_map_to_list in Hin. cbn in He. simplify_bool. subst. eauto.
  - intros [p [v Hv]]. exists (p, name, v). rewrite <- list_elem_of_In, elem_of_map_to_list. cbn. by rewrite String.eqb_refl.
Qed.
Lemma existsb_weaken {A} (p q : A -> bool) l :
  (forall x, q x = true -> p x = true) -> existsb p l = false -> existsb q l = false.
Proof.
  intros Hpq. rewrite !negb_existsb. intros Hl. eapply Forall_impl; [exact Hl|]. cbn. intros x Hx.
  destruct (q x) eqn:E; [|done]. apply Hpq in E. congruence.
Qed.

Lemma unregister_facts id db :
  db_ok db ->
  if referenced (short_name id) db
  then unregister id db = Err (conflict "package is required by installed dependencies")
  else exists db', unregister id db = Ok db' /\ db_ok db' /\
    package db' = delete (short_name id) (package db) /\
    (forall p d, package_dependency db' !! (p, d) = if decide (p = short_name id) then None else package_dependency db !! (p, d)) /\
    (forall e c, lib_capability_operation db' !! e <> Some (short_name id, c)).
Proof.
  intros Hok. unfold unregister. destruct (referenced (short_name id) db) eqn:Hr; [done|].
  cbn [permissions try_fold]. unfold delete_package.
  assert (db_ok (delete_capabilities (short_name id) db)) as Hok1
    by (by eapply (db_ok_permissions _ [])).
  rewrite (existsb_weaken (fun e => String.eqb e.1.2 (short_name id))); [|by intros ? [? _]%andb_true_iff|exact Hr].
  eexists. split; [done|].
  assert (forall p d, package_dependency (delete_dependencies (short_name id) db) !! (p, d) =
    if decide (p = short_name id) then None else package_dependency db !! (p, d)) as Hdeps.
  { intros p d. cbn. destruct (decide (p = short_name id)) as [->|Hne].
    - apply map_lookup_filter_None. right. by intros x _ [].
    - destruct (package_dependency db !! (p, d)) as [v|] eqn:Epd.
      + by apply map_lookup_filter_Some.
      + apply map_lookup_filter_None. by left. }
  split; [|split_and!; [done|exact Hdeps|]].
  - destruct (db_ok_delete_dependencies (short_name id) _ Hok1) as [Hn Hc Hd Ha Ho]. split; cbn in *; try done.
    + intros n r [? ?]%lookup_delete_Some. by apply Hn.
    + intros n r [? ?]%lookup_delete_Some. by eapply Hc.
    + intros p d v Hv. destruct (Hd p d v Hv) as [Hp (r & Hx & Hrv)].
      apply map_lookup_filter_Some in Hv as [Hv Hne]. cbn in Hne.
      split; [by rewrite lookup_delete_ne|]. exists r. split; [|done]. rewrite lookup_delete_ne; [done|].
      intros Heq. assert (referenced (short_name id) db = true); [|congruence].
      apply referenced_spec. exists p. rewrite Heq. by exists v.
  - intros e c [_ He]%map_lookup_filter_Some. done.
Qed.

(** Unregistering a package is refused exactly when another installed package depends on it; otherwise
    it succeeds, keeps the registry well formed and removes exactly the package's row, its dependency
    rows and its capability rows. *)
Theorem unregister_ok id db :
  db_ok db ->
  if referenced (short_name id) db
  then unregister id db = Err (conflict "package is required by installed dependencies")
  else exists db', unregister id db = Ok db' /\ db_ok db' /\
    package db' = delete (short_name id) (package db) /\
    (forall p d, package_dependency db' !! (p, d) = if decide (p = short_name id) then None else package_dependency db !! (p, d)) /\
    (forall e c, lib_capability_operation db' !! e <> Some (short_name id, c)).
Proof. apply unregister_facts. Qed.
End invariant_facts.
