(* ===== verification/Commit.v ===== *)
(** * The package file transaction and its recovery
      ([src/package/files.rs] [commit_packages_files],
       [src/server/files.rs] [recover_package_files])

    Installing or removing packages switches up to two files or directories per
    package and the registry at once.  The switch is a list of atomic steps
    (renames, the SQLite commit, removal of the journal and of the staging
    directory); a crash keeps a prefix of the list, an I/O error stops it and
    starts the rollback.  Renames of one switch are assumed to reach the disk in
    order (the source syncs both directories after each resource). *)
From S2P Require Import Prelude RustStr Json Crates Errors Ids Manifest Metadata Registry.

(** What a file or directory holds. *)
Definition content : Type := list (string * string).

(** One resource of one package: the journalled flags and the three places its
    content can be in: the target, [old-{kind}] and [new-{kind}]. *)
Record slot := Slot {
  s_old : bool; s_new : bool;
  s_target : option content; s_backup : option content; s_candidate : option content }.
(** A resource when the transaction starts. *)
Definition staged (target candidate : option content) : slot :=
  Slot (bool_decide (is_Some target)) (bool_decide (is_Some candidate)) target None candidate.

(** A package of the transaction: [lib] and [app] in this order. *)
Record member := Member { m_id : string; m_directory : string; m_lib : slot; m_app : slot }.
Record world := World {
  w_members : list member;
  w_journal : option string;   (* .transaction.json *)
  w_stage : bool;              (* the staging directory exists *)
  w_db : database }.

Definition on_lib (f : slot -> slot) (m : member) : member := Member (m_id m) (m_directory m) (f (m_lib m)) (m_app m).
Definition on_app (f : slot -> slot) (m : member) : member := Member (m_id m) (m_directory m) (m_lib m) (f (m_app m)).
Definition on_slot (kind : string) (f : slot -> slot) : member -> member :=
  if String.eqb kind "lib" then on_lib f else on_app f.
Definition kind_slot (kind : string) (m : member) : slot := if String.eqb kind "lib" then m_lib m else m_app m.
Definition set_members ms w := World ms (w_journal w) (w_stage w) (w_db w).
Definition set_journal j w := World (w_members w) j (w_stage w) (w_db w).

(** *** The steps *)
Inductive step :=
| MoveOld (i : nat) (kind : string)   (* rename target -> old-{kind} *)
| MoveNew (i : nat) (kind : string)   (* rename new-{kind} -> target *)
| CommitDb (tx : database)
| UnlinkJournal
| RemoveStage.
Definition move_old (s : slot) : slot := Slot (s_old s) (s_new s) None (s_target s) (s_candidate s).
Definition move_new (s : slot) : slot := Slot (s_old s) (s_new s) (s_candidate s) (s_backup s) None.
Definition run_step (w : world) (st : step) : world :=
  match st with
  | MoveOld i kind => set_members (alter (on_slot kind move_old) i (w_members w)) w
  | MoveNew i kind => set_members (alter (on_slot kind move_new) i (w_members w)) w
  | CommitDb tx => World (w_members w) (w_journal w) (w_stage w) tx
  | UnlinkJournal => set_journal None w
  | RemoveStage => World (w_members w) (w_journal w) false (w_db w)
  end.
Definition execute (steps : list step) (w : world) : world := fold_left run_step steps w.

Definition slot_steps (i : nat) (kind : string) (s : slot) : list step :=
  (if s_old s then [MoveOld i kind] else []) ++ (if s_new s then [MoveNew i kind] else []).
Definition member_steps (i : nat) (m : member) : list step :=
  slot_steps i "lib" (m_lib m) ++ slot_steps i "app" (m_app m).
(** [for .. in &targets { .. }] *)
Definition switch_steps (ms : list member) : list step := concat (imap member_steps ms).
Definition cleanup_steps : list step := [UnlinkJournal; RemoveStage].

(** *** Putting a resource back
    Rollback and recovery take the same decision for a resource: with a backup
    they remove the target and rename the backup to it; without one they remove
    the target if the transaction created it.  They may stop in between: removing
    a directory leaves some [part] of it on the way. *)
Inductive progress := Untouched | Removing (part : option content) | Restored.
Definition undo_slot (flags : bool * bool) (pr : progress) (s : slot) : slot :=
  let has_backup := bool_decide (is_Some (s_backup s)) in
  let source_exists := bool_decide (is_Some (s_candidate s)) in
  let removes := has_backup || (negb flags.1 && flags.2 && negb source_exists) in
  match pr with
  | Untouched => s
  | Removing part => if removes then Slot (s_old s) (s_new s) part (s_backup s) (s_candidate s) else s
  | Restored =>
      if has_backup then Slot (s_old s) (s_new s) (s_backup s) None (s_candidate s)
      else if removes then Slot (s_old s) (s_new s) None None (s_candidate s) else s
  end.
(** The loop over the resources, [lib] and [app] of each package in turn, that
    has done [n] of them and is at [pr] with the next. *)
Definition progress_at (n : nat) (pr : progress) (k : nat) : progress :=
  match Nat.compare k n with Lt => Restored | Eq => pr | Gt => Untouched end.

(** *** Rollback in the running process *)
Definition rollback_slot (pr : progress) (s : slot) : slot := undo_slot (s_old s, s_new s) pr s.
Fixpoint rollback_files (pr : nat -> progress) (ms : list member) : list member :=
  match ms with
  | [] => []
  | m :: ms => on_app (rollback_slot (pr 1%nat)) (on_lib (rollback_slot (pr 0%nat)) m)
               :: rollback_files (fun k => pr (S (S k))) ms
  end.

Section commit.
Context `{DhttpHome, SerdeJson}.

(** *** Registration facts ([src/package/sql/registration_facts.sql]) *)
Definition facts_package (v4 : bool) (r : row) : json :=
  JArr ([JStr (row_name r); opt_str (row_author r); JStr (row_version r); opt_str (row_title r);
         opt_str (row_description r); opt_str (row_license r); opt_str (row_repository r);
         jopt JInt (installed_at r); jopt JInt (upgraded_at r);
         JInt (if has_lib r then 1 else 0); JInt (if has_app r then 1 else 0)]
        ++ (if v4 then [opt_str (author_owner_hash r); opt_str (package_sha256 r);
                        opt_str (signer_leaf_fingerprint_sha256 r)] else [])).
Definition triple_leb (a b : string * string * string) : bool :=
  if String.eqb a.1.1 b.1.1 then pair_leb (a.1.2, a.2) (b.1.2, b.2) else String.leb a.1.1 b.1.1.
Definition registration_facts (v4 : bool) (db : database) (name : string) : json :=
  jobj [("package", jopt (facts_package v4) (package db !! name));
        ("dependencies", JArr (map (fun d => JArr [JStr d.1; JStr d.2])
           (sort_by (fun a b => String.leb a.1 b.1)
             (omap (fun e => if String.eqb e.1.1 name then Some (e.1.2, e.2) else None) (map_to_list (package_dependency db))))));
        ("capabilities", JArr (map (fun d => JArr [JStr d.1; JStr d.2])
           (sort_by (fun a b => String.leb a.1 b.1)
             (omap (fun e => if String.eqb e.1.1 name then Some (e.1.2, e.2) else None) (map_to_list (lib_capability db))))));
        ("operations", JArr (map (fun d => JArr [JStr d.1.1; JStr d.1.2; JStr d.2])
           (sort_by triple_leb
             (omap (fun e => if String.eqb e.2.1 name then Some (e.2.2, e.1.1, e.1.2) else None)
               (map_to_list (lib_capability_operation db))))))].
Definition facts_text (v4 : bool) (db : database) (name : string) : string :=
  to_json_string (registration_facts v4 db name).

(** *** The journal *)
Definition resource_json (kind : string) (s : slot) : json :=
  jobj [("kind", JStr kind); ("old", JBool (s_old s)); ("new", JBool (s_new s))].
Definition member_json (tx : database) (m : member) : json :=
  jobj [("id", JStr (m_id m)); ("directory", JStr (m_directory m));
        ("resources", JArr [resource_json "lib" (m_lib m); resource_json "app" (m_app m)]);
        ("facts", JStr (facts_text true tx (short_name (m_id m))))].
Definition journal_json (tx : database) (ms : list member) : json :=
  jobj [("packages", JArr (map (member_json tx) ms))].

(** The I/O errors of a transaction: before the journal is written; in the
    switch or the SQLite commit, with the number of steps done before it; in the
    rollback, with the resources restored before it and how far it got with the
    next; and the number of steps of the cleanup that succeed. *)
Record failure := Failure {
  f_prepare : option error;
  f_switch : option (nat * error);
  f_rollback : option (nat * progress);
  f_cleanup : nat }.
Definition no_failure : failure := Failure None None None 2.

(** The transaction once the journal is on disk, and its steps. *)
Definition journalled (w : world) (tx : database) : world :=
  set_journal (Some (to_json_string (journal_json tx (w_members w)))) w.
Definition commit_steps (w : world) (tx : database) : list step :=
  switch_steps (w_members w) ++ [CommitDb tx].
Definition rolled_back (f : failure) (w : world) : world :=
  match f_rollback f with
  | None => execute (take (f_cleanup f) cleanup_steps) (set_members (rollback_files (fun _ => Restored) (w_members w)) w)
  | Some (n, pr) => set_members (rollback_files (progress_at n pr) (w_members w)) w
  end.
Definition commit_packages_files (f : failure) (w : world) (tx : database) : world * Result unit :=
  match f_prepare f with
  | Some e => (run_step w RemoveStage, Err e)
  | None =>
      if slen (to_json_string (journal_json tx (w_members w))) >? 2 * 1024 * 1024 then
        (run_step w RemoveStage, Err (BadRequest "package recovery journal exceeds 2 MiB"))
      else
        match f_switch f with
        | None => (execute (commit_steps w tx ++ take (f_cleanup f) cleanup_steps) (journalled w tx), Ok tt)
        | Some (n, e) => (rolled_back f (execute (take n (switch_steps (w_members w))) (journalled w tx)), Err e)
        end
  end.

(** *** Recovery at startup *)
Record recovered := Recovered {
  r_member_id : string; r_directory : string; r_facts : string;
  r_lib : bool * bool; r_app : bool * bool }.
Definition batch_error : error := InvalidConfig "invalid package recovery batch".
Definition journal_packages (journal : json) : Result (list json) :=
  match get "packages" journal with
  | Some value =>
      match as_array value with
      | Some (p :: ps) => if Z.of_nat (length (p :: ps)) <=? 100 then Ok (p :: ps) else Err batch_error
      | _ => Err batch_error
      end
  | None => Ok [journal]
  end.
Definition recovery_resource (resource : json) (kind : string) : Result (bool * bool) :=
  match is_str resource.["kind"] kind, as_bool resource.["old"], as_bool resource.["new"] with
  | true, Some old, Some new => Ok (old, new)
  | _, _, _ => Err (InvalidConfig "invalid recovery resource")
  end.
Definition recovery_package (total : nat) (acc : list recovered) (package : json) : Result (list recovered) :=
  let? id := ok_or (InvalidConfig "missing recovery identity") (as_str package.["id"]) in
  let? _ := valid_id id in
  let short := short_name id in
  let? directory := ok_or (InvalidConfig "invalid recovery directory")
    (match get "directory" package with Some v => as_str v | None => Some "" end) in
  throw (InvalidConfig "invalid recovery directory") when
    mem short (map (fun r => short_name (r_member_id r)) acc)
    || negb (String.eqb directory short || (String.eqb directory "" && Nat.eqb total 1));;
  match as_array package.["resources"] with
  | Some [lib; app] =>
      let? lib := recovery_resource lib "lib" in
      let? app := recovery_resource app "app" in
      let? facts := ok_or (InvalidConfig "missing recovery facts") (as_str package.["facts"]) in
      Ok (acc ++ [Recovered id directory facts lib app])
  | _ => Err (InvalidConfig "invalid package recovery resources")
  end.
Definition read_journal (bytes : string) : Result (list recovered) :=
  throw (InvalidConfig "invalid package recovery journal") when slen bytes >? 2 * 1024 * 1024;;
  let? journal := ok_or (InvalidConfig (json_error bytes)) (from_slice bytes) in
  let? packages := journal_packages journal in
  try_fold (recovery_package (length packages)) [] packages.

(** [facts == current || has_signing_evidence && facts == v3 facts], on the
    current schema. *)
Definition facts_committed (db : database) (r : recovered) : bool :=
  String.eqb (r_facts r) (facts_text true db (short_name (r_member_id r)))
  || String.eqb (r_facts r) (facts_text false db (short_name (r_member_id r))).
Definition committed (db : database) (rs : list recovered) : bool := forallb (facts_committed db) rs.

Fixpoint recover_files (pr : nat -> progress) (rs : list recovered) (ms : list member) : list member :=
  match rs, ms with
  | r :: rs, m :: ms => on_app (undo_slot (r_app r) (pr 1%nat)) (on_lib (undo_slot (r_lib r) (pr 0%nat)) m)
                        :: recover_files (fun k => pr (S (S k))) rs ms
  | _, _ => ms
  end.
(** Where recovery is when it stops: in the loop over the resources, or after
    it with a number of cleanup steps done.  It ends with both of them. *)
Inductive stop := InFiles (n : nat) (pr : progress) | InCleanup (k : nat).
Definition stop_files (st : stop) : nat -> progress :=
  match st with InFiles n pr => progress_at n pr | InCleanup _ => fun _ => Restored end.
Definition stop_cleanup (st : stop) : nat := match st with InFiles _ _ => 0 | InCleanup k => k end.
Definition recover_until (st : stop) (w : world) : Result world :=
  match w_journal w with
  | None => Ok w
  | Some bytes =>
      let? rs := read_journal bytes in
      let w := if committed (w_db w) rs then w else set_members (recover_files (stop_files st) rs (w_members w)) w in
      Ok (execute (take (stop_cleanup st) cleanup_steps) w)
  end.
Definition recover_package_files : world -> Result world := recover_until (InCleanup 2).
(** Recoveries that each stop somewhere, one after the other. *)
Definition recoveries (stops : list stop) (w : world) : Result world := try_fold (fun w st => recover_until st w) w stops.
End commit.

(** ** One resource *)

(** What a crash or an error can leave of a resource. *)
Definition switched (s : slot) : slot :=
  let s := if s_old s then move_old s else s in if s_new s then move_new s else s.
Definition reachable (s0 s : slot) : Prop :=
  s = s0 \/ (s_old s0 = true /\ s = move_old s0) \/ s = switched s0.
Definition is_staged (s : slot) : Prop := exists target candidate, s = staged target candidate.

(** What putting a resource back can start from: the old content is in the
    backup, or at the target with no backup; a new resource is not there, or its
    candidate is gone. *)
Definition restorable_slot (s0 s : slot) : Prop :=
  s_old s = s_old s0 /\ s_new s = s_new s0 /\
  match s_target s0 with
  | Some t => s_backup s = Some t \/ (s_backup s = None /\ s_target s = Some t)
  | None => s_backup s = None /\ (s_target s = None \/ (s_new s0 = true /\ s_candidate s = None))
  end.
Lemma reachable_restorable s0 s : is_staged s0 -> reachable s0 s -> restorable_slot s0 s.
Proof.
  unfold restorable_slot.
  intros (t & c & ->) [->|[[Ho ->]| ->]]; destruct t, c; cbn; split_and!; auto.
Qed.
Lemma undo_restorable s0 s pr :
  is_staged s0 -> restorable_slot s0 s -> restorable_slot s0 (undo_slot (s_old s0, s_new s0) pr s).
Proof.
  unfold restorable_slot, undo_slot. intros (t & c & ->) (Ho & Hn & Hs). destruct s as [o n ta b ca]. cbn in *.
  destruct pr as [|l|], t as [t|], b as [b|], ca, c; cbn in *; intuition (subst; eauto; congruence).
Qed.
Lemma undo_restored s0 s :
  is_staged s0 -> restorable_slot s0 s -> s_target (undo_slot (s_old s0, s_new s0) Restored s) = s_target s0.
Proof.
  unfold restorable_slot, undo_slot. intros (t & c & ->) (Ho & Hn & Hs). destruct s as [o n ta b ca]. cbn in *.
  destruct t as [t|], b as [b|], ca, c; cbn in *; intuition (subst; congruence).
Qed.
#[global] Arguments undo_slot : simpl never.
Lemma switched_target s0 : is_staged s0 -> s_target (switched s0) = s_candidate s0.
Proof. by intros (t & c & ->); destruct t, c. Qed.

(** ** The switch of all resources *)
Definition reachable_member (m0 m : member) : Prop :=
  m_id m = m_id m0 /\ m_directory m = m_directory m0 /\
  reachable (m_lib m0) (m_lib m) /\ reachable (m_app m0) (m_app m).
Definition switched_member (m : member) : member := on_app switched (on_lib switched m).

Lemma alter_middle {A} (f : A -> A) pre x suf : alter f (length pre) (pre ++ x :: suf) = pre ++ f x :: suf.
Proof. induction pre as [|y pre IH]; cbn; [done|]. f_equal. apply IH. Qed.
Lemma execute_app a b w : execute (a ++ b) w = execute b (execute a w).
Proof. apply fold_left_app. Qed.
Lemma set_members_twice ms ms' w : set_members ms (set_members ms' w) = set_members ms w.
Proof. done. Qed.

(** A prefix of the steps of one resource. *)
Lemma execute_slot k pre m suf kind w :
  exists s, execute (take k (slot_steps (length pre) kind (kind_slot kind m))) (set_members (pre ++ m :: suf) w)
            = set_members (pre ++ on_slot kind (fun _ => s) m :: suf) w /\
  reachable (kind_slot kind m) s /\
  ((length (slot_steps (length pre) kind (kind_slot kind m)) <= k)%nat -> s = switched (kind_slot kind m)).
Proof.
  unfold slot_steps, reachable, switched, kind_slot, on_slot.
  destruct (String.eqb_spec kind "lib") as [->|Hk]; destruct m as [i d l a]; cbn [m_lib m_app];
    match goal with |- context [s_old ?s] => destruct (s_old s) eqn:Ho, (s_new s) eqn:Hn end;
    destruct k as [|[|k]]; cbn; unfold on_slot; rewrite ?(proj2 (String.eqb_neq kind "lib") Hk);
    rewrite ?alter_middle; cbn; rewrite ?alter_middle, ?take_nil, ?Hn; cbn; rewrite ?Hn; cbn;
    (eexists; split; [reflexivity|]; cbn; split; [by auto|intros; try lia; done]).
Qed.

Lemma execute_member k pre m suf w :
  exists m', execute (take k (member_steps (length pre) m)) (set_members (pre ++ m :: suf) w)
             = set_members (pre ++ m' :: suf) w /\
  reachable_member m m' /\ ((length (member_steps (length pre) m) <= k)%nat -> m' = switched_member m).
Proof.
  unfold member_steps. rewrite take_app, execute_app, length_app.
  destruct (execute_slot k pre m suf "lib" w) as (l & El & Rl & Fl). cbn [kind_slot String.eqb] in El, Rl, Fl.
  change (kind_slot "lib" m) with (m_lib m) in *. rewrite El.
  set (m1 := on_slot "lib" (fun _ => l) m).
  destruct (execute_slot (k - length (slot_steps (length pre) "lib" (m_lib m))) pre m1 suf "app" w) as (a & Ea & Ra & Fa).
  change (kind_slot "app" m1) with (m_app m) in *. rewrite Ea.
  eexists. split; [reflexivity|]. split.
  - by split_and!.
  - intros Hk. rewrite Fa by lia. subst m1. rewrite Fl by lia. done.
Qed.

Lemma execute_switch k pre ms w :
  exists ms', execute (take k (concat (imap (fun i => member_steps (length pre + i)) ms))) (set_members (pre ++ ms) w)
              = set_members (pre ++ ms') w /\
  Forall2 reachable_member ms ms' /\
  ((length (concat (imap (fun i => member_steps (length pre + i)) ms)) <= k)%nat -> ms' = map switched_member ms).
Proof.
  revert k pre w. induction ms as [|m ms IH]; intros k pre w.
  { exists []. cbn. rewrite take_nil. by split_and!. }
  rewrite imap_cons. cbn [concat]. rewrite Nat.add_0_r, take_app, execute_app, length_app.
  destruct (execute_member k pre m ms w) as (m' & -> & Rm & Fm).
  destruct (IH (k - length (member_steps (length pre) m))%nat (pre ++ [m']) w) as (ms' & E & R & F).
  rewrite <- !app_assoc in E. cbn [app] in E.
  assert (imap ((fun i => member_steps (length pre + i)) ∘ S) ms = imap (fun i => member_steps (length (pre ++ [m']) + i)) ms) as Himap.
  { apply imap_ext. intros i x _. cbn. rewrite length_app. cbn. f_equal. lia. }
  rewrite Himap, E. exists (m' :: ms'). split; [done|]. split; [by constructor|].
  intros Hk. cbn. rewrite Fm by lia. f_equal. apply F. lia.
Qed.

Lemma execute_switch_steps k w :
  exists ms', execute (take k (switch_steps (w_members w))) w = set_members ms' w /\
  Forall2 reachable_member (w_members w) ms' /\
  ((length (switch_steps (w_members w)) <= k)%nat -> ms' = map switched_member (w_members w)).
Proof.
  destruct (execute_switch k [] (w_members w) w) as (ms' & E & R). exists ms'. split; [|done].
  cbn in E. by destruct w.
Qed.

(** ** The journal *)
Section journal_facts.
Context `{DhttpHome, SerdeJson}.

(** Printing and parsing JSON are inverse: documented behaviour of
    [serde_json]. *)
Hypothesis json_roundtrip : forall v, from_slice (to_json_string v) = Some v.

(** Members as the installer and the remover build them. *)
Definition members_ok (ms : list member) : Prop :=
  (1 <= length ms <= 100)%nat /\ Forall (fun m => valid_id (m_id m) = Ok tt) ms /\
  NoDup (map (fun m => short_name (m_id m)) ms) /\
  Forall (fun m => m_directory m = short_name (m_id m) \/ (m_directory m = "" /\ length ms = 1%nat)) ms.
Definition recovered_of (tx : database) (m : member) : recovered :=
  Recovered (m_id m) (m_directory m) (facts_text true tx (short_name (m_id m)))
    (s_old (m_lib m), s_new (m_lib m)) (s_old (m_app m), s_new (m_app m)).

Lemma recovery_package_member total tx acc m :
  valid_id (m_id m) = Ok tt ->
  short_name (m_id m) ∉ map (fun r => short_name (r_member_id r)) acc ->
  m_directory m = short_name (m_id m) \/ (m_directory m = "" /\ total = 1%nat) ->
  recovery_package total acc (member_json tx m) = Ok (acc ++ [recovered_of tx m]).
Proof.
  intros Hv Hfresh Hd. unfold recovery_package.
  change ((member_json tx m).["id"]) with (JStr (m_id m)).
  change (get "directory" (member_json tx m)) with (Some (JStr (m_directory m))).
  change ((member_json tx m).["resources"]) with (JArr [resource_json "lib" (m_lib m); resource_json "app" (m_app m)]).
  change ((member_json tx m).["facts"]) with (JStr (facts_text true tx (short_name (m_id m)))).
  cbn [as_str ok_or as_array]. rewrite Hv, (proj2 (mem_false _ _) Hfresh). cbn [orb].
  assert (String.eqb (m_directory m) (short_name (m_id m)) || (String.eqb (m_directory m) "" && Nat.eqb total 1) = true) as ->.
  { destruct Hd as [->|[-> ->]]; [by rewrite String.eqb_refl|by rewrite orb_true_r]. }
  cbn [negb]. unfold recovered_of. destruct (m_lib m) as [[] [] ? ? ?], (m_app m) as [[] [] ? ? ?]; reflexivity.
Qed.

Lemma recovery_packages total tx ms acc :
  Forall (fun m => valid_id (m_id m) = Ok tt) ms ->
  NoDup (map (fun r => short_name (r_member_id r)) acc ++ map (fun m => short_name (m_id m)) ms) ->
  Forall (fun m => m_directory m = short_name (m_id m) \/ (m_directory m = "" /\ total = 1%nat)) ms ->
  try_fold (recovery_package total) acc (map (member_json tx) ms) = Ok (acc ++ map (recovered_of tx) ms).
Proof.
  revert acc. induction ms as [|m ms IH]; intros acc Hv Hnd Hd; cbn [map try_fold]; [by rewrite app_nil_r|].
  inversion Hv; inversion Hd; subst. cbn [map] in Hnd.
  pose proof (proj1 (NoDup_app _ _) Hnd) as (_ & Hdis & _).
  rewrite (recovery_package_member total tx acc m); [|done| |done].
  - rewrite IH; [by rewrite <- app_assoc|done| |done].
    rewrite map_app, <- app_assoc. cbn. done.
  - intros Hin. apply (Hdis _ Hin). left.
Qed.

Lemma read_journal_written tx ms :
  members_ok ms -> slen (to_json_string (journal_json tx ms)) <= 2 * 1024 * 1024 ->
  read_journal (to_json_string (journal_json tx ms)) = Ok (map (recovered_of tx) ms).
Proof.
  intros (Hlen & Hv & Hnd & Hd) Hsize. unfold read_journal.
  rewrite Z.gtb_ltb, (proj2 (Z.ltb_ge _ _)) by lia. rewrite json_roundtrip. cbn [ok_or].
  assert (journal_packages (journal_json tx ms) = Ok (map (member_json tx) ms)) as ->.
  { unfold journal_packages. cbn [journal_json]. destruct ms as [|m ms]; [cbn in Hlen; lia|].
    cbn -[Z.leb member_json]. rewrite length_map. rewrite (proj2 (Z.leb_le _ 100)); [done|]. cbn [length] in Hlen. lia. }
  rewrite length_map. by apply (recovery_packages _ _ _ []).
Qed.

(** C37: The journal the transaction writes is read back by recovery as the same list of packages with
    their recorded old and new presence and registration facts. *)
Theorem journal_roundtrip tx ms :
  members_ok ms -> slen (to_json_string (journal_json tx ms)) <= 2 * 1024 * 1024 ->
  read_journal (to_json_string (journal_json tx ms)) = Ok (map (recovered_of tx) ms).
Proof. apply read_journal_written. Qed.

(** ** The decision of the recovery *)
Lemma to_json_string_inj a b : to_json_string a = to_json_string b -> a = b.
Proof. intros Heq. apply (inj Some). by rewrite <- !json_roundtrip, Heq. Qed.

Lemma committed_tx tx ms : committed tx (map (recovered_of tx) ms) = true.
Proof.
  apply forallb_Forall, Forall_map, Forall_true. intros m. unfold facts_committed. cbn. by rewrite String.eqb_refl.
Qed.
Lemma facts_v3 tx db n : registration_facts true tx n = registration_facts false db n ->
  registration_facts true tx n = registration_facts true db n.
Proof.
  intros Heq. pose proof (f_equal (fun v => v.["package"]) Heq) as Hp.
  change (jopt (facts_package true) (package tx !! n) = jopt (facts_package false) (package db !! n)) in Hp.
  unfold registration_facts in *.
  destruct (package tx !! n) as [r|], (package db !! n) as [r'|]; try discriminate Hp. exact Heq.
Qed.
Lemma committed_old db tx ms :
  (exists m, m ∈ ms /\ registration_facts true tx (short_name (m_id m)) <> registration_facts true db (short_name (m_id m))) ->
  committed db (map (recovered_of tx) ms) = false.
Proof.
  intros (m & Hin & Hne). apply not_true_is_false. intros Hc. apply forallb_Forall, Forall_map in Hc.
  rewrite Forall_forall in Hc. specialize (Hc m Hin). unfold facts_committed in Hc. cbn in Hc.
  apply orb_true_iff in Hc as [Hc|Hc]; simplify_bool; apply to_json_string_inj in Hc; [done|].
  by apply facts_v3 in Hc.
Qed.

(** ** Crash atomicity *)
Definition targets (w : world) : list (option content * option content) :=
  map (fun m => (s_target (m_lib m), s_target (m_app m))) (w_members w).
(** What the transaction is to install: the staged files. *)
Definition candidates (w : world) : list (option content * option content) :=
  map (fun m => (s_candidate (m_lib m), s_candidate (m_app m))) (w_members w).
Definition staged_world (w : world) : Prop :=
  Forall (fun m => is_staged (m_lib m) /\ is_staged (m_app m)) (w_members w).

Definition restorable (m0 m : member) : Prop :=
  restorable_slot (m_lib m0) (m_lib m) /\ restorable_slot (m_app m0) (m_app m).
Local Abbreviation member_targets := (map (fun m => (s_target (m_lib m), s_target (m_app m)))).
Local Abbreviation staged_members := (Forall (fun m => is_staged (m_lib m) /\ is_staged (m_app m))).

Lemma reachable_members ms ms' :
  staged_members ms -> Forall2 reachable_member ms ms' -> Forall2 restorable ms ms'.
Proof.
  intros Hst Hr. induction Hr as [|m m' ms ms' (_ & _ & Hl & Ha) _ IH]; [constructor|].
  apply Forall_cons in Hst as [[Sl Sa] Hst]. constructor; [|by apply IH]. split; by apply reachable_restorable.
Qed.
Lemma rollback_restorable pr ms ms' :
  staged_members ms -> Forall2 restorable ms ms' -> Forall2 restorable ms (rollback_files pr ms').
Proof.
  intros Hst Hr. revert pr. induction Hr as [|m m' ms ms' [Hl Ha] _ IH]; intros pr; [constructor|].
  apply Forall_cons in Hst as [[Sl Sa] Hst]. constructor; [|by apply IH].
  destruct Hl as (El & En & Hl), Ha as (Fl & Fn & Ha).
  split; cbn; unfold rollback_slot; rewrite ?El, ?En, ?Fl, ?Fn; by apply undo_restorable.
Qed.
Lemma rollback_targets ms ms' :
  staged_members ms -> Forall2 restorable ms ms' ->
  member_targets (rollback_files (fun _ => Restored) ms') = member_targets ms.
Proof.
  intros Hst Hr. induction Hr as [|m m' ms ms' [Hl Ha] _ IH]; [done|].
  apply Forall_cons in Hst as [[Sl Sa] Hst]. cbn. rewrite IH by done. f_equal.
  unfold rollback_slot. destruct Hl as (El & En & Hl), Ha as (Fl & Fn & Ha).
  rewrite El, En, Fl, Fn. by rewrite !undo_restored.
Qed.
Lemma recover_restorable pr tx ms ms' :
  staged_members ms -> Forall2 restorable ms ms' -> Forall2 restorable ms (recover_files pr (map (recovered_of tx) ms) ms').
Proof.
  intros Hst Hr. revert pr. induction Hr as [|m m' ms ms' [Hl Ha] _ IH]; intros pr; [constructor|].
  apply Forall_cons in Hst as [[Sl Sa] Hst]. constructor; [|by apply IH]. split; cbn; by apply undo_restorable.
Qed.
Lemma recover_targets tx ms ms' :
  staged_members ms -> Forall2 restorable ms ms' ->
  member_targets (recover_files (fun _ => Restored) (map (recovered_of tx) ms) ms') = member_targets ms.
Proof.
  intros Hst Hr. induction Hr as [|m m' ms ms' [Hl Ha] _ IH]; [done|].
  apply Forall_cons in Hst as [[Sl Sa] Hst]. cbn. rewrite IH by done. f_equal. by rewrite !undo_restored.
Qed.
Lemma switched_targets (ms : list member) :
  Forall (fun m => is_staged (m_lib m) /\ is_staged (m_app m)) ms ->
  map (fun m => (s_target (m_lib m), s_target (m_app m))) (map switched_member ms)
  = map (fun m => (s_candidate (m_lib m), s_candidate (m_app m))) ms.
Proof.
  rewrite map_map. intros Hst. apply map_ext_Forall. eapply Forall_impl; [exact Hst|]. cbn.
  intros m [Sl Sa]. by rewrite !switched_target.
Qed.


(** Neither the steps nor recovery change which packages take part. *)
Lemma alter_ids f i ms : (forall m, m_id (f m) = m_id m) -> map m_id (alter f i ms) = map m_id ms.
Proof. intros Hf. revert i. induction ms as [|m ms IH]; intros [|i]; cbn; [done|done|by rewrite Hf|]. f_equal. apply IH. Qed.
Lemma on_slot_id kind f m : m_id (on_slot kind f m) = m_id m.
Proof. unfold on_slot. by destruct (String.eqb kind "lib"). Qed.
Lemma execute_ids steps w : map m_id (w_members (execute steps w)) = map m_id (w_members w).
Proof.
  revert w. induction steps as [|st steps IH]; intros w; [done|]. change (execute (st :: steps) w) with (execute steps (run_step w st)).
  rewrite IH. destruct st; cbn; [by apply alter_ids; intros; apply on_slot_id..|done|done|done].
Qed.
Lemma recover_files_ids pr rs ms : map m_id (recover_files pr rs ms) = map m_id ms.
Proof. revert pr rs. induction ms as [|m ms IH]; intros pr [|r rs]; cbn; [done..|]. f_equal. apply IH. Qed.
Lemma recover_until_ids st w w' : recover_until st w = Ok w' -> map m_id (w_members w') = map m_id (w_members w).
Proof.
  unfold recover_until. destruct (w_journal w) as [bytes|]; [|by intros [= ->]]. intros Hr. simplify_ok.
  rewrite execute_ids. destruct (committed _ _); [done|]. apply recover_files_ids.
Qed.
Lemma recoveries_ids stops w w' : recoveries stops w = Ok w' -> map m_id (w_members w') = map m_id (w_members w).
Proof.
  unfold recoveries. apply (try_fold_ind _ (fun _ w' => map m_id (w_members w') = map m_id (w_members w))); [done|].
  intros pre st w1 w2 Hw1 Hw2. by rewrite <- Hw1, (recover_until_ids _ _ _ Hw2).
Qed.

(** *** What recovery can find *)
Section recovery_facts.
Variable w : world.
Variable tx : database.
Hypothesis Hok : members_ok (w_members w).
Hypothesis Hstaged : staged_world w.
Hypothesis Hsize : slen (to_json_string (journal_json tx (w_members w))) <= 2 * 1024 * 1024.
Hypothesis Hdiff : exists m, m ∈ w_members w /\
  registration_facts true tx (short_name (m_id m)) <> registration_facts true (w_db w) (short_name (m_id m)).

(** The journal with the old registry or with the new one, and no journal. *)
Definition pending (w1 : world) : Prop :=
  w_journal w1 = w_journal (journalled w tx) /\ w_db w1 = w_db w /\ Forall2 restorable (w_members w) (w_members w1).
Definition decided (w1 : world) : Prop :=
  w_journal w1 = w_journal (journalled w tx) /\ w_db w1 = tx /\ targets w1 = candidates w.
Definition settled (ts : list (option content * option content)) (db : database) (w1 : world) : Prop :=
  w_journal w1 = None /\ w_db w1 = db /\ targets w1 = ts.

Lemma recover_pending st w1 :
  pending w1 -> exists w2, recover_until st w1 = Ok w2 /\
    (stop_cleanup st = 0%nat /\ pending w2 \/ stop_cleanup st <> 0%nat /\ settled (targets w) (w_db w) w2).
Proof.
  intros (Hj & Hdb & Hm). unfold recover_until. rewrite Hj. cbn [journalled set_journal w_journal].
  rewrite read_journal_written by done. rewrite Hdb, committed_old by done. eexists. split; [done|].
  destruct st as [n pr|[|[|k]]]; cbn; rewrite ?take_nil; [left|left|right|right]; unfold pending, settled; split_and!;
    first [done | by apply recover_restorable | by apply recover_targets].
Qed.
Lemma recover_decided st w1 :
  decided w1 -> exists w2, recover_until st w1 = Ok w2 /\
    (stop_cleanup st = 0%nat /\ decided w2 \/ stop_cleanup st <> 0%nat /\ settled (candidates w) tx w2).
Proof.
  intros (Hj & Hdb & Ht). unfold recover_until. rewrite Hj. cbn [journalled set_journal w_journal].
  rewrite read_journal_written by done. rewrite Hdb, committed_tx. eexists. split; [done|].
  destruct st as [n pr|[|[|k]]]; cbn; rewrite ?take_nil; [left|left|right|right]; unfold decided, settled; by split_and!.
Qed.
Lemma recover_settled st ts db w1 : settled ts db w1 -> recover_until st w1 = Ok w1.
Proof using Type. intros (Hj & _). unfold recover_until. by rewrite Hj. Qed.

(** Recoveries that stop anywhere, and then one that ends. *)
Lemma recoveries_settle (open : world -> Prop) ts db :
  (forall st w1, open w1 -> exists w2, recover_until st w1 = Ok w2 /\
     (stop_cleanup st = 0%nat /\ open w2 \/ stop_cleanup st <> 0%nat /\ settled ts db w2)) ->
  forall stops w1, open w1 \/ settled ts db w1 ->
  exists w2 w3, recoveries stops w1 = Ok w2 /\ recover_package_files w2 = Ok w3 /\ settled ts db w3.
Proof using Type.
  intros Hopen stops. induction stops as [|st stops IH]; intros w1 [Ho|Hs].
  - destruct (Hopen (InCleanup 2) w1 Ho) as (w2 & Hr & [[? ?]|[_ Hs]]); [done|]. by exists w1, w2.
  - exists w1, w1. split_and!; [done|by eapply recover_settled|done].
  - destruct (Hopen st w1 Ho) as (w2 & Hr & Hc). unfold recoveries. cbn. rewrite Hr. apply IH. clear - Hc. destruct Hc as [[_ ?]|[_ ?]]; auto.
  - unfold recoveries. cbn. rewrite (recover_settled st _ _ _ Hs). apply IH. by right.
Qed.

Lemma switching_pending k : pending (execute (take k (switch_steps (w_members w))) (journalled w tx)).
Proof.
  destruct (execute_switch_steps k (journalled w tx)) as (ms' & E & R & _).
  change (w_members (journalled w tx)) with (w_members w) in *. rewrite E.
  unfold pending. split_and!; [done..|]. by apply reachable_members.
Qed.
Lemma committed_steps k :
  (length (switch_steps (w_members w)) < k)%nat ->
  decided (execute (take k (commit_steps w tx)) (journalled w tx)).
Proof.
  intros Hk. unfold commit_steps. rewrite take_ge by (rewrite length_app; cbn; lia). rewrite execute_app.
  destruct (execute_switch_steps (length (switch_steps (w_members w))) (journalled w tx)) as (ms' & E & _ & F).
  change (w_members (journalled w tx)) with (w_members w) in *. rewrite take_ge in E by done. rewrite E, F by done.
  unfold decided. split_and!; [done..|]. unfold targets, candidates. cbn. by apply switched_targets.
Qed.
Lemma cleaned_decided k w1 : decided w1 ->
  decided (execute (take k cleanup_steps) w1) \/ settled (candidates w) tx (execute (take k cleanup_steps) w1).
Proof. intros (Hj & Hdb & Ht). destruct k as [|[|[|k]]]; cbn; rewrite ?take_nil; [left|right..]; unfold pending, decided, settled; by split_and!. Qed.
Lemma cleaned_pending k w1 : pending w1 -> targets w1 = targets w ->
  pending (execute (take k cleanup_steps) w1) \/ settled (targets w) (w_db w) (execute (take k cleanup_steps) w1).
Proof. intros (Hj & Hdb & Hm) Ht. destruct k as [|[|[|k]]]; cbn; rewrite ?take_nil; [left|right..]; unfold pending, decided, settled; by split_and!. Qed.
End recovery_facts.

Lemma commit_crash_settles w tx crash stops :
  members_ok (w_members w) -> staged_world w ->
  slen (to_json_string (journal_json tx (w_members w))) <= 2 * 1024 * 1024 ->
  (exists m, m ∈ w_members w /\
     registration_facts true tx (short_name (m_id m)) <> registration_facts true (w_db w) (short_name (m_id m))) ->
  exists w1 w', recoveries stops (execute (take crash (commit_steps w tx ++ cleanup_steps)) (journalled w tx)) = Ok w1 /\
    recover_package_files w1 = Ok w' /\ w_journal w' = None /\
    if (crash <=? length (switch_steps (w_members w)))%nat
    then targets w' = targets w /\ w_db w' = w_db w
    else targets w' = candidates w /\ w_db w' = tx.
Proof.
  intros Hok Hst Hsize Hdiff.
  destruct (Nat.leb_spec crash (length (switch_steps (w_members w)))) as [Hle|Hlt].
  - destruct (recoveries_settle (pending w tx) (targets w) (w_db w) ltac:(by eapply recover_pending) stops
      (execute (take crash (commit_steps w tx ++ cleanup_steps)) (journalled w tx))) as (w1 & w' & H1 & H2 & H3 & H4 & H5).
    { left. unfold commit_steps. rewrite <- app_assoc, take_app_le by done. by apply switching_pending. }
    by exists w1, w'.
  - destruct (recoveries_settle (decided w tx) (candidates w) tx ltac:(by eapply recover_decided) stops
      (execute (take crash (commit_steps w tx ++ cleanup_steps)) (journalled w tx))) as (w1 & w' & H1 & H2 & H3 & H4 & H5).
    { rewrite take_app_ge by (unfold commit_steps; rewrite length_app; cbn; lia). rewrite execute_app.
      apply cleaned_decided. rewrite <- (take_ge (commit_steps w tx) crash) by (unfold commit_steps; rewrite length_app; cbn; lia).
      by apply committed_steps. }
    by exists w1, w'.
Qed.
(** C7: A package file transaction that changes the registration facts of at least one of its packages
    and crashes after any number of its steps, followed by any number of start-up recoveries that each
    stop anywhere (even while a directory is being removed), is completed by one more recovery to one of
    two states: every target and the registry as before the transaction (crash before the registry
    commits), or every target the new candidate and the registry the committed one; the journal is gone.
    Such a transaction never ends in a mixture of old and new packages; one that changes no facts is
    taken for committed wherever it stopped, see recovery_equal_facts. *)
Theorem commit_crash_atomic w tx crash stops :
  members_ok (w_members w) -> staged_world w ->
  slen (to_json_string (journal_json tx (w_members w))) <= 2 * 1024 * 1024 ->
  (exists m, m ∈ w_members w /\
     registration_facts true tx (short_name (m_id m)) <> registration_facts true (w_db w) (short_name (m_id m))) ->
  exists w1 w', recoveries stops (execute (take crash (commit_steps w tx ++ cleanup_steps)) (journalled w tx)) = Ok w1 /\
    recover_package_files w1 = Ok w' /\ w_journal w' = None /\
    if (crash <=? length (switch_steps (w_members w)))%nat
    then targets w' = targets w /\ w_db w' = w_db w
    else targets w' = candidates w /\ w_db w' = tx.
Proof. apply commit_crash_settles. Qed.

(** C36: When the commit of a transaction that changes the registration facts of at least one of its
    packages returns an error, whichever operation failed, the registry is as it was; if rolling back
    succeeded the targets are restored at once; and even when the rollback stopped halfway, start-up
    recovery, itself interrupted any number of times, brings every target back and removes the journal.
    (A transaction that changes no facts is taken for committed by recovery, see recovery_equal_facts.) *)
Theorem commit_failure_restores w tx f stops w1 e :
  members_ok (w_members w) -> staged_world w -> w_journal w = None ->
  (exists m, m ∈ w_members w /\
     registration_facts true tx (short_name (m_id m)) <> registration_facts true (w_db w) (short_name (m_id m))) ->
  commit_packages_files f w tx = (w1, Err e) ->
  w_db w1 = w_db w /\ (f_rollback f = None -> targets w1 = targets w) /\
  exists w2 w3, recoveries stops w1 = Ok w2 /\ recover_package_files w2 = Ok w3 /\
    targets w3 = targets w /\ w_db w3 = w_db w /\ w_journal w3 = None.
Proof.
  intros Hok Hst Hj Hdiff. unfold commit_packages_files.
  assert (forall stops w1, settled (targets w) (w_db w) w1 ->
    w_db w1 = w_db w /\ (f_rollback f = None -> targets w1 = targets w) /\
    exists w2 w3, recoveries stops w1 = Ok w2 /\ recover_package_files w2 = Ok w3 /\
      targets w3 = targets w /\ w_db w3 = w_db w /\ w_journal w3 = None) as Hset.
  { intros sts w0 Hs. pose proof Hs as (? & ? & ?). split_and!; [done..|].
    destruct (recoveries_settle (fun _ => False) (targets w) (w_db w) ltac:(done) sts w0) as (w2 & w3 & ? & ? & ? & ? & ?);
      [by right|]. by exists w2, w3. }
  destruct (f_prepare f); [intros [= <- <-]; by apply Hset|].
  destruct (slen (to_json_string (journal_json tx (w_members w))) >? 2 * 1024 * 1024) eqn:Hsize; [intros [= <- <-]; by apply Hset|].
  destruct (f_switch f) as [[n e']|]; [|done]. intros [= <- <-]. simplify_bool.
  assert (pending w tx (execute (take n (switch_steps (w_members w))) (journalled w tx))) as Hp by by apply switching_pending.
  destruct Hp as (P1 & P2 & P3).
  assert (pending w tx (rolled_back f (execute (take n (switch_steps (w_members w))) (journalled w tx))) \/
          settled (targets w) (w_db w) (rolled_back f (execute (take n (switch_steps (w_members w))) (journalled w tx)))) as Hr.
  { unfold rolled_back. destruct (f_rollback f) as [[i pr]|].
    - left. unfold pending. split_and!; [done..|]. by apply rollback_restorable.
    - apply cleaned_pending; [unfold pending; split_and!; [done..|by apply rollback_restorable]|]. by apply rollback_targets. }
  split_and!.
  - destruct Hr as [(_ & ? & _)|(_ & ? & _)]; done.
  - intros Hf. destruct Hr as [_|(_ & _ & ?)]; [|done]. unfold rolled_back. rewrite Hf.
    destruct (f_cleanup f) as [|[|[|k]]]; cbn; rewrite ?take_nil; by apply rollback_targets.
  - destruct (recoveries_settle (pending w tx) (targets w) (w_db w) ltac:(by eapply recover_pending) stops _ Hr)
      as (w2 & w3 & ? & ? & ? & ? & ?). by exists w2, w3.
Qed.

(** When no operation before the end of the SQLite commit fails, the commit succeeds with every target
    equal to its candidate and the registry equal to the transaction; the journal and the stage are gone
    unless their cleanup fails, which does not fail the commit. *)
Theorem commit_success w tx f :
  members_ok (w_members w) -> staged_world w ->
  slen (to_json_string (journal_json tx (w_members w))) <= 2 * 1024 * 1024 ->
  f_prepare f = None -> f_switch f = None ->
  exists w', commit_packages_files f w tx = (w', Ok tt) /\ targets w' = candidates w /\ w_db w' = tx /\
    (f_cleanup f <> 0%nat -> w_journal w' = None) /\ ((2 <= f_cleanup f)%nat -> w_stage w' = false).
Proof.
  intros Hok Hst Hsize Hp Hs. unfold commit_packages_files. rewrite Hp, Hs.
  rewrite Z.gtb_ltb, (proj2 (Z.ltb_ge _ _)) by lia. eexists. split; [done|]. rewrite execute_app.
  destruct (committed_steps w tx Hst (length (commit_steps w tx))) as (D1 & D2 & D3).
  { unfold commit_steps. rewrite length_app. cbn. lia. }
  rewrite take_ge in * by done.
  destruct (f_cleanup f) as [|[|[|k]]]; cbn; rewrite ?take_nil; split_and!; try done; lia.
Qed.

(** The hypothesis that the facts differ is needed: when the transaction leaves
    them as they were (the same release saved again within the second of its
    last upgrade), recovery takes an interrupted switch for a committed one and
    drops the backups. *)
Theorem recovery_equal_facts w tx crash :
  members_ok (w_members w) -> slen (to_json_string (journal_json tx (w_members w))) <= 2 * 1024 * 1024 ->
  registration_facts true tx = registration_facts true (w_db w) ->
  let w1 := execute (take crash (switch_steps (w_members w))) (journalled w tx) in
  exists w2, recover_package_files w1 = Ok w2 /\ targets w2 = targets w1 /\ w_stage w2 = false.
Proof.
  intros Hok Hsize Heq. destruct (execute_switch_steps crash (journalled w tx)) as (ms' & E & _ & _).
  change (w_members (journalled w tx)) with (w_members w) in E. cbn zeta. rewrite E.
  unfold recover_package_files, recover_until. cbn [w_journal w_db set_members journalled set_journal].
  rewrite read_journal_written by done.
  assert (committed (w_db w) (map (recovered_of tx) (w_members w)) = true) as ->; [|by eexists].
  unfold committed. apply forallb_forall. intros r (m & <- & _)%in_map_iff.
  unfold facts_committed, recovered_of, facts_text. cbn. by rewrite Heq, String.eqb_refl.
Qed.
End journal_facts.
