(* ===== verification/Opening.v ===== *)
(** * Opening the registry for a change ([migrate_registration] and
      [installation_database] of [src/package/files.rs])

    Before anything is installed or removed, the operations that older versions
    recorded below [/std] for ordinary Libs are moved below their own names, and
    the references between the tables are checked. *)
From S2P Require Import Prelude RustStr Json Crates Errors Ids Manifest Waz Metadata Signing Registry.

(** [has_lib=1 AND (author IS NULL OR author NOT IN (..))] *)
Definition ordinary_lib (db : database) (name : string) : bool :=
  match package db !! name with
  | Some r => has_lib r && match row_author r with Some author => negb (is_standard_author author) | None => true end
  | None => false
  end.
(** ['/'||lib_name||substr(path,5)] of the paths the statement selects. *)
Definition own_path (db : database) (name path : string) : string :=
  match strip_prefix "/std/" path with
  | Some rest => if ordinary_lib db name then "/" +:+ name +:+ "/" +:+ rest else path
  | None => path
  end.
Abbreviation operation := (string * string * (string * string))%type.        (* method, path: lib, capability *)
Definition own_key (db : database) (o : operation) : string * string := (o.1.1, own_path db o.2.1 o.1.2).
Definition update_operation (db0 : database) (db : database) (o : operation) : Result database :=
  let key := own_key db0 o in
  if bool_decide (key = o.1) then Ok db else
  throw (violation "UNIQUE") when bool_decide (is_Some (lib_capability_operation db !! key));;
  Ok (set_acl (lib_capability db) (<[key := o.2]> (delete o.1 (lib_capability_operation db))) db).
Definition update_operations (db : database) : Result database :=
  try_fold (update_operation db) db (map_to_list (lib_capability_operation db)).
(** [PRAGMA foreign_key_check] of both databases. *)
Definition broken_references (db : database) : bool :=
  existsb (fun e => negb (bool_decide (is_Some (package db !! e.1.1))) || negb (bool_decide (is_Some (package db !! e.1.2))))
    (map_to_list (package_dependency db))
  || existsb (fun o => negb (bool_decide (is_Some (lib_capability db !! o.2)))) (map_to_list (lib_capability_operation db)).
Definition broken_versions (db : database) : bool :=
  existsb (fun e => match package db !! e.1.2 with Some r => negb (String.eqb (row_version r) e.2) | None => false end)
    (map_to_list (package_dependency db)).
Definition migrate_registration (db : database) : Result database :=
  let? db := update_operations db in
  throw (InvalidConfig "broken installation references") when broken_references db;;
  throw (InvalidConfig "broken exact package dependencies") when broken_versions db;;
  Ok db.
(** Opening for a change: what may fail before the migration (the settings, the
    file, the pragmas) and after it is committed ([database_owner]); a migration
    that was committed stays, whatever follows. *)
Record open_faults := OpenFaults { of_before : option error; of_after : option error }.
Definition no_open_faults : open_faults := OpenFaults None None.
Definition installation_database (f : open_faults) (create : bool) (db : database) : database * Result unit :=
  if create then
    match of_before f with
    | Some e => (db, Err e)
    | None =>
        match migrate_registration db with
        | Err e => (db, Err e)
        | Ok db => (db, match of_after f with Some e => Err e | None => Ok tt end)
        end
    end
  else (db, match of_before f with Some e => Err e | None => Ok tt end).

(** ** What opening does *)
Definition only_operations (db db' : database) : Prop :=
  package db' = package db /\ package_dependency db' = package_dependency db /\
  lib_capability db' = lib_capability db /\ proxy_location db' = proxy_location db.
(** Every operation is there under its own path, and no other. *)
Definition placed (db db' : database) : Prop :=
  forall key lc, lib_capability_operation db' !! key = Some lc <->
    exists key0, lib_capability_operation db !! key0 = Some lc /\ key = own_key db (key0, lc).
Lemma own_path_idem db name path : contains_char "/" name = false -> own_path db name (own_path db name path) = own_path db name path.
Proof.
  intros Hn. unfold own_path at 2 3. destruct (strip_prefix "/std/" path) as [rest|] eqn:Hp; [|unfold own_path; by rewrite Hp].
  destruct (ordinary_lib db name) eqn:Ho; [|unfold own_path; by rewrite Hp, Ho].
  unfold own_path. destruct (strip_prefix "/std/" ("/" +:+ name +:+ "/" +:+ rest)) as [r|] eqn:Hs; [|done].
  apply strip_prefix_Some in Hs. cbn in Hs. injection Hs as Hs. rewrite Ho.
  assert (Hsplit : split_once "/" (name +:+ String "/" rest) = Some (name, rest)) by (apply split_once_Some; done).
  rewrite Hs in Hsplit. change (String "s" (String "t" (String "d" (String "/" r)))) with ("std" +:+ String "/" r) in Hsplit.
  assert (Hstd : split_once "/" ("std" +:+ String "/" r) = Some ("std", r)) by (apply split_once_Some; done).
  rewrite Hstd in Hsplit. by injection Hsplit as <- <-.
Qed.
(** The operations after some of them were moved. *)
Definition moved (db : database) (os : list operation) : list operation := map (fun o => (own_key db o, o.2)) os.
Definition holds (db : database) (os : list operation) : Prop :=
  NoDup os.*1 /\ forall key lc, lib_capability_operation db !! key = Some lc <-> (key, lc) ∈ os.
Lemma update_operation_holds db0 db o pre rest db' :
  holds db (moved db0 pre ++ o :: rest) -> update_operation db0 db o = Ok db' ->
  holds db' (moved db0 (pre ++ [o]) ++ rest) /\ only_operations db db'.
Proof.
  intros [Hnd Hl]. unfold update_operation, moved. rewrite map_app, <- app_assoc. cbn [map app].
  case_bool_decide as Hk; [intros [= <-]; rewrite Hk; destruct o as [? ?]; done|].
  case_bool_decide as Hs; [done|]. intros [= <-]. split; [|done]. set (P := map _ pre) in *.
  assert (Hnew : own_key db0 o ∉ (P ++ o :: rest).*1).
  { intros Hin. apply list_elem_of_fmap in Hin as ([k lc] & Heq & Hin). apply Hs. cbn in Heq. rewrite Heq. exists lc. by apply Hl. }
  assert (Hother : forall k lc, (k, lc) ∈ P ++ rest <-> (k, lc) ∈ P ++ o :: rest /\ k <> o.1).
  { intros k lc. rewrite fmap_app in Hnd. cbn in Hnd. apply NoDup_app in Hnd as (_ & Hd & Hr). apply NoDup_cons in Hr as [Hno _].
    rewrite !elem_of_app, elem_of_cons. split.
    - intros [Hin|Hin]; (split; [tauto|]); intros ->.
      + apply (Hd o.1); [by apply (list_elem_of_fmap_2 fst _ (o.1, lc))|left].
      + apply Hno. by apply (list_elem_of_fmap_2 fst _ (o.1, lc)).
    - intros [[?|[Heq|?]] Hne]; [by left| |by right]. subst o. done. }
  split.
  - rewrite fmap_app in *. cbn in *. rewrite <- Permutation_middle in *. apply NoDup_cons in Hnd as [_ Hnd]. apply NoDup_cons. split; [|done].
    intros [Hin|Hin]%elem_of_app; apply Hnew; right; apply elem_of_app; [by left|by right].
  - intros k lc. cbn. rewrite lookup_insert_Some, lookup_delete_Some, Hl.
    assert (Hr : (k, lc) ∈ P ++ (own_key db0 o, o.2) :: rest <-> (k, lc) ∈ P \/ (k, lc) = (own_key db0 o, o.2) \/ (k, lc) ∈ rest)
      by by rewrite elem_of_app, elem_of_cons.
    rewrite Hr. specialize (Hother k lc). rewrite elem_of_app in Hother. split.
    + intros [[<- <-]|(Hne & Hne' & Hin)]; [right; by left|]. destruct (proj2 Hother (conj Hin (not_eq_sym Hne'))); tauto.
    + assert (Hno : forall lc', (own_key db0 o, lc') ∉ P ++ o :: rest).
      { intros lc' Hin. apply Hnew. by apply (list_elem_of_fmap_2 fst _ (own_key db0 o, lc')). }
      intros [Hin|[[= -> ->]|Hin]]; [|by left|]; right.
      * destruct (proj1 Hother (or_introl Hin)) as [Hin' Hne']. split; [intros <-; by apply Hno in Hin'|done].
      * destruct (proj1 Hother (or_intror Hin)) as [Hin' Hne']. split; [intros <-; by apply Hno in Hin'|done].
Qed.
Lemma update_operations_holds db0 os pre db db' :
  holds db (moved db0 pre ++ os) -> try_fold (update_operation db0) db os = Ok db' ->
  holds db' (moved db0 (pre ++ os)) /\ only_operations db db'.
Proof.
  revert pre db. induction os as [|o os IH]; intros pre db Hh; cbn [try_fold].
  { intros [= <-]. rewrite app_nil_r in *. done. }
  destruct (update_operation db0 db o) as [db1|] eqn:Ho; [|done]. intros Hf.
  destruct (update_operation_holds _ _ _ _ _ _ Hh Ho) as [Hh1 (E1 & E2 & E3 & E4)].
  destruct (IH _ _ Hh1 Hf) as [Hh2 (F1 & F2 & F3 & F4)]. rewrite <- app_assoc in Hh2. split; [done|]. unfold only_operations. by rewrite F1, F2, F3, F4.
Qed.
Lemma update_operations_Ok db db' : update_operations db = Ok db' -> placed db db' /\ only_operations db db'.
Proof.
  unfold update_operations. intros Hu. destruct (update_operations_holds db (map_to_list (lib_capability_operation db)) [] db db') as [[Hnd Hl] Hs]; [|done|].
  { split; [apply NoDup_fst_map_to_list|]. intros key lc. cbn [moved map app]. unfold moved. cbn [map app]. by rewrite elem_of_map_to_list. }
  split; [|done]. intros key lc. rewrite Hl. unfold moved. cbn [app]. split.
  - intros ([k0 lc0] & Heq & Hin)%list_elem_of_fmap. injection Heq as -> ->. apply elem_of_map_to_list in Hin. eauto.
  - intros (k0 & Hin & ->). apply elem_of_map_to_list in Hin. by apply (list_elem_of_fmap_2 (fun o => (own_key db o, o.2)) _ (k0, lc)).
Qed.
Lemma placed_ordinary db db' name : only_operations db db' -> ordinary_lib db' name = ordinary_lib db name.
Proof. intros (Hp & _). unfold ordinary_lib. by rewrite Hp. Qed.
Lemma own_path_same db db' name path : only_operations db db' -> own_path db' name path = own_path db name path.
Proof. intros Hs. unfold own_path. by rewrite (placed_ordinary _ _ _ Hs). Qed.
(** A database whose operations are all in their place. *)
Definition all_in_place (db : database) : Prop :=
  forall key lc, lib_capability_operation db !! key = Some lc -> own_path db lc.1 key.2 = key.2.
Lemma update_operations_in_place db : all_in_place db -> update_operations db = Ok db.
Proof.
  intros Hin. unfold update_operations.
  assert (Hall : forall o, o ∈ map_to_list (lib_capability_operation db) -> own_key db o = o.1).
  { intros [[m p] lc] Ho%elem_of_map_to_list. unfold own_key. pose proof (Hin _ _ Ho) as Hk. cbn [fst snd] in *. by rewrite Hk. }
  revert Hall. generalize (map_to_list (lib_capability_operation db)). intros os Hall. induction os as [|o os IH]; [done|].
  cbn [try_fold]. unfold update_operation at 1. rewrite bool_decide_eq_true_2 by (apply Hall; left). apply IH. intros o' Ho'. apply Hall. by right.
Qed.

(** C30: Opening the registry for a change moves every operation an older version recorded below /std
    for an ordinary Lib to that Lib's own path and changes nothing else; it succeeds only when every
    dependency is on an installed package in exactly the recorded version and every operation has its
    capability, and opening again changes nothing (names of ordinary Libs hold no slash, as registration
    makes them). *)
Theorem migrate_registration_places db db' :
  (forall name, ordinary_lib db name = true -> contains_char "/" name = false) ->
  migrate_registration db = Ok db' ->
  placed db db' /\ only_operations db db' /\ all_in_place db' /\ migrate_registration db' = Ok db' /\
  (forall p d v, package_dependency db' !! (p, d) = Some v ->
     is_Some (package db' !! p) /\ exists r, package db' !! d = Some r /\ row_version r = v) /\
  (forall e lc, lib_capability_operation db' !! e = Some lc -> is_Some (lib_capability db' !! lc)).
Proof.
  intros Hnames Hm. unfold migrate_registration in Hm. destruct (update_operations db) as [db1|] eqn:Hu; [|done].
  destruct (broken_references db1) eqn:Hr; [done|]. destruct (broken_versions db1) eqn:Hv; [done|]. injection Hm as <-.
  apply update_operations_Ok in Hu as [Hp Hs].
  assert (Hin : all_in_place db1).
  { intros key lc Hk. apply Hp in Hk as (key0 & _ & ->). unfold own_key. cbn. rewrite !(own_path_same _ _ _ _ Hs).
    destruct (ordinary_lib db lc.1) eqn:Ho; [apply own_path_idem, Hnames, Ho|]. unfold own_path. destruct (strip_prefix _ key0.2) eqn:E; rewrite ?Ho, ?E; by rewrite ?Ho. }
  split; [done|]. split; [done|]. split; [done|]. split.
  { unfold migrate_registration. rewrite (update_operations_in_place _ Hin), Hr, Hv. done. }
  apply orb_false_iff in Hr as [Hd Ho]. apply negb_existsb in Hd, Ho, Hv. rewrite Forall_forall in Hd. rewrite Forall_forall in Ho. rewrite Forall_forall in Hv. split.
  - intros p d v Hdep. apply elem_of_map_to_list in Hdep. specialize (Hd _ Hdep). specialize (Hv _ Hdep). cbn in Hd, Hv. simplify_bool.
    match goal with H1 : is_Some (package db1 !! d) |- _ => destruct H1 as [r Hr1] end. rewrite Hr1 in Hv. simplify_bool. split; [done|]. eauto.
  - intros e lc Hop. apply elem_of_map_to_list in Hop. specialize (Ho _ Hop). cbn in Ho. by simplify_bool.
Qed.
(** Opening keeps the registry well formed and its packages as they are. *)
Lemma update_operations_ok db db' : update_operations db = Ok db' -> db_ok db -> db_ok db'.
Proof.
  intros [Hp (E1 & E2 & E3 & _)]%update_operations_Ok [Hn Hc Hd Ha Ho].
  split; rewrite ?E1, ?E2, ?E3; try done.
  - eapply acyclic_sub; [exact Ha|]. by rewrite E2.
  - intros e lc He. apply Hp in He as (key0 & He & _). by eapply Ho.
Qed.
Lemma migrate_registration_ok db db' :
  migrate_registration db = Ok db' -> only_operations db db' /\ (db_ok db -> db_ok db').
Proof.
  unfold migrate_registration. intros Hm. destruct (update_operations db) as [db1|] eqn:Hu; [|done].
  destruct (broken_references db1); [done|]. destruct (broken_versions db1); [done|]. injection Hm as <-.
  split; [by apply update_operations_Ok in Hu as [_ ?]|by apply update_operations_ok].
Qed.
(** What opening leaves: the registry as it was, or as the migration made it. *)
Definition opened (db db' : database) : Prop := db' = db \/ migrate_registration db = Ok db'.
Lemma installation_database_opened f create db db' r :
  installation_database f create db = (db', r) -> opened db db'.
Proof.
  unfold installation_database, opened. destruct create; [|intros [= <- _]; by left].
  destruct (of_before f); [intros [= <- _]; by left|].
  destruct (migrate_registration db) as [db1|]; intros [= <- _]; [by right|by left].
Qed.
Lemma opened_ok db db' : opened db db' -> only_operations db db' /\ (db_ok db -> db_ok db').
Proof. intros [->|Hm]; [split; [|done]; repeat split|by apply migrate_registration_ok]. Qed.
(** A well-formed registry with its operations in place is opened as it is. *)
Lemma migrate_registration_current db : db_ok db -> all_in_place db -> migrate_registration db = Ok db.
Proof.
  intros [Hn Hc Hd Ha Ho] Hin. unfold migrate_registration. rewrite (update_operations_in_place _ Hin).
  assert (Hr : broken_references db = false).
  { apply orb_false_iff. split; apply negb_existsb, Forall_forall.
    - intros [[p d] v] He%elem_of_map_to_list. destruct (Hd _ _ _ He) as [Hp (r & Hr & _)]. cbn.
      rewrite Hr. by rewrite !bool_decide_eq_true_2.
    - intros [e lc] He%elem_of_map_to_list. cbn. by rewrite bool_decide_eq_true_2 by by eapply Ho. }
  assert (Hv : broken_versions db = false).
  { apply negb_existsb, Forall_forall. intros [[p d] v] He%elem_of_map_to_list. destruct (Hd _ _ _ He) as [_ (r & Hr' & <-)]. cbn.
    rewrite Hr'. by rewrite String.eqb_refl. }
  by rewrite Hr, Hv.
Qed.

(** ** Management leaves operations in their place *)
Section management.
Context `{DhttpHome, SerdeJson, Sha2, Base64, Wasmparser, Oas3, X509}.

Lemma own_path_elsewhere db name path : starts_with "/std/" path = false -> own_path db name path = path.
Proof. unfold own_path, starts_with. by destruct (strip_prefix "/std/" path). Qed.
Lemma own_prefix name path : name <> "std" -> contains_char "/" name = false -> starts_with "/" path = true ->
  starts_with "/std/" (("/" +:+ name) +:+ path) = false.
Proof.
  intros Hne Hn Hp. unfold starts_with in *. destruct (strip_prefix "/std/" _) as [r|] eqn:Hs; [|done]. exfalso.
  destruct (strip_prefix "/" path) as [rest|] eqn:Hr; [|done].
  apply strip_prefix_Some in Hs, Hr. rewrite Hr in Hs. injection Hs as Hs. apply Hne.
  assert (H1' : split_once "/" (name +:+ String "/" rest) = Some (name, rest)) by (apply split_once_Some; done).
  assert (H2' : split_once "/" ("std" +:+ String "/" r) = Some ("std", r)) by (apply split_once_Some; done).
  assert (Heq : name +:+ String "/" rest = "std" +:+ String "/" r) by exact Hs.
  rewrite Heq, H2' in H1'. by injection H1' as ->.
Qed.
(** The paths of the groups start as paths do. *)
Definition rooted_groups (files : PackageFiles) : Prop :=
  forall groups g e, capability_rows files = Ok groups -> g ∈ groups -> e ∈ g.2 -> starts_with "/" e.2 = true.
Lemma registration_paths id api files groups c e :
  short_name id <> "std" -> contains_char "/" (short_name id) = false -> rooted_groups files ->
  registration_groups id api files = Ok groups -> group_declares groups c e ->
  starts_with "/std/" e.2 = false \/ exists author rest, split_once "/" id = Some (author, rest) /\ is_standard_author author = true.
Proof.
  intros Hne Hn Hroot Hg (title & endpoints & Hin & He). unfold registration_groups in Hg.
  destruct (is_true api.["has_lib"]); [|injection Hg as <-; by apply not_elem_of_nil in Hin].
  simplify_ok. eapply try_map_elem in Hg as (g' & Hg' & Hgroup); [|exact Hin].
  apply list_elem_of_fmap in Hg' as (g & -> & Hg0). cbn [fst snd] in Hgroup.
  assert (He' : e ∈ map (fun e0 : string * string => (e0.1, match split_once "/" id with
            | Some (author, _) => if is_standard_author author then "/std" else "/" +:+ short_name id
            | None => "/" +:+ short_name id end +:+ e0.2)) g.2 \/ e = ("GET", app_mount id)).
  { destruct (app_group _ _); simplify_ok; simplify_eq; [|by left].
    apply elem_of_app in He as [He|He]; [by left|right]. by apply list_elem_of_singleton in He. }
  destruct He' as [He'| ->]; [|by left].
  apply list_elem_of_fmap in He' as (e0 & -> & He0). cbn [fst snd].
  match goal with Hc : capability_rows files = Ok _ |- _ => pose proof (Hroot _ _ _ Hc Hg0 He0) as Hr end.
  destruct (split_once "/" id) as [[author rest]|]; [|left; by apply own_prefix].
  destruct (is_standard_author author) eqn:Hs; [right; eauto|left; by apply own_prefix].
Qed.
(** Registering a package that does not take the name of the host's own paths,
    or removing one, leaves every operation where requests look for it: the next
    change opens the registry as it is. *)
Theorem save_registration_in_place now id api files db db' :
  db_ok db -> all_in_place db -> short_name id <> "std" -> rooted_groups files ->
  save_registration now id api files db = Ok db' -> all_in_place db' /\ migrate_registration db' = Ok db'.
Proof.
  intros Hok Hin Hne Hroot Hs. destruct (save_registration_facts _ _ _ _ _ _ Hok Hs) as (Hok' & Hp & _ & _ & _ & Hother).
  enough (Hin' : all_in_place db') by (split; [done|by apply migrate_registration_current]).
  intros [m path] [lib c] Hop. cbn [fst snd]. unfold own_path. destruct (strip_prefix "/std/" path) as [rest|] eqn:Hstd; [|done].
  assert (Hname : contains_char "/" (short_name id) = false) by apply last_segment_clean.
  destruct (decide (lib = short_name id)) as [->|Hlib].
  - unfold ordinary_lib. rewrite Hp, lookup_insert_eq. cbn.
    unfold save_registration in Hs. simplify_ok. apply permissions_inv in Hs as (_ & _ & Hops).
    apply Hops in Hop as [[? _]|[_ Hd]]; [done|].
    match goal with Hg : registration_groups _ _ _ = Ok _ |- _ => eapply registration_paths in Hg; [|exact Hne|exact Hname|exact Hroot|exact Hd] end.
    match goal with Hg : _ \/ _ |- _ => destruct Hg as [Hout|(author & r & Hsplit & Ha)] end.
    + cbn [snd] in Hout. unfold starts_with in Hout. by rewrite Hstd in Hout.
    + rewrite Hsplit, Ha. by rewrite andb_false_r.
  - apply Hother in Hop; [|done]. specialize (Hin _ _ Hop). cbn [fst snd] in Hin. unfold own_path in Hin. rewrite Hstd in Hin.
    unfold ordinary_lib in *. rewrite Hp, lookup_insert_ne by done. done.
Qed.
End management.
