(* ===== verification/Catalog.v ===== *)
(** * What the management interface shows of packages ([src/package.rs])

    The metadata of a package file set ([lib_metadata]) and of the installed
    packages ([installed_catalog]). *)
From S2P Require Import Prelude RustStr Json Crates Errors Ids Manifest Waz Metadata Signing Registry.

Section catalog.
Context `{DhttpHome, SerdeJson, UrlCrates, Sha2, Base64, Wasmparser, Oas3, X509}.

(** *** Operations of a Lib under its mount *)
Definition catalog_prefix (id : string) : string :=
  if is_standard_author (id_author id) then "/std" else "/" +:+ short_name id.
Definition operation_json (prefix path : string) (m : string * operation) : json :=
  jobj [("method", JStr m.1); ("path", JStr (prefix +:+ path));
        ("description", jopt JStr (match summary m.2 with Some s => Some s | None => op_description m.2 end))].
Definition operations_json (prefix : string) (api : openapi) : list json :=
  flat_map (fun e => map (operation_json prefix e.1) (methods e.2)) (default [] (paths api)).
Definition operation_leb (a b : json) : bool :=
  pair_leb (unwrap_str a.["path"], unwrap_str a.["method"]) (unwrap_str b.["path"], unwrap_str b.["method"]).
Definition endpoints_json (prefix : string) (api : openapi) : json :=
  JArr (sort_by operation_leb (operations_json prefix api)).

(** *** [lib_metadata] *)
Definition metadata_error (id : option string) (e : error) : json :=
  jobj [("id", jopt JStr id); ("error", JStr (display e))].
Definition lib_metadata (files : PackageFiles) (id : option string) : json :=
  match package_metadata files with
  | Err e => metadata_error id e
  | Ok value =>
      let described :=
        match assoc "backend.wasm" files with
        | None => Ok (set_key "endpoints" (JArr []) value)
        | Some _ =>
            let identity := default (unwrap_str value.["id"]) id in
            let? raw := package_openapi files in
            let? api := map_err InvalidComponent (parse_openapi raw) in
            Ok (set_key "endpoints" (endpoints_json (catalog_prefix identity) api) (set_key "openapi" (document api) value))
        end in
      match described with
      | Err e => metadata_error id e
      | Ok value => match id with Some id => set_key "id" (JStr id) value | None => value end
      end
  end.

(** *** [installed_catalog] *)
(** [dep.as_object_mut().and_then(|d| d.remove("publisher"))] into [author]. *)
Definition author_key (v : json) : json :=
  match get "publisher" v with
  | Some author => set_key "author" author (remove_key "publisher" v)
  | None => v
  end.
(** [value["dependencies"].as_array_mut()]: a missing key becomes [null]. *)
Definition author_dependencies (v : json) : json :=
  match get "dependencies" v with
  | Some (JArr deps) => set_key "dependencies" (JArr (map author_key deps)) v
  | Some _ => v
  | None => set_key "dependencies" JNull v
  end.
Definition registered_identity (db : database) (name : string) : option string := identity <$> package db !! name.
Definition installed_catalog (db : database) (name : option string) : Result json :=
  let? value := match name with
                | Some name => let? id := ok_or RouteNotFound (registered_identity db name) in
                               installed_packages db (Some id)
                | None => installed_packages db None
                end in
  match value with
  | JArr values => Ok (JArr (map author_dependencies values))
  | _ => Ok (author_dependencies value)
  end.
End catalog.
