(* ===== verification/Install.v ===== *)
(** * Installing and removing packages
      ([src/package/files.rs] [install_packages], [remove_package];
       [src/package/store.rs] [install_store_package])

    The whole operation over one state: the registry, the CRL directory, the
    files on disk, the packages loaded in the sandbox, and the journals that a
    transaction left behind because its cleanup (or its rollback) failed.  The
    component engine ([Lib::load]) is a function of the environment. *)
From S2P Require Import Prelude RustStr Decimal Json Crates Errors Ids Manifest Waz Metadata Signing Store Registry Commit Opening Catalog.

(** The loaded packages of the sandbox: the API of each Lib, the version of
    each App; [closed] once the server shuts down. *)
Record sandbox := Sandbox { closed : bool; libs : gmap string openapi; apps : gmap string string }.
(** A staging directory with its journal; the targets of its members are
    whatever is on disk. *)
Record stage := Stage { sg_members : list member; sg_journal : string }.
Record state := State {
  st_db : database;
  st_crls : gmap string string;         (* trust/code-signing *)
  st_disk : gmap string content;        (* lib/.. and app/.. *)
  st_sandbox : sandbox;
  st_stages : list stage }.             (* .pishoo-*/.transaction.json *)
Definition set_db (db : database) (s : state) : state := State db (st_crls s) (st_disk s) (st_sandbox s) (st_stages s).
Definition set_crls (crls : gmap string string) (s : state) : state := State (st_db s) crls (st_disk s) (st_sandbox s) (st_stages s).
Definition set_sandbox (sb : sandbox) (s : state) : state := State (st_db s) (st_crls s) (st_disk s) sb (st_stages s).
(** The I/O of one operation: opening the registry, the revocation directory at
    each check (by the number of packages before it, or left after it), the
    staging directories, and the commit. *)
Record io_faults := IoFaults {
  io_open : open_faults;
  io_admit : nat -> faults;
  io_recheck : nat -> faults;
  io_stage : option error;
  io_commit :> failure }.
Definition no_io (f : failure) : io_faults := IoFaults no_open_faults (fun _ => no_faults) (fun _ => no_faults) None f.

(** [lib/std/{short}.wasm], [lib/{short}.wasm], [app/{short}] *)
Definition resource_path (kind id : string) : string :=
  if String.eqb kind "lib" then
    (if match split_once "/" id with Some (publisher, _) => is_standard_author publisher | None => false end
     then "lib/std/" else "lib/") +:+ short_name id +:+ ".wasm"
  else "app/" +:+ short_name id.

Definition expanded_error : error := InvalidComponent "invalid or modified expanded package".

(** A package that is to be switched: id, files, metadata with evidence. *)
Record change := Change { c_id : string; c_files : PackageFiles; c_metadata : json }.

(** [write_expanded]: the files of one resource. *)
Definition expanded (kind : string) (c : change) : Result (option content) :=
  if negb (is_true (c_metadata c).["has_" +:+ kind]) then Ok None
  else if String.eqb kind "lib" then
    let? backend := ok_or expanded_error (assoc "backend.wasm" (c_files c)) in
    Ok (Some [(short_name (c_id c) +:+ ".wasm", backend)])
  else
    let static := omap (fun f => match strip_prefix "public/" f.1 with Some p => Some (p, f.2) | None => None end) (c_files c) in
    throw (InvalidComponent "reserved recovery path in App") when
      existsb (fun f => existsb (String.eqb (first_segment "/" f.1)) [".transaction.json"; ".previous"]) static;;
    Ok (Some static).

Definition stage_member (disk : gmap string content) (directory : string) (id : string) (lib app : option content) : member :=
  Member id directory (staged (disk !! resource_path "lib" id) lib) (staged (disk !! resource_path "app" id) app).
(** What a finished transaction leaves on disk. *)
Definition set_path (path : string) (c : option content) (disk : gmap string content) : gmap string content :=
  match c with Some c => <[path := c]> disk | None => delete path disk end.
Definition publish_member (disk : gmap string content) (m : member) : gmap string content :=
  set_path (resource_path "app" (m_id m)) (s_target (m_app m)) (set_path (resource_path "lib" (m_id m)) (s_target (m_lib m)) disk).
Definition publish (ms : list member) (disk : gmap string content) : gmap string content := fold_left publish_member ms disk.

(** The end of a transaction: what is on disk, and the journal if it is still
    there. *)
Definition left_behind (w : world) : list stage :=
  match w_journal w with Some journal => [Stage (w_members w) journal] | None => [] end.
Definition after_commit (w : world) (s : state) : state :=
  State (w_db w) (st_crls s) (publish (w_members w) (st_disk s)) (st_sandbox s) (st_stages s ++ left_behind w).

(** *** The routes of the files on disk *)
Definition missing_file : error := Io NotFound "No such file or directory (os error 2)".
Definition read_runtime_wasm (bytes : string) : Result string :=
  throw (InvalidComponent "component exceeds 64 MiB") when slen bytes >? 64 * mib;;
  Ok bytes.
(** The walk over the directory of an App looks at the entries on the way to
    each file, and not below the names of an interrupted transaction. *)
Definition recovery_name (name : string) : bool := mem name [".transaction.json"; ".previous"].
Fixpoint visited (above : list string) (parts : list string) : list (list string) :=
  match parts with
  | [] => []
  | part :: parts => (above ++ [part]) :: (if recovery_name part then [] else visited (above ++ [part]) parts)
  end.
(** The number of directories above the last entry seen. *)
Definition visited_depth (path : string) : Z := Z.of_nat (pred (length (visited [] (split_on "/" path)))).
Definition app_entries (files : content) : list (list string) :=
  remove_dups (flat_map (fun f => visited [] (split_on "/" f.1)) files).
Definition shown_file (path : string) : bool := negb (existsb recovery_name (split_on "/" path)).
Definition bad_name (name : string) : bool := String.eqb name "" || mem name ["."; ".."] || contains_char "\" name.
Section installed_routes.
Context `{DhttpHome, SerdeJson, Sha2, Base64, Wasmparser, Oas3, X509}.
Definition installed_routes (disk : gmap string content) (kind id : string) : Result (list (string * list string)) :=
  if String.eqb kind "lib" then
    let? file := ok_or missing_file (disk !! resource_path "lib" id ≫= assoc (short_name id +:+ ".wasm")) in
    let? bytes := read_runtime_wasm file in
    package_routes [("backend.wasm", bytes)] id kind
  else
    let? files := ok_or missing_file (disk !! resource_path "app" id) in
    let shown := List.filter (fun f => shown_file f.1) files in
    throw expanded_error when
      existsb (fun f => visited_depth f.1 >? 32) files
      || (Z.of_nat (length (app_entries files)) >? 10000)
      || existsb (fun f => bad_name (last_segment "/" f.1)) shown;;
    package_routes (map (fun f => ("public/" +:+ f.1, "")) shown) id kind.
End installed_routes.

Section install.
Context `{DhttpHome, SerdeJson, UrlCrates, Sha2, Base64, Wasmparser, Oas3, X509, AccessControl, Webpki, ZipCrate, StoreEndpoint}.
Variable root_der : string.
Variable now : Z.
(** [Lib::load] of an id and its component. *)
Variable load_lib : string -> string -> Result openapi.

(** The authenticated package of one downloaded resource. *)
Record admitted := Authenticated { a_author : string; a_name : string; a_files : PackageFiles; a_facts : json }.
Definition authenticate (names : list string) (r : resource) : Result admitted :=
  let id := r_id r in
  let? _ := valid_id id in
  throw (BadRequest "reserved or duplicate package name") when
    String.eqb (short_name id) "std" || mem (short_name id) names;;
  let? (author, name) := ok_or identity_mismatch (split_once "/" id) in
  let? version := ok_or upgrade_required (as_str (r_proof r).["version"]) in
  let? _ := verify_release root_der now (r_bytes r) (r_proof r) author name version in
  let? at_ := ok_or panicked (verified_at (r_proof r)) in
  let? files := read_package_at root_der (r_bytes r) at_ in
  let? facts := facts root_der files author at_ in
  Ok (Authenticated author name files facts).

(** The owner the installed package of the same id belongs to. *)
Definition original_owner (id : string) (a : admitted) (proof current : json) : Result json :=
  if is_null current.["author_owner_hash"] then
    let previous := proof.["_previous_release"] in
    throw ownership_conflict when
      negb (is_str previous.["id"] id) || negb (is_str previous.["author"] (a_author a))
      || negb (is_str previous.["name"] (a_name a))
      || negb (json_eqb previous.["version"] current.["version"])
      || negb (is_str previous.["signature"].["purpose"] "code_signing");;
    let? previous_at := ok_or ownership_conflict (verified_at previous) in
    let? _ := verify_receipt root_der now previous previous_at in
    Ok previous.["author_owner_hash"]
  else Ok current.["author_owner_hash"].

Definition evidence (a : admitted) (proof metadata : json) : json :=
  set_key "signer_leaf_fingerprint_sha256" (a_facts a).["leaf_fingerprint_sha256"]
    (set_key "package_sha256" proof.["package_sha256"]
      (set_key "author_owner_hash" (a_facts a).["author_owner_hash"] metadata)).

Definition check_current (id : string) (a : admitted) (proof metadata current : json) : Result unit :=
  let? owner := original_owner id a proof current in
  throw ownership_conflict when negb (json_eqb owner metadata.["author_owner_hash"]);;
  throw (policy "package_version_conflict" 409) when
    json_eqb current.["version"] metadata.["version"]
    && negb (is_null current.["package_sha256"])
    && negb (json_eqb current.["package_sha256"] metadata.["package_sha256"]);;
  Ok tt.

(** A dependency that is already installed and loaded as it is. *)
Definition reusable (sb : sandbox) (id : string) (metadata current : json) : bool :=
  json_eqb current.["version"] metadata.["version"]
  && json_eqb current.["package_sha256"] metadata.["package_sha256"]
  && json_eqb current.["signer_leaf_fingerprint_sha256"] metadata.["signer_leaf_fingerprint_sha256"]
  && json_eqb current.["has_lib"] metadata.["has_lib"]
  && json_eqb current.["has_app"] metadata.["has_app"]
  && (negb (is_true metadata.["has_lib"])
      || match libs sb !! id with Some api => bool_decide (Some (info_version api) = as_str metadata.["version"]) | None => false end)
  && (negb (is_true metadata.["has_app"])
      || match apps sb !! id with Some v => bool_decide (Some v = as_str metadata.["version"]) | None => false end).

(** The rest of the loop body, after the revocation check: [None] for a
    reused dependency. *)
Definition decide_package (s : state) (is_root : bool) (r : resource) (a : admitted) : Result (option change) :=
  let id := r_id r in
  let? metadata := package_metadata (a_files a) in
  let metadata := evidence a (r_proof r) metadata in
  let? _ := check_resource_identity metadata id in
  let? _ := check_name (st_db s) id "pkg" in
  let? current := match registered_metadata (st_db s) id with
                  | Ok current => Ok (Some current)
                  | Err RouteNotFound => Ok None
                  | Err e => Err e
                  end in
  let? _ := match current with
            | Some current => check_current id a (r_proof r) metadata current
            | None => Ok tt
            end in
  if negb is_root && match current with Some current => reusable (st_sandbox s) id metadata current | None => false end
  then Ok None
  else
    let? _ := try_fold (fun _ kind =>
      if is_true metadata.["has_" +:+ kind]
      then check_routes (installed_routes (st_disk s)) (st_db s) id kind (a_files a) else Ok tt) tt ["lib"; "app"] in
    Ok (Some (Change id (a_files a) metadata)).

(** The loop over the packages; imported CRLs stay, whatever follows. *)
Fixpoint admit_packages (io : io_faults) (s : state) (names : list string) (changed : list change) (packages : list resource) :
    gmap string string * Result (list change) :=
  match packages with
  | [] => (st_crls s, Ok changed)
  | r :: packages =>
      match authenticate names r with
      | Err e => (st_crls s, Err e)
      | Ok a =>
          match check_revocations (io_admit io (length names)) (a_files a) (st_crls s) (r_proof r).["revocation_list"] now with
          | (crls, Err e) => (crls, Err e)
          | (crls, Ok _) =>
              let s := set_crls crls s in
              match decide_package s (bool_decide (packages = [])) r a with
              | Err e => (crls, Err e)
              | Ok c => admit_packages io s (short_name (r_id r) :: names) (changed ++ option_list c) packages
              end
          end
      end
  end.

Definition save_change (db : database) (c : change) : Result database :=
  save_registration now (c_id c) (c_metadata c) (c_files c) db.
(** The registry transaction: outgoing dependencies of all changed packages
    are replaced. *)
Definition register_changes (changed : list change) (db : database) : Result database :=
  let db := fold_left (fun db c => delete_dependencies (short_name (c_id c)) db) changed db in
  try_fold save_change db changed.

(** Staged files and loaded packages of one change. *)
Record prepared := Prepared { p_member : member; p_lib : option openapi; p_app : option string }.
Definition prepare (disk : gmap string content) (c : change) : Result prepared :=
  let? lib := expanded "lib" c in
  let? loaded := match lib with
                 | Some ((_, wasm) :: _) =>
                     throw (InvalidComponent "component exceeds 64 MiB") when slen wasm >? 64 * mib;;
                     let? api := load_lib (c_id c) wasm in Ok (Some api)
                 | _ => Ok None
                 end in
  let? app := expanded "app" c in
  let? version := match app with
                  | Some _ => let? v := ok_or expanded_error (as_str (c_metadata c).["version"]) in Ok (Some v)
                  | None => Ok None
                  end in
  Ok (Prepared (stage_member disk (short_name (c_id c)) (c_id c) lib app) loaded version).

(** The second revocation check, after compilation. *)
Fixpoint recheck (io : io_faults) (crls : gmap string string) (packages : list resource) : gmap string string * Result unit :=
  match packages with
  | [] => (crls, Ok tt)
  | r :: packages =>
      match ok_or panicked (verified_at (r_proof r)) with
      | Err e => (crls, Err e)
      | Ok at_ =>
          match read_package_at root_der (r_bytes r) at_ with
          | Err e => (crls, Err e)
          | Ok files =>
              match check_revocations (io_recheck io (length packages)) files crls (r_proof r).["revocation_list"] now with
              | (crls, Err e) => (crls, Err e)
              | (crls, Ok _) => recheck io crls packages
              end
          end
      end
  end.

Definition switch_one (sb : sandbox) (p : prepared) : sandbox :=
  let id := m_id (p_member p) in
  Sandbox (closed sb)
    (match p_lib p with Some api => <[id := api]> (libs sb) | None => delete id (libs sb) end)
    (match p_app p with Some v => <[id := v]> (apps sb) | None => delete id (apps sb) end).
Definition switch_sandbox (sb : sandbox) (ps : list prepared) : sandbox := fold_left switch_one ps sb.

(** The checks and the staging: the registry transaction and the staged
    packages, before any file is switched. *)
Definition plan_packages (io : io_faults) (s : state) (packages : list resource) : gmap string string * Result (database * list prepared) :=
  let '(crls, admitted) := admit_packages io s [] [] packages in
  match (let? changed := admitted in
         let? tx := register_changes changed (st_db s) in
         let? _ := match io_stage io with Some e => Err e | None => Ok tt end in
         let? prepared := try_map (prepare (st_disk s)) changed in
         Ok (tx, prepared)) with
  | Err e => (crls, Err e)
  | Ok (tx, prepared) =>
      match recheck io crls packages with
      | (crls, Err e) => (crls, Err e)
      | (crls, Ok _) => (crls, Ok (tx, prepared))
      end
  end.
Definition staged_packages (s : state) (ps : list prepared) : world := World (map p_member ps) None true (st_db s).
(** The transaction on the opened registry. *)
Definition install_opened (io : io_faults) (s : state) (packages : list resource) : state * Result unit :=
  match plan_packages io s packages with
  | (crls, Err e) => (set_crls crls s, Err e)
  | (crls, Ok (tx, prepared)) =>
      let '(w, result) := commit_packages_files io (staged_packages s prepared) tx in
      let s := after_commit w (set_crls crls s) in
      match result with
      | Err e => (s, Err e)
      | Ok _ => (set_sandbox (switch_sandbox (st_sandbox s) prepared) s, Ok tt)
      end
  end.
Definition install_allowed (s : state) (packages : list resource) : Result unit :=
  throw (BadRequest "installation requires 1 to 100 packages") when
    bool_decide (packages = []) || (Z.of_nat (length packages) >? 100);;
  throw Denied when closed (st_sandbox s);;
  Ok tt.
(** [installation_database(profile, true)]. *)
Definition open_registry (io : io_faults) (s : state) : state * Result unit :=
  let '(db, result) := installation_database (io_open io) true (st_db s) in (set_db db s, result).
Definition install_packages (io : io_faults) (s : state) (packages : list resource) : state * Result unit :=
  match install_allowed s packages with
  | Err e => (s, Err e)
  | Ok _ =>
      match open_registry io s with
      | (s, Err e) => (s, Err e)
      | (s, Ok _) => install_opened io s packages
      end
  end.

(** [remove_package]; its caller updates the sandbox. *)
Definition remove_registered (io : io_faults) (s : state) (id : string) : state * Result unit :=
  match (let? _ := match io_stage io with Some e => Err e | None => Ok tt end in unregister id (st_db s)) with
  | Err e => (s, Err e)
  | Ok tx =>
      let w := World [stage_member (st_disk s) "" id None None] None true (st_db s) in
      let '(w, result) := commit_packages_files io w tx in
      (after_commit w s, result)
  end.
Definition remove_package (io : io_faults) (s : state) (id : string) : state * Result unit :=
  match valid_id id with
  | Err e => (s, Err e)
  | Ok _ =>
      match open_registry io s with
      | (s, Err e) => (s, Err e)
      | (s, Ok _) =>
          match registered_packages (st_db s) "pkg" (Some id) with
          | Err RouteNotFound => (s, Ok tt)
          | _ => remove_registered io s id
          end
      end
  end.

(** [install_store_package]: resolve, order, prepare the answer for the root,
    install. *)
Definition plan_store_package (s : state) (publisher name version : string) : Result (list resource * json) :=
  let root_id := publisher +:+ "/" +:+ name in
  let? _ := valid_id root_id in
  let? installed := Registry.installed_packages (st_db s) None in
  let? resources := match resolve root_der now resolve_fuel (default [] (as_array installed)) [(publisher, name, version)] [] with
                    | Some r => r
                    | None => Err panicked
                    end in
  let? ordered := order_packages root_der resources in
  throw Denied when closed (st_sandbox s);;
  let? root := ok_or panicked (last ordered) in
  let? at_ := ok_or panicked (verified_at (r_proof root)) in
  let? files := read_package_at root_der (r_bytes root) at_ in
  Ok (ordered, lib_metadata files (Some root_id)).
Definition install_store_package (io : io_faults) (s : state) (publisher name version : string) : state * Result json :=
  match plan_store_package s publisher name version with
  | Err e => (s, Err e)
  | Ok (ordered, value) =>
      match install_packages io s ordered with
      | (s, Ok _) => (s, Ok value)
      | (s, Err e) => (s, Err e)
      end
  end.
End install.

(** ** Properties *)
Section install_facts.
Context `{DhttpHome, SerdeJson, UrlCrates, Sha2, Base64, Wasmparser, Oas3, X509, AccessControl, Webpki, ZipCrate, StoreEndpoint}.
Variable root_der : string.
Variable now : Z.
Variable load_lib : string -> string -> Result openapi.
Local Abbreviation plan_packages := (plan_packages root_der now load_lib).
Local Abbreviation install_opened := (install_opened root_der now load_lib).
Local Abbreviation install_packages := (install_packages root_der now load_lib).

(** *** A rolled back transaction leaves the files where they were. *)
Lemma set_path_id path (disk : gmap string content) : set_path path (disk !! path) disk = disk.
Proof. unfold set_path. destruct (disk !! path) eqn:E; [by apply insert_id|by apply delete_id]. Qed.

Definition in_place (disk : gmap string content) (m : member) : Prop :=
  s_target (m_lib m) = disk !! resource_path "lib" (m_id m) /\ s_target (m_app m) = disk !! resource_path "app" (m_id m).
Lemma publish_in_place ms disk : Forall (in_place disk) ms -> publish ms disk = disk.
Proof.
  unfold publish. induction 1 as [|m ms [Hl Ha] _ IH]; cbn; [done|].
  assert (publish_member disk m = disk) as ->; [|done]. unfold publish_member. by rewrite Hl, set_path_id, Ha, set_path_id.
Qed.

Lemma rolled_back_members ms ms' :
  Forall (fun m => is_staged (m_lib m) /\ is_staged (m_app m)) ms -> Forall2 reachable_member ms ms' ->
  Forall2 (fun m0 m => m_id m = m_id m0 /\ s_target (m_lib m) = s_target (m_lib m0) /\ s_target (m_app m) = s_target (m_app m0))
    ms (rollback_files (fun _ => Restored) ms').
Proof.
  intros Hst Hr. induction Hr as [|m m' ms ms' (Hid & _ & Hl & Ha) _ IH]; [constructor|].
  apply Forall_cons in Hst as [[Sl Sa] Hst]. cbn. constructor; [|by apply IH].
  apply reachable_restorable in Hl, Ha; [|done..]. pose proof Hl as (El & En & _). pose proof Ha as (Fl & Fn & _).
  cbn. unfold rollback_slot. rewrite El, En, Fl, Fn. by rewrite !undo_restored.
Qed.
Lemma commit_failed_members f w tx w' e :
  staged_world w -> f_rollback f = None -> commit_packages_files f w tx = (w', Err e) ->
  w_db w' = w_db w /\
  Forall2 (fun m0 m => m_id m = m_id m0 /\ s_target (m_lib m) = s_target (m_lib m0) /\ s_target (m_app m) = s_target (m_app m0))
    (w_members w) (w_members w').
Proof.
  intros Hst Hf. unfold commit_packages_files, rolled_back. rewrite Hf.
  destruct (f_prepare f); [|destruct (_ >? _)].
  1,2: intros [= <- <-]; split; [done|]; cbn; by apply Forall_Forall2_diag, Forall_true.
  destruct (f_switch f) as [[n e']|]; [|done].
  destruct (execute_switch_steps n (journalled w tx)) as (ms' & Eq & R & _).
  change (w_members (journalled w tx)) with (w_members w) in *. rewrite Eq. intros [= <- <-].
  apply rolled_back_members in R; [|done].
  destruct (f_cleanup f) as [|[|[|k]]]; cbn; rewrite ?take_nil; by split.
Qed.

Lemma prepare_staged disk c p :
  prepare load_lib disk c = Ok p ->
  is_staged (m_lib (p_member p)) /\ is_staged (m_app (p_member p)) /\ in_place disk (p_member p).
Proof.
  unfold prepare. intros Hp. simplify_ok. cbn. split_and!; [by do 2 eexists|by do 2 eexists|done].
Qed.
Lemma prepare_all disk cs ps :
  try_map (prepare load_lib disk) cs = Ok ps ->
  Forall (fun m => is_staged (m_lib m) /\ is_staged (m_app m)) (map p_member ps) /\
  Forall (in_place disk) (map p_member ps).
Proof.
  intros Hp%try_map_Forall2. induction Hp as [|c p cs ps Hc _ [IH1 IH2]]; cbn; [by split; constructor|].
  apply prepare_staged in Hc as (Hl & Ha & Hi). by split; constructor.
Qed.

(** The parts of a plan. *)
Lemma plan_packages_Ok io s packages crls tx ps :
  plan_packages io s packages = (crls, Ok (tx, ps)) ->
  exists crls' changed, admit_packages root_der now io s [] [] packages = (crls', Ok changed) /\
    register_changes now changed (st_db s) = Ok tx /\ try_map (prepare load_lib (st_disk s)) changed = Ok ps.
Proof.
  unfold Install.plan_packages. destruct (admit_packages _ _ _ _ _ _ _) as [crls' adm].
  destruct (let? changed := adm in _) as [[tx' ps']|] eqn:Hplan; [|done].
  destruct (recheck _ _ _ _ _) as [crls2 [u|e']]; [|done]. intros [= _ -> ->]. simplify_ok. eauto.
Qed.
Lemma install_allowed_Ok s packages u :
  install_allowed s packages = Ok u -> (1 <= length packages <= 100)%nat /\ closed (st_sandbox s) = false.
Proof.
  unfold install_allowed. intros Ha. simplify_ok. simplify_bool. split; [destruct packages; [done|cbn in *; lia]|done].
Qed.

Lemma failed_in_place s ps f tx w e :
  Forall (fun m => is_staged (m_lib m) /\ is_staged (m_app m)) (map p_member ps) -> Forall (in_place (st_disk s)) (map p_member ps) ->
  f_rollback f = None -> commit_packages_files f (staged_packages s ps) tx = (w, Err e) ->
  w_db w = st_db s /\ publish (w_members w) (st_disk s) = st_disk s.
Proof.
  intros Hst Hin Hf Hc. apply commit_failed_members in Hc as [Hdb Hm]; [|done..]. split; [done|].
  cbn in Hm. apply publish_in_place. clear - Hm Hin.
  revert Hin. induction Hm as [|m m' ms ms' (Hid & Hl & Ha) _ IH]; intros Hin; [constructor|].
  apply Forall_cons in Hin as [[Il Ia] Hin]. constructor; [|by apply IH].
  unfold in_place. by rewrite Hid, Hl, Ha.
Qed.
Lemma install_opened_unchanged io s packages s' e :
  install_opened io s packages = (s', Err e) ->
  f_rollback io = None ->
  st_db s' = st_db s /\ st_disk s' = st_disk s /\ st_sandbox s' = st_sandbox s.
Proof.
  intros Hi Hf. unfold Install.install_opened in Hi.
  destruct (plan_packages _ _ _) as [crls [[tx ps]|e']] eqn:Hplan; [|by injection Hi as <- _].
  apply plan_packages_Ok in Hplan as (crls' & changed & _ & _ & Hps). apply prepare_all in Hps as [Hst Hin].
  destruct (commit_packages_files _ _ _) as [w' [u'|e']] eqn:Hc; [by injection Hi|].
  injection Hi as <- _. by apply failed_in_place in Hc as [Hdb Hd].
Qed.
Lemma open_registry_opened io s s' r :
  open_registry io s = (s', r) -> exists db, s' = set_db db s /\ opened (st_db s) db.
Proof.
  unfold open_registry. destruct (installation_database _ _ _) as [db r'] eqn:Hi. intros [= <- _].
  exists db. split; [done|]. by eapply installation_database_opened.
Qed.
(** A whole installation either ends before the transaction, with the registry
    at most opened, or is the transaction on the opened registry. *)
Lemma install_packages_cases io s packages s' r :
  install_packages io s packages = (s', r) ->
  exists db, opened (st_db s) db /\
    ((s' = set_db db s /\ exists e, r = Err e) \/
     install_allowed s packages = Ok tt /\ install_opened io (set_db db s) packages = (s', r)).
Proof.
  unfold Install.install_packages. destruct (install_allowed s packages) as [[]|e].
  2: { intros [= <- <-]. exists (st_db s). split; [by left|]. left. split; [by destruct s|eauto]. }
  destruct (open_registry io s) as [s1 r1] eqn:Ho. apply open_registry_opened in Ho as (db & -> & Hdb).
  exists db. split; [done|]. destruct r1 as [u|e]; [by right|]. left. match goal with Hx : _ = (s', r) |- _ => injection Hx as <- <- end. eauto.
Qed.
(** C8: An installation of a list of packages that fails once the registry is open, at whatever check or
    file operation, leaves the registry, the package directories and the sandbox as they were (provided
    rolling back the files does not itself fail, which leaves the journal for recovery). *)
Theorem install_packages_error_unchanged io s packages s' e :
  install_opened io s packages = (s', Err e) ->
  f_rollback io = None ->
  st_db s' = st_db s /\ st_disk s' = st_disk s /\ st_sandbox s' = st_sandbox s.
Proof. apply install_opened_unchanged. Qed.

(** *** What an installation keeps *)
Definition owners_kept (db db' : database) : Prop :=
  forall n r owner, package db !! n = Some r -> author_owner_hash r = Some owner ->
  exists r', package db' !! n = Some r' /\ author_owner_hash r' = Some owner.
Definition only_changes (names : list string) (db db' : database) : Prop :=
  forall n, n ∉ names -> package db' !! n = package db !! n /\
    forall d, package_dependency db' !! (n, d) = package_dependency db !! (n, d).

Lemma delete_changed_dependencies changed db :
  db_ok db -> let db' := fold_left (fun db c => delete_dependencies (short_name (c_id c)) db) changed db in
  db_ok db' /\ package db' = package db /\ only_changes (map (short_name ∘ c_id) changed) db db'.
Proof.
  revert db. induction changed as [|c l IH]; intros d Hd; cbn; [by split_and!|].
  destruct (IH _ (db_ok_delete_dependencies (short_name (c_id c)) _ Hd)) as (G1 & G2 & G3).
  rewrite G2. split_and!; [done..|]. intros n [Hc Hl]%not_elem_of_cons. destruct (G3 n Hl) as [Hp Hn].
  split; [by rewrite Hp|]. intros x. rewrite Hn. cbn.
  destruct (package_dependency d !! (n, x)) eqn:Hx; [by apply map_lookup_filter_Some|apply map_lookup_filter_None; by left].
Qed.
Lemma save_change_only names db c d d' :
  db_ok d -> save_change now d c = Ok d' -> only_changes names db d -> only_changes (names ++ [short_name (c_id c)]) db d'.
Proof.
  intros Hd Hs Ho n Hn. destruct (save_registration_facts _ _ _ _ _ _ Hd Hs) as (_ & Hp & _ & Hdep & _).
  rewrite elem_of_app, list_elem_of_singleton in Hn. destruct (Ho n (fun Hin => Hn (or_introl Hin))) as [Hpn Hdn].
  rewrite Hp, lookup_insert_ne by (intros Heq; apply Hn; by right). split; [done|].
  intros x. by rewrite Hdep by (intros Heq; apply Hn; by right).
Qed.
Lemma register_changes_ok changed db tx :
  db_ok db -> register_changes now changed db = Ok tx ->
  db_ok tx /\ owners_kept db tx /\ only_changes (map (short_name ∘ c_id) changed) db tx.
Proof.
  intros Hok. unfold register_changes.
  destruct (delete_changed_dependencies changed db Hok) as (Hok1 & Hp1 & Ho1). revert Hok1 Hp1 Ho1.
  generalize (fold_left (fun db c => delete_dependencies (short_name (c_id c)) db) changed db). intros db1 Hok1 Hp1 Ho1 Hf.
  enough (db_ok tx /\ owners_kept db tx /\ only_changes (map (short_name ∘ c_id) (changed ++ changed)) db tx) as (G1 & G2 & G3).
  { split_and!; [done..|]. intros n Hn. apply G3. rewrite map_app, elem_of_app. by intros [?|?]. }
  revert Hf. apply (try_fold_ind _ (fun pre d => db_ok d /\ owners_kept db d /\
    only_changes (map (short_name ∘ c_id) (changed ++ pre)) db d)).
  - rewrite app_nil_r. split_and!; [done| |done]. intros n r o. rewrite <- Hp1. eauto.
  - intros pre c d d' (Hd & Hown & Honly) Hs.
    destruct (save_registration_facts _ _ _ _ _ _ Hd Hs) as (Hd' & Hp & _ & _ & Ho & _).
    split_and!; [done| |].
    + intros n r o Hr Hro. destruct (Hown n r o Hr Hro) as (r' & Hr' & Hro'). rewrite Hp.
      destruct (decide (n = short_name (c_id c))) as [->|Hne].
      * rewrite lookup_insert_eq. eexists. split; [done|]. cbn. by eapply Ho.
      * rewrite lookup_insert_ne by done. eauto.
    + rewrite app_assoc, map_app. by apply (save_change_only _ _ c d).
Qed.

Lemma decide_package_id s is_root r a c :
  decide_package root_der now s is_root r a = Ok (Some c) -> c_id c = r_id r.
Proof.
  unfold decide_package. intros Hd. simplify_ok. destruct (_ && _); simplify_ok. done.
Qed.
Lemma admit_packages_ids io s names changed packages crls out :
  admit_packages root_der now io s names changed packages = (crls, Ok out) ->
  forall c, c ∈ out -> c ∈ changed \/ c_id c ∈ map r_id packages.
Proof.
  revert s names changed. induction packages as [|r packages IH]; intros s names changed Ha c Hc; cbn in Ha.
  { injection Ha as _ ->. by left. }
  destruct (authenticate _ _ _ _) as [a|]; [|done].
  destruct (check_revocations _ _ _ _ _) as [crls' [u|]]; [|done].
  destruct (decide_package _ _ _ _ _ _) as [o|] eqn:Hd; [|done].
  destruct (IH _ _ _ Ha c Hc) as [[?|Hin]%elem_of_app|?]; [by left| |right; by right].
  right. destruct o as [c'|]; cbn in Hin; [|by apply not_elem_of_nil in Hin].
  apply list_elem_of_singleton in Hin as ->. apply decide_package_id in Hd. rewrite Hd. left.
Qed.

Lemma admit_packages_only io s changed packages crls out db db' :
  admit_packages root_der now io s [] changed packages = (crls, Ok out) -> changed = [] ->
  only_changes (map (short_name ∘ c_id) out) db db' -> only_changes (map (short_name ∘ r_id) packages) db db'.
Proof.
  intros Hadm -> Ho n Hn. apply Ho. intros (c & <- & Hin)%list_elem_of_In%in_map_iff. apply list_elem_of_In in Hin.
  destruct (admit_packages_ids _ _ _ _ _ _ _ Hadm c Hin) as [?%not_elem_of_nil|Hid]; [done|].
  apply list_elem_of_In, in_map_iff in Hid as (r & Hr & Hin'). apply Hn, list_elem_of_In, in_map_iff.
  exists r. cbn. by rewrite Hr.
Qed.

Lemma commit_failed_db f w tx w' e : commit_packages_files f w tx = (w', Err e) -> w_db w' = w_db w.
Proof.
  unfold commit_packages_files, rolled_back. destruct (f_prepare f); [by intros [= <- _]|].
  destruct (_ >? _); [by intros [= <- _]|]. destruct (f_switch f) as [[n e']|]; [|done].
  destruct (execute_switch_steps n (journalled w tx)) as (ms' & Eq & _).
  change (w_members (journalled w tx)) with (w_members w) in *. rewrite Eq.
  destruct (f_rollback f) as [[]|], (f_cleanup f) as [|[|[|k]]]; cbn; rewrite ?take_nil; by intros [= <- _].
Qed.
Lemma install_opened_failed_db io s packages s' e :
  install_opened io s packages = (s', Err e) -> st_db s' = st_db s.
Proof.
  unfold Install.install_opened. destruct (plan_packages _ _ _) as [crls [[tx ps]|e']]; [|by intros [= <- _]].
  destruct (commit_packages_files _ _ _) as [w' [u'|e']] eqn:Hc; [done|]. intros [= <- _].
  by apply commit_failed_db in Hc.
Qed.
Lemma install_packages_failed_db io s packages s' e :
  install_packages io s packages = (s', Err e) -> opened (st_db s) (st_db s').
Proof.
  intros (db & Hdb & [[-> _]|[_ Hi]])%install_packages_cases; [done|].
  by apply install_opened_failed_db in Hi as ->.
Qed.
Lemma commit_succeeded f w tx w' u :
  commit_packages_files f w tx = (w', Ok u) -> w_db w' = tx /\ w_members w' = map switched_member (w_members w).
Proof.
  unfold commit_packages_files. destruct (f_prepare f); [done|]. destruct (_ >? _); [done|].
  destruct (f_switch f) as [[]|]; [done|]. intros [= <- _]. unfold commit_steps. rewrite !execute_app.
  destruct (execute_switch_steps (length (switch_steps (w_members w))) (journalled w tx)) as (ms' & E & _ & F).
  change (w_members (journalled w tx)) with (w_members w) in *. rewrite take_ge in E by done. rewrite E, F by done.
  by destruct (f_cleanup f) as [|[|[|k]]].
Qed.

(** The parts of a successful installation. *)
Lemma install_opened_Ok io s packages s' u :
  install_opened io s packages = (s', Ok u) ->
  exists crls changed prepared,
    admit_packages root_der now io s [] [] packages = (crls, Ok changed) /\
    register_changes now changed (st_db s) = Ok (st_db s') /\
    try_map (prepare load_lib (st_disk s)) changed = Ok prepared /\
    st_disk s' = publish (map switched_member (map p_member prepared)) (st_disk s) /\
    st_sandbox s' = switch_sandbox (st_sandbox s) prepared.
Proof.
  intros Hi. unfold Install.install_opened in Hi.
  destruct (plan_packages _ _ _) as [crls [[tx ps]|e']] eqn:Hplan; [|done].
  apply plan_packages_Ok in Hplan as (crls' & changed & Hadm & Hreg & Hps).
  destruct (commit_packages_files _ _ _) as [w' [[]|]] eqn:Hc; [|done].
  injection Hi as <- _. apply commit_succeeded in Hc as [Hdb Hms]. cbn. rewrite Hms, Hdb.
  by exists crls', changed, ps.
Qed.
Lemma install_packages_Ok io s packages s' u :
  install_packages io s packages = (s', Ok u) ->
  exists db, opened (st_db s) db /\ install_opened io (set_db db s) packages = (s', Ok u).
Proof. intros (db & Hdb & [[_ [e He]]|[_ Hi]])%install_packages_cases; [done|eauto]. Qed.

(** Opening changes no package. *)
Lemma opened_owners db db' db2 : opened db db' -> owners_kept db' db2 -> owners_kept db db2.
Proof. intros [(Hp & _) _]%opened_ok Ho n r owner. rewrite <- Hp. apply Ho. Qed.
Lemma opened_only_changes db db' db2 names : opened db db' -> only_changes names db' db2 -> only_changes names db db2.
Proof. intros [(Hp & Hd & _) _]%opened_ok Ho n. rewrite <- Hp, <- Hd. apply Ho. Qed.

(** A successful installation keeps the registry well formed (rows, dependency rows and capability rows
    consistent, dependencies acyclic and satisfied), keeps the recorded owner of every package, and
    changes nothing of packages that were not in the list. *)
Theorem install_packages_registry io s packages s' :
  db_ok (st_db s) -> install_packages io s packages = (s', Ok tt) ->
  db_ok (st_db s') /\ owners_kept (st_db s) (st_db s') /\
  only_changes (map (fun r => short_name (r_id r)) packages) (st_db s) (st_db s').
Proof.
  intros Hok (db & Hopen & (crls & changed & ps & Hadm & Hreg & _)%install_opened_Ok)%install_packages_Ok.
  apply register_changes_ok in Hreg as (G1 & G2 & G3); [|by apply opened_ok in Hopen as [_ ?]; auto].
  split_and!; [done|by eapply opened_owners|]. eapply opened_only_changes; [done|]. by eapply admit_packages_only.
Qed.
End install_facts.
