(* ===== verification/Expanded.v ===== *)
(** * The routes of an installed App ([installed_routes] of
      [src/package/files.rs])

    The check of a new package reads the directories of the installed ones and
    gives up on one that is too deep or too large.  It never does for a package
    that came out of an archive: the budgets of the archive ([waz_read] of
    [src/package/format.rs]) are the budgets of the walk. *)
From S2P Require Import Prelude RustStr Json Crates Errors Ids Manifest Waz Metadata Registry Commit Install.

(** ** The directories an archive accounts for *)
Section ancestors.
Context `{ZipCrate}.
Variable files : PackageFiles.
Definition within (dirs : list string) : Prop := Z.of_nat (length dirs) + Z.of_nat (length files) <= 10000.
Lemma waz_ancestors_dirs fuel dirs name dirs' :
  (String.length name <= fuel)%nat -> waz_ancestors fuel files dirs name = Ok dirs' ->
  (forall d, d ∈ dirs -> d ∈ dirs') /\ (dirs' = dirs \/ within dirs')
  /\ forall parent rest, name = parent +:+ "/" +:+ rest -> parent ∈ dirs' /\ within dirs'.
Proof.
  revert dirs name. induction fuel as [|fuel IH]; intros dirs name Hf Hok.
  { cbn in Hok. injection Hok as <-. split; [done|]. split; [by left|]. intros parent rest ->. destruct parent; cbn in Hf; lia. }
  cbn in Hok. destruct (rsplit_once "/" name) as [[h t]|] eqn:E.
  - apply rsplit_once_Some in E as [-> Ht]. destruct (bool_decide _); [done|]. set (dirs1 := if mem h dirs then _ else _) in Hok.
    destruct (_ >? 10000) eqn:Hb; [done|]. assert (Hw : within dirs1) by (unfold within; lia).
    assert (Hh : h ∈ dirs1).
    { unfold dirs1. destruct (mem h dirs) eqn:Hm; [by apply mem_true|set_solver]. }
    assert (Hin : forall d, d ∈ dirs -> d ∈ dirs1) by (intros d Hd; unfold dirs1; destruct (mem h dirs); set_solver).
    apply IH in Hok as (H1 & H2 & H3); [|rewrite length_app_str in Hf; cbn in Hf; lia].
    assert (Hw' : within dirs') by (destruct H2 as [->|?]; done).
    split; [auto|]. split; [by right|]. intros parent rest Heq.
    destruct (app_sep_last "/" h t parent rest Ht Heq) as [[-> _]|(r' & -> & ->)]; [auto|]. by apply (H3 parent r').
  - injection Hok as <-. split; [done|]. split; [by left|]. intros parent rest ->. apply rsplit_once_None in E.
    unfold contains_char in E. rewrite any_byte_app in E. by apply orb_false_iff in E as [_ E].
Qed.
Lemma ancestors_fold names dirs dirs' :
  try_fold (fun d name => waz_ancestors (String.length name) files d name) dirs names = Ok dirs' ->
  (forall d, d ∈ dirs -> d ∈ dirs') /\ (dirs' = dirs \/ within dirs')
  /\ forall name parent rest, name ∈ names -> name = parent +:+ "/" +:+ rest -> parent ∈ dirs' /\ within dirs'.
Proof.
  revert dirs. induction names as [|name names IH]; intros dirs; cbn.
  { intros [= <-]. split; [done|]. split; [by left|]. set_solver. }
  destruct (waz_ancestors _ _ _ _) as [dirs1|] eqn:Ha; [|done]. intros Hf.
  apply waz_ancestors_dirs in Ha as (H1 & H2 & H3); [|done]. destruct (IH _ Hf) as (I1 & I2 & I3).
  split; [auto|]. assert (Hmono : within dirs1 -> within dirs') by (destruct I2 as [->|?]; auto).
  split; [destruct I2 as [->|?]; [exact H2|by right]|].
  intros n parent rest [->|Hin]%elem_of_cons Heq; [destruct (H3 parent rest Heq); split; auto|exact (I3 n parent rest Hin Heq)].
Qed.
End ancestors.

(** ** Names and their components *)
Definition clean (parts : list string) : Prop := Forall (fun p => contains_char "/" p = false) parts.
Lemma join_split_parts parts : clean parts -> parts <> [] -> split_on "/" (join "/" parts) = parts.
Proof.
  induction 1 as [|p parts Hp Hc IH]; [done|]. intros _. destruct parts as [|q parts].
  - cbn. by apply split_by_no_sep.
  - change (join "/" (p :: q :: parts)) with (p +:+ String "/" (join "/" (q :: parts))).
    rewrite split_on_app by done. f_equal. by apply IH.
Qed.
Lemma join_parts_app k rest : k <> [] -> rest <> [] -> join "/" (k ++ rest) = join "/" k +:+ "/" +:+ join "/" rest.
Proof.
  induction k as [|p k IH]; [done|]. intros _ Hrest. destruct k as [|q k].
  - destruct rest; [done|]. done.
  - change (join "/" ((p :: q :: k) ++ rest)) with (p +:+ "/" +:+ join "/" ((q :: k) ++ rest)).
    rewrite IH by done. change (join "/" (p :: q :: k)) with (p +:+ "/" +:+ join "/" (q :: k)). by rewrite !app_assoc_str.
Qed.
Lemma split_on_char c path : Forall (fun p => contains_char c p = false) (split_on c path).
Proof.
  unfold split_on, contains_char. induction path as [|a path IH]; cbn; [by repeat constructor|].
  destruct (split_by_cons (Ascii.eqb c) path) as (h & t & Hs). rewrite Hs in *.
  destruct (Ascii.eqb c a) eqn:Ha; [by constructor|]. inversion IH as [|? ? Hh Ht]; subst.
  constructor; [|done]. unfold any_byte in *. cbn. by rewrite Ha.
Qed.
Lemma split_on_parts path : clean (split_on "/" path).
Proof. apply split_on_char. Qed.
Lemma visited_prefix above parts l : l ∈ visited above parts -> exists k rest, parts = k ++ rest /\ k <> [] /\ l = above ++ k.
Proof.
  revert above. induction parts as [|p parts IH]; intros above; cbn; [set_solver|].
  intros [->|Hl]%elem_of_cons; [exists [p], parts; done|].
  destruct (recovery_name p); [set_solver|]. apply IH in Hl as (k & rest & -> & _ & ->).
  exists (p :: k), rest. by rewrite <- app_assoc.
Qed.
Lemma visited_length above parts : (length (visited above parts) <= length parts)%nat.
Proof. revert above. induction parts as [|p parts IH]; intros above; cbn; [done|]. destruct (recovery_name p); cbn; [lia|]. specialize (IH (above ++ [p])). lia. Qed.

(** ** The walk never gives up on an accepted package *)
Section accepted.
Context `{ZipCrate}.
Definition entry_name (l : list string) : string := "public/" +:+ join "/" l.
Lemma entry_name_inj l l' : clean l -> l <> [] -> clean l' -> l' <> [] -> entry_name l = entry_name l' -> l = l'.
Proof.
  unfold entry_name. intros Hl Hn Hl' Hn' Heq.
  assert (Hj : join "/" l = join "/" l') by (cbn in Heq; by injection Heq).
  rewrite <- (join_split_parts l), <- (join_split_parts l') by done. by rewrite Hj.
Qed.
Lemma app_entries_budget files dirs static :
  try_fold (fun d name => waz_ancestors (String.length name) files d name) [] (map fst files) = Ok dirs ->
  (forall p data, (p, data) ∈ static -> ("public/" +:+ p) ∈ map fst files) ->
  Z.of_nat (length (app_entries static)) <= 10000.
Proof.
  intros Hf Hstatic. apply ancestors_fold in Hf as (_ & _ & Hanc).
  destruct static as [|[p0 d0] static0] eqn:Hs; [done|]. rewrite <- Hs in *.
  assert (Hw : within files dirs).
  { destruct (Hanc ("public/" +:+ p0) "public" p0) as [_ Hw]; [|done..]. apply (Hstatic p0 d0). rewrite Hs. by left. }
  assert (Hentries : forall l, l ∈ app_entries static -> clean l /\ l <> [] /\ entry_name l ∈ map fst files ++ dirs).
  { intros l Hl. unfold app_entries in Hl. rewrite elem_of_remove_dups in Hl.
    apply list_elem_of_In, in_flat_map in Hl as ([p data] & Hin & Hl). apply list_elem_of_In in Hin, Hl. cbn in Hl.
    apply visited_prefix in Hl as (k & rest & Hparts & Hk & ->). cbn [app].
    pose proof (split_on_parts p) as Hclean. rewrite Hparts in Hclean. apply Forall_app in Hclean as [Hck Hcr].
    split; [done|]. split; [done|]. pose proof (Hstatic _ _ Hin) as Hname.
    assert (Hp : p = join "/" (k ++ rest)) by (rewrite <- Hparts; symmetry; apply join_split).
    apply elem_of_app. destruct rest as [|x rest].
    - left. rewrite app_nil_r in Hp. unfold entry_name. by rewrite <- Hp.
    - right. destruct (Hanc _ (entry_name k) (join "/" (x :: rest)) Hname) as [Hd _]; [|exact Hd].
      unfold entry_name. rewrite Hp, join_parts_app by done. by rewrite app_assoc_str. }
  assert (Hnd : NoDup (map entry_name (app_entries static))).
  { apply (NoDup_fmap_2_strong entry_name); [|apply NoDup_remove_dups].
    intros l l' Hl Hl' Heq. destruct (Hentries _ Hl) as (? & ? & _), (Hentries _ Hl') as (? & ? & _). by apply entry_name_inj. }
  apply (NoDup_submseteq _ (map fst files ++ dirs)) in Hnd.
  2: { intros n Hn. apply list_elem_of_fmap in Hn as (l & -> & Hl). by apply Hentries. }
  apply submseteq_length in Hnd. rewrite length_app, !length_map in Hnd. unfold within in Hw. lia.
Qed.
End accepted.
Section accepted_routes.
Context `{ZipCrate, DhttpHome, SerdeJson, Sha2, Base64, Wasmparser, Oas3, X509}.
Lemma last_segment_in c s : last_segment c s ∈ split_on c s.
Proof.
  unfold last_segment, split_on. destruct (split_by_cons (Ascii.eqb c) s) as (h & t & ->). generalize h. clear.
  induction t as [|x t IH]; intros h; [set_solver|]. cbn [List.last]. apply elem_of_cons. right. apply IH.
Qed.
(** A file of an accepted package below its [public] directory. *)
Lemma public_path p : waz_path ("public/" +:+ p) = true ->
  visited_depth p <= 32 /\ bad_name (last_segment "/" p) = false.
Proof.
  intros (_ & Hparts & Hlen & _)%waz_path_contained.
  assert (Hs : split_on "/" ("public/" +:+ p) = "public" :: split_on "/" p) by (apply (split_on_app "/" "public" p); done).
  rewrite Hs in Hparts, Hlen. cbn in Hlen. split.
  - unfold visited_depth. pose proof (visited_length [] (split_on "/" p)). lia.
  - inversion Hparts as [|? ? _ Hp]; subst. rewrite Forall_forall in Hp.
    destruct (Hp _ (last_segment_in "/" p)) as (Hn1 & Hn2 & Hn3 & _ & Hn4). unfold bad_name. rewrite Hn4, orb_false_r.
    apply orb_false_iff. split; [by apply String.eqb_neq|]. apply not_true_iff_false. rewrite mem_true.
    rewrite elem_of_cons, list_elem_of_singleton. by intros [?|?].
Qed.
Definition public_name (f : string * string) : option string := strip_prefix "public/" f.1.
(** The files the walk does not skip. *)
Definition not_recovery (f : string * string) : bool :=
  match public_name f with Some p => shown_file p | None => true end.
Definition static_of (files : PackageFiles) : content :=
  omap (fun f => match strip_prefix "public/" f.1 with Some p => Some (p, f.2) | None => None end) files.
Lemma static_elem files p data : (p, data) ∈ static_of files <-> ("public/" +:+ p, data) ∈ files.
Proof.
  unfold static_of. rewrite list_elem_of_omap. split.
  - intros ([n d] & Hin & Heq). cbn [fst snd] in Heq. destruct (strip_prefix "public/" n) as [q|] eqn:Hq; [|done].
    apply strip_prefix_Some in Hq as ->. by injection Heq as <- <-.
  - intros Hin. exists ("public/" +:+ p, data). split; [done|]. cbn [fst snd]. by rewrite strip_prefix_app.
Qed.
Lemma static_names files :
  omap (fun f => strip_prefix "public/" f.1) (map (fun f => ("public/" +:+ f.1, "")) (List.filter (fun f => shown_file f.1) (static_of files)))
  = omap public_name (List.filter not_recovery files).
Proof.
  induction files as [|[n d] files IH]; [done|]. unfold static_of. cbn [omap list_omap]. fold (static_of files).
  cbn [List.filter fst snd]. destruct (strip_prefix "public/" n) as [p|] eqn:Hp.
  - assert (Hn : not_recovery (n, d) = shown_file p) by (unfold not_recovery, public_name; cbn [fst]; by rewrite Hp).
    rewrite Hn. cbn [List.filter fst]. destruct (shown_file p); [|exact IH].
    cbn [map omap list_omap]. unfold public_name at 1. cbn [fst]. rewrite Hp, strip_prefix_app. f_equal. exact IH.
  - assert (Hn : not_recovery (n, d) = true) by (unfold not_recovery, public_name; cbn [fst]; by rewrite Hp).
    rewrite Hn. cbn [omap list_omap]. unfold public_name at 1. cbn [fst]. rewrite Hp. exact IH.
Qed.

Lemma lib_routes files c (disk : gmap string content) static :
  Forall file_ok files -> expanded "lib" c = Ok (Some static) -> c_files c = files ->
  disk !! resource_path "lib" (c_id c) = Some static ->
  installed_routes disk "lib" (c_id c) = package_routes files (c_id c) "lib".
Proof.
  intros Hok Hx Hc Hd. unfold expanded in Hx. destruct (negb _); [done|]. cbn [String.eqb Ascii.eqb Bool.eqb] in Hx.
  destruct (assoc "backend.wasm" (c_files c)) as [backend|] eqn:Hb; [|done]. injection Hx as <-.
  unfold installed_routes. cbn [String.eqb Ascii.eqb Bool.eqb].
  unfold Commit.content in *. rewrite Hd. cbn [mbind option_bind assoc].
  rewrite String.eqb_refl. cbn [ok_or]. unfold read_runtime_wasm.
  assert (Hsize : slen backend <= WAZ_LIMIT).
  { rewrite Hc in Hb. apply assoc_In in Hb. rewrite Forall_forall in Hok. by destruct (Hok _ Hb) as [_ Hl]. }
  destruct (slen backend >? 64 * mib) eqn:Hg; [unfold WAZ_LIMIT, mib in *; lia|].
  unfold package_routes. cbn [String.eqb Ascii.eqb Bool.eqb]. unfold package_openapi. rewrite <- Hc, Hb. done.
Qed.
Lemma app_routes files dirs c (disk : gmap string content) static :
  Forall file_ok files -> try_fold (fun d name => waz_ancestors (String.length name) files d name) [] (map fst files) = Ok dirs ->
  expanded "app" c = Ok (Some static) -> c_files c = files -> disk !! resource_path "app" (c_id c) = Some static ->
  installed_routes disk "app" (c_id c) = package_routes (List.filter not_recovery files) (c_id c) "app".
Proof.
  intros Hok Hdirs Hx Hc Hd. unfold expanded in Hx. destruct (negb _); [done|]. cbn [String.eqb Ascii.eqb Bool.eqb] in Hx.
  rewrite Hc in Hx. change (omap _ files) with (static_of files) in Hx. destruct (existsb _ (static_of files)); [done|]. injection Hx as <-.
  assert (Hpublic : forall p data, (p, data) ∈ static_of files -> waz_path ("public/" +:+ p) = true /\ ("public/" +:+ p) ∈ map fst files).
  { intros p data Hin%static_elem. rewrite Forall_forall in Hok. destruct (Hok _ Hin) as [Hp _]. split; [done|].
    by apply (list_elem_of_fmap_2 fst) in Hin. }
  unfold installed_routes. cbn [String.eqb Ascii.eqb Bool.eqb]. unfold Commit.content in *. rewrite Hd. cbn [ok_or].
  assert (Hdepth : existsb (fun f => visited_depth f.1 >? 32) (static_of files) = false).
  { apply not_true_iff_false. rewrite existsb_exists. intros ([p d] & Hin & Hgt). apply list_elem_of_In, Hpublic in Hin as [Hp _].
    apply public_path in Hp as [Hp _]. cbn in Hgt. lia. }
  assert (Hbad : existsb (fun f => bad_name (last_segment "/" f.1)) (List.filter (fun f => shown_file f.1) (static_of files)) = false).
  { apply not_true_iff_false. rewrite existsb_exists. intros ([p d] & Hin & Hb). apply filter_In in Hin as [Hin _].
    apply list_elem_of_In, Hpublic in Hin as [Hp _]. apply public_path in Hp as [_ Hp]. cbn in Hb. congruence. }
  assert (Hcount : (Z.of_nat (length (app_entries (static_of files))) >? 10000) = false).
  { pose proof (app_entries_budget files dirs (static_of files) Hdirs) as Hb. rewrite Z.gtb_ltb. apply Z.ltb_ge, Hb.
    intros p d Hin. by apply Hpublic in Hin as [_ Hin]. }
  rewrite Hdepth, Hbad, Hcount. cbn [orb]. unfold package_routes. cbn [String.eqb Ascii.eqb Bool.eqb].
  by rewrite static_names.
Qed.

(** C34: The walk over an installed App that looks for conflicting routes never gives up on a package
    that came out of an archive: the depth and the number of entries an archive may have are within the
    budget of the walk, its names are ones it opens, and the routes it finds are those of the package's
    files that are not below one of the names recovery uses (.previous and .transaction.json), which the
    walk skips; the routes of an installed Lib are those of its component. *)
Theorem installed_routes_accepted bytes files c (disk : gmap string content) kind static :
  waz_read bytes = Ok files -> c_files c = files -> kind ∈ ["lib"; "app"] -> expanded kind c = Ok (Some static) ->
  disk !! resource_path kind (c_id c) = Some static ->
  installed_routes disk kind (c_id c) = package_routes (if String.eqb kind "lib" then files else List.filter not_recovery files) (c_id c) kind.
Proof.
  intros (_ & archive & s & dstart & _ & Hinv & Hs & _ & _ & _ & dirs & Hdirs)%waz_read_inv Hc Hkind Hx Hd.
  destruct Hinv as (es & _ & _ & _ & _ & _ & Hall & _ & _). rewrite Hs in *.
  rewrite elem_of_cons, list_elem_of_singleton in Hkind. destruct Hkind as [->| ->]; cbn [String.eqb Ascii.eqb Bool.eqb].
  - by eapply lib_routes.
  - by eapply app_routes.
Qed.
End accepted_routes.
