(* ===== verification/Legacy.v ===== *)
(** * Transfer of packages of older releases ([src/package/files/legacy.rs])

    The host names the packages of old releases whose author has moved, with
    the digests of their files.  A package that is installed exactly so is
    handed to its new author; a group of packages is handed over together or
    not at all.  The list ([legacy/releases.json]) is an argument. *)
From S2P Require Import Prelude RustStr Json Crates Errors Ids Registry Opening Install.

(** ** The installed files
    What the system calls answer: the device and the entries of a directory
    below the profile (a name that is not UTF-8 is [None]), and what reading a
    file showed. *)
Inductive file_kind := KindDir | KindFile | KindOther.
Record file_facts := FileFacts {
  ff_dev : Z; ff_ino : Z; ff_nlink : Z; ff_len : Z;
  ff_mtime : Z; ff_mtime_nsec : Z; ff_ctime : Z; ff_ctime_nsec : Z }.
(** [stat], the bytes, [stat] again, and the file opened once more. *)
Record reading := Reading { rd_before : file_facts; rd_data : Result string; rd_after : Result file_facts; rd_reopened : Result file_facts }.
Record runtime_files := RuntimeFiles {
  rf_device : Z;
  rf_directory : string -> Result (Z * list (option string * file_kind));
  rf_file : string -> Result reading }.

Section legacy.
Context `{DhttpHome, Sha2}.
Variable disk : runtime_files.

Definition invalid_config {A} (message : string) : Result A := Err (InvalidConfig message).
Definition migration_text (entry : json) (key : string) : Result string :=
  match as_str entry.[key] with
  | Some s => if String.eqb s "" then invalid_config ("missing migration " +:+ key) else Ok s
  | None => invalid_config ("missing migration " +:+ key)
  end.

(** ** The files of a release *)
Definition below_dir (directory path : string) : bool := starts_with (directory +:+ "/") path.
Definition lib_file (author name : string) : string :=
  "lib/" +:+ (if is_standard_author author then "std/" else "") +:+ name +:+ ".wasm".
(** One entry of the directory [path]: the directories to look at, the last
    first, and the files found. *)
Definition visit_entry (expected : list string) (path : string) (found : list string * gset string)
  (entry : option string * file_kind) : Result (list string * gset string) :=
  let '(pending, actual) := found in
  let? leaf := ok_or expanded_error (fst entry) in
  let child := path +:+ "/" +:+ leaf in
  let? (pending, actual) := match snd entry with
    | KindDir => if existsb (below_dir child) expected then Ok (child :: pending, actual) else Err expanded_error
    | KindFile => Ok (pending, {[child]} ∪ actual)
    | KindOther => Err expanded_error
    end in
  throw expanded_error when Z.of_nat (size actual + length pending) >? 8192;;
  Ok (pending, actual).
Definition visit_directory (expected pending : list string) (actual : gset string) (path : string) : Result (list string * gset string) :=
  let? (device, entries) := rf_directory disk path in
  throw expanded_error when negb (device =? rf_device disk);;
  try_fold (visit_entry expected path) (pending, actual) entries.
Fixpoint collect_files (fuel : nat) (expected pending : list string) (actual : gset string) : option (Result (gset string)) :=
  match pending with
  | [] => Some (Ok actual)
  | path :: pending =>
      match fuel with
      | O => None
      | S fuel =>
          match visit_directory expected pending actual path with
          | Err e => Some (Err e)
          | Ok (pending, actual) => collect_files fuel expected pending actual
          end
      end
  end.
Definition bad_component (part : string) : bool :=
  String.eqb part "" || mem part ["."; ".."] || contains_char "\" part.
Definition expanded_file (path : string) : Result reading :=
  throw expanded_error when existsb bad_component (split_on "/" path);;
  rf_file disk path.
Definition unchanged (before after reopened : file_facts) : bool :=
  (ff_dev before =? ff_dev reopened) && (ff_ino before =? ff_ino reopened)
  && (ff_mtime before =? ff_mtime after) && (ff_mtime_nsec before =? ff_mtime_nsec after)
  && (ff_ctime before =? ff_ctime after) && (ff_ctime_nsec before =? ff_ctime_nsec after).
Definition FILES_LIMIT : Z := 64 * 1024 * 1024.
Definition check_file (expected : list (string * json)) (total : Z) (path : string) : Result Z :=
  let record := default JNull (assoc path expected) in
  let? size := ok_or expanded_error (as_u64 record.["size"]) in
  throw expanded_error when total + size >? FILES_LIMIT;;
  let? file := expanded_file path in
  let before := rd_before file in
  throw expanded_error when negb (ff_nlink before =? 1) || negb (ff_dev before =? rf_device disk) || negb (ff_len before =? size);;
  let? data := rd_data file in
  let bytes := String.substring 0 (Z.to_nat (size + 1)) data in
  let? after := rd_after file in
  let? reopened := rd_reopened file in
  throw expanded_error when negb (slen bytes =? size);;
  let? digest := migration_text record "sha256" in
  throw expanded_error when negb (String.eqb (hex_lower (sha256 bytes)) digest) || negb (unchanged before after reopened);;
  Ok (total + size).
Definition verify_legacy_files (fuel : nat) (entry : json) (has_lib has_app : bool) : Result unit :=
  let? name := migration_text entry "name" in
  let? author := migration_text entry "author" in
  let? _ := valid_id (author +:+ "/" +:+ name) in
  match as_object entry.["files"] with
  | None => invalid_config "invalid legacy runtime file set"
  | Some expected =>
      throw (InvalidConfig "invalid legacy runtime file set") when
        bool_decide (expected = []) || (Z.of_nat (length expected) >? 4096);;
      let lib_path := lib_file author name in
      let app_path := "app/" +:+ name in
      throw (InvalidConfig "legacy resource composition mismatch") when
        negb (Bool.eqb has_lib (mem lib_path (keys expected)))
        || negb (Bool.eqb has_app (existsb (below_dir app_path) (keys expected)))
        || existsb (fun path => negb (String.eqb path lib_path) && negb (below_dir app_path path)) (keys expected);;
      let actual := if has_lib then {[lib_path]} else ∅ in
      let? actual := if has_app then default (Err panicked) (collect_files fuel (keys expected) [app_path] actual) else Ok actual in
      throw expanded_error when negb (bool_decide (actual = list_to_set (keys expected)));;
      let? _ := try_fold (check_file expected) 0 (sort_by String.leb (elements actual)) in
      Ok tt
  end.

(** ** The transfer *)
Definition migration_hash (hash : string) : bool :=
  (slen hash =? 64)
  && all_bytes (fun b => (code "0" <=? code b) && (code b <=? code "9") || (code "a" <=? code b) && (code b <=? code "f")) hash.
(** Whether the row was transferred by one of these entries before. *)
Definition already_transferred (author : string) (owner : option string) (candidates : list json) : bool :=
  existsb (fun entry => is_str entry.["target_author"] author && bool_decide (owner = as_str entry.["target_owner_hash"])) candidates.
Definition check_transfer (fuel : nat) (r : row) (author : string) (entry : json) : Result (string * string * string) :=
  let name := row_name r in
  let? old_owner := migration_text entry "author_owner_hash" in
  let? target_owner := migration_text entry "target_owner_hash" in
  let? target := migration_text entry "target_author" in
  let? original_digest := migration_text entry "package_sha256" in
  throw (InvalidConfig "invalid migration hash") when
    negb (forallb migration_hash [old_owner; target_owner; original_digest]);;
  let? _ := valid_id (target +:+ "/" +:+ name) in
  let mismatch := InvalidConfig ("legacy ownership or placement mismatch for " +:+ name) in
  throw mismatch when
    negb (Bool.eqb (is_standard_author author) (is_standard_author target))
    || match author_owner_hash r with Some owner => negb (String.eqb owner old_owner) | None => false end
    || match package_sha256 r with Some digest => negb (String.eqb digest original_digest) | None => false end;;
  let? evidence := migration_text entry "evidence" in
  throw mismatch when trim_is_empty evidence;;
  let? _ := verify_legacy_files fuel entry (has_lib r) (has_app r) in
  Ok (name, target, target_owner).
(** The change for one name, if there is one. *)
Definition plan_transfer (fuel : nat) (db : database) (entries : list json) (name : string) : Result (option (string * string * string)) :=
  match package db !! name with
  | None => Ok None
  | Some r =>
      let? author := ok_or (ConfigDatabase OtherSqlite "Invalid column type Null at index: 0, name: author") (row_author r) in
      let candidates := List.filter (fun entry => is_str entry.["name"] name) entries in
      if already_transferred author (author_owner_hash r) candidates then Ok None else
      match List.filter (fun entry => is_str entry.["author"] author && is_str entry.["version"] (row_version r)) candidates,
            signer_leaf_fingerprint_sha256 r with
      | [entry], None => let? change := check_transfer fuel r author entry in Ok (Some change)
      | _, _ => invalid_config ("no unique legacy authorization for " +:+ author +:+ "/" +:+ name +:+ "@" +:+ row_version r)
      end
  end.
Fixpoint plan_transfers (fuel : nat) (db : database) (entries : list json) (names : list string) : Result (list (string * string * string)) :=
  match names with
  | [] => Ok []
  | name :: names =>
      let? change := plan_transfer fuel db entries name in
      let? changes := plan_transfers fuel db entries names in
      Ok (match change with Some c => c :: changes | None => changes end)
  end.
(** [UPDATE package SET author=?2, author_owner_hash=?3 WHERE name=?1] *)
Definition set_author (author owner : string) (r : row) : row :=
  Row (row_name r) (Some author) (row_version r) (row_title r) (row_description r) (row_license r) (row_repository r)
    (installed_at r) (upgraded_at r) (has_lib r) (has_app r) (Some owner) (package_sha256 r) (signer_leaf_fingerprint_sha256 r).
Definition transfer_author (db : database) (change : string * string * string) : database :=
  let '(name, target, owner) := change in
  set_package (alter (set_author target owner) name (package db)) db.
Definition transfer_group (fuel : nat) (db : database) (group : json) : Result database :=
  match as_array group.["packages"] with
  | None => invalid_config "invalid migration package list"
  | Some entries =>
      throw (InvalidConfig "invalid migration package list") when
        bool_decide (entries = []) || (Z.of_nat (length entries) >? 100);;
      let? names := try_map (fun entry => migration_text entry "name") entries in
      let? changes := plan_transfers fuel db entries (sort_by String.leb (elements (list_to_set names : gset string))) in
      Ok (fold_left transfer_author changes db)
  end.
(** A group that fails is skipped with a warning. *)
Definition migrate_group (fuel : nat) (db : database) (group : json) : database :=
  match transfer_group fuel db group with Ok db => db | Err _ => db end.
Definition migrate_legacy_groups (fuel : nat) (io : open_faults) (groups : json) (db : database) : database * Result unit :=
  match as_array groups with
  | None => (db, invalid_config "invalid migration groups")
  | Some groups =>
      if Z.of_nat (length groups) >? 100 then (db, invalid_config "invalid migration groups")
      else if bool_decide (groups = []) then (db, Ok tt)
      else match installation_database io true db with
           | (db, Err e) => (db, Err e)
           | (db, Ok _) => (fold_left (migrate_group fuel) groups db, Ok tt)
           end
  end.
(** The list of this release ([legacy/releases.json]) is empty. *)
Definition RELEASES : json := JArr [].
Definition migrate_legacy_packages (fuel : nat) (io : open_faults) (db : database) : database * Result unit :=
  migrate_legacy_groups fuel io RELEASES db.
End legacy.

(** ** The files of an App that the walk finds *)
Section walk_facts.
Variable disk : runtime_files.
Definition entries_at (path : string) : list (option string * file_kind) :=
  match rf_directory disk path with Ok (_, entries) => entries | Err _ => [] end.
Inductive found_below : string -> string -> Prop :=
| found_file d leaf : (Some leaf, KindFile) ∈ entries_at d -> found_below d (d +:+ "/" +:+ leaf)
| found_dir d leaf path : (Some leaf, KindDir) ∈ entries_at d -> found_below (d +:+ "/" +:+ leaf) path -> found_below d path.

Lemma visit_entry_Ok expected d pending actual leaf kind pending' actual' :
  visit_entry expected d (pending, actual) (leaf, kind) = Ok (pending', actual') ->
  exists l, leaf = Some l /\ ((kind = KindDir /\ pending' = (d +:+ "/" +:+ l) :: pending /\ actual' = actual /\ existsb (below_dir (d +:+ "/" +:+ l)) expected = true)
    \/ kind = KindFile /\ pending' = pending /\ actual' = {[d +:+ "/" +:+ l]} ∪ actual).
Proof.
  unfold visit_entry. cbn. intros Hv. destruct leaf as [l|]; [|done]. cbn in Hv. exists l. split; [done|].
  destruct kind; [destruct (existsb _ _) eqn:He; [|done]|..]; try done;
    destruct (Z.of_nat _ >? 8192); try done; injection Hv as <- <-; auto.
Qed.
Definition all_found (d : string) (entries : list (option string * file_kind)) (pending : list string) (actual : gset string)
  (found : list string * gset string) : Prop :=
  (forall p, p ∈ fst found <-> p ∈ pending \/ exists l, (Some l, KindDir) ∈ entries /\ p = d +:+ "/" +:+ l)
  /\ forall p, p ∈ snd found <-> p ∈ actual \/ exists l, (Some l, KindFile) ∈ entries /\ p = d +:+ "/" +:+ l.
Lemma visit_entries_Ok expected d entries pending actual found :
  try_fold (visit_entry expected d) (pending, actual) entries = Ok found -> all_found d entries pending actual found.
Proof.
  revert pending actual. induction entries as [|[leaf kind] entries IH]; intros pending actual; cbn [try_fold].
  { intros [= <-]. split; set_solver. }
  destruct (visit_entry _ _ _ _) as [[pending1 actual1]|e] eqn:Hv; [|done]. intros [H1 H2]%IH.
  apply visit_entry_Ok in Hv as (l & -> & [(-> & -> & -> & _)|(-> & -> & ->)]); split; intros p; rewrite ?H1, ?H2; set_solver.
Qed.
Lemma collect_files_Ok fuel expected pending actual result :
  collect_files disk fuel expected pending actual = Some (Ok result) ->
  forall p, p ∈ result <-> p ∈ actual \/ exists d, d ∈ pending /\ found_below d p.
Proof.
  revert pending actual. induction fuel as [|fuel IH]; intros [|d pending] actual; cbn [collect_files]; try done.
  1,2: intros [= <-]; set_solver.
  unfold visit_directory. destruct (rf_directory disk d) as [[device entries]|] eqn:Hd; [|done].
  destruct (negb _); [done|]. destruct (try_fold _ _ _) as [[pending1 actual1]|] eqn:Hf; [|done].
  apply visit_entries_Ok in Hf as [Hp Ha]. cbn in Hp, Ha. intros Hc p. rewrite (IH _ _ Hc). 
  assert (He : entries_at d = entries) by (unfold entries_at; by rewrite Hd).
  rewrite Ha. split.
  - intros [[?|(l & Hl & ->)]|(q & [Hq|(l & Hl & ->)]%Hp & Hfb)]; [by left|..].
    + right. exists d. split; [set_solver|]. constructor. by rewrite He.
    + right. exists q. split; [set_solver|done].
    + right. exists d. split; [set_solver|]. eapply found_dir; [rewrite He|]; done.
  - intros [?|(q & [->|Hq]%elem_of_cons & Hfb)]; [by do 2 left| |].
    + destruct Hfb as [d leaf Hl|d leaf p Hl Hfb]; rewrite He in Hl.
      * left. right. eauto.
      * right. eexists. split; [apply Hp; right; eauto|done].
    + right. exists q. split; [apply Hp; by left|done].
Qed.
End walk_facts.

(** *** The walk ends
    It descends only towards a file of the release, so a path grows at most to
    the length of the longest of them. *)
Section walk_ends.
Variable disk : runtime_files.
Variable expected : list string.
Definition ends (pending : list string) : Prop :=
  exists fuel0, forall fuel actual, (fuel0 <= fuel)%nat -> is_Some (collect_files disk fuel expected pending actual).
Definition bound : nat := list_max (map String.length expected).
Lemma below_bound child : existsb (below_dir child) expected = true -> (String.length child < bound)%nat.
Proof.
  rewrite existsb_exists. intros (key & Hin & [rest ->]%starts_with_iff).
  assert (Hb : (String.length ((child +:+ "/") +:+ rest) <= bound)%nat).
  { unfold bound. pose proof (proj1 (list_max_le (map String.length expected) _) (Nat.le_refl _)) as Hall.
    rewrite List.Forall_forall in Hall. apply Hall, in_map, Hin. }
  rewrite !length_app_str in Hb. cbn in Hb. lia.
Qed.
Definition child_dirs (d : string) (entries : list (option string * file_kind)) : list string :=
  omap (fun e => match e with (Some leaf, KindDir) => Some (d +:+ "/" +:+ leaf) | _ => None end) entries.
Lemma visit_entries_pending d entries pending actual pending' actual' :
  try_fold (visit_entry expected d) (pending, actual) entries = Ok (pending', actual') ->
  pending' = rev (child_dirs d entries) ++ pending /\ Forall (fun c => existsb (below_dir c) expected = true) (child_dirs d entries).
Proof.
  revert pending actual. induction entries as [|[leaf kind] entries IH]; intros pending actual; cbn [try_fold].
  { by intros [= <- <-]. }
  destruct (visit_entry _ _ _ _) as [[pending1 actual1]|e] eqn:Hv; [|done]. intros [H1 H2]%IH.
  apply visit_entry_Ok in Hv as (l & -> & [(-> & -> & -> & Hl)|(-> & -> & ->)]); cbn.
  - split; [by rewrite H1, <- app_assoc|by constructor].
  - done.
Qed.
Lemma child_longer d entries c : c ∈ child_dirs d entries -> (String.length d < String.length c)%nat.
Proof.
  unfold child_dirs. intros ([[leaf|] []] & _ & [= <-])%list_elem_of_omap. rewrite !length_app_str. cbn. lia.
Qed.
Lemma ends_all n children pending :
  (forall d, (bound - String.length d < n)%nat -> forall pending, ends pending -> ends (d :: pending)) ->
  Forall (fun c => (bound - String.length c < n)%nat) children -> ends pending -> ends (children ++ pending).
Proof. intros Hd Hall Hp. induction Hall as [|c children Hc _ IH]; [done|]. cbn. by apply Hd. Qed.
Lemma directory_ends n : forall d, (bound - String.length d < n)%nat -> forall pending, ends pending -> ends (d :: pending).
Proof.
  induction n as [|n IH]; intros d Hd pending Hp; [lia|].
  set (children := child_dirs d (entries_at disk d)).
  destruct (decide (Forall (fun c => existsb (below_dir c) expected = true) children)) as [Hall|Hnot].
  - destruct (ends_all n (rev children) pending IH) as [fuel0 Hf]; [|done|].
    { apply Forall_rev. eapply Forall_impl; [apply Forall_forall; intros c Hc; exact (conj Hc (proj1 (Forall_forall _ _) Hall c Hc))|].
      intros c [Hc Hb]. pose proof (child_longer _ _ _ Hc). apply below_bound in Hb. cbn in *. lia. }
    exists (S fuel0). intros [|fuel] actual Hle; [lia|]. cbn [collect_files]. unfold visit_directory.
    destruct (rf_directory disk d) as [[device entries]|e] eqn:Hdir; [|done]. destruct (negb _); [done|].
    destruct (try_fold _ _ _) as [[pending' actual']|e] eqn:Hv; [|done].
    apply visit_entries_pending in Hv as [-> _]. unfold children, entries_at in Hf. rewrite Hdir in Hf. apply Hf. lia.
  - exists 1%nat. intros [|fuel] actual Hle; [lia|]. cbn [collect_files]. unfold visit_directory.
    destruct (rf_directory disk d) as [[device entries]|e] eqn:Hdir; [|done]. destruct (negb _); [done|].
    destruct (try_fold _ _ _) as [[pending' actual']|e] eqn:Hv; [|done].
    apply visit_entries_pending in Hv as [_ Hall]. exfalso. apply Hnot. unfold children, entries_at. by rewrite Hdir.
Qed.
Lemma collect_files_ends root : exists fuel0, forall fuel actual, (fuel0 <= fuel)%nat ->
  is_Some (collect_files disk fuel expected [root] actual).
Proof.
  apply (directory_ends (S (bound - String.length root)) root ltac:(lia) []). exists 0%nat. intros fuel actual _. by destruct fuel.
Qed.
End walk_ends.

(** ** What a transfer requires *)
Section transfer_facts.
Context `{DhttpHome, Sha2}.
Variable disk : runtime_files.

(** The file is the one on record: read whole, a single link, unchanged while
    it was read. *)
Definition recorded_file (expected : list (string * json)) (path : string) : Prop :=
  exists rd data after reopened record, rf_file disk path = Ok rd /\ rd_data rd = Ok data /\ assoc path expected = Some record
    /\ as_u64 record.["size"] = Some (slen data) /\ as_str record.["sha256"] = Some (hex_lower (sha256 data))
    /\ ff_nlink (rd_before rd) = 1 /\ rd_after rd = Ok after /\ rd_reopened rd = Ok reopened
    /\ unchanged (rd_before rd) after reopened = true.
(** The installed files are those of the entry, neither more nor fewer. *)
Definition as_released (entry : json) (r : row) : Prop :=
  exists author name expected, as_str entry.["author"] = Some author /\ as_str entry.["name"] = Some name
    /\ as_object entry.["files"] = Some expected
    /\ (forall path, path ∈ keys expected <->
          has_lib r = true /\ path = lib_file author name \/ has_app r = true /\ found_below disk ("app/" +:+ name) path)
    /\ forall path, path ∈ keys expected -> recorded_file expected path.

Lemma migration_text_Ok entry key s : migration_text entry key = Ok s -> as_str entry.[key] = Some s /\ s <> "".
Proof. unfold migration_text. destruct (as_str _) as [t|]; [|done]. destruct (String.eqb_spec t ""); [done|]. by intros [= <-]. Qed.
Lemma substring_whole n s : String.length (String.substring 0 (S n) s) = n -> String.substring 0 (S n) s = s.
Proof.
  revert s. induction n as [|n IH]; intros [|c s] Hl; try done; cbn in *.
  injection Hl as Hl. f_equal. by apply (IH s).
Qed.
Lemma assoc_keys {A} (o : list (string * A)) k : k ∈ map fst o -> is_Some (assoc k o).
Proof.
  induction o as [|[k' v] o IH]; cbn; [set_solver|]. destruct (String.eqb_spec k k'); [done|].
  intros [?|?]%elem_of_cons; [done|auto].
Qed.
Lemma check_file_Ok expected total path total' :
  check_file disk expected total path = Ok total' -> path ∈ keys expected -> recorded_file expected path.
Proof.
  unfold check_file. intros Hc [record Hr]%assoc_keys. rewrite Hr in Hc. cbn in Hc.
  destruct (as_u64 _) as [size|] eqn:Hsize; [cbn in Hc|done]. destruct (total + size >? FILES_LIMIT); [done|].
  unfold expanded_file in Hc. destruct (existsb _ _); [done|]. destruct (rf_file disk path) as [rd|] eqn:Hf; [|done].
  destruct (negb _ || _ || _) eqn:Hb; [done|]. destruct (rd_data rd) as [data|] eqn:Hd; [|done].
  destruct (rd_after rd) as [after|] eqn:Ha; [|done]. destruct (rd_reopened rd) as [reopened|] eqn:Ho; [|done].
  destruct (negb (slen _ =? size)) eqn:Hl; [done|]. destruct (migration_text record "sha256") as [digest|] eqn:Ht; [|done].
  destruct (negb (String.eqb _ _) || _) eqn:Hu; [done|]. apply migration_text_Ok in Ht as [Ht _].
  rewrite !orb_false_iff, !negb_false_iff in *. destruct Hb as [[Hlink _] _]. destruct Hu as [Hdigest Hsame].
  apply Z.eqb_eq in Hlink. apply Z.eqb_eq in Hl. apply String.eqb_eq in Hdigest.
  assert (0 <= size) by (unfold slen in Hl; lia).
  assert (Hwhole : String.substring 0 (Z.to_nat (size + 1)) data = data).
  { replace (Z.to_nat (size + 1)) with (S (Z.to_nat size)) in * by lia. apply substring_whole. unfold slen in Hl. lia. }
  rewrite Hwhole in *. exists rd, data, after, reopened, record. rewrite Hl, Hdigest. done.
Qed.
Lemma check_files_Ok expected total paths total' :
  try_fold (check_file disk expected) total paths = Ok total' ->
  forall path, path ∈ paths -> path ∈ keys expected -> recorded_file expected path.
Proof.
  revert total. induction paths as [|p paths IH]; intros total; cbn [try_fold]; [set_solver|].
  destruct (check_file _ _ _ _) as [t|] eqn:Hc; [|done]. intros Hf path [->|Hin]%elem_of_cons; [by eapply check_file_Ok|eauto].
Qed.
Lemma verify_legacy_files_Ok fuel entry r :
  verify_legacy_files disk fuel entry (has_lib r) (has_app r) = Ok tt -> as_released entry r.
Proof.
  unfold verify_legacy_files. intros Hv.
  destruct (migration_text entry "name") as [name|] eqn:Hn; [|done]. destruct (migration_text entry "author") as [author|] eqn:Ha; [|done].
  destruct (valid_id _); [|done]. destruct (as_object _) as [expected|] eqn:He; [|done].
  destruct (bool_decide _ || _); [done|]. destruct (_ || existsb _ (keys expected)); [done|].
  set (first := if has_lib r then _ else _) in Hv.
  destruct (if has_app r then _ else _) as [actual|] eqn:Hw; [|done].
  destruct (negb _) eqn:Hb; [done|]. apply negb_false_iff, bool_decide_eq_true in Hb. subst actual.
  destruct (try_fold _ _ _) as [t|] eqn:Hf; [|done].
  apply migration_text_Ok in Hn as [Hn _]. apply migration_text_Ok in Ha as [Ha _].
  exists author, name, expected. do 3 (split; [done|]). split.
  - intros path. assert (Hk : path ∈ keys expected <-> path ∈ (list_to_set (keys expected) : gset string)) by by rewrite elem_of_list_to_set.
    assert (Hfirst : path ∈ first <-> has_lib r = true /\ path = lib_file author name).
    { unfold first. destruct (has_lib r); set_solver. }
    rewrite Hk. destruct (has_app r).
    + destruct (collect_files _ _ _ _ _) as [[s|]|] eqn:Hc; try done. injection Hw as Hs. rewrite <- Hs.
      rewrite (collect_files_Ok _ _ _ _ _ _ Hc), Hfirst. set_solver.
    + injection Hw as Hs. rewrite <- Hs, Hfirst. naive_solver.
  - intros path Hin. eapply check_files_Ok; [exact Hf| |done]. apply elem_of_sort_by, elem_of_elements, elem_of_list_to_set, Hin.
Qed.

(** The entry authorizes this change of the row. *)
Definition authorizes (entry : json) (r r' : row) : Prop :=
  exists author target owner, row_author r = Some author
    /\ entry.["name"] = JStr (row_name r) /\ entry.["author"] = JStr author /\ entry.["version"] = JStr (row_version r)
    /\ signer_leaf_fingerprint_sha256 r = None
    /\ (author_owner_hash r = None \/ author_owner_hash r = as_str entry.["author_owner_hash"])
    /\ (package_sha256 r = None \/ package_sha256 r = as_str entry.["package_sha256"])
    /\ as_str entry.["target_author"] = Some target /\ as_str entry.["target_owner_hash"] = Some owner
    /\ migration_hash owner = true /\ valid_id (target +:+ "/" +:+ row_name r) = Ok tt
    /\ is_standard_author author = is_standard_author target
    /\ as_released entry r /\ r' = set_author target owner r.
Lemma check_transfer_Ok fuel r author entry change :
  row_author r = Some author -> entry.["name"] = JStr (row_name r) -> entry.["author"] = JStr author ->
  entry.["version"] = JStr (row_version r) -> signer_leaf_fingerprint_sha256 r = None ->
  check_transfer disk fuel r author entry = Ok change ->
  fst (fst change) = row_name r /\ authorizes entry r (set_author (snd (fst change)) (snd change) r).
Proof.
  intros Ha Hn Hea Hv Hs. unfold check_transfer. cbn zeta. intros Hc.
  destruct (migration_text entry "author_owner_hash") as [old|] eqn:H1; [|done].
  destruct (migration_text entry "target_owner_hash") as [owner|] eqn:H2; [|done].
  destruct (migration_text entry "target_author") as [target|] eqn:H3; [|done].
  destruct (migration_text entry "package_sha256") as [digest|] eqn:H4; [|done].
  destruct (negb _) eqn:Hh; [done|]. destruct (valid_id _) as [[]|] eqn:Hid; [|done].
  destruct (_ || _) eqn:Hm; [done|]. destruct (migration_text entry "evidence"); [|done].
  destruct (trim_is_empty _); [done|]. destruct (verify_legacy_files _ _ _ _ _) as [[]|] eqn:Hf; [|done].
  injection Hc as <-. split; [done|]. cbn [fst snd].
  apply migration_text_Ok in H1 as [H1 _], H2 as [H2 _], H3 as [H3 _], H4 as [H4 _].
  apply verify_legacy_files_Ok in Hf. cbn in Hh. simplify_bool.
  match goal with Hstd : Bool.eqb _ _ = true |- _ => apply eqb_prop in Hstd end.
  exists author, target, owner. split_and!; try done.
  - rewrite H1. destruct (author_owner_hash r); [right|by left]. simplify_bool. congruence.
  - rewrite H4. destruct (package_sha256 r); [right|by left]. simplify_bool. congruence.
Qed.
Lemma plan_transfer_Ok fuel db entries name r change :
  package db !! name = Some r -> row_name r = name -> plan_transfer disk fuel db entries name = Ok (Some change) ->
  exists entry, entry ∈ entries /\ fst (fst change) = name /\ authorizes entry r (set_author (snd (fst change)) (snd change) r).
Proof.
  unfold plan_transfer. intros Hr Hn Hp. rewrite Hr in Hp. destruct (row_author r) as [author|] eqn:Ha; [|done]. cbn in Hp.
  destruct (already_transferred _ _ _); [done|].
  destruct (List.filter _ (List.filter _ _)) as [|entry [|]] eqn:Hf; [done| |done].
  destruct (signer_leaf_fingerprint_sha256 r) eqn:Hs; [done|].
  destruct (check_transfer _ _ _ _ _) as [c|] eqn:Hc; [|done]. injection Hp as <-.
  assert (Hin : In entry [entry]) by by left. rewrite <- Hf in Hin. apply filter_In in Hin as [Hin Hav]. apply filter_In in Hin as [Hin Hen].
  apply andb_true_iff in Hav as [Hau Hve]. rewrite is_str_true in *.
  exists entry. split; [by apply list_elem_of_In|]. subst name. by eapply check_transfer_Ok.
Qed.
Lemma plan_transfers_Ok fuel db entries names changes :
  plan_transfers disk fuel db entries names = Ok changes ->
  forall change, change ∈ changes -> exists name, name ∈ names /\ plan_transfer disk fuel db entries name = Ok (Some change).
Proof.
  revert changes. induction names as [|name names IH]; intros changes; cbn; [intros [= <-]; set_solver|].
  destruct (plan_transfer _ _ _ _ _) as [c|] eqn:Hc; [|done]. destruct (plan_transfers _ _ _ _ _) as [cs|] eqn:Hcs; [|done].
  intros [= <-] change Hin. destruct c as [c|].
  - apply elem_of_cons in Hin as [->|Hin]; [set_solver|]. destruct (IH _ eq_refl _ Hin) as (n & ? & ?). set_solver.
  - destruct (IH _ eq_refl _ Hin) as (n & ? & ?). set_solver.
Qed.
Definition change_name (change : string * string * string) : string := fst (fst change).
Lemma plan_transfers_names fuel db entries names changes :
  (forall n r, package db !! n = Some r -> row_name r = n) ->
  plan_transfers disk fuel db entries names = Ok changes -> sublist (map change_name changes) names.
Proof.
  intros Hnames. revert changes. induction names as [|name names IH]; intros changes; cbn; [by intros [= <-]|].
  destruct (plan_transfer _ _ _ _ _) as [c|] eqn:Hc; [|done]. destruct (plan_transfers _ _ _ _ _) as [cs|]; [|done].
  intros [= <-]. destruct c as [c|]; [|by constructor; apply IH]. cbn.
  destruct (package db !! name) as [r|] eqn:Hr; [|by unfold plan_transfer in Hc; rewrite Hr in Hc].
  destruct (plan_transfer_Ok _ _ _ _ _ _ Hr (Hnames _ _ Hr) Hc) as (entry & _ & Hn & _).
  unfold change_name at 1. rewrite Hn. constructor. by apply IH.
Qed.
Lemma transfer_author_fold changes db n :
  NoDup (map change_name changes) ->
  (n ∉ map change_name changes -> package (fold_left transfer_author changes db) !! n = package db !! n)
  /\ (forall t o, (n, t, o) ∈ changes -> package (fold_left transfer_author changes db) !! n = set_author t o <$> package db !! n).
Proof.
  revert db. induction changes as [|[[m t0] o0] changes IH]; intros db; cbn; [set_solver|].
  intros [Hm Hnd]%NoDup_cons. destruct (IH (transfer_author db (m, t0, o0)) Hnd) as [IH1 IH2]. cbn in Hm, IH1, IH2.
  unfold change_name in *. cbn in *. split.
  - intros Hn. rewrite IH1 by set_solver. apply lookup_alter_ne. set_solver.
  - intros t o [[= -> -> ->]|Hin]%elem_of_cons; [rewrite IH1 by done; apply lookup_alter_eq|].
    rewrite (IH2 _ _ Hin). f_equal. apply lookup_alter_ne. intros ->. apply Hm.
    change n with (fst (fst (n, t, o))). by apply (list_elem_of_fmap_2 (fun c => fst (fst c))).
Qed.
Lemma transfer_author_tables changes db :
  let db' := fold_left transfer_author changes db in
  package_dependency db' = package_dependency db /\ lib_capability db' = lib_capability db
  /\ lib_capability_operation db' = lib_capability_operation db /\ proxy_location db' = proxy_location db.
Proof. revert db. induction changes as [|[[n t] o] changes IH]; intros db; [done|]. apply (IH (transfer_author db (n, t, o))). Qed.

Lemma plan_transfers_each fuel db entries names changes :
  plan_transfers disk fuel db entries names = Ok changes ->
  forall name, name ∈ names -> exists c, plan_transfer disk fuel db entries name = Ok c /\ forall change, c = Some change -> change ∈ changes.
Proof.
  revert changes. induction names as [|m names IH]; intros changes; cbn; [set_solver|].
  destruct (plan_transfer _ _ _ _ m) as [c|] eqn:Hc; [|done]. destruct (plan_transfers _ _ _ _ _) as [cs|]; [|done].
  intros [= <-] name [->|Hin]%elem_of_cons.
  - exists c. split; [done|]. intros change ->. set_solver.
  - destruct (IH _ eq_refl _ Hin) as (c' & Hc' & Hall). exists c'. split; [done|]. intros change Hch%Hall. destruct c; set_solver.
Qed.
Lemma plan_transfer_None fuel db entries name r :
  package db !! name = Some r -> plan_transfer disk fuel db entries name = Ok None ->
  exists author, row_author r = Some author /\
    already_transferred author (author_owner_hash r) (List.filter (fun entry => is_str entry.["name"] name) entries) = true.
Proof.
  unfold plan_transfer. intros -> Hp. destruct (row_author r) as [author|]; [|done]. exists author. split; [done|].
  cbn in Hp. destruct (already_transferred _ _ _); [done|]. exfalso.
  destruct (List.filter _ (List.filter _ _)) as [|entry [|]]; [done| |done].
  destruct (signer_leaf_fingerprint_sha256 r); [done|]. by destruct (check_transfer _ _ _ _ _).
Qed.

(** What one group does, when it is handed over: every installed row that the
    group names is transferred, now or before, and nothing else changes. *)
Definition others_same (db db' : database) : Prop :=
  package_dependency db' = package_dependency db /\ lib_capability db' = lib_capability db
  /\ lib_capability_operation db' = lib_capability_operation db /\ proxy_location db' = proxy_location db.
Definition entry_of (entries : list json) (name : string) (entry : json) : Prop := entry ∈ entries /\ entry.["name"] = JStr name.
(** The row has the author and the owner that an entry for it hands over to. *)
Definition belongs_to_target (entries : list json) (r : row) : Prop :=
  exists entry author, entry_of entries (row_name r) entry /\ row_author r = Some author
    /\ entry.["target_author"] = JStr author /\ author_owner_hash r = as_str entry.["target_owner_hash"].
Definition transferred (entries : list json) (r r' : row) : Prop :=
  (r' = r /\ belongs_to_target entries r) \/ exists entry, entry ∈ entries /\ authorizes entry r r'.
Definition row_settled (entries : list json) (name : string) (o o' : option row) : Prop :=
  match o with
  | None => o' = None
  | Some r => exists r', o' = Some r' /\
      ((exists entry, entry_of entries name entry) -> transferred entries r r') /\
      (~ (exists entry, entry_of entries name entry) -> r' = r)
  end.
Definition handed_whole (group : json) (db db' : database) : Prop :=
  exists entries, as_array group.["packages"] = Some entries /\ others_same db db' /\
    forall n, row_settled entries n (package db !! n) (package db' !! n).

Lemma already_target entries r author :
  row_author r = Some author ->
  already_transferred author (author_owner_hash r) (List.filter (fun entry => is_str entry.["name"] (row_name r)) entries) = true ->
  belongs_to_target entries r.
Proof.
  intros Ha (entry & [Hin Hn]%filter_In & [Ht Ho]%andb_true_iff)%existsb_exists.
  apply is_str_true in Hn, Ht. apply bool_decide_eq_true in Ho. exists entry, author.
  split; [|done]. split; [by apply list_elem_of_In|done].
Qed.
(** The names of a group, each once and sorted. *)
Lemma group_names entries names n :
  try_map (fun entry => migration_text entry "name") entries = Ok names ->
  n ∈ sort_by String.leb (elements (list_to_set names : gset string)) <-> exists entry, entry_of entries n entry.
Proof.
  intros Hn. rewrite sort_by_Permutation, elem_of_elements, elem_of_list_to_set. split.
  - intros Hin. destruct (try_map_elem _ _ _ _ Hn Hin) as (entry & Hentry & He). exists entry. split; [done|].
    apply migration_text_Ok in He as [He _]. by apply as_str_Some.
  - intros (entry & Hin & He). destruct (try_map_image _ _ _ _ Hn Hin) as (m & Hm & Hmt).
    apply migration_text_Ok in Hmt as [Hmt _]. rewrite He in Hmt. by injection Hmt as <-.
Qed.
Lemma transfer_group_Ok fuel db group db' :
  (forall n r, package db !! n = Some r -> row_name r = n) -> transfer_group disk fuel db group = Ok db' -> handed_whole group db db'.
Proof.
  intros Hnames. unfold transfer_group. destruct (as_array _) as [entries|] eqn:He; [|done]. destruct (_ || _); [done|].
  destruct (try_map _ _) as [names|] eqn:Hm; [|done]. destruct (plan_transfers _ _ _ _ _) as [changes|] eqn:Hp; [|done].
  intros [= <-]. exists entries. split; [done|]. split; [apply transfer_author_tables|]. intros n.
  pose proof (plan_transfers_names _ _ _ _ _ Hnames Hp) as Hsub.
  assert (Hnd : NoDup (map change_name changes)).
  { eapply sublist_NoDup; [|exact Hsub]. rewrite sort_by_Permutation. apply NoDup_elements. }
  destruct (transfer_author_fold changes db n Hnd) as [Hno Hyes].
  assert (Hstay : n ∉ map change_name changes -> package (fold_left transfer_author changes db) !! n = package db !! n) by done.
  destruct (package db !! n) as [r|] eqn:Hr; cbn.
  2: { destruct (decide (n ∈ map change_name changes)) as [Hin|]; [|by apply Hno].
       apply list_elem_of_fmap in Hin as ([[m t] o] & Heq & Hin). cbn in Heq. subst m. by rewrite (Hyes _ _ Hin). }
  pose proof (group_names _ _ n Hm) as Hnamed.
  destruct (decide (n ∈ sort_by String.leb (elements (list_to_set names : gset string)))) as [Hin|Hout].
  2: { exists r. rewrite Hno by (intros Hc; apply Hout; by eapply elem_of_submseteq, sublist_submseteq). split; [done|]. split; [|done]. by intros ?%Hnamed. }
  destruct (plan_transfers_each _ _ _ _ _ Hp _ Hin) as ([[[m t] o]|] & Hc & Hch).
  - destruct (plan_transfer_Ok _ _ _ _ _ _ Hr (Hnames _ _ Hr) Hc) as (entry & Hentry & Hn & Hauth). cbn in Hn, Hauth. subst m.
    exists (set_author t o r). rewrite (Hyes t o) by by apply Hch. split; [done|]. split; [|by rewrite <- Hnamed].
    intros _. right. eauto.
  - exists r. rewrite Hno; [|intros Hx].
    + split; [done|]. split; [intros _|by rewrite <- Hnamed]. left. split; [done|].
      destruct (plan_transfer_None _ _ _ _ _ Hr Hc) as (author & Ha & Hal). rewrite <- (Hnames _ _ Hr) in Hal. by eapply already_target.
    + apply list_elem_of_fmap in Hx as ([[m t] o] & Heq & Hx). cbn in Heq. subst m.
      destruct (plan_transfers_Ok _ _ _ _ _ Hp _ Hx) as (name' & _ & Hp').
      destruct (package db !! name') as [r'|] eqn:Hr'; [|by unfold plan_transfer in Hp'; rewrite Hr' in Hp'].
      destruct (plan_transfer_Ok _ _ _ _ _ _ Hr' (Hnames _ _ Hr') Hp') as (_ & _ & Hn & _). cbn in Hn. subst name'. congruence.
Qed.

(** ** The transfer of all groups *)
(** One group after the other: handed over as a whole, or skipped with nothing
    changed because its transfer fails. *)
Inductive groups_handed (fuel : nat) : list json -> database -> database -> Prop :=
| handed_none db : groups_handed fuel [] db db
| handed_skipped group groups db db' e :
    transfer_group disk fuel db group = Err e -> groups_handed fuel groups db db' -> groups_handed fuel (group :: groups) db db'
| handed_group group groups db db1 db' :
    handed_whole group db db1 -> groups_handed fuel groups db1 db' -> groups_handed fuel (group :: groups) db db'.
Lemma set_author_ok db db' :
  db_ok db -> others_same db db' ->
  (forall n, package db' !! n = package db !! n \/ exists r t o, package db !! n = Some r /\ package db' !! n = Some (set_author t o r)) ->
  db_ok db'.
Proof.
  intros [Hn Hc Hd Ha Ho] (H1 & H2 & H3 & _) Hrow.
  assert (Hback : forall n r', package db' !! n = Some r' -> exists r, package db !! n = Some r /\
    row_name r' = row_name r /\ row_version r' = row_version r /\ has_lib r' = has_lib r /\ has_app r' = has_app r).
  { intros n r' Hr. destruct (Hrow n) as [He|(r & t & o & Hr0 & He)]; rewrite He in Hr; [by exists r'|]. exists r. injection Hr as Hr. by rewrite <- Hr. }
  assert (Hforth : forall n r, package db !! n = Some r -> exists r', package db' !! n = Some r' /\ row_version r' = row_version r).
  { intros n r Hr. destruct (Hrow n) as [He|(r0 & t & o & Hr0 & He)]; rewrite He; [eauto|]. rewrite Hr in Hr0. injection Hr0 as Hr0. subst r0. by eexists. }
  split.
  - intros n r' (r & Hr & -> & _)%Hback. by apply Hn.
  - intros n r' (r & Hr & _ & _ & -> & ->)%Hback. by eapply Hc.
  - rewrite H1. intros p d v Hv. destruct (Hd p d v Hv) as [[r Hr] (rd & Hrd & Hver)]. split.
    + destruct (Hforth _ _ Hr) as (r' & Hr' & _). by exists r'.
    + destruct (Hforth _ _ Hrd) as (r' & Hr' & Hv'). exists r'. by rewrite Hv'.
  - eapply acyclic_sub; [exact Ha|]. by rewrite H1.
  - rewrite H2, H3. exact Ho.
Qed.
Lemma handed_whole_ok group db db' : db_ok db -> handed_whole group db db' -> db_ok db'.
Proof.
  intros Hok (entries & _ & Hsame & Hrows). eapply set_author_ok; [done..|]. intros n. specialize (Hrows n). unfold row_settled in Hrows.
  destruct (package db !! n) as [r|]; [|by left]. destruct Hrows as (r' & -> & Hyes & Hno).
  assert (Hm : r' = r \/ exists entry, authorizes entry r r').
  { destruct (decide (Exists (fun entry => entry.["name"] = JStr n) entries)) as [Hex|Hex]; rewrite Exists_exists in Hex.
    - destruct (Hyes Hex) as [[? _]|(entry & _ & ?)]; [by left|right; eauto].
    - left. by apply Hno. }
  destruct Hm as [->|(entry & author & target & owner & Ha)]; [by left|]. right. exists r, target, owner. split; [done|]. f_equal. apply Ha.
Qed.
Lemma migrate_groups_facts fuel groups db :
  db_ok db -> let db' := fold_left (migrate_group disk fuel) groups db in
  db_ok db' /\ others_same db db' /\ groups_handed fuel groups db db'.
Proof.
  revert db. induction groups as [|group groups IH]; intros db Hok; cbn; [split; [done|]; split; [done|constructor]|].
  unfold migrate_group at 2 4 6. destruct (transfer_group _ _ _ _) as [db1|e] eqn:Ht.
  - apply transfer_group_Ok in Ht as Hw; [|intros n r Hr; by apply (ok_names _ Hok) in Hr as [? _]].
    destruct (IH db1) as (Hok2 & Hs2 & Hr2); [by eapply handed_whole_ok|]. split; [done|]. split; [|by eapply handed_group].
    destruct Hw as (_ & _ & (? & ? & ? & ?) & _), Hs2 as (? & ? & ? & ?). repeat split; etrans; done.
  - destruct (IH db Hok) as (Hok2 & Hs2 & Hr2). split; [done|]. split; [done|]. by eapply handed_skipped.
Qed.

(** C27: Handing packages of older releases to their new authors keeps the registry well formed. When it
    fails the registry was at most opened. Otherwise each group in turn is either skipped, with nothing
    changed, because its transfer fails, or handed over as a whole: every installed package the group
    names ends with its new author and owner, because it had them already or because exactly this change
    is authorized by an entry of the group (same name, author and version, unsigned, owner and digest as
    recorded if any, same standing of both authors, and installed files that are exactly those of the
    release, by name, size and digest, each a single link that did not change while it was read);
    packages the group does not name and all other tables stay as they were. *)
Theorem migrate_legacy_groups_authorized fuel io groups db db' result :
  db_ok db -> migrate_legacy_groups disk fuel io (JArr groups) db = (db', result) ->
  db_ok db' /\
  match result with
  | Err _ => opened db db'
  | Ok _ => exists db1, opened db db1 /\ others_same db1 db' /\ groups_handed fuel groups db1 db'
  end.
Proof.
  intros Hok. unfold migrate_legacy_groups. cbn [as_array]. destruct (_ >? 100).
  { intros [= <- <-]. split; [done|by left]. }
  case_bool_decide as Hnil.
  { intros [= <- <-]. split; [done|]. exists db. subst groups. split; [by left|]. split; [done|constructor]. }
  destruct (installation_database io true db) as [db1 r] eqn:Ho. apply installation_database_opened in Ho as Hopen.
  apply opened_ok in Hopen as Hok1. destruct Hok1 as [_ Hok1]. specialize (Hok1 Hok).
  destruct r as [u|e]; intros [= <- <-]; [|by split].
  destruct (migrate_groups_facts fuel groups db1 Hok1) as (G1 & G2 & G3). split; [done|]. by exists db1.
Qed.

(** A group that was transferred is transferred already. *)
Lemma plan_transfers_none fuel db entries names :
  (forall name, name ∈ names -> plan_transfer disk fuel db entries name = Ok None) -> plan_transfers disk fuel db entries names = Ok [].
Proof. induction names as [|name names IH]; intros Hn; [done|]. cbn. rewrite (Hn name) by set_solver. rewrite IH; [done|set_solver]. Qed.
Lemma plan_transfer_row fuel db db' entries name :
  package db' !! name = package db !! name -> plan_transfer disk fuel db' entries name = plan_transfer disk fuel db entries name.
Proof. intros Hr. unfold plan_transfer. by rewrite Hr. Qed.
Lemma authorized_already entries entry r target owner :
  entry ∈ entries -> authorizes entry r (set_author target owner r) ->
  already_transferred target (Some owner) (List.filter (fun e => is_str e.["name"] (row_name r)) entries) = true.
Proof.
  intros Hin (author & t & o & _ & Hn & _ & _ & _ & _ & _ & Ht & Ho & _ & _ & _ & _ & Heq). injection Heq as <- <-.
  unfold already_transferred. apply existsb_exists. exists entry. split.
  - apply filter_In. split; [by apply list_elem_of_In|]. by apply is_str_true.
  - rewrite Ho, bool_decide_eq_true_2, andb_true_r by done. apply is_str_true. destruct (entry.["target_author"]); try done. by injection Ht as ->.
Qed.
(** Transferring a group again changes nothing. *)
Theorem transfer_group_again fuel db group db' :
  db_ok db -> transfer_group disk fuel db group = Ok db' -> transfer_group disk fuel db' group = Ok db'.
Proof.
  intros Hok. assert (Hnames : forall n r, package db !! n = Some r -> row_name r = n) by (intros n r Hr; by apply (ok_names _ Hok) in Hr as [? _]).
  unfold transfer_group. destruct (as_array _) as [entries|] eqn:He; [|done]. destruct (_ || _); [done|].
  destruct (try_map _ _) as [names|]; [|done]. set (sorted := sort_by _ _).
  destruct (plan_transfers _ _ db _ _) as [changes|] eqn:Hp; [|done]. intros [= <-].
  assert (Hnd : NoDup (map change_name changes)).
  { eapply sublist_NoDup; [|by eapply plan_transfers_names]. unfold sorted. rewrite sort_by_Permutation. apply NoDup_elements. }
  rewrite plan_transfers_none; [done|]. intros name Hname.
  destruct (transfer_author_fold changes db name Hnd) as [Hno Hyes].
  destruct (plan_transfers_each _ _ _ _ _ Hp _ Hname) as (c & Hc & Hch).
  destruct (package db !! name) as [r|] eqn:Hr.
  2: { assert (Hn : package (fold_left transfer_author changes db) !! name = None).
       { destruct (decide (name ∈ map change_name changes)) as [Hin|]; [|by rewrite Hno].
         apply list_elem_of_fmap in Hin as ([[m t] o] & Hm & Hin). cbn in Hm. subst m. by rewrite (Hyes _ _ Hin). }
       unfold plan_transfer. by rewrite Hn. }
  destruct c as [[[m t] o]|].
  - destruct (plan_transfer_Ok _ _ _ _ _ _ Hr (Hnames _ _ Hr) Hc) as (entry & Hentry & Hn & Hauth). cbn in Hn, Hauth. subst m.
    unfold plan_transfer. rewrite (Hyes t o) by by apply Hch. cbn.
    pose proof (authorized_already _ _ _ _ _ Hentry Hauth) as Hal. rewrite (Hnames _ _ Hr) in Hal. by rewrite Hal.
  - rewrite (plan_transfer_row _ db); [done|]. rewrite Hr. apply Hno. intros Hin.
    apply list_elem_of_fmap in Hin as ([[m t] o] & Hm & Hin). cbn in Hm. subst m.
    destruct (plan_transfers_Ok _ _ _ _ _ Hp _ Hin) as (name' & _ & Hp').
    destruct (package db !! name') as [r'|] eqn:Hr'; [|by unfold plan_transfer in Hp'; rewrite Hr' in Hp'].
    destruct (plan_transfer_Ok _ _ _ _ _ _ Hr' (Hnames _ _ Hr') Hp') as (_ & _ & Hn & _). cbn in Hn. subst name'. congruence.
Qed.
End transfer_facts.
