(* ===== verification/Deploy.v ===== *)
(** * What an installation leaves behind

    The composition of the store client, the registry and the file transaction:
    after a successful installation every resolved package is registered in its
    released version. *)
From S2P Require Import Prelude RustStr Decimal Json Crates Errors Ids Manifest Waz Metadata Signing Store.
From S2P Require Import Registry Commit Opening Catalog Install.

(** The package is registered under its whole identity, in this version. *)
Definition installed_as (db : database) (id version : string) : Prop :=
  exists r, package db !! short_name id = Some r /\ identity r = id /\ row_version r = version.
(** ... with the digest of its archive. *)
Definition recorded (db : database) (id version digest : string) : Prop :=
  exists r, package db !! short_name id = Some r /\ identity r = id /\ row_version r = version /\
    package_sha256 r = Some digest.
Lemma recorded_installed db id version digest : recorded db id version digest -> installed_as db id version.
Proof. intros (r & Hr & Hid & Hv & _). by exists r. Qed.

Section deploy.
Context `{DhttpHome, SerdeJson, UrlCrates, Sha2, Base64, Wasmparser, Oas3, X509, AccessControl, Webpki, ZipCrate, StoreEndpoint}.
Variable root_der : string.
Variable now : Z.
Variable load_lib : string -> string -> Result openapi.

Lemma identity_new_row n id api previous : valid_id id = Ok tt -> identity (new_row n id api previous) = id.
Proof.
  intros Hv. unfold identity. cbn. destruct (split_once "/" id) as [[author name]|] eqn:Hs.
  - by destruct (valid_id_split id author name Hv Hs) as (-> & _ & ->).
  - apply split_once_None in Hs. unfold short_name. by rewrite last_segment_no_sep.
Qed.

(** *** One package *)
Definition archive_digest (r : resource) : string := hex_lower (sha256 (r_bytes r)).
Definition released (r : resource) (version : string) (files : PackageFiles) : Prop :=
  as_str (r_proof r).["version"] = Some version /\ str_at (r_proof r) "package_sha256" = Some (archive_digest r) /\
  exists document, package_metadata files = Ok document /\ str_at document "version" = Some version.
Lemma authenticate_Ok names r a :
  authenticate root_der now names r = Ok a ->
  valid_id (r_id r) = Ok tt /\ short_name (r_id r) ∉ names /\ exists version, released r version (a_files a).
Proof.
  unfold authenticate. intros Ha. simplify_ok. match goal with p : string * string |- _ => destruct p as [author name] end. simplify_ok. simplify_bool.
  match goal with Hv : verify_release _ _ _ _ _ _ _ = Ok _ |- _ => apply verify_release_facts in Hv as (_ & Hdigest & _ & _ & Hrest) end.
  destruct Hrest as (at0 & files & document & Hat & _ & _ & Hread & Hdoc & _ & _ & Hver & _).
  cbn. split; [match goal with Hv : valid_id _ = Ok ?u |- _ => by destruct u end|].
  split; [by apply mem_false|]. eexists. split; [eassumption|]. split; [exact Hdigest|].
  exists document. split; [|done]. simplify_eq. congruence.
Qed.
Lemma evidence_version a proof metadata : str_at (evidence a proof metadata) "version" = str_at metadata "version".
Proof. unfold str_at, evidence. by rewrite !index_set_key_ne by done. Qed.
Lemma evidence_digest a proof metadata version :
  str_at metadata "version" = Some version -> str_at (evidence a proof metadata) "package_sha256" = str_at proof "package_sha256".
Proof.
  intros Hv. unfold str_at, evidence. rewrite index_set_key_ne by done.
  rewrite (index_set_key _ _ "version" _ version); [done|]. unfold str_at. by rewrite index_set_key_ne.
Qed.

Lemma short_name_identity db n r : db_ok db -> package db !! n = Some r -> short_name (identity r) = n.
Proof.
  intros Hok Hr. destruct (ok_names _ Hok _ _ Hr) as [<- Hc]. unfold identity.
  destruct (row_author r); [by apply short_name_qualified|]. unfold short_name. by apply last_segment_no_sep.
Qed.
Lemma registered_metadata_Ok db id current version digest :
  db_ok db -> registered_metadata db id = Ok current -> str_at current "version" = Some version ->
  str_at current "package_sha256" = Some digest -> recorded db id version digest.
Proof.
  intros Hok. unfold registered_metadata. intros Hm Hver Hdigest. simplify_ok.
  match goal with Hf : find _ _ = Some ?r |- _ => apply find_some in Hf as [Hin Hid]; rename r into row0 end.
  apply String.eqb_eq in Hid. apply list_elem_of_In, list_elem_of_fmap in Hin as ([n row1] & Heq & Hin). cbn in Heq. subst row1.
  apply elem_of_map_to_list in Hin. exists row0. rewrite <- Hid, (short_name_identity db n) by done.
  split; [done|]. split; [done|]. unfold str_at in Hver, Hdigest.
  destruct (has_app row0); rewrite ?index_set_key_ne in Hver, Hdigest by done;
    (split; [by injection Hver|]); cbn in Hdigest; by destruct (package_sha256 row0).
Qed.

(** Version and digest in the metadata of a change. *)
Definition released_as (metadata : json) (version digest : string) : Prop :=
  str_at metadata "version" = Some version /\ str_at metadata "package_sha256" = Some digest.
(** The change of a resource, or [None] when it is installed as it is. *)
Definition outcome (db : database) (r : resource) (version : string) (o : option change) : Prop :=
  match o with
  | Some c => c_id c = r_id r /\ released_as (c_metadata c) version (archive_digest r)
  | None => recorded db (r_id r) version (archive_digest r)
  end.
Lemma decide_package_outcome s is_root r a o version :
  db_ok (st_db s) -> released r version (a_files a) ->
  decide_package root_der now s is_root r a = Ok o -> outcome (st_db s) r version o.
Proof.
  intros Hok (_ & Hdigest & document & Hdoc & Hver). unfold decide_package. rewrite Hdoc. intros Hd.
  assert (released_as (evidence a (r_proof r) document) version (archive_digest r)) as Hev
    by (split; [by rewrite evidence_version|by erewrite evidence_digest]).
  simplify_ok. destruct (_ && _) eqn:Hreuse; simplify_ok; [|by split].
  apply andb_true_iff in Hreuse as [_ Hreuse].
  destruct (registered_metadata (st_db s) (r_id r)) as [current|[]] eqn:Hm; try done; simplify_ok.
  unfold reusable in Hreuse. simplify_bool. cbn. destruct Hev as [Hv He]. unfold str_at in *.
  eapply registered_metadata_Ok; [done|done|..]; unfold str_at; [rewrite <- Hv|rewrite <- He];
    repeat match goal with Hj : json_eqb _ _ = true |- _ => apply json_eqb_eq in Hj; rewrite ?Hj; clear Hj end; done.
Qed.

(** *** The loop over the packages *)
(** The package is changed to its release, or left as it is. *)
Definition settled (db : database) (new : list change) (r : resource) : Prop :=
  valid_id (r_id r) = Ok tt /\ exists version, str_at (r_proof r) "version" = Some version /\
    ((exists c, c ∈ new /\ c_id c = r_id r /\ released_as (c_metadata c) version (archive_digest r)) \/
     (recorded db (r_id r) version (archive_digest r) /\ short_name (r_id r) ∉ map (short_name ∘ c_id) new)).
Lemma settled_cons db (o : option change) new r :
  settled db new r -> (forall c, o = Some c -> short_name (c_id c) <> short_name (r_id r)) ->
  settled db (option_list o ++ new) r.
Proof.
  intros (Hv & version & Hver & Hs) Ho. split; [done|]. exists version. split; [done|].
  destruct Hs as [(c & Hc & Hid)|[Hi Hn]].
  - left. exists c. split; [apply elem_of_app; by right|done].
  - right. split; [done|]. rewrite map_app, elem_of_app. intros [Hin|]; [|done].
    destruct o as [c|]; cbn in Hin; [|by apply not_elem_of_nil in Hin].
    apply list_elem_of_singleton in Hin. by apply (Ho c).
Qed.

Lemma admit_packages_settled io s names changed packages crls out :
  db_ok (st_db s) ->
  admit_packages root_der now io s names changed packages = (crls, Ok out) ->
  exists new, out = changed ++ new /\ NoDup (map (short_name ∘ c_id) new) /\
    (forall c, c ∈ new -> valid_id (c_id c) = Ok tt /\ short_name (c_id c) ∉ names) /\
    Forall (fun r => short_name (r_id r) ∉ names /\ settled (st_db s) new r) packages.
Proof.
  revert s names changed. induction packages as [|r packages IH]; intros s names changed Hok Ha; cbn in Ha.
  { injection Ha as _ ->. exists []. rewrite app_nil_r. split_and!; [done|constructor|by intros c ?%not_elem_of_nil|constructor]. }
  destruct (authenticate _ _ _ _) as [a|] eqn:Hau; [|done].
  apply authenticate_Ok in Hau as (Hvalid & Hfresh & version & Hrel).
  destruct (check_revocations _ _ _ _ _) as [crls' [u|]]; [|done].
  destruct (decide_package _ _ _ _ _ _) as [o|] eqn:Hd; [|done].
  pose proof (decide_package_outcome _ _ _ _ _ _ Hok Hrel Hd) as Ho. cbn [st_db set_crls] in Ho.
  assert (forall c, o = Some c -> c_id c = r_id r) as Hid by (intros c ->; by destruct Ho).
  apply IH in Ha as (new & -> & Hnd & Hnew & Hall); [|done]. cbn [st_db set_crls] in Hall.
  exists (option_list o ++ new). split; [by rewrite <- app_assoc|].
  assert (short_name (r_id r) ∉ map (short_name ∘ c_id) new) as Hself.
  { intros (c & Hc & Hin)%list_elem_of_In%in_map_iff. apply list_elem_of_In in Hin.
    apply (proj2 (Hnew c Hin)). cbn in Hc. rewrite Hc. left. }
  split_and!.
  - rewrite map_app. destruct o as [c|]; cbn; [|done]. rewrite (Hid c eq_refl). by constructor.
  - intros c [Hin|Hin]%elem_of_app.
    + destruct o as [c'|]; cbn in Hin; [|by apply not_elem_of_nil in Hin].
      apply list_elem_of_singleton in Hin as ->. by rewrite (Hid c' eq_refl).
    + destruct (Hnew c Hin) as [Hv Hn]. split; [done|]. intros Hc. apply Hn. by right.
  - constructor.
    + split; [done|]. split; [done|]. exists version. split; [apply Hrel|]. unfold outcome in Ho.
      destruct o as [c|]; cbn [option_list]; [left; exists c; split; [left|done]|right; by split].
    + eapply Forall_impl; [exact Hall|]. cbn. intros r' [Hn Hs]. split; [intros Hc; apply Hn; by right|].
      apply settled_cons; [done|]. intros c -> Heq. apply Hn. rewrite <- Heq, (Hid c eq_refl). left.
Qed.

(** *** The registry transaction *)
Lemma register_changes_installs changed db tx :
  db_ok db -> register_changes now changed db = Ok tx -> NoDup (map (short_name ∘ c_id) changed) ->
  forall c version digest, c ∈ changed -> valid_id (c_id c) = Ok tt -> released_as (c_metadata c) version digest ->
  recorded tx (c_id c) version digest.
Proof.
  intros Hok Hreg. destruct (delete_changed_dependencies changed db Hok) as (Hok1 & _).
  revert Hreg. unfold register_changes.
  generalize dependent (fold_left (fun db c => delete_dependencies (short_name (c_id c)) db) changed db). intros db1 Hok1.
  enough (forall tx', try_fold (save_change now) db1 changed = Ok tx' -> db_ok tx' /\
    (NoDup (map (short_name ∘ c_id) changed) -> forall c version digest, c ∈ changed -> valid_id (c_id c) = Ok tt ->
      released_as (c_metadata c) version digest -> recorded tx' (c_id c) version digest)) as Hgen
    by (intros Hreg; by apply Hgen).
  apply (try_fold_ind _ (fun pre d => db_ok d /\ (NoDup (map (short_name ∘ c_id) pre) -> forall c version digest, c ∈ pre ->
    valid_id (c_id c) = Ok tt -> released_as (c_metadata c) version digest -> recorded d (c_id c) version digest))).
  { split; [done|]. by intros _ c v g ?%not_elem_of_nil. }
  intros pre c d d' [Hd Hin] Hs. destruct (save_registration_facts _ _ _ _ _ _ Hd Hs) as (Hd' & Hp & _).
  split; [done|]. rewrite map_app. intros (Hnd & Hdis & _)%NoDup_app c' version digest [Hc| ->%list_elem_of_singleton]%elem_of_app Hv Hver.
  - destruct (Hin Hnd c' version digest Hc Hv Hver) as (r & Hr & Hrest). exists r. split; [|done].
    rewrite Hp, lookup_insert_ne; [done|]. intros Heq. apply (Hdis (short_name (c_id c'))).
    + apply list_elem_of_In, (in_map (short_name ∘ c_id)), list_elem_of_In, Hc.
    + cbn. rewrite <- Heq. left.
  - eexists. rewrite Hp, lookup_insert_eq. split; [done|]. split; [by apply identity_new_row|].
    cbn. destruct Hver as [Hver Hdigest]. unfold unwrap_str. unfold str_at in *. by rewrite Hver.
Qed.

Lemma only_changes_recorded names db db' id version digest :
  only_changes names db db' -> short_name id ∉ names -> recorded db id version digest -> recorded db' id version digest.
Proof. intros Ho Hn (r & Hr & Hi). exists r. by rewrite (proj1 (Ho _ Hn)). Qed.
Lemma opened_recorded db db' id version digest : opened db db' -> recorded db' id version digest <-> recorded db id version digest.
Proof. intros [(Hp & _) _]%opened_ok. unfold recorded. by rewrite Hp. Qed.

(** Every package of the list ends up registered in its released version, with
    the digest of the archive it came in. *)
Definition deployed (db : database) (r : resource) : Prop :=
  exists version, str_at (r_proof r) "version" = Some version /\ recorded db (r_id r) version (archive_digest r).
Lemma install_packages_deploys io s packages s' :
  db_ok (st_db s) -> install_packages root_der now load_lib io s packages = (s', Ok tt) ->
  db_ok (st_db s') /\ Forall (deployed (st_db s')) packages /\ owners_kept (st_db s) (st_db s') /\
  only_changes (map (short_name ∘ r_id) packages) (st_db s) (st_db s').
Proof.
  intros Hok0 (db & Hopen & (crls & changed & ps & Hadm & Hreg & _)%install_opened_Ok)%install_packages_Ok.
  assert (db_ok db) as Hok by (apply opened_ok in Hopen as [_ ?]; auto). cbn [st_db set_db] in Hreg.
  assert (Hreg' := Hreg). apply register_changes_ok in Hreg' as (Hok' & Hown & Honly); [|done].
  pose proof (admit_packages_only _ _ _ _ _ _ _ _ _ _ Hadm eq_refl Honly) as Honly'.
  apply admit_packages_settled in Hadm as (new & -> & Hnd & Hnew & Hall); [|done]. cbn [app st_db set_db] in *.
  split_and!; [done| |by eapply opened_owners|by eapply opened_only_changes].
  eapply Forall_impl; [exact Hall|]. cbn. intros r (_ & Hv & version & Hver & Hs). exists version. split; [done|].
  destruct Hs as [(c & Hc & Hid & Hcv)|[Hi Hn]].
  - rewrite <- Hid in Hv |- *. eauto using register_changes_installs.
  - eauto using only_changes_recorded.
Qed.

(** *** An installation from the store *)
Lemma plan_store_package_Ok s publisher name version ordered value :
  plan_store_package root_der now s publisher name version = Ok (ordered, value) ->
  exists installed, Registry.installed_packages (st_db s) None = Ok installed /\
    satisfies ordered (publisher, name, version) /\
    (forall rel, required root_der ordered rel -> satisfies ordered rel) /\
    Forall (verified_resource root_der now (default [] (as_array installed))) ordered.
Proof.
  unfold plan_store_package. intros Hp. simplify_ok.
  destruct (resolve _ _ _ _ _ _) as [[resources|]|] eqn:Hr; [|done..]. simplify_ok.
  match goal with Ho : order_packages _ _ = Ok ordered |- _ => apply order_loop_sound in Ho as [Hperm _]; [|done..] end.
  cbn [app] in Hperm. apply resolve_facts in Hr as (_ & _ & _ & Hver & Hroot & Hreq).
  eexists. split_and!; [done|..].
  - by apply (satisfies_perm _ _ _ Hperm).
  - intros rel Hrel. apply (satisfies_perm _ _ _ Hperm), Hreq. by apply (required_perm _ _ _ _ Hperm).
  - by rewrite Hperm.
Qed.

Lemma install_store_package_deploys io s publisher name version s' value :
  db_ok (st_db s) ->
  install_store_package root_der now load_lib io s publisher name version = (s', Ok value) ->
  db_ok (st_db s') /\
  exists installed resources,
    Registry.installed_packages (st_db s) None = Ok installed /\
    satisfies resources (publisher, name, version) /\
    (forall rel, required root_der resources rel -> satisfies resources rel) /\
    Forall (verified_resource root_der now (default [] (as_array installed))) resources /\
    Forall (deployed (st_db s')) resources /\
    owners_kept (st_db s) (st_db s') /\
    only_changes (map (short_name ∘ r_id) resources) (st_db s) (st_db s').
Proof.
  intros Hok. unfold install_store_package.
  destruct (plan_store_package _ _ _ _ _ _) as [[ordered v]|] eqn:Hplan; [|done].
  destruct (install_packages _ _ _ _ _ _) as [s1 [[]|]] eqn:Hi; [|done]. intros [= -> ->].
  apply plan_store_package_Ok in Hplan as (installed & Hinst & Hroot & Hreq & Hver).
  apply install_packages_deploys in Hi as (Hok' & Hall & Hown & Honly); [|done].
  split; [done|]. by exists installed, ordered.
Qed.
Lemma install_store_package_failed_db io s publisher name version s' e :
  install_store_package root_der now load_lib io s publisher name version = (s', Err e) ->
  opened (st_db s) (st_db s').
Proof.
  unfold install_store_package. destruct (plan_store_package _ _ _ _ _ _) as [[ordered v]|]; [|intros [= <- _]; by left].
  destruct (install_packages _ _ _ _ _ _) as [s1 [[]|]] eqn:Hi; [done|]. intros [= <- _].
  by apply install_packages_failed_db in Hi.
Qed.
Lemma deployed_root db resources publisher name version :
  Forall (deployed db) resources -> satisfies resources (publisher, name, version) ->
  installed_as db (publisher +:+ "/" +:+ name) version.
Proof.
  rewrite Forall_forall. intros Hall (r & Hin & Hid & Hver).
  destruct (Hall r Hin) as (version' & Hver' & Hinst%recorded_installed). rewrite Hid in Hinst.
  assert (version' = version) as -> by (cbn in Hver; congruence). done.
Qed.

End deploy.
