(* ===== verification/Capabilities.v ===== *)
(** * Permission declarations over HTTP ([src/routes/capabilities.rs],
      [package::require_owner])

    A request carries the verified peer ([Visitor]), the local authority and the
    body; the component of the Lib is read from disk. *)
From S2P Require Import Prelude RustStr Json Crates Errors Ids Manifest Metadata Signing Registry.

(** [access_control::Visitor] *)
Record visitor := Visitor { v_name : string; v_subject : string }.
(** A local or remote authority: name and certificates. *)
Record authority_ := Authority { au_name : string; au_certificates : list string }.
Record request := Request {
  rq_visitor : option visitor;
  rq_local : option authority_;        (* of the handshake, else the extension *)
  rq_method : string;
  rq_path : string;
  rq_query : option string;
  rq_content_type : option string;     (* the header, if it is text *)
  rq_body : string
}.

(** The endpoint that answers: its name, and its own authority or the error of
    [local_authority]. *)
Record endpoint := Endpoint { ep_name : string; ep_local : result string authority_ }.

Section capabilities.
Context `{DhttpHome, SerdeJson, UrlCrates, Sha2, Base64, Wasmparser, Oas3, X509, AccessControl}.

(** The visitor is the identity called [name] with the local certificate. *)
Definition is_owner (name : string) (v : visitor) (local : authority_) : Result unit :=
  let? ski := ok_or Denied (extract_ski (au_certificates local)) in
  throw Denied when negb (subject_ok (owner_hash ski));;
  throw Denied when negb (String.eqb (v_name v) name) || negb (String.eqb (v_subject v) (owner_hash ski));;
  Ok tt.
(** [package::require_owner], with the endpoint's own authority. *)
Definition require_owner (ep : endpoint) (v : option visitor) : Result unit :=
  let? v := ok_or Denied v in
  let? local := map_err Dhttp (ep_local ep) in
  is_owner (ep_name ep) v local.

(** *** [write_declarations] *)
Definition valid_text (v : json) : bool :=
  match as_str v with
  | Some text => negb (trim_is_empty text) && negb (existsb is_control (chars text))
  | None => false
  end.
Definition valid_title (title : json) : bool :=
  valid_text title
  || match as_object title with
     | Some values => Nat.eqb (length values) 2 && valid_text title.["en"] && valid_text title.["zh-CN"]
     | None => false
     end.
(** [endpoints]: what earlier operations of this request declared. *)
Definition declare_endpoint (available : list (string * string)) (s : list (string * string) * list (string * string))
    (operation : json) : Result (list (string * string) * list (string * string)) :=
  let '(endpoints, declared) := s in
  throw (BadRequest "endpoint requires exactly method and path") when
    match as_object operation with Some o => negb (Nat.eqb (length o) 2) | None => true end;;
  let? method := ok_or (BadRequest "invalid endpoint method") (as_str operation.["method"]) in
  let? path := ok_or (BadRequest "invalid endpoint path") (as_str operation.["path"]) in
  throw (BadRequest "endpoint is unavailable or belongs to multiple groups") when
    negb (mem (method, path) available) || mem (method, path) endpoints;;
  Ok ((method, path) :: endpoints, declared ++ [(method, path)]).
Record declarations := Declarations { d_ids : list string; d_endpoints : list (string * string); d_rows : list capability }.
Definition declare (available : list (string * string)) (s : declarations) (group : json) : Result declarations :=
  let? object := ok_or (BadRequest "group requires exactly id, title and endpoints")
    (match as_object group with Some o => if Nat.eqb (length o) 3 then Some o else None | None => None end) in
  let? id := ok_or (BadRequest "invalid group id") (assoc "id" object ≫= as_str) in
  let? _ := valid_id id in
  throw (BadRequest "invalid or duplicate group id") when contains_char "/" id || mem id (d_ids s);;
  let title := group.["title"] in
  throw (BadRequest "title must be text or contain en and zh-CN text") when negb (valid_title title);;
  let? operations := ok_or (BadRequest "group must contain endpoints")
    (match assoc "endpoints" object ≫= as_array with Some (o :: os) => Some (o :: os) | _ => None end) in
  let? (endpoints, declared) := try_fold (declare_endpoint available) (d_endpoints s, []) operations in
  Ok (Declarations (id :: d_ids s) endpoints (d_rows s ++ [(id, text_or_json title, declared)])).

(** Every endpoint a group may name: the operations of the installed
    component, and the mount of the package's App. *)
Definition available_endpoints (name : string) (r : row) (component : Result string) : Result (list (string * string)) :=
  let standard := match row_author r with Some a => is_standard_author a | None => false end in
  let prefix := if standard then "/std" else "/" +:+ name in
  let? bytes := component in
  let? api := validate_lib bytes in
  Ok ((if has_app r then [("GET", "/app/" +:+ name)] else [])
      ++ flat_map (fun e => map (fun m => (m.1, prefix +:+ e.1)) (methods e.2)) (default [] (paths api))).

(** [component name]: the bytes of [lib/{name}.wasm] or [lib/std/{name}.wasm]. *)
Definition write_declarations (component : bool -> string -> Result string) (db : database) (name method : string)
    (groups : json) : Result database :=
  let installed := match package db !! name with Some r => if has_lib r then Some r else None | None => None end in
  let put := String.eqb method "PUT" in
  throw RouteNotFound when put && negb (bool_decide (is_Some installed));;
  let? groups := ok_or (BadRequest "permissions must be an array") (as_array groups) in
  let? available :=
    match installed with
    | Some r => if put && negb (bool_decide (groups = []))
                then available_endpoints name r (component (match row_author r with Some a => is_standard_author a | None => false end) name)
                else Ok []
    | None => Ok []
    end in
  let? s := try_fold (declare available) (Declarations [] [] []) groups in
  permissions name (d_rows s) db.

(** *** [write_request]: the new database and the response status *)
Definition content_type_json (header : option string) : bool :=
  match header with
  | Some value => eq_ignore_ascii_case (trim (first_segment ";" value)) "application/json"
  | None => false
  end.
Definition write_request (component : bool -> string -> Result string) (db : database) (rq : request) : Result (database * Z) :=
  let? v := ok_or Denied (rq_visitor rq) in
  let? local := ok_or MissingHandshake (rq_local rq) in
  let? _ := is_owner (au_name local) v local in
  let query := form_parse (default "" (rq_query rq)) in
  let? name := ok_or (BadRequest "exactly one Lib name is required")
    (match query with
     | [(key, value)] => if String.eqb key "name" && negb (contains_char "/" value) then Some value else None
     | _ => None
     end) in
  let? _ := valid_id name in
  let put := String.eqb (rq_method rq) "PUT" in
  if put && negb (content_type_json (rq_content_type rq)) then Ok (db, 415) else
  throw (BadRequest "invalid or oversized permissions body") when
    slen (rq_body rq) >? (if put then 1024 * 1024 else 0);;
  let? groups := if put then ok_or (BadRequest "invalid permissions JSON") (from_slice (rq_body rq)) else Ok (JArr []) in
  let? db := write_declarations component db name (rq_method rq) groups in
  Ok (db, 204).
(** The status of the response: constraint violations are conflicts. *)
Definition write_status (component : bool -> string -> Result string) (db : database) (rq : request) : database * Z :=
  match write_request component db rq with
  | Ok (db, status) => (db, status)
  | Err (ConfigDatabase ConstraintViolation _) => (db, 409)
  | Err e => (db, status e)
  end.
End capabilities.

(** ** Properties *)
Section capability_facts.
Context `{DhttpHome, SerdeJson, UrlCrates, Sha2, Base64, Wasmparser, Oas3, X509, AccessControl}.

(** Endpoints declared so far: distinct, available, those of the rows. *)
Definition declarations_inv (available : list (string * string)) (s : declarations) : Prop :=
  NoDup (d_ids s) /\ d_ids s = rev (map (fun r : capability => r.1.1) (d_rows s)) /\
  NoDup (d_endpoints s) /\ d_endpoints s = rev (flat_map (fun r : capability => r.2) (d_rows s)) /\
  Forall (fun e => e ∈ available) (d_endpoints s).

Lemma declare_endpoints available e0 ops endpoints declared :
  NoDup e0 -> Forall (fun e => e ∈ available) e0 ->
  try_fold (declare_endpoint available) (e0, []) ops = Ok (endpoints, declared) ->
  NoDup endpoints /\ endpoints = rev declared ++ e0 /\ Forall (fun e => e ∈ available) endpoints /\
  (ops <> [] -> declared <> []).
Proof.
  intros Hnd Hav Hf.
  refine (try_fold_ind (declare_endpoint available) (fun pre (s : list (string * string) * list (string * string)) =>
    NoDup s.1 /\ s.1 = rev s.2 ++ e0 /\ Forall (fun e => e ∈ available) s.1 /\ (pre <> [] -> s.2 <> [])) (e0, []) _ _ ops (endpoints, declared) Hf).
  - done.
  - intros pre op [e d] s' (H1' & H2' & H3' & _) Hs. cbn in *. unfold declare_endpoint in Hs. simplify_ok. simplify_bool. simplify_mem. cbn.
    split_and!; [by constructor| |by constructor|by destruct d].
    rewrite rev_app_distr. cbn. done.
Qed.

Lemma declare_inv available s group s' :
  declarations_inv available s -> declare available s group = Ok s' -> declarations_inv available s'.
Proof.
  intros (I1 & I2 & I3 & I4 & I5) Hs. unfold declare in Hs. simplify_ok.
  match goal with Hf : try_fold _ _ _ = Ok ?p |- _ =>
    destruct p as [endpoints declared]; apply declare_endpoints in Hf as (G1 & G2 & G3 & _); [|done|done] end.
  simplify_ok. simplify_bool. simplify_mem.
  unfold declarations_inv. cbn. rewrite map_app, flat_map_app, !rev_app_distr. cbn. rewrite app_nil_r.
  split_and!; [by constructor|by rewrite <- I2|done|by rewrite I4|done].
Qed.

Lemma declare_all available groups s :
  try_fold (declare available) (Declarations [] [] []) groups = Ok s -> declarations_inv available s.
Proof.
  apply (try_fold_ind _ (fun _ => declarations_inv available)).
  - split_and!; try done; constructor.
  - intros. by eapply declare_inv.
Qed.

(** Writing an installed Lib's access declarations succeeds only for a registered Lib, changes no
    registration and no other package's assignments, and assigns only operations that the Lib's
    component really offers. *)
Theorem write_declarations_sound component db name groups db' :
  write_declarations component db name "PUT" groups = Ok db' ->
  exists r, package db !! name = Some r /\ has_lib r = true /\
    same_registrations db db' /\
    (forall e lib c, lib <> name ->
       lib_capability_operation db' !! e = Some (lib, c) <-> lib_capability_operation db !! e = Some (lib, c)) /\
    (forall e c, lib_capability_operation db' !! e = Some (name, c) ->
       exists available, available_endpoints name r
         (component (match row_author r with Some a => is_standard_author a | None => false end) name) = Ok available /\
       e ∈ available).
Proof.
  unfold write_declarations. intros Hw. cbn [String.eqb Ascii.eqb Bool.eqb andb] in Hw. simplify_ok. simplify_bool.
  match goal with Hi : is_Some _ |- _ => destruct Hi as [r Hr] end. rewrite Hr in *.
  destruct (package db !! name) as [r0|] eqn:Hp; [|done]. destruct (has_lib r0) eqn:Hlib; [|done].
  injection Hr as ->. exists r. split; [done|]. split; [done|].
  match goal with Hf : try_fold _ _ _ = Ok _ |- _ => pose proof (declare_all _ _ _ Hf) as (_ & _ & _ & Hends & Hav) end.
  pose proof (permissions_inv _ _ _ _ Hw) as (Hsame & _ & Hop).
  split; [done|]. split.
  - intros e lib c Hne. rewrite Hop. cbn. naive_solver.
  - intros e c [[? _]|(_ & title & eps & Hin & He)]%Hop; [done|]. cbn in Hin.
    assert (e ∈ d_endpoints a1) as He'.
    { rewrite Hends, <- Permutation_rev. apply list_elem_of_In, in_flat_map.
      exists (c, title, eps). by rewrite <- !list_elem_of_In. }
    rewrite Forall_forall in Hav. specialize (Hav e He').
    destruct (bool_decide (a = [])); cbn [negb] in *; [simplify_ok; by apply not_elem_of_nil in Hav|eauto].
Qed.

(** A declaration write that succeeds came from the endpoint's owner: same name as the local identity,
    subject equal to its owner hash. *)
Theorem write_request_owner_only component db rq db' st :
  write_request component db rq = Ok (db', st) ->
  exists v local ski, rq_visitor rq = Some v /\ rq_local rq = Some local /\
    extract_ski (au_certificates local) = Some ski /\
    v_name v = au_name local /\ v_subject v = owner_hash ski.
Proof.
  unfold write_request. intros Hw. simplify_ok.
  match goal with Ho : is_owner _ _ _ = Ok _ |- _ => unfold is_owner in Ho end. simplify_ok. simplify_bool.
  do 3 eexists. by split_and!.
Qed.
End capability_facts.
