(* ===== verification/NetAddr.v ===== *)
(** * Socket addresses of the standard library

    [str::parse::<SocketAddr>], [Display] and [is_loopback], as
    [core::net::parser] defines them.  A parser takes the remaining input and
    returns the value and what is left. *)
From S2P Require Import Prelude RustStr Decimal.

Inductive socket_addr :=
| V4 (octets : list Z) (port : Z)
| V6 (segments : list Z) (scope : Z) (port : Z).

Definition input : Type := list ascii.
Definition parser (A : Type) : Type := input -> option (A * input).

Definition hex_digit_value (a : ascii) : option Z :=
  if is_ascii_digit a then Some (code a - 48)
  else if in_code_range 97 102 a then Some (code a - 87)
  else if in_code_range 65 70 a then Some (code a - 55)
  else None.
Definition digit_of (radix : Z) (a : ascii) : option Z :=
  match hex_digit_value a with Some d => if d <? radix then Some d else None | None => None end.

(** The digits at the front, their number and whether the value fits. *)
Fixpoint read_digits (radix max : Z) (value : option Z) (count : Z) (l : input) : option Z * Z * input :=
  match l with
  | a :: l' =>
      match digit_of radix a with
      | Some d =>
          let value := match value with
                       | Some v => if v * radix + d <=? max then Some (v * radix + d) else None
                       | None => None
                       end in
          read_digits radix max value (count + 1) l'
      | None => (value, count, l)
      end
  | [] => (value, count, [])
  end.
(** [read_number(radix, max_digits, allow_zero_prefix)] *)
Definition read_number (radix max : Z) (max_digits : option Z) (zero_prefix : bool) : parser Z := fun l =>
  let leading_zero := match l with a :: _ => Ascii.eqb a "0" | [] => false end in
  let '(value, count, rest) := read_digits radix max (Some 0) 0 l in
  match value with
  | Some v =>
      if (count =? 0) || match max_digits with Some m => m <? count | None => false end
         || (negb zero_prefix && leading_zero && (1 <? count))
      then None else Some (v, rest)
  | None => None
  end.
Definition read_char (c : ascii) : parser unit := fun l =>
  match l with a :: l => if Ascii.eqb a c then Some (tt, l) else None | [] => None end.
(** [read_separator(sep, index, inner)] *)
Definition read_separator {A} (c : ascii) (i : nat) (p : parser A) : parser A := fun l =>
  match i with
  | O => p l
  | _ => match read_char c l with Some (_, l) => p l | None => None end
  end.

Definition read_octet : parser Z := read_number 10 u8_max (Some 3) false.
Definition read_ipv4 : parser (list Z) := fun l =>
  match read_separator "." 0 read_octet l with
  | Some (a, l) =>
      match read_separator "." 1 read_octet l with
      | Some (b, l) =>
          match read_separator "." 2 read_octet l with
          | Some (c, l) =>
              match read_separator "." 3 read_octet l with
              | Some (d, l) => Some ([a; b; c; d], l)
              | None => None
              end
          | None => None
          end
      | None => None
      end
  | None => None
  end.

(** [read_groups] of at most [limit] groups from index [i]; the flag tells that
    an embedded IPv4 address ended it. *)
Fixpoint read_groups (todo : nat) (i limit : nat) (l : input) : list Z * bool * input :=
  match todo with
  | O => ([], false, l)
  | S todo =>
      match (if Nat.ltb i (limit - 1) then read_separator ":" i read_ipv4 l else None) with
      | Some ([a; b; c; d], l) => ([a * 256 + b; c * 256 + d], true, l)
      | _ =>
          match read_separator ":" i (read_number 16 u16_max (Some 4) true) l with
          | Some (g, l) => let '(gs, v4, l) := read_groups todo (S i) limit l in (g :: gs, v4, l)
          | None => ([], false, l)
          end
      end
  end.
Definition read_ipv6 : parser (list Z) := fun l =>
  let '(head, head_v4, l) := read_groups 8 0 8 l in
  if Nat.eqb (length head) 8 then Some (head, l)
  else if head_v4 then None
  else match l with
       | ":"%char :: ":"%char :: l =>
           let limit := (7 - length head)%nat in
           let '(tail, _, l) := read_groups limit 0 limit l in
           Some (head ++ replicate (8 - length head - length tail) 0 ++ tail, l)
       | _ => None
       end.

Definition read_port : parser Z := fun l =>
  match read_char ":" l with Some (_, l) => read_number 10 u16_max None true l | None => None end.
Definition read_scope : parser Z := fun l =>
  match read_char "%" l with Some (_, l) => read_number 10 u32_max None true l | None => None end.
Definition read_socket_v4 : parser socket_addr := fun l =>
  match read_ipv4 l with
  | Some (ip, l) => match read_port l with Some (port, l) => Some (V4 ip port, l) | None => None end
  | None => None
  end.
Definition read_socket_v6 : parser socket_addr := fun l =>
  match read_char "[" l with
  | Some (_, l) =>
      match read_ipv6 l with
      | Some (ip, l) =>
          let '(scope, l) := match read_scope l with Some (s, l) => (s, l) | None => (0, l) end in
          match read_char "]" l with
          | Some (_, l) => match read_port l with Some (port, l) => Some (V6 ip scope port, l) | None => None end
          | None => None
          end
      | None => None
      end
  | None => None
  end.
Definition parse_socket_addr (s : string) : option socket_addr :=
  match (match read_socket_v4 (bytes_of s) with Some r => Some r | None => read_socket_v6 (bytes_of s) end) with
  | Some (addr, []) => Some addr
  | _ => None
  end.

Definition is_loopback (a : socket_addr) : bool :=
  match a with
  | V4 (127 :: _) _ => true
  | V4 _ _ => false
  | V6 segments _ _ => bool_decide (segments = [0; 0; 0; 0; 0; 0; 0; 1])
  end.
Definition addr_port (a : socket_addr) : Z := match a with V4 _ p | V6 _ _ p => p end.

(** [Display] *)
Fixpoint show_hex_fuel (n : nat) (z : Z) (acc : string) : string :=
  match n with
  | O => acc
  | S n => let acc := String (hex_digit (z mod 16)) acc in
           if z / 16 =? 0 then acc else show_hex_fuel n (z / 16) acc
  end.
Definition show_hex (z : Z) : string := show_hex_fuel 4 z EmptyString.
Definition show_ipv4 (octets : list Z) : string := join "." (map show_Z octets).
(** The first longest run of zero segments: start and length. *)
Fixpoint zero_runs (i : nat) (current best : nat * nat) (l : list Z) : nat * nat :=
  match l with
  | [] => best
  | x :: l =>
      if x =? 0 then
        let current := ((if Nat.eqb current.2 0 then i else current.1), S current.2) in
        zero_runs (S i) current (if Nat.ltb best.2 current.2 then current else best) l
      else zero_runs (S i) (0, 0)%nat best l
  end.
Definition show_ipv6 (segments : list Z) : string :=
  match segments with
  | [0; 0; 0; 0; 0; 65535; a; b] => "::ffff:" +:+ show_ipv4 [a / 256; a mod 256; b / 256; b mod 256]
  | _ =>
      let '(start, len) := zero_runs 0 (0, 0)%nat (0, 0)%nat segments in
      let show l := join ":" (map show_hex l) in
      if Nat.ltb 1 len then show (take start segments) +:+ "::" +:+ show (drop (start + len) segments)
      else show segments
  end.
Definition show_socket_addr (a : socket_addr) : string :=
  match a with
  | V4 octets port => show_ipv4 octets +:+ ":" +:+ show_Z port
  | V6 segments scope port =>
      "[" +:+ show_ipv6 segments +:+ (if scope =? 0 then "" else "%" +:+ show_Z scope) +:+ "]:" +:+ show_Z port
  end.

Example parse_v4 : parse_socket_addr "127.0.0.1:8080" = Some (V4 [127; 0; 0; 1] 8080).
Proof. vm_compute. reflexivity. Qed.
Example parse_v4_zero : parse_socket_addr "127.0.00.1:8080" = None.
Proof. vm_compute. reflexivity. Qed.
Example parse_v6 : parse_socket_addr "[::1]:08080" = Some (V6 [0; 0; 0; 0; 0; 0; 0; 1] 0 8080).
Proof. vm_compute. reflexivity. Qed.
Example parse_v6_mapped : parse_socket_addr "[::ffff:1.2.3.4%7]:1" = Some (V6 [0; 0; 0; 0; 0; 65535; 258; 772] 7 1).
Proof. vm_compute. reflexivity. Qed.
Example parse_v6_full : parse_socket_addr "[1:2:3:4:5:6:7:8]:65535" = Some (V6 [1; 2; 3; 4; 5; 6; 7; 8] 0 65535).
Proof. vm_compute. reflexivity. Qed.
Example show_v6 : show_socket_addr (V6 [0; 0; 1; 0; 0; 0; 0; 10] 0 80) = "[0:0:1::a]:80".
Proof. vm_compute. reflexivity. Qed.
