(* ===== verification/Setup.v ===== *)
(** * The identity service configuration ([src/setup.rs])

    The setting database next to the package registry: creation and archiving
    of old schemas, reading, and the management operations of
    [/std/sys/listen] and [/std/sys/mount].  A missing database file is the
    [empty] one, which is what creating it yields.  File ownership and the
    SQLite pragmas are not modelled. *)
From S2P Require Import Prelude RustStr Json Crates Errors Ids Metadata Registry Capabilities NetAddr.

(** [ProxyLocation] and [ServerConfig] *)
Record ProxyLocation := { location : string; proxy_pass : uri_parts }.
Record ServerConfig := { listen : string; proxy_locations : list ProxyLocation }.

(** The three attached databases.  [occupied]: the setting database has objects
    of its own; [complete]: the six tables of the current schema exist. *)
Record settings := Settings {
  user_version : Z; occupied : bool; complete : bool;
  setting : gmap string string;
  registry : database;
  archived : list (Z * gmap string string * list (string * string)) (* .setting-v{n}-* *)
}.
Definition set_locations l db :=
  Database (package db) (package_dependency db) (lib_capability db) (lib_capability_operation db) l.
Definition with_setting m s := Settings (user_version s) (occupied s) (complete s) m (registry s) (archived s).
Definition with_locations l s :=
  Settings (user_version s) (occupied s) (complete s) (setting s) (set_locations l (registry s)) (archived s).

Section setup.
Context `{UrlCrates}.

(** *** Parsing *)
Definition valid_listen (value : string) : bool :=
  existsb (String.eqb value) ["loopback"; "internal"; "external"; "all"].
Definition valid_path (path : string) : bool :=
  starts_with "/" path
  && negb (contains_str "//" path)
  && negb (contains_any ["?"; "#"; "%"; "\"]%char path)
  && negb (existsb (fun p => String.eqb p "." || String.eqb p "..") (split_on "/" path))
  && negb (existsb (fun c => is_whitespace c || is_control c) (chars path)).
(** [location.strip_prefix("= ").unwrap_or(location)] *)
Definition bare_location (location : string) : string := default location (strip_prefix "= " location).

Definition local_address (address : option socket_addr) : bool :=
  match address with Some a => is_loopback a && negb (addr_port a =? 0) | None => false end.
Definition parse_proxy (s : list string * list ProxyLocation) (value : string * string)
    : Result (list string * list ProxyLocation) :=
  let '(seen, proxies) := s in
  let '(location, upstream) := value in
  let path := bare_location location in
  throw (InvalidConfig ("invalid or reserved proxy location: " +:+ location)) when
    negb (valid_path path) || mem location seen || reserved path;;
  let bare_address := parse_socket_addr upstream in
  let uri := match bare_address with Some a => "http://" +:+ show_socket_addr a | None => upstream end in
  let? parts := ok_or (InvalidConfig "invalid proxy URI") (uri_parse uri) in
  throw (InvalidConfig "proxy_pass must identify a local HTTP/TCP endpoint") when
    negb (bool_decide (scheme parts = Some "http"))
    || negb (local_address (authority parts ≫= parse_socket_addr))
    || contains_any ["?"; "#"; "$"]%char upstream;;
  let whole := bool_decide (is_Some bare_address)
               || match split_once_str "://" uri with Some (_, rest) => negb (contains_char "/" rest) | None => false end in
  let parts := if whole then UriParts (scheme parts) (authority parts) None else parts in
  Ok (location :: seen, proxies ++ [{| location := location; proxy_pass := parts |}]).
Definition location_leb (a b : ProxyLocation) : bool := String.leb (location a) (location b).
Definition parse_proxies (values : list (string * string)) : Result (list ProxyLocation) :=
  let? (_, proxies) := try_fold parse_proxy ([], []) values in
  Ok (sort_by location_leb proxies).

Definition proxy_fields (value : json) : Result (string * string) :=
  let? object := ok_or (BadRequest "invalid proxy fields")
    (match as_object value with Some o => if Nat.eqb (length o) 2 then Some o else None | None => None end) in
  let? location := ok_or (BadRequest "proxy location must be a string") (assoc "location" object ≫= as_str) in
  let? upstream := ok_or (BadRequest "proxy_pass must be a string") (assoc "proxy_pass" object ≫= as_str) in
  Ok (location, upstream).
Definition parse_proxy_json (payload : json) : Result (list ProxyLocation) :=
  let? values := ok_or (BadRequest "mount requires an array") (as_array payload) in
  let? values := try_map proxy_fields values in
  map_err (fun e => BadRequest (display e)) (parse_proxies values).
Definition upstream_text (proxy : ProxyLocation) : string :=
  default "" (scheme (proxy_pass proxy)) +:+ "://" +:+ default "" (authority (proxy_pass proxy))
    +:+ default "" (path_and_query (proxy_pass proxy)).
(** [.remove(0)] of the list parsed from one value *)
Definition parse_one (value : json) : Result ProxyLocation :=
  let? proxies := parse_proxy_json (JArr [value]) in
  match proxies with proxy :: _ => Ok proxy | [] => Err panicked end.

Definition listen_field (_ : unit) (field : string * json) : Result unit :=
  let valid := String.eqb field.1 "listen"
               && match as_str field.2 with
                  | Some mode => existsb (String.eqb mode) ["internal"; "external"; "all"; "off"]
                  | None => false
                  end in
  throw (BadRequest ("invalid listen field: " +:+ field.1)) when negb valid;;
  Ok tt.
Definition validate_listen_patch (payload : json) : Result unit :=
  let? object := ok_or (BadRequest "listen PATCH requires exactly one listen field")
    (match as_object payload with Some o => if Nat.eqb (length o) 1 then Some o else None | None => None end) in
  try_fold listen_field tt object.

(** *** Reading *)
Definition schema_error (version : Z) : error :=
  InvalidConfig ("unsupported schema " +:+ show_Z version
    +:+ "; reinitialize the identity service (existing data preserved)").
Definition read_config (s : settings) : Result ServerConfig :=
  throw (schema_error (user_version s)) when negb (user_version s =? 3);;
  let listen := default "off" (setting s !! "listen") in
  throw (InvalidConfig "invalid listen mode") when negb (String.eqb listen "off") && negb (valid_listen listen);;
  throw (InvalidConfig "disabled listening must have no KV record") when
    String.eqb listen "off" && bool_decide (is_Some (setting s !! "listen"));;
  let? proxies := parse_proxies (sort_by (fun a b => String.leb a.1 b.1) (proxy_location (registry s))) in
  Ok {| listen := listen; proxy_locations := proxies |}.

(** [path == mount || path.starts_with(mount/)] *)
Definition on_mount (mount : string) (proxy : ProxyLocation) : bool :=
  let path := bare_location (location proxy) in
  String.eqb path mount || starts_with (mount +:+ "/") path.
Definition package_names (select : row -> bool) (db : database) : list string :=
  sort_by String.leb (map row_name (filter (fun r => select r = true) (map_to_list (package db)).*2)).
Definition ordinary_lib (r : row) : bool :=
  has_lib r && match row_author r with
               | Some a => negb (String.eqb a "std.dhttp.net") && negb (String.eqb a "dev.genmeta.tech.dhttp.net")
               | None => true
               end.
Definition check_mounts (kind prefix : string) (proxies : list ProxyLocation) (_ : unit) (name : string) : Result unit :=
  let mount := prefix +:+ name in
  match find (on_mount mount) proxies with
  | Some proxy => Err (InvalidConfig ("proxy " +:+ location proxy +:+ " conflicts with installed " +:+ kind +:+ " " +:+ mount))
  | None => Ok tt
  end.
Definition check_proxy_mounts (db : database) (proxies : list ProxyLocation) : Result unit :=
  throw (InvalidConfig "proxy cannot occupy /std") when existsb (fun p => reserved (bare_location (location p))) proxies;;
  let? _ := try_fold (check_mounts "App" "/app/" proxies) tt (package_names has_app db) in
  try_fold (check_mounts "Lib" "/" proxies) tt (package_names ordinary_lib db).
Definition upgrade_settings (s : settings) : Result unit :=
  let? config := read_config s in
  check_proxy_mounts (registry s) (proxy_locations config).
Definition read_server_config (s : settings) : Result ServerConfig :=
  let? config := read_config s in
  let? _ := check_proxy_mounts (registry s) (proxy_locations config) in
  Ok config.

(** *** Creation *)
Definition unsupported (version : Z) : error :=
  InvalidConfig ("unsupported configuration schema " +:+ show_Z version +:+ "; existing data preserved").
(** Schemas 1 and 2 are moved aside with their directory. *)
Definition archive (s : settings) : settings :=
  Settings 0 false false ∅ (set_locations [] (registry s))
    (archived s ++ [(user_version s, setting s, proxy_location (registry s))]).
Definition initialize_config (s : settings) : Result settings :=
  let? s := if (user_version s =? 1) || (user_version s =? 2) then Ok (archive s)
            else if negb (user_version s =? 3) && (negb (user_version s =? 0) || occupied s)
                 then Err (unsupported (user_version s)) else Ok s in
  if user_version s =? 3
  then if complete s then Ok s else Err (InvalidConfig "incomplete package registry schema")
  else Ok (Settings 3 true true (setting s) (registry s) (archived s)).
Definition open_config (writable : bool) (s : settings) : Result unit :=
  throw (schema_error (user_version s)) when
    negb (user_version s =? 3) && negb ((user_version s =? 0) && writable);;
  Ok tt.
Definition load_server_config (path : string) (s : settings) : settings * Result ServerConfig :=
  let in_context := map_err (fun e => InvalidConfig ("configuration database " +:+ path +:+ ": " +:+ display e)) in
  match initialize_config s with
  | Ok s => (s, in_context (let? _ := open_config false s in read_server_config s))
  | Err e => (s, in_context (Err e))
  end.

(** *** [config_database] *)
(** The rule an unmount names in its query. *)
Definition query_rule (method path : string) (query : option string) : Result (option ProxyLocation) :=
  match query with
  | None => Ok None
  | Some query =>
      throw (BadRequest "unsupported query parameters") when
        negb (String.eqb path "/std/sys/mount") || negb (String.eqb method "DELETE");;
      let params := form_parse query in
      let named key := filter (fun kv => kv.1 = key) params in
      throw (BadRequest "unmount requires exactly location and proxy_pass") when
        negb (Nat.eqb (length params) 2) || negb (Nat.eqb (length (named "location")) 1)
        || negb (Nat.eqb (length (named "proxy_pass")) 1);;
      let? location := ok_or panicked (assoc "location" params) in
      let? upstream := ok_or panicked (assoc "proxy_pass" params) in
      result_map Some (parse_one (jobj [("location", JStr location); ("proxy_pass", JStr upstream)]))
  end.
(** What a PATCH asks for, checked before the database is opened. *)
Definition patch_rule (method path : string) (payload : option json) : Result (option ProxyLocation) :=
  if String.eqb method "PATCH" then
    let? payload := ok_or (BadRequest "missing configuration") payload in
    if String.eqb path "/std/sys/listen" then result_map (fun _ => None) (validate_listen_patch payload)
    else result_map Some (parse_one payload)
  else if String.eqb method "DELETE" && bool_decide (payload = None) then Ok None
  else Err MethodNotAllowed.
Definition unmount (rule : ProxyLocation) (s : settings) : Result settings :=
  let? current := read_config s in
  match find (fun existing => String.eqb (location existing) (location rule)) (proxy_locations current) with
  | Some existing =>
      throw (conflict "mount upstream changed") when negb (String.eqb (upstream_text existing) (upstream_text rule));;
      Ok (with_locations (obj_remove (location rule) (proxy_location (registry s))) s)
  | None => Ok s
  end.
Definition mount (rule : ProxyLocation) (s : settings) : settings :=
  with_locations (obj_insert (location rule) (upstream_text rule)
    (obj_remove (location rule) (proxy_location (registry s)))) s.
Definition set_listen (payload : json) (s : settings) : Result settings :=
  let? mode := ok_or panicked (as_str payload.["listen"]) in
  Ok (if String.eqb mode "off" then with_setting (delete "listen" (setting s)) s
      else with_setting (<["listen" := mode]> (setting s)) s).
(** The statements of the transaction and its final checks. *)
Definition config_transaction (method : string) (deletion proxy : option ProxyLocation) (payload : option json)
    (s : settings) : Result (settings * ServerConfig) :=
  let? _ := upgrade_settings s in
  let? s :=
    if String.eqb method "DELETE" then
      match deletion with
      | Some rule => unmount rule s
      | None => Ok (with_setting (delete "listen" (setting s)) s)
      end
    else match proxy with
         | Some rule => Ok (mount rule s)
         | None => set_listen (default JNull payload) s
         end in
  let? config := read_config s in
  let? _ := check_proxy_mounts (registry s) (proxy_locations config) in
  Ok (s, config).
Definition config_json (path : string) (config : ServerConfig) : json :=
  if String.eqb path "/std/sys/listen" then jobj [("listen", JStr (listen config))]
  else JArr (map (fun p => jobj [("location", JStr (location p)); ("proxy_pass", JStr (upstream_text p))])
               (proxy_locations config)).
(** Handing the database files to the owner of the identity ([inherit], the
    error of [inherit_config_files]) follows the creation of the schema and the
    end of the transaction; what was stored stays. *)
Definition handed_over {A} (inherit : option error) (a : A) : Result A :=
  match inherit with Some e => Err e | None => Ok a end.
Definition config_change (inherit : option error) (method : string) (deletion proxy : option ProxyLocation) (payload : option json)
    (s : settings) : settings * Result ServerConfig :=
  match initialize_config s with
  | Err e => (s, Err e)
  | Ok s' =>
      match (let? _ := if user_version s =? 3 then Ok tt else handed_over inherit tt in
             let? _ := open_config true s' in config_transaction method deletion proxy payload s') with
      | Ok (s', config) => (s', handed_over inherit config)
      | Err e => (s', Err e)
      end
  end.
Definition config_checks (method path : string) (query : option string) (payload : option json)
    : Result (option ProxyLocation * option ProxyLocation) :=
  throw RouteNotFound when negb (existsb (String.eqb path) ["/std/sys/listen"; "/std/sys/mount"]);;
  let? deletion := query_rule method path query in
  throw (BadRequest "unmount requires location and proxy_pass") when
    String.eqb path "/std/sys/mount" && String.eqb method "DELETE" && match deletion with Some _ => false | None => true end;;
  if String.eqb method "GET" then
    throw (BadRequest "GET does not accept a body") when bool_decide (is_Some payload);;
    Ok (deletion, None)
  else let? proxy := patch_rule method path payload in Ok (deletion, proxy).
Definition config_database (inherit : option error) (method path : string) (query : option string) (payload : option json) (s : settings)
    : settings * Result json :=
  match config_checks method path query payload with
  | Err e => (s, Err e)
  | Ok (deletion, proxy) =>
      let '(s, config) :=
        if String.eqb method "GET"
        then (s, let? _ := open_config false s in read_server_config s)
        else config_change inherit method deletion proxy payload s in
      (s, let? config := config in
          Ok (if String.eqb method "DELETE" then JNull else config_json path config))
  end.
End setup.

(** ** The management request *)
(** What the handler reads of a request.  A header value that is not text is
    [None]; the body is its bytes, or the error met while reading them. *)
Record config_rq := ConfigRq {
  cq_visitor : option visitor;
  cq_versions : list (option string);       (* accept-versions *)
  cq_method : string; cq_path : string; cq_query : option string;
  cq_content_type : option string;
  cq_body : result unit string
}.
Section config_request.
Context `{DhttpHome, SerdeJson, UrlCrates, AccessControl}.

Definition accept_version (supported : bool) (versions : option string) : Result bool :=
  let? versions := ok_or (BadRequest "invalid Accept-Versions") versions in
  Ok (supported || existsb (fun v => String.eqb (trim v) "v1") (split_on "," versions)).
Definition config_owner (ep : endpoint) (rq : config_rq) : Result unit :=
  require_owner ep (cq_visitor rq).
(** The early responses, then the payload; an early response is [inl]. *)
Definition config_payload (rq : config_rq) : Result (Z + option json) :=
  let? supported := try_fold accept_version false (cq_versions rq) in
  if negb (bool_decide (cq_versions rq = [])) && negb supported then Ok (inl 505) else
  if negb (existsb (String.eqb (cq_method rq)) ["GET"; "PATCH"; "DELETE"]) then Ok (inl 405) else
  let reading := String.eqb (cq_method rq) "GET" || String.eqb (cq_method rq) "DELETE" in
  if negb reading && negb (content_type_json (cq_content_type rq)) then Ok (inl 415) else
  match cq_body rq with
  | Err _ => Err (BadRequest "failed to read request body")
  | Ok bytes =>
      if slen bytes >? (if reading then 0 else 64 * 1024) then Ok (inl (if reading then 400 else 413)) else
      if reading then Ok (inr None)
      else let? payload := ok_or (BadRequest "invalid JSON") (from_slice bytes) in Ok (inr (Some payload))
  end.
Definition config_request (inherit : option error) (ep : endpoint) (rq : config_rq) (s : settings) : settings * Result (Z * option json) :=
  match (let? _ := config_owner ep rq in config_payload rq) with
  | Err e => (s, Err e)
  | Ok (inl status) => (s, Ok (status, None))
  | Ok (inr payload) =>
      let '(s, value) := config_database inherit (cq_method rq) (cq_path rq) (cq_query rq) payload s in
      (s, let? value := value in
          Ok (if String.eqb (cq_method rq) "DELETE" then (204, None) else (200, Some value)))
  end.
(** The handler's response: conflicts are 409, server errors hide their text. *)
Definition config_error (e : error) : Z * string :=
  let code := match e with Io InvalidInput _ => 409 | _ => status e end in
  (code, if is_server_error code then "configuration storage failed" else display e).
End config_request.

(** ** Properties *)
Section setup_facts.
Context `{UrlCrates}.

(** A mount the gateway may forward to: outside [/std], over plain HTTP to a
    loopback address with a port. *)
Definition local_proxy (p : ProxyLocation) : Prop :=
  valid_path (bare_location (location p)) = true /\ reserved (bare_location (location p)) = false /\
  scheme (proxy_pass p) = Some "http" /\
  exists text addr, authority (proxy_pass p) = Some text /\ parse_socket_addr text = Some addr /\
    is_loopback addr = true /\ addr_port addr <> 0.

Lemma parse_proxy_facts seen proxies v s' :
  parse_proxy (seen, proxies) v = Ok s' ->
  v.1 ∉ seen /\ exists p, s' = (v.1 :: seen, proxies ++ [p]) /\ location p = v.1 /\ local_proxy p.
Proof.
  destruct v as [l u]. unfold parse_proxy. intros Hp. simplify_ok. simplify_bool. simplify_mem.
  split; [done|]. eexists. split; [done|]. split; [done|]. unfold local_proxy. cbn.
  match goal with Ha : local_address (authority ?parts ≫= _) = true, Hs : scheme ?parts = _ |- _ =>
    assert (exists text addr, authority parts = Some text /\ parse_socket_addr text = Some addr /\
      is_loopback addr = true /\ addr_port addr <> 0) as Haddr;
    [ destruct (authority parts) as [t|]; cbn in Ha; [|done]; exists t;
      destruct (parse_socket_addr t) as [addr|]; cbn in Ha; [|done]; simplify_bool; eauto
    | by destruct (_ || _); cbn ]
  end.
Qed.

Lemma parse_all values seen proxies :
  try_fold parse_proxy ([], []) values = Ok (seen, proxies) ->
  seen = rev (map fst values) /\ NoDup (map fst values) /\ map location proxies = map fst values /\ Forall local_proxy proxies.
Proof.
  intros Hf. refine (try_fold_ind parse_proxy (fun pre s =>
    s.1 = rev (map fst pre) /\ NoDup (map fst pre) /\ map location s.2 = map fst pre /\ Forall local_proxy s.2)
    ([], []) _ _ values (seen, proxies) Hf).
  - repeat split; constructor.
  - intros pre v [sn ps] s' (I1 & I2 & I3 & I4) (Hn & p & -> & Hl & Hp)%parse_proxy_facts. cbn in *. subst sn.
    rewrite !map_app, rev_app_distr. cbn. rewrite I3, Hl.
    assert (v.1 ∉ map fst pre) by (by rewrite <- Permutation_rev in Hn).
    split_and!; [done| |done|].
    + apply NoDup_app. split_and!; [done| |apply NoDup_singleton]. intros x Hx ->%list_elem_of_singleton. done.
    + apply Forall_app. split; [done|]. constructor; [done|constructor].
Qed.

Lemma parse_proxies_facts values ps :
  parse_proxies values = Ok ps ->
  Forall local_proxy ps /\ map location ps ≡ₚ map fst values /\ NoDup (map location ps) /\
  StronglySorted (fun a b => location_leb a b = true) ps.
Proof.
  unfold parse_proxies. intros Hp. simplify_ok.
  match goal with Hf : try_fold _ _ _ = Ok ?s |- _ => destruct s as [seen proxies] end. simplify_ok.
  match goal with Hf : try_fold _ _ _ = Ok _ |- _ => apply parse_all in Hf as (_ & Hnd & Hmap & Hall) end.
  assert (map location (sort_by location_leb proxies) ≡ₚ map fst values) as Hperm
    by (by rewrite sort_by_Permutation, Hmap).
  split_and!; [by rewrite sort_by_Permutation|done|by rewrite Hperm|].
  apply sort_by_sorted; unfold location_leb.
  - intros x y. apply String.leb_total.
  - intros x y z. apply string_leb_trans.
Qed.

(** Removing and inserting rows of the location table. *)
Lemma assoc_obj_remove_ne {A} k k' (o : list (string * A)) : k <> k' -> assoc k' (obj_remove k o) = assoc k' o.
Proof.
  intros Hne. induction o as [|[k1 v1] o IH]; cbn; [done|].
  destruct (String.eqb_spec k k1) as [->|]; cbn; [|by rewrite IH].
  destruct (String.eqb_spec k' k1); congruence.
Qed.
Lemma assoc_obj_remove {A} k (o : list (string * A)) : NoDup (map fst o) -> assoc k (obj_remove k o) = None.
Proof.
  induction o as [|[k1 v1] o IH]; cbn; [done|]. rewrite NoDup_cons. intros [Hn Hnd].
  destruct (String.eqb_spec k k1) as [->|]; [by apply assoc_None|]. cbn.
  destruct (String.eqb_spec k k1); [done | by apply IH].
Qed.

Lemma read_config_facts s config :
  read_config s = Ok config ->
  user_version s = 3 /\ NoDup (map fst (proxy_location (registry s))) /\
  map location (proxy_locations config) ≡ₚ map fst (proxy_location (registry s)) /\
  Forall local_proxy (proxy_locations config) /\
  listen config = default "off" (setting s !! "listen") /\
  (setting s !! "listen" = None \/ exists mode, setting s !! "listen" = Some mode /\ valid_listen mode = true).
Proof.
  unfold read_config. intros Hr. simplify_ok. simplify_bool. cbn [listen proxy_locations].
  match goal with Hp : parse_proxies _ = Ok _ |- _ => apply parse_proxies_facts in Hp as (Hall & Hperm & Hnd & _) end.
  rewrite sort_by_Permutation in Hperm. split_and!; try done.
  - by rewrite <- Hperm.
  - destruct (setting s !! "listen") as [mode|] eqn:Hl; [right|by left]. exists mode. split; [done|]. cbn in *.
    destruct (String.eqb_spec mode "off") as [->|]; cbn in *; [by exfalso|].
    by simplify_bool.
Qed.

Lemma check_mounts_ok kind prefix proxies names :
  try_fold (check_mounts kind prefix proxies) tt names = Ok tt <->
  Forall (fun name => Forall (fun p => on_mount (prefix +:+ name) p = false) proxies) names.
Proof.
  induction names as [|name names IH]; cbn; [by split|]. rewrite Forall_cons. unfold check_mounts at 1.
  destruct (find _ proxies) as [p|] eqn:Hf.
  - apply find_some in Hf as [Hin Hm]. split; [done|]. intros [Hall _]. rewrite Forall_forall in Hall.
    apply list_elem_of_In in Hin. by rewrite (Hall p Hin) in Hm.
  - rewrite IH. split; [|by intros []]. intros Hn. split; [|done]. apply Forall_forall.
    intros p Hp. apply list_elem_of_In in Hp. by eapply find_none in Hf.
Qed.
Lemma package_names_elem select db name :
  name ∈ package_names select db <-> exists k r, package db !! k = Some r /\ select r = true /\ row_name r = name.
Proof.
  unfold package_names. rewrite elem_of_sort_by, list_elem_of_In, in_map_iff. split.
  - intros (r & <- & [Hs Hr]%list_elem_of_In%list_elem_of_filter). apply list_elem_of_fmap in Hr as ([k r'] & -> & Hk%elem_of_map_to_list). eauto.
  - intros (k & r & Hk & Hs & <-). exists r. split; [done|]. apply list_elem_of_In, list_elem_of_filter. split; [done|].
    apply list_elem_of_fmap. exists (k, r). split; [done|]. by apply elem_of_map_to_list.
Qed.
(** A location beside every installed App and ordinary Lib. *)
Definition off_mounts (db : database) (p : ProxyLocation) : Prop :=
  reserved (bare_location (location p)) = false /\
  forall k r, package db !! k = Some r ->
    (has_app r = true -> on_mount ("/app/" +:+ row_name r) p = false) /\
    (ordinary_lib r = true -> on_mount ("/" +:+ row_name r) p = false).
Lemma check_proxy_mounts_ok db ps : check_proxy_mounts db ps = Ok tt <-> Forall (off_mounts db) ps.
Proof.
  unfold check_proxy_mounts. rewrite Forall_forall. split.
  - intros Hc. simplify_ok. match goal with u : unit |- _ => destruct u end.
    repeat match goal with Hm : try_fold _ _ _ = Ok tt |- _ => apply check_mounts_ok in Hm; rewrite Forall_forall in Hm end.
    match goal with Hr : existsb _ _ = false |- _ => apply negb_existsb in Hr; rewrite Forall_forall in Hr end.
    intros p Hp. split; [by auto|]. intros k r Hk. setoid_rewrite Forall_forall in E.
    match goal with Hl : forall x, x ∈ package_names ordinary_lib db -> _ |- _ => setoid_rewrite Forall_forall in Hl end.
    split; intros; [eapply E|]; eauto; try (apply package_names_elem; eauto).
    match goal with Hl : forall x, x ∈ package_names ordinary_lib db -> _ |- _ => eapply Hl end; [|done].
    apply package_names_elem. eauto.
  - intros Hall.
    rewrite (proj2 (negb_existsb _ _)); [|apply Forall_forall; intros p Hp; by apply Hall].
    rewrite (proj2 (check_mounts_ok "App" _ _ _)).
    + apply check_mounts_ok, Forall_forall. intros name (k & r & Hk & Hs & <-)%package_names_elem.
      apply Forall_forall. intros p Hp. by eapply Hall.
    + apply Forall_forall. intros name (k & r & Hk & Hs & <-)%package_names_elem.
      apply Forall_forall. intros p Hp. by eapply Hall.
Qed.

(** What no management operation touches. *)
Definition same_packages (s s' : settings) : Prop :=
  user_version s' = user_version s /\ complete s' = complete s /\ archived s' = archived s /\
  package (registry s') = package (registry s) /\
  package_dependency (registry s') = package_dependency (registry s) /\
  lib_capability (registry s') = lib_capability (registry s) /\
  lib_capability_operation (registry s') = lib_capability_operation (registry s).
Lemma same_packages_refl s : same_packages s s.
Proof. by repeat split. Qed.

Lemma read_server_config_ok s config :
  read_server_config s = Ok config <->
  read_config s = Ok config /\ check_proxy_mounts (registry s) (proxy_locations config) = Ok tt.
Proof.
  unfold read_server_config. split.
  - intros Hr. simplify_ok. match goal with u : unit |- _ => destruct u end. done.
  - by intros [-> ->].
Qed.

(** The changes of a transaction that commits. *)
Lemma config_transaction_facts method deletion proxy payload s s' config :
  config_transaction method deletion proxy payload s = Ok (s', config) ->
  same_packages s s' /\ read_server_config s' = Ok config /\ (exists config0, read_server_config s = Ok config0).
Proof.
  unfold config_transaction. intros Hc. simplify_ok.
  match goal with Hu : upgrade_settings _ = Ok _ |- _ => unfold upgrade_settings in Hu; simplify_ok end.
  repeat match goal with u : unit |- _ => destruct u end.
  rewrite read_server_config_ok. split_and!; try done.
  - repeat match goal with
      Hx : (if String.eqb method _ then _ else _) = Ok _ |- _ => destruct (String.eqb method "DELETE")
    | Hx : match deletion with _ => _ end = Ok _ |- _ => destruct deletion
    | Hx : match proxy with _ => _ end = Ok _ |- _ => destruct proxy
    | Hx : unmount _ _ = Ok _ |- _ => unfold unmount in Hx; simplify_ok
    | Hx : match find ?f ?l with _ => _ end = Ok _ |- _ => destruct (find f l)
    | Hx : set_listen _ _ = Ok _ |- _ => unfold set_listen in Hx; simplify_ok; destruct (String.eqb _ _)
    end; simplify_ok; by repeat split.
  - eexists. by apply read_server_config_ok.
Qed.

(** The settings after a change, or unchanged: they read back, with only local
    upstreams and no location in an installed package's place; no package row
    is another. *)
Definition stored (s0 s' : settings) (config : ServerConfig) : Prop :=
  same_packages s0 s' /\ read_server_config s' = Ok config /\ Forall local_proxy (proxy_locations config) /\
  Forall (off_mounts (registry s')) (proxy_locations config).
Lemma read_back s config :
  read_server_config s = Ok config ->
  Forall local_proxy (proxy_locations config) /\ Forall (off_mounts (registry s)) (proxy_locations config).
Proof.
  intros [Hr Hm]%read_server_config_ok. apply read_config_facts in Hr.
  split; [apply Hr | by apply check_proxy_mounts_ok].
Qed.
Lemma config_change_facts inherit method deletion proxy payload s s' r :
  config_change inherit method deletion proxy payload s = (s', r) ->
  match r with
  | Ok config => exists s0, initialize_config s = Ok s0 /\ stored s0 s' config /\
      config_transaction method deletion proxy payload s0 = Ok (s', config)
  | Err e => s' = s \/ initialize_config s = Ok s' \/
      (inherit = Some e /\ exists s0 config, initialize_config s = Ok s0 /\ stored s0 s' config /\
         config_transaction method deletion proxy payload s0 = Ok (s', config))
  end.
Proof.
  unfold config_change. destruct (initialize_config s) as [s0|e0]; [|intros [= <- <-]; by left].
  destruct (if user_version s =? 3 then _ else _) as [u|e1]; cbn; [|intros [= <- <-]; by right; left].
  destruct (open_config true s0); cbn; [|intros [= <- <-]; by right; left].
  destruct (config_transaction _ _ _ _ s0) as [[s1 config]|] eqn:Ht; intros [= <- <-]; [|by right; left].
  pose proof (config_transaction_facts _ _ _ _ _ _ _ Ht) as (Hs & Hr & _).
  assert (stored s0 s1 config) as Hst by (destruct (read_back _ _ Hr); by split_and!).
  destruct inherit as [e|]; cbn; [right; right; split; [done|]; by exists s0, config|by exists s0].
Qed.

(** C40: Every management request on the configuration either fails and leaves the settings unchanged
    (or merely initialised); or fails only because handing the database files to the owner of the
    identity failed after the commit, which leaves the change stored; or leaves settings that read back,
    with only local upstreams and no location in an installed package's place, answers what is stored,
    and changes no package row. A change that was stored although the request failed is sound in the
    same way; a GET changes nothing. *)
Theorem config_database_sound inherit method path query payload s s' r :
  config_database inherit method path query payload s = (s', r) ->
  match r with
  | Err e => s' = s \/ initialize_config s = Ok s' \/
      (inherit = Some e /\ method <> "GET" /\ exists s0 config, initialize_config s = Ok s0 /\ stored s0 s' config)
  | Ok v => exists s0 config, (s0 = s \/ initialize_config s = Ok s0) /\ stored s0 s' config /\
      (method = "GET" -> s' = s) /\
      v = if String.eqb method "DELETE" then JNull else config_json path config
  end.
Proof.
  unfold config_database. destruct (config_checks _ _ _ _) as [[deletion proxy]|]; [|intros [= <- <-]; by left].
  destruct (String.eqb_spec method "GET") as [->|Hne].
  - destruct (open_config false s); cbn; [|intros [= <- <-]; by left].
    destruct (read_server_config s) as [config|] eqn:Hr; intros [= <- <-]; [|by left].
    exists s, config. destruct (read_back _ _ Hr). split_and!; auto. by split_and!; auto using same_packages_refl.
  - destruct (config_change _ _ _ _ _ s) as [s1 config] eqn:Hc. intros [= <- <-].
    apply config_change_facts in Hc. destruct config as [config|e].
    + destruct Hc as (s0 & Hi & Hs & _). exists s0, config. split_and!; auto; done.
    + destruct Hc as [?|[?|(He & s0 & config & ? & ? & _)]]; [by left|by right; left|]. right. right. split_and!; [done..|]. by exists s0, config.
Qed.

Lemma parse_one_facts value rule : parse_one value = Ok rule -> local_proxy rule.
Proof.
  unfold parse_one, parse_proxy_json. intros Hp. simplify_ok.
  match goal with Hm : match ?l with _ => _ end = Ok _ |- _ => destruct l as [|p l'] end; simplify_ok.
  match goal with Hm : parse_proxies _ = Ok _ |- _ => apply parse_proxies_facts in Hm as (Hall & _) end.
  by inversion Hall.
Qed.

(** A successful PATCH of a mount stores exactly the parsed rule under its location, keeps every other
    rule and setting, and the configuration read back lists exactly the stored locations. *)
Theorem config_mount_effect inherit payload s s' v :
  config_database inherit "PATCH" "/std/sys/mount" None (Some payload) s = (s', Ok v) ->
  exists s0 rule config, initialize_config s = Ok s0 /\ parse_one payload = Ok rule /\ local_proxy rule /\
    off_mounts (registry s0) rule /\
    (forall l, assoc l (proxy_location (registry s')) =
       if String.eqb l (location rule) then Some (upstream_text rule) else assoc l (proxy_location (registry s0))) /\
    setting s' = setting s0 /\ read_server_config s' = Ok config /\
    map location (proxy_locations config) ≡ₚ map fst (proxy_location (registry s')).
Proof.
  unfold config_database, config_checks, patch_rule. cbn -[parse_one config_json].
  destruct (parse_one payload) as [rule|] eqn:Hone; cbn -[config_json]; [|done].
  destruct (config_change _ _ _ _ _ s) as [s1 r] eqn:Hc. intros [= -> Hv].
  apply config_change_facts in Hc. destruct r as [config|]; [|done].
  destruct Hc as (s0 & Hi & (Hs & Hr & _) & Ht). exists s0, rule, config.
  assert (s' = mount rule s0) as ->.
  { unfold config_transaction in Ht. cbn -[mount] in Ht. simplify_ok. done. }
  pose proof Hr as [Hcfg Hmounts]%read_server_config_ok.
  apply read_config_facts in Hcfg as (_ & _ & Hperm & _).
  split_and!; try done.
  - by eapply parse_one_facts.
  - apply check_proxy_mounts_ok in Hmounts. cbn in Hmounts.
    rewrite Forall_forall in Hmounts.
    assert (location rule ∈ map location (proxy_locations config)) as (p & Heq & Hin)%list_elem_of_fmap.
    { rewrite Hperm. cbn. apply list_elem_of_fmap. exists (location rule, upstream_text rule). split; [done|].
      by apply assoc_In, assoc_obj_insert. }
    apply Hmounts in Hin. unfold off_mounts, on_mount. rewrite Heq. exact Hin.
  - intros l. cbn. destruct (String.eqb_spec l (location rule)) as [->|]; [by rewrite assoc_obj_insert|].
    by rewrite assoc_obj_insert_ne, assoc_obj_remove_ne by done.
Qed.

(** A successful DELETE of a mount removes exactly the rule named by the query, and only if its recorded
    upstream is the one named; every other rule and setting is kept. *)
Theorem config_unmount_effect inherit query s s' v :
  config_database inherit "DELETE" "/std/sys/mount" (Some query) None s = (s', Ok v) ->
  exists s0 rule current, initialize_config s = Ok s0 /\
    query_rule "DELETE" "/std/sys/mount" (Some query) = Ok (Some rule) /\
    read_config s0 = Ok current /\
    (forall existing, existing ∈ proxy_locations current -> location existing = location rule ->
       upstream_text existing = upstream_text rule) /\
    assoc (location rule) (proxy_location (registry s')) = None /\
    (forall l, l <> location rule -> assoc l (proxy_location (registry s')) = assoc l (proxy_location (registry s0))) /\
    setting s' = setting s0.
Proof.
  unfold config_database, config_checks. cbn -[query_rule config_json].
  destruct (query_rule _ _ _) as [[rule|]|] eqn:Hq; cbn -[config_json]; [|done|done].
  destruct (config_change _ _ _ _ _ s) as [s1 r] eqn:Hc. intros [= -> Hv].
  apply config_change_facts in Hc. destruct r as [config|]; [|done].
  destruct Hc as (s0 & Hi & (Hs & Hr & _) & Ht). unfold config_transaction in Ht. cbn in Ht. simplify_ok.
  match goal with Hu : unmount _ _ = Ok _ |- _ => unfold unmount in Hu; simplify_ok end.
  match goal with Hcur : read_config s0 = Ok ?c |- _ =>
    exists s0, rule, c; pose proof (read_config_facts _ _ Hcur) as (_ & Hnd & Hperm & _);
    assert (NoDup (map location (proxy_locations c))) as Hnd' by (by rewrite Hperm) end.
  destruct (find _ _) as [found|] eqn:Hf; simplify_ok; simplify_bool; split_and!; try done.
  - intros existing Hin Hl. apply find_some in Hf as [Hin'%list_elem_of_In Hl']. simplify_bool.
    assert (existing = found) as ->; [|done].
    apply list_elem_of_lookup in Hin as [i Hi']. apply list_elem_of_lookup in Hin' as [j Hj].
    assert (i = j) as ->; [|congruence].
    eapply (NoDup_lookup _ _ _ (location rule) Hnd'); rewrite list_lookup_fmap; [by rewrite Hi'; cbn; rewrite Hl|by rewrite Hj; cbn; rewrite Hl'].
  - cbn. by apply assoc_obj_remove.
  - intros l Hl. cbn. by apply assoc_obj_remove_ne.
  - intros existing Hin Hl. eapply find_none in Hf; [|by apply list_elem_of_In]. cbn in Hf. by simplify_bool.
  - apply assoc_None. rewrite <- Hperm. intros (p & Hl & Hin)%list_elem_of_fmap.
    eapply find_none in Hf; [|by apply list_elem_of_In]. cbn in Hf. by simplify_bool.
Qed.

(** No operation panics: the [unwrap]s and [remove(0)] are guarded. *)
Ltac break_err :=
  repeat match goal with
  | He : Err _ = Err _ |- _ => injection He as <-
  | He : Ok _ = Err _ |- _ => discriminate He
  | He : match ?x with _ => _ end = Err _ |- _ => destruct x eqn:?
  | He : ok_or _ ?x = Err _ |- _ => destruct x eqn:?; cbn in He
  | He : map_err _ ?x = Err _ |- _ => destruct x eqn:?; cbn in He
  | He : result_map _ ?x = Err _ |- _ => destruct x eqn:?; cbn in He
  end; try done.
Lemma parse_proxies_Err values e : parse_proxies values = Err e -> e <> panicked.
Proof.
  unfold parse_proxies. intros He. break_err.
  eapply (try_fold_Err parse_proxy (fun e => e <> panicked)); [|done].
  intros [seen ps] [l u] e' Hp. unfold parse_proxy in Hp. break_err.
Qed.
Lemma parse_one_Err value e : parse_one value = Err e -> e <> panicked.
Proof.
  unfold parse_one, parse_proxy_json. cbn. intros He. break_err.
  - simplify_ok. match goal with Hp : parse_proxies _ = Ok [] |- _ => apply parse_proxies_facts in Hp as (_ & Hperm & _) end.
    by apply Permutation_nil in Hperm.
  - unfold proxy_fields in *. break_err.
Qed.
Lemma read_config_Err s e : read_config s = Err e -> e <> panicked.
Proof. unfold read_config, schema_error. intros He. break_err. by eapply parse_proxies_Err. Qed.
Lemma check_proxy_mounts_Err db ps e : check_proxy_mounts db ps = Err e -> e <> panicked.
Proof.
  unfold check_proxy_mounts. intros He. break_err;
  (eapply (try_fold_Err _ (fun e => e <> panicked)); [|done]); intros ? name e' Hc; unfold check_mounts in Hc; break_err.
Qed.

Lemma one_named_assoc (params : list (string * string)) key :
  length (filter (fun kv => kv.1 = key) params) = 1%nat -> assoc key params <> None.
Proof.
  rewrite assoc_None. intros Hl Hn. destruct (filter _ params) as [|kv l] eqn:Hf; [done|].
  assert (kv ∈ filter (fun kv => kv.1 = key) params) as [Hk Hin]%list_elem_of_filter by (rewrite Hf; left).
  apply Hn, list_elem_of_fmap. eauto.
Qed.
Lemma query_rule_Err method path query e : query_rule method path query = Err e -> e <> panicked.
Proof.
  unfold query_rule. intros He. break_err.
  - by eapply parse_one_Err.
  - simplify_bool. by match goal with Ha : assoc ?k _ = None |- _ => apply one_named_assoc in Ha; [|by apply Nat.eqb_eq] end.
  - simplify_bool. by match goal with Ha : assoc ?k _ = None |- _ => apply one_named_assoc in Ha; [|by apply Nat.eqb_eq] end.
Qed.
Lemma config_checks_Err method path query payload e : config_checks method path query payload = Err e -> e <> panicked.
Proof.
  unfold config_checks, patch_rule. intros He. break_err.
  all: try by eapply query_rule_Err.
  all: try by eapply parse_one_Err.
  unfold validate_listen_patch in *. break_err.
  eapply (try_fold_Err listen_field (fun e => e <> panicked)); [|done].
  intros ? field e' Hf. unfold listen_field in Hf. break_err.
Qed.
(** A PATCH that is not a mount carries a listen mode. *)
Lemma config_checks_listen method path query payload deletion :
  config_checks method path query payload = Ok (deletion, None) -> method <> "GET" -> method <> "DELETE" ->
  exists mode, as_str (default JNull payload).["listen"] = Some mode.
Proof.
  unfold config_checks, patch_rule. intros Hc Hg Hd.
  destruct (String.eqb_spec method "GET"), (String.eqb_spec method "DELETE"); try done. cbn in Hc.
  destruct (String.eqb method "PATCH"); simplify_ok.
  destruct (String.eqb path "/std/sys/listen"); cbn in *;
    [|by destruct (parse_one _); cbn in *; simplify_ok].
  match goal with Hv : result_map _ (validate_listen_patch ?p) = _ |- _ =>
    destruct (validate_listen_patch p) eqn:Hok; [|done]; unfold validate_listen_patch in Hok end.
  simplify_ok. destruct (as_object _) as [o|] eqn:Ho; [|done].
  match goal with Hl : Nat.eqb _ _ = true |- _ => apply Nat.eqb_eq in Hl end.
  simplify_ok. match goal with Hl : length ?l = 1%nat |- _ => destruct l as [|[k v] [|]]; [done| |done] end.
  cbn in Hok. simplify_ok.
  unfold listen_field in *. simplify_ok. simplify_bool. cbn in *. subst.
  match goal with Ha : match as_str ?v with _ => _ end = true |- _ => destruct (as_str v) as [mode|] eqn:Hm; [|done] end.
  exists mode. match goal with Ha : as_object ?p = Some _ |- _ => destruct p; try done; injection Ha as -> end.
  by unfold index; cbn.
Qed.

(** No management request, whatever its method, path, query, payload and database contents, reaches a
    panicking branch (the unwraps and index expressions of the code). *)
Theorem config_database_no_panic inherit method path query payload s s' e :
  inherit <> Some panicked -> config_database inherit method path query payload s = (s', Err e) -> e <> panicked.
Proof.
  intros Hinherit. unfold config_database. destruct (config_checks _ _ _ _) as [[deletion proxy]|] eqn:Hc;
    [|intros [= _ <-]; by eapply config_checks_Err].
  destruct (String.eqb_spec method "GET") as [->|Hg].
  - intros [= _ He]. unfold open_config, schema_error, read_server_config in He. break_err; eauto using read_config_Err, check_proxy_mounts_Err.
  - destruct (config_change _ _ _ _ _ s) as [s1 r] eqn:Hch. intros [= _ He]. destruct r; [done|]. injection He as ->.
    unfold config_change in Hch. destruct (initialize_config s) as [s0|e0] eqn:Hi.
    + destruct (let? _ := if user_version s =? 3 then _ else _ in _) as [[s2 config]|] eqn:Ht in Hch.
      { injection Hch as _ Hch. destruct inherit; [by injection Hch as ->; congruence|done]. }
      injection Hch as _ ->. unfold handed_over in Ht.
      unfold open_config, schema_error, config_transaction, upgrade_settings in Ht.
      break_err; eauto using read_config_Err, check_proxy_mounts_Err.
      * unfold unmount in *. break_err.
      * unfold set_listen in *. break_err.
        match goal with Hm : String.eqb method "DELETE" = false |- _ => apply String.eqb_neq in Hm;
          destruct (config_checks_listen _ _ _ _ _ Hc Hg Hm) as [mode ?] end. congruence.
      * congruence.
    + injection Hch as _ ->. unfold initialize_config, unsupported in Hi. break_err.
Qed.

End setup_facts.

Section creation_facts.
(** Initialising the configuration database leaves the schema at version 3, is idempotent, changes no
    package data, and either keeps the settings or, from an old version, archives them entirely before
    clearing them. *)
Theorem initialize_config_preserves s s' :
  initialize_config s = Ok s' ->
  user_version s' = 3 /\ complete s' = true /\ initialize_config s' = Ok s' /\
  package (registry s') = package (registry s) /\
  package_dependency (registry s') = package_dependency (registry s) /\
  lib_capability (registry s') = lib_capability (registry s) /\
  lib_capability_operation (registry s') = lib_capability_operation (registry s) /\
  ((setting s' = setting s /\ proxy_location (registry s') = proxy_location (registry s) /\ archived s' = archived s) \/
   ((user_version s = 1 \/ user_version s = 2) /\ setting s' = ∅ /\ proxy_location (registry s') = [] /\
    archived s' = archived s ++ [(user_version s, setting s, proxy_location (registry s))])).
Proof.
  destruct s as [ver occ com sett reg arch]. unfold initialize_config. cbn [user_version occupied complete].
  destruct ((ver =? 1) || (ver =? 2)) eqn:Hold.
  - intros [= <-]. cbn. split_and!; try done. right. apply orb_true_iff in Hold. rewrite !Z.eqb_eq in Hold. done.
  - destruct (negb (ver =? 3) && _) eqn:Hu; [done|]. cbn [user_version complete].
    destruct (Z.eqb_spec ver 3) as [->|Hne].
    + destruct com eqn:Hc; [|done]. intros [= <-]. split_and!; try done. by left.
    + intros [= <-]. cbn. split_and!; try done. by left.
Qed.
End creation_facts.

Section request_facts.
Context `{DhttpHome, SerdeJson, UrlCrates, AccessControl}.

(** A management request that is not refused came from the endpoint's owner, and only a PATCH or DELETE
    of the listen or mount resource changes the settings. *)
Theorem config_request_owner_only inherit ep rq s s' r :
  config_request inherit ep rq s = (s', r) ->
  (s' = s /\ exists e, r = Err e) \/
  exists v local ski, cq_visitor rq = Some v /\ ep_local ep = Ok local /\
    extract_ski (au_certificates local) = Some ski /\ v_name v = ep_name ep /\ v_subject v = owner_hash ski /\
    (s' <> s -> (cq_method rq = "PATCH" \/ cq_method rq = "DELETE") /\
       (cq_path rq = "/std/sys/listen" \/ cq_path rq = "/std/sys/mount")).
Proof.
  unfold config_request. intros Hr.
  destruct (config_owner ep rq) as [u|e] eqn:Ho; [|injection Hr as <- <-; left; eauto].
  unfold config_owner, require_owner, is_owner in Ho. simplify_ok. simplify_bool.
  right. do 3 eexists. split_and!; try done.
  intros Hne. destruct (config_payload rq) as [[st|payload]|e]; [by injection Hr| |by injection Hr].
  destruct (config_database _ _ _ _ _ s) as [s1 value] eqn:Hd. injection Hr as -> _.
  unfold config_database, config_checks in Hd.
  destruct (existsb (String.eqb (cq_path rq)) _) eqn:Hp; [|cbn in Hd; by injection Hd].
  cbn [negb] in Hd.
  assert (cq_path rq = "/std/sys/listen" \/ cq_path rq = "/std/sys/mount") as Hpath.
  { cbn in Hp. rewrite orb_false_r, orb_true_iff, !String.eqb_eq in Hp. done. }
  split; [|done].
  destruct (query_rule _ _ _); [|by injection Hd]. destruct (_ && _ && _); [by injection Hd|].
  destruct (String.eqb_spec (cq_method rq) "GET").
  - destruct (bool_decide _); injection Hd; congruence.
  - destruct (patch_rule _ _ _) eqn:Hpr; [|by injection Hd]. unfold patch_rule in Hpr.
    destruct (String.eqb_spec (cq_method rq) "PATCH"); [by left|].
    destruct (String.eqb_spec (cq_method rq) "DELETE"); [by right|done].
Qed.
End request_facts.
