(* ===== verification/Packages.v ===== *)
(** * The package management interface ([src/package.rs]
      [pkg_management_request], [pkg_management_router])

    [/std/sys/pkg], [/std/sys/pkg/list] and [/std/sys/pkg/install] over the
    state of [Install]: what a request asks for, what it does, and how errors
    are answered.  The registry is read through the setting database, which is
    a regular file. *)
From S2P Require Import Prelude RustStr Decimal Json Crates Errors Ids Manifest Waz Metadata Signing Store.
From S2P Require Import Registry Commit Opening Catalog Install Deploy Capabilities NetAddr Setup.

(** ** Data *)
(** What reading the body within the deadline yields: its bytes, whatever their
    number, or the failure met first. *)
Inductive body := Received (bytes : string) | Broken | Stalled.
Record pkg_rq := PkgRq {
  pq_visitor : option visitor;
  pq_versions : list (option string);       (* accept-versions *)
  pq_method : string; pq_path : string; pq_query : option string;
  pq_expected : option string;              (* expected-package-id, its bytes *)
  pq_content_type : option string;
  pq_trailer : bool;                        (* a Trailer header is there *)
  pq_body : body
}.
Inductive payload := NoBody | JsonBody (v : json) | TextBody (s : string).
Record reply := Reply { rp_status : Z; rp_headers : list (string * string); rp_body : payload }.

(** What a request asks for. *)
Inductive pkg_action :=
| InstallOf (publisher name version : string)
| ListAll
| ShowOf (name : string)
| RemoveOf (name : string) (expected : option string).

Section packages.
Context `{DhttpHome, SerdeJson, UrlCrates, Sha2, Base64, Wasmparser, Oas3, X509, AccessControl, Webpki, ZipCrate, StoreEndpoint, HeaderMap}.
Variable root_der : string.
Variable now : Z.
Variable load_lib : string -> string -> Result openapi.

(** ** The request *)
Definition installing (rq : pkg_rq) : bool := String.eqb (pq_path rq) "/std/sys/pkg/install".
Definition listing (rq : pkg_rq) : bool := ends_with "/list" (pq_path rq).
Definition allowed (rq : pkg_rq) : list string :=
  if installing rq then ["POST"] else if listing rq then ["GET"] else ["GET"; "DELETE"].

(** One item of the query; at most one name. *)
Definition name_item (no_query : bool) (id : option string) (item : string) : Result (option string) :=
  let? (key, value) := ok_or (BadRequest "expected name query parameter") (split_once "=" item) in
  throw (BadRequest "unsupported query parameters") when
    negb (String.eqb key "name") || bool_decide (is_Some id) || no_query;;
  let? name := ok_or (BadRequest "invalid package name encoding") (percent_decode_utf8 value) in
  Ok (Some name).
Definition query_name (rq : pkg_rq) : Result (option string) :=
  throw (BadRequest "install does not accept query parameters") when
    installing rq && bool_decide (is_Some (pq_query rq));;
  let? id := match pq_query rq with
             | Some query => try_fold (name_item (listing rq)) None (split_on "&" query)
             | None => Ok None
             end in
  let? _ := match id with
            | Some id =>
                let? _ := valid_id id in
                throw (BadRequest "name must be a local package short name") when contains_char "/" id;;
                Ok tt
            | None => Ok tt
            end in
  throw (BadRequest "missing name query parameter") when
    negb (installing rq) && negb (listing rq) && bool_decide (id = None);;
  throw (BadRequest "Expected-Package-Id is supported only for package removal") when
    bool_decide (is_Some (pq_expected rq)) && (negb (String.eqb (pq_method rq) "DELETE") || bool_decide (id = None));;
  Ok id.

(** The body of an installation: exactly an author, a name and a version. *)
Definition text_field (input : json) (key : string) : Result string :=
  ok_or (BadRequest ("missing " +:+ key)) (get key input ≫= as_str).
Definition install_action (bytes : string) : Result pkg_action :=
  let? input := ok_or (BadRequest "invalid store installation JSON") (from_slice bytes) in
  throw (BadRequest "installation requires only author, name and version") when
    match as_object input with
    | Some value => negb (Nat.eqb (length value) 3) || existsb (fun key => negb (mem key ["author"; "name"; "version"])) (keys value)
    | None => true
    end;;
  let? name := text_field input "name" in
  let? _ := valid_id name in
  throw (BadRequest "name must be a package short name") when contains_char "/" name;;
  let? author := text_field input "author" in
  let? version := text_field input "version" in
  Ok (InstallOf author name version).

Definition empty_reply (status : Z) : reply := Reply status [] NoBody.
(** The checks in their order: an early response ([inl]) or the action. *)
Definition pkg_action_of (ep : endpoint) (rq : pkg_rq) : Result (reply + pkg_action) :=
  let? _ := require_owner ep (pq_visitor rq) in
  let? supported := try_fold accept_version false (pq_versions rq) in
  if negb (bool_decide (pq_versions rq = [])) && negb supported then Ok (inl (empty_reply 505)) else
  if negb (mem (pq_method rq) (allowed rq))
  then Ok (inl (Reply 405 [("allow", join ", " (allowed rq))] NoBody)) else
  let? id := query_name rq in
  if installing rq && negb (content_type_json (pq_content_type rq)) then Ok (inl (empty_reply 415)) else
  throw (BadRequest "Lib management trailers are unsupported") when pq_trailer rq;;
  match pq_body rq with
  | Stalled => Err Deadline
  | Broken => Err (BadRequest "failed to read management request body")
  | Received bytes =>
      if slen bytes >? (if installing rq then 4096 else 0)
      then Ok (inl (empty_reply (if installing rq then 413 else 400)))
      else if installing rq then let? action := install_action bytes in Ok (inr action)
      else Ok (inr (match id with
                    | Some name => if String.eqb (pq_method rq) "GET" then ShowOf name else RemoveOf name (pq_expected rq)
                    | None => ListAll
                    end))
  end.

(** ** The actions *)
(** The API of the Lib, when it is loaded in the installed version. *)
Definition loaded_details (sb : sandbox) (value : json) : Result json :=
  let? id := ok_or panicked (str_at value "id") in
  match libs sb !! id with
  | Some api =>
      if bool_decide (str_at value "version" = Some (info_version api))
      then Ok (set_key "endpoints" (endpoints_json (catalog_prefix id) api) (set_key "openapi" (document api) value))
      else Ok value
  | None => Ok value
  end.
Definition package_id_header (value : json) : Result (list (string * string)) :=
  match get "id" value ≫= as_str with
  | Some id =>
      let? id := ok_or (InvalidConfig "invalid installed package ID") (header_value_parse id) in
      Ok [("package-id", id)]
  | None => Ok []
  end.
Definition show_catalog (s : state) (name : option string) : Result reply :=
  let? value := installed_catalog (st_db s) name in
  let? value := match name with Some _ => loaded_details (st_sandbox s) value | None => Ok value end in
  let? headers := package_id_header value in
  Ok (Reply 200 headers (JsonBody value)).

Definition unload (id : string) (sb : sandbox) : sandbox :=
  Sandbox (closed sb) (delete id (libs sb)) (delete id (apps sb)).
Definition remove_named (io : io_faults) (s : state) (name : string) (expected : option string) : state * Result unit :=
  let registered := registered_identity (st_db s) name in
  if bool_decide (is_Some expected) && negb (bool_decide (registered = expected)) then
    (s, Err (conflict "installed package identity changed; query the catalog before removing"))
  else if closed (st_sandbox s) then (s, Err Denied)
  else match registered with
  | None => (s, Ok tt)
  | Some id =>
      match valid_id id with
      | Err e => (s, Err e)
      | Ok _ =>
          if negb (String.eqb (short_name id) name) then (s, Err (InvalidConfig "invalid installed package name"))
          else match remove_package io s id with
          | (s, Ok _) => (set_sandbox (unload id (st_sandbox s)) s, Ok tt)
          | (s, Err e) => (s, Err e)
          end
      end
  end.
Definition perform (io : io_faults) (s : state) (action : pkg_action) : state * Result reply :=
  match action with
  | InstallOf author name version =>
      let '(s, value) := install_store_package root_der now load_lib io s author name version in
      (s, let? value := value in Ok (Reply 200 [] (JsonBody (author_dependencies (author_key value)))))
  | ListAll => (s, show_catalog s None)
  | ShowOf name => (s, show_catalog s (Some name))
  | RemoveOf name expected =>
      let '(s, result) := remove_named io s name expected in
      (s, let? _ := result in Ok (empty_reply 204))
  end.
Definition pkg_management_request (io : io_faults) (ep : endpoint) (s : state) (rq : pkg_rq) : state * Result reply :=
  match pkg_action_of ep rq with
  | Err e => (s, Err e)
  | Ok (inl reply) => (s, Ok reply)
  | Ok (inr action) => perform io s action
  end.

(** ** The answer *)
Definition error_json (code : string) (retryable : bool) : json :=
  jobj [("error", jobj [("code", JStr code); ("retryable", JBool retryable)])].
Definition error_reply (e : error) : reply :=
  match e with
  | PackagePolicy code status => Reply status [] (JsonBody (error_json code false))
  | SigningStatusUnavailable => Reply 503 [("retry-after", "30")] (JsonBody (error_json "signing_status_unavailable" true))
  | _ =>
      let status := match e with InvalidComponent _ => 400 | Io InvalidInput _ => 409 | _ => status e end in
      Reply status []
        (TextBody (if is_server_error status
                   then "Lib storage or compilation failed; query the resource to confirm the saved result" else display e))
  end.
Definition version_headers : list (string * string) :=
  [("cache-control", "no-store"); ("supported-versions", "v1"); ("pishoo-version", "0.9.1-preview.1")].
Definition pkg_handler (io : io_faults) (ep : endpoint) (s : state) (rq : pkg_rq) : state * reply :=
  let '(s, result) := pkg_management_request io ep s rq in
  let response := match result with Ok response => response | Err e => error_reply e end in
  (s, Reply (rp_status response) (rp_headers response ++ version_headers) (rp_body response)).
End packages.

(** ** The catalogue behind the interface

    What the management promises, without releases, files and journals: a
    catalogue of packages with their versions and the versions they need. *)
Record catalog := Catalog {
  c_packages : gmap string (string * string);        (* short name: id, version *)
  c_needs : gmap (string * string) string            (* package, dependency: version *)
}.
Definition view (db : database) : catalog :=
  Catalog ((fun r => (identity r, row_version r)) <$> package db) (package_dependency db).
Definition needs (c : catalog) (p d : string) : Prop := is_Some (c_needs c !! (p, d)).
(** Every need is satisfied in exactly its version, without cycles. *)
Definition coherent (c : catalog) : Prop :=
  (forall p d v, c_needs c !! (p, d) = Some v ->
     is_Some (c_packages c !! p) /\ exists id, c_packages c !! d = Some (id, v)) /\
  forall n, ~ tc (needs c) n n.
Definition outside (names : list string) (c c' : catalog) : Prop :=
  forall n, n ∉ names -> c_packages c' !! n = c_packages c !! n /\ forall d, c_needs c' !! (n, d) = c_needs c !! (n, d).

(** One request and whether it succeeded. *)
Inductive catalog_step (c : catalog) : pkg_action -> bool -> catalog -> Prop :=
| step_failed a : catalog_step c a false c
| step_list : catalog_step c ListAll true c
| step_show name : catalog_step c (ShowOf name) true c
| step_install publisher name version releases c' :
    (publisher +:+ "/" +:+ name, version) ∈ releases ->
    Forall (fun rel => c_packages c' !! short_name rel.1 = Some rel) releases ->
    outside (map (short_name ∘ fst) releases) c c' -> coherent c' ->
    catalog_step c (InstallOf publisher name version) true c'
| step_remove name expected id version :
    c_packages c !! name = Some (id, version) -> (expected = None \/ expected = Some id) ->
    (forall p, ~ needs c p name) ->
    catalog_step c (RemoveOf name expected) true
      (Catalog (delete name (c_packages c)) (filter (fun e => e.1.1 <> name) (c_needs c)))
| step_absent name :
    c_packages c !! name = None -> catalog_step c (RemoveOf name None) true c.
Inductive catalog_run : catalog -> list (pkg_action * bool) -> catalog -> Prop :=
| run_nil c : catalog_run c [] c
| run_cons c a b c' l c'' : catalog_step c a b c' -> catalog_run c' l c'' -> catalog_run c ((a, b) :: l) c''.

Section packages_facts.
Context `{DhttpHome, SerdeJson, UrlCrates, Sha2, Base64, Wasmparser, Oas3, X509, AccessControl, Webpki, ZipCrate, StoreEndpoint, HeaderMap}.
Variable root_der : string.
Variable now : Z.
Variable load_lib : string -> string -> Result openapi.
Local Abbreviation pkg_management_request := (pkg_management_request root_der now load_lib).
Local Abbreviation perform := (perform root_der now load_lib).

(** A series of requests, each with the I/O failures it meets, and what was
    asked for and achieved. *)
Fixpoint pkg_requests (ep : endpoint) (s : state) (rqs : list (io_faults * pkg_rq)) : state * list (pkg_action * bool) :=
  match rqs with
  | [] => (s, [])
  | (io, rq) :: rqs =>
      let '(s1, result) := pkg_management_request io ep s rq in
      let '(s2, trace) := pkg_requests ep s1 rqs in
      (s2, match pkg_action_of ep rq with Ok (inr a) => (a, is_ok result) :: trace | _ => trace end)
  end.

Lemma view_coherent db : db_ok db -> coherent (view db).
Proof.
  intros [_ _ Hd Ha _]. split; [|exact Ha]. cbn. intros p d v Hv. destruct (Hd p d v Hv) as [[r Hp] (r' & Hr' & Hver)].
  rewrite !lookup_fmap, Hp, Hr'. cbn. rewrite Hver. eauto.
Qed.
Lemma view_installed db id version digest :
  recorded db id version digest -> c_packages (view db) !! short_name id = Some (id, version).
Proof. intros (r & Hr & Hid & Hv & _). cbn. rewrite lookup_fmap, Hr. cbn. by rewrite Hid, Hv. Qed.
(** Opening the registry moves operations, which the catalogue does not see. *)
Lemma opened_view db db' : opened db db' -> view db' = view db.
Proof. intros [(Hp & Hd & _) _]%opened_ok. unfold view. by rewrite Hp, Hd. Qed.
Lemma view_outside names db db' : only_changes names db db' -> outside names (view db) (view db').
Proof. intros Ho n Hn. destruct (Ho n Hn) as [Hp Hd]. split; [|exact Hd]. cbn. by rewrite !lookup_fmap, Hp. Qed.

(** The releases of deployed packages. *)
Lemma deployed_releases db resources :
  Forall (deployed db) resources ->
  exists releases, map fst releases = map r_id resources /\
    Forall (fun rel => c_packages (view db) !! short_name rel.1 = Some rel) releases /\
    (forall r version, r ∈ resources -> str_at (r_proof r) "version" = Some version -> (r_id r, version) ∈ releases).
Proof.
  induction 1 as [|r resources (version & Hver & Hinst) _ (releases & Hids & Hall & Hin)].
  { exists []. split_and!; [done|constructor|by intros r v ?%not_elem_of_nil]. }
  exists ((r_id r, version) :: releases). split_and!.
  - cbn. by rewrite Hids.
  - constructor; [by eapply view_installed|done].
  - intros r' v [->|Hr]%elem_of_cons Hv; [|right; by apply Hin]. assert (v = version) as -> by congruence. left.
Qed.

Lemma install_refines io s publisher name version s' value :
  db_ok (st_db s) ->
  install_store_package root_der now load_lib io s publisher name version = (s', value) ->
  db_ok (st_db s') /\ catalog_step (view (st_db s)) (InstallOf publisher name version) (is_ok value) (view (st_db s')).
Proof.
  intros Hok Hi. destruct value as [value|e].
  - apply install_store_package_deploys in Hi as (Hok' & installed & resources & _ & Hroot & _ & _ & Hall & _ & Honly); [|done].
    split; [done|]. destruct (deployed_releases _ _ Hall) as (releases & Hids & Hrel & Hin).
    destruct Hroot as (r & Hr & Hid & Hver). apply (step_install _ _ _ _ releases); [|done| |by apply view_coherent].
    + change (publisher +:+ "/" +:+ name) with (release_id (publisher, name, version)). rewrite <- Hid. by apply Hin.
    + assert (map (short_name ∘ fst) releases = map (short_name ∘ r_id) resources) as ->; [|by apply view_outside].
      trans (map short_name (map fst releases)); [by rewrite map_map|]. by rewrite Hids, map_map.
  - apply install_store_package_failed_db in Hi as Hopen. rewrite (opened_view _ _ Hopen).
    apply opened_ok in Hopen as [_ ?]. split; [auto|constructor].
Qed.

Lemma delete_view db db' name :
  package db' = delete name (package db) ->
  (forall p d, package_dependency db' !! (p, d) = if decide (p = name) then None else package_dependency db !! (p, d)) ->
  view db' = Catalog (delete name (c_packages (view db))) (filter (fun e => e.1.1 <> name) (c_needs (view db))).
Proof.
  intros Hp Hd. unfold view. rewrite Hp, fmap_delete. f_equal. apply map_eq. intros [p d]. rewrite Hd. symmetry.
  destruct (decide (p = name)) as [->|Hne]; cbn.
  - apply map_lookup_filter_None. right. by intros v _ [].
  - destruct (package_dependency db !! (p, d)) eqn:Hv;
      [by apply map_lookup_filter_Some|apply map_lookup_filter_None; by left].
Qed.
(** A removal did what the catalogue says, or nothing to the registry. *)
Definition removed (db : database) (s' : state) (id : string) (result : Result unit) : Prop :=
  match result with
  | Ok _ => db_ok (st_db s') /\ (forall p, ~ needs (view db) p (short_name id)) /\
      view (st_db s') = Catalog (delete (short_name id) (c_packages (view db)))
        (filter (fun e => e.1.1 <> short_name id) (c_needs (view db)))
  | Err _ => st_db s' = db
  end.
Lemma remove_registered_removed io s id s' result :
  db_ok (st_db s) -> remove_registered io s id = (s', result) -> removed (st_db s) s' id result.
Proof.
  intros Hok Hx. unfold remove_registered in Hx. pose proof (unregister_facts id _ Hok) as Hun.
  destruct (io_stage io); [by injection Hx as <- <-|]. cbn beta iota in Hx.
  destruct (referenced (short_name id) (st_db s)) eqn:Href.
  { rewrite Hun in Hx. by injection Hx as <- <-. }
  destruct Hun as (tx & Htx & Hok' & Hp & Hd & _). rewrite Htx in Hx.
  destruct (commit_packages_files _ _ _) as [w' [u'|e']] eqn:Hc; injection Hx as <- <-; cbn.
  - apply commit_succeeded in Hc as [-> _]. split_and!; [done| |by apply delete_view].
    intros p Hn. assert (referenced (short_name id) (st_db s) = true); [|congruence].
    apply referenced_spec. by exists p.
  - by apply commit_failed_db in Hc.
Qed.
Lemma remove_package_removed io s id s' result r :
  db_ok (st_db s) -> package (st_db s) !! short_name id = Some r -> identity r = id ->
  remove_package io s id = (s', result) -> exists db, opened (st_db s) db /\ removed db s' id result.
Proof.
  intros Hok Hr Hid. unfold remove_package.
  destruct (valid_id id) as [u|e]; [|intros [= <- <-]; exists (st_db s); split; [by left|done]].
  destruct (open_registry io s) as [s1 r1] eqn:Ho. apply open_registry_opened in Ho as (db & -> & Hopen).
  intros Hx. exists db. split; [done|]. destruct r1 as [u1|e]; [|by injection Hx as <- <-].
  apply opened_ok in Hopen as [(Hp & _) Hok1]. rewrite <- Hp in Hr. specialize (Hok1 Hok).
  destruct (registered_packages _ _ _) as [rows|[]] eqn:Hreg; try (by apply (remove_registered_removed io (set_db db s))).
  exfalso. by apply (registered_packages_missing _ _ _ _ Hreg Hr).
Qed.

Lemma remove_named_refines io s name expected s' result :
  db_ok (st_db s) -> remove_named io s name expected = (s', result) ->
  db_ok (st_db s') /\ catalog_step (view (st_db s)) (RemoveOf name expected) (is_ok result) (view (st_db s')).
Proof.
  intros Hok. unfold remove_named, registered_identity.
  assert (forall s1 e, (s1, Err e) = (s', result) -> opened (st_db s) (st_db s1) ->
    db_ok (st_db s') /\ catalog_step (view (st_db s)) (RemoveOf name expected) (is_ok result) (view (st_db s'))) as Hfail.
  { intros s1 e [= <- <-] Hopen. rewrite (opened_view _ _ Hopen). apply opened_ok in Hopen as [_ ?]. split; [auto|constructor]. }
  assert (opened (st_db s) (st_db s)) as Hsame by by left.
  destruct (bool_decide (is_Some expected) && _) eqn:Hexp; [intros Hx; by apply (Hfail _ _ Hx)|].
  destruct (closed _); [intros Hx; by apply (Hfail _ _ Hx)|].
  destruct (package (st_db s) !! name) as [r|] eqn:Hr; cbn in Hexp |- *.
  2: { intros [= <- <-]. split; [done|]. destruct expected; [by simplify_bool|]. apply step_absent. cbn. by rewrite lookup_fmap, Hr. }
  assert (expected = None \/ expected = Some (identity r)) as Hid.
  { destruct expected as [e|]; [right|by left]. rewrite bool_decide_true in Hexp by done. cbn in Hexp. simplify_bool. congruence. }
  destruct (valid_id (identity r)) as [u|e]; [|intros Hx; by apply (Hfail _ _ Hx)].
  destruct (negb (String.eqb _ _)) eqn:Hshort; [intros Hx; by apply (Hfail _ _ Hx)|]. simplify_bool.
  destruct (remove_package io s (identity r)) as [s1 result1] eqn:Hrem.
  rewrite <- Hshort in Hr. pose proof (remove_package_removed _ _ _ _ _ _ Hok Hr eq_refl Hrem) as Hres.
  destruct Hres as (db & Hopen & Hres).
  destruct result1 as [u1|e]; [|intros Hx; apply (Hfail _ _ Hx); by rewrite Hres]. intros [= <- <-]. cbn [st_db set_sandbox is_ok].
  unfold removed in Hres. rewrite (opened_view _ _ Hopen) in Hres. destruct Hres as (Hok' & Hneeds & ->). split; [done|]. rewrite Hshort in *.
  apply (step_remove _ _ _ (identity r) (row_version r)); [|done..].
  cbn. by rewrite lookup_fmap, Hr.
Qed.

Lemma show_catalog_unchanged io s a s' result :
  perform io s a = (s', result) -> (exists name, a = ShowOf name) \/ a = ListAll -> s' = s.
Proof. intros Hp [[name ->]| ->]; cbn in Hp; by injection Hp as <- _. Qed.
Lemma perform_refines io s a s' result :
  db_ok (st_db s) -> perform io s a = (s', result) ->
  db_ok (st_db s') /\ catalog_step (view (st_db s)) a (is_ok result) (view (st_db s')).
Proof.
  intros Hok Hp. destruct a as [publisher name version| |name|name expected]; cbn in Hp.
  - destruct (install_store_package _ _ _ _ _ _ _ _) as [s1 value] eqn:Hi. injection Hp as <- <-.
    apply install_refines in Hi; [|done]. by destruct value.
  - injection Hp as <- <-. split; [done|]. destruct (is_ok _); constructor.
  - injection Hp as <- <-. split; [done|]. destruct (is_ok _); constructor.
  - destruct (remove_named _ _ _ _) as [s1 value] eqn:Hi. injection Hp as <- <-.
    apply remove_named_refines in Hi; [|done]. by destruct value.
Qed.

(** C2: Any series of management requests, whatever they ask for and whatever file operations fail, acts
    on the registry like a catalogue of packages with their versions and needs: an installation that
    succeeds makes its releases present and the catalogue stays coherent, a removal takes exactly one
    package that nothing needs, a failed request changes nothing. *)
Theorem package_requests_refine ep s rqs s' trace :
  db_ok (st_db s) -> pkg_requests ep s rqs = (s', trace) ->
  db_ok (st_db s') /\ coherent (view (st_db s')) /\ catalog_run (view (st_db s)) trace (view (st_db s')).
Proof.
  intros Hok Hrun. enough (db_ok (st_db s') /\ catalog_run (view (st_db s)) trace (view (st_db s'))) as [Hok' Hcat]
    by (split_and!; [done|by apply view_coherent|done]).
  revert s s' trace Hok Hrun. induction rqs as [|[io rq] rqs IH]; intros s s' trace Hok Hrun; cbn in Hrun.
  { injection Hrun as <- <-. split; [done|constructor]. }
  destruct (pkg_management_request io ep s rq) as [s1 result] eqn:Hrq.
  destruct (pkg_requests ep s1 rqs) as [s2 trace2] eqn:Hrest. injection Hrun as <- <-.
  unfold Packages.pkg_management_request in Hrq. destruct (pkg_action_of ep rq) as [[early|a]|e].
  - injection Hrq as <- <-. by apply IH in Hrest.
  - apply perform_refines in Hrq as [Hok1 Hstep]; [|done]. apply IH in Hrest as [Hok2 Hcat]; [|done].
    split; [done|]. by econstructor.
  - injection Hrq as <- <-. by apply IH in Hrest.
Qed.

Lemma require_owner_Ok ep v u :
  require_owner ep v = Ok u ->
  exists v' local, v = Some v' /\ ep_local ep = Ok local /\ is_owner (ep_name ep) v' local = Ok tt.
Proof.
  unfold require_owner. intros Ho. simplify_ok. destruct (ep_local ep) as [local|]; [|done]. simplify_ok.
  eexists _, _. split_and!; [done..|]. by destruct u.
Qed.
Lemma pkg_action_of_facts ep rq a :
  pkg_action_of ep rq = Ok (inr a) ->
  require_owner ep (pq_visitor rq) = Ok tt /\ pq_method rq ∈ allowed rq /\
  exists id, query_name rq = Ok id /\
    if installing rq then exists bytes, install_action bytes = Ok a
    else a = match id with
             | Some name => if String.eqb (pq_method rq) "GET" then ShowOf name else RemoveOf name (pq_expected rq)
             | None => ListAll
             end.
Proof.
  unfold pkg_action_of. intros Ha. simplify_ok. destruct (_ && negb _); [done|].
  destruct (mem _ _) eqn:Hm; cbn in Ha; [|done]. simplify_ok. destruct (_ && negb _); [done|]. simplify_ok.
  destruct (pq_body rq) as [bytes| |]; [|done..]. destruct (_ >? _); [done|].
  split; [match goal with Hu : require_owner _ _ = Ok ?u |- _ => by destruct u end|].
  split; [by apply mem_true|]. eexists. split; [done|]. destruct (installing rq); simplify_ok; eauto.
Qed.

(** A management request that changes anything came from the owner of the endpoint, and was a POST to
    the installation resource or a DELETE naming one package. *)
Theorem pkg_request_owner_only io ep s rq s' result :
  pkg_management_request io ep s rq = (s', result) -> s' <> s ->
  (exists v local, pq_visitor rq = Some v /\ ep_local ep = Ok local /\ is_owner (ep_name ep) v local = Ok tt) /\
  ((pq_path rq = "/std/sys/pkg/install" /\ pq_method rq = "POST") \/
   (pq_path rq <> "/std/sys/pkg/install" /\ pq_method rq = "DELETE" /\ exists name, query_name rq = Ok (Some name))).
Proof.
  unfold Packages.pkg_management_request. intros Hrq Hne.
  destruct (pkg_action_of ep rq) as [[early|a]|e] eqn:Ha; [by injection Hrq as <- _| |by injection Hrq as <- _].
  assert (~ ((exists name, a = ShowOf name) \/ a = ListAll)) as Hchange
    by (intros Hread; by apply Hne, (show_catalog_unchanged _ _ _ _ _ Hrq)).
  apply pkg_action_of_facts in Ha as (Howner & Hmethod & id & Hid & Ha). split; [by eapply require_owner_Ok|].
  unfold allowed in Hmethod. destruct (installing rq) eqn:Hinst; unfold installing in Hinst; simplify_bool.
  { left. by apply list_elem_of_singleton in Hmethod. }
  right. split; [done|]. destruct id as [name|]; [|by exfalso; apply Hchange; right].
  destruct (String.eqb_spec (pq_method rq) "GET"); [exfalso; apply Hchange; left; by exists name|].
  split; [|by exists name]. destruct (listing rq).
  - by apply list_elem_of_singleton in Hmethod.
  - by apply elem_of_cons in Hmethod as [?|?%list_elem_of_singleton].
Qed.
End packages_facts.
