(* ===== verification/Startup.v ===== *)
(** * Starting up ([src/sandbox.rs] [load_libs], [src/package/files.rs]
      [disk_bytes], [installed_apps], [src/server/files.rs]
      [recover_package_files])

    A start first recovers the journals that are left, hands over packages of
    older releases, and loads the Libs and Apps of the identity from the
    registry and the files on disk.  Whatever was installed and removed before,
    a restart finds the same packages the running server had loaded, unless a
    journal outlived the transaction it belongs to ([stale_journal_restores]). *)
From S2P Require Import Prelude RustStr Decimal Json Crates Errors Ids Manifest Waz Metadata Signing Store.
From S2P Require Import Registry Commit Opening Install Legacy Deploy Capabilities Catalog Packages.

(** ** Loading *)
(** [Sandbox::new] and [Sandbox::close]. *)
Definition new_sandbox : sandbox := Sandbox false ∅ ∅.
Definition close (sb : sandbox) : sandbox := Sandbox true ∅ ∅.

(** *** The journals that are left
    Recovery finds the backups and candidates in the stage, and the targets
    where they are on disk. *)
Definition at_target (c : option content) (s : slot) : slot := Slot (s_old s) (s_new s) c (s_backup s) (s_candidate s).
Definition placed_member (disk : gmap string content) (m : member) : member :=
  Member (m_id m) (m_directory m) (at_target (disk !! resource_path "lib" (m_id m)) (m_lib m))
    (at_target (disk !! resource_path "app" (m_id m)) (m_app m)).
Definition stage_world (s : state) (sg : stage) : world :=
  World (map (placed_member (st_disk s)) (sg_members sg)) (Some (sg_journal sg)) true (st_db s).
Definition set_stages (stages : list stage) (s : state) : state :=
  State (st_db s) (st_crls s) (st_disk s) (st_sandbox s) stages.
(** What the start finds: the files of packages of older releases (with the
    fuel of the walk over them), and the errors of opening the registry. *)
Record start_env := StartEnv { se_files : runtime_files; se_fuel : nat; se_open : open_faults }.

Section startup.
Context `{DhttpHome, SerdeJson, Sha2, Base64, Wasmparser, Oas3, X509}.
Variable env : start_env.
(** [Lib::load] of an id and its component. *)
Variable load_lib : string -> string -> Result openapi.

(** [SELECT .. FROM lib ORDER BY author, name] *)
Definition lib_order (a b : row) : bool :=
  if bool_decide (row_author a = row_author b) then String.leb (row_name a) (row_name b)
  else opt_string_leb (row_author a) (row_author b).
Definition registered_libs (db : database) : list string :=
  map identity (sort_by lib_order (filter (fun r => has_lib r = true) (map_to_list (package db)).*2)).
Definition disk_bytes (db : database) (disk : gmap string content) (id : string) : Result string :=
  let? _ := valid_id id in
  let? metadata := registered_metadata db id in
  throw RouteNotFound when negb (is_true metadata.["has_lib"]);;
  let? file := ok_or missing_file (disk !! resource_path "lib" id ≫= assoc (short_name id +:+ ".wasm")) in
  read_runtime_wasm file.
Definition load_registered (db : database) (disk : gmap string content) (candidates : gmap string openapi) (id : string) :
    Result (gmap string openapi) :=
  let? bytes := disk_bytes db disk id in
  let? lib := load_lib id bytes in
  Ok (<[id := lib]> candidates).
Definition open_app (db : database) (disk : gmap string content) (apps : gmap string string) (entry : string * string) :
    Result (gmap string string) :=
  let? metadata := registered_metadata db (fst entry) in
  let? version := ok_or expanded_error (as_str metadata.["version"]) in
  throw missing_file when bool_decide (disk !! resource_path "app" (fst entry) = None);;
  Ok (<[fst entry := version]> apps).
Definition installed_apps (db : database) (disk : gmap string content) (id : option string) : Result (gmap string string) :=
  let? _ := match id with Some id => valid_id id | None => Ok tt end in
  let? ids := registered_packages db "app" id in
  try_fold (open_app db disk) ∅ ids.
(** Both are loaded before the sandbox changes. *)
Definition load_libs (s : state) : state * Result unit :=
  match migrate_legacy_packages (se_files env) (se_fuel env) (se_open env) (st_db s) with
  | (db, Err e) => (set_db db s, Err e)
  | (db, Ok _) =>
      let s := set_db db s in
      match (let? libs := try_fold (load_registered (st_db s) (st_disk s)) ∅ (registered_libs (st_db s)) in
             let? apps := installed_apps (st_db s) (st_disk s) None in
             Ok (libs, apps)) with
      | Ok (libs, apps) => (set_sandbox (Sandbox (closed (st_sandbox s)) libs apps) s, Ok tt)
      | Err e => (s, Err e)
      end
  end.
(** The loop of [recover_package_files] over the stages. *)
Fixpoint recover_stages (stages : list stage) (s : state) : state * Result unit :=
  match stages with
  | [] => (set_stages [] s, Ok tt)
  | sg :: rest =>
      match recover_package_files (stage_world s sg) with
      | Err e => (set_stages stages s, Err e)
      | Ok w => recover_stages rest (after_commit w s)
      end
  end.
(** A start over what an earlier process left. *)
Definition restart (s : state) : state * Result unit :=
  match recover_stages (st_stages s) (set_sandbox new_sandbox s) with
  | (s, Err e) => (s, Err e)
  | (s, Ok _) => load_libs s
  end.
End startup.

(** ** The running sandbox and the disk *)
Section startup_facts.
Context `{DhttpHome, SerdeJson, UrlCrates, Sha2, Base64, Wasmparser, Oas3, X509, AccessControl, Webpki, ZipCrate, StoreEndpoint, HeaderMap}.
Variable root_der : string.
Variable now : Z.
Variable load_lib : string -> string -> Result openapi.
Variable env : start_env.
Local Abbreviation load_libs := (load_libs env load_lib).
Local Abbreviation restart := (restart env load_lib).

(** The file of a registered Lib holds a component that loads as what is
    loaded; the directory of a registered App exists; nothing else is loaded. *)
Definition lib_synced (disk : gmap string content) (sb : sandbox) (r : row) : Prop :=
  if has_lib r
  then exists wasm api, disk !! resource_path "lib" (identity r) = Some [(short_name (identity r) +:+ ".wasm", wasm)] /\
         slen wasm <= 64 * mib /\ load_lib (identity r) wasm = Ok api /\ libs sb !! identity r = Some api
  else libs sb !! identity r = None.
Definition app_synced (disk : gmap string content) (sb : sandbox) (r : row) : Prop :=
  if has_app r
  then is_Some (disk !! resource_path "app" (identity r)) /\ apps sb !! identity r = Some (row_version r)
  else apps sb !! identity r = None.
Record synced_at (rows : gmap string row) (disk : gmap string content) (sb : sandbox) : Prop := {
  sy_rows : forall n r, rows !! n = Some r ->
    short_name (identity r) = n /\ valid_id (identity r) = Ok tt /\ lib_synced disk sb r /\ app_synced disk sb r;
  sy_loaded : forall id, is_Some (libs sb !! id) \/ is_Some (apps sb !! id) ->
    exists r, rows !! short_name id = Some r /\ identity r = id }.
Definition synced (s : state) : Prop := synced_at (package (st_db s)) (st_disk s) (st_sandbox s).

(** *** A synchronised state is what start-up loads *)
Lemma registered_metadata_row db n r :
  db_ok db -> package db !! n = Some r ->
  exists metadata, registered_metadata db (identity r) = Ok metadata /\ is_true metadata.["has_lib"] = has_lib r /\
    as_str metadata.["version"] = Some (row_version r).
Proof.
  intros Hok Hr. unfold registered_metadata.
  destruct (find _ _) as [r'|] eqn:Hf.
  - apply find_some in Hf as [Hin Hid%String.eqb_eq]. apply list_elem_of_In, list_elem_of_fmap in Hin as ([n' r2] & -> & Hin%elem_of_map_to_list).
    cbn in Hid |- *. pose proof (short_name_identity _ _ _ Hok Hin) as Hn'. pose proof (short_name_identity _ _ _ Hok Hr) as Hn.
    rewrite Hid in Hn'. assert (n' = n) as -> by congruence. assert (r2 = r) as -> by congruence.
    eexists. split; [done|]. destruct (has_app r); rewrite ?index_set_key_ne by done; split; try done; by destruct (has_lib r).
  - exfalso. eapply find_none in Hf; [|apply list_elem_of_In, list_elem_of_fmap; exists (n, r); split; [done|by apply elem_of_map_to_list]].
    by rewrite String.eqb_refl in Hf.
Qed.
Lemma elem_of_registered_libs db id :
  id ∈ registered_libs db <-> exists n r, package db !! n = Some r /\ has_lib r = true /\ identity r = id.
Proof.
  unfold registered_libs. split.
  - intros (r & -> & Hin)%list_elem_of_fmap. rewrite elem_of_sort_by, list_elem_of_filter in Hin. destruct Hin as [Hl ([n r'] & -> & Hin%elem_of_map_to_list)%list_elem_of_fmap].
    eauto.
  - intros (n & r & Hr & Hl & <-). apply list_elem_of_fmap_2. rewrite elem_of_sort_by, list_elem_of_filter. split; [done|].
    apply list_elem_of_fmap. exists (n, r). split; [done|by apply elem_of_map_to_list].
Qed.
(** The libraries are read one after the other into the map. *)
Lemma load_registered_all s ids candidates :
  db_ok (st_db s) -> synced s -> (forall id, id ∈ ids -> id ∈ registered_libs (st_db s)) ->
  exists m, try_fold (load_registered load_lib (st_db s) (st_disk s)) candidates ids = Ok m /\
    forall id, m !! id = if decide (id ∈ ids) then libs (st_sandbox s) !! id else candidates !! id.
Proof.
  intros Hok Hsy. revert candidates. induction ids as [|id ids IH]; intros candidates Hin; cbn [try_fold].
  { exists candidates. split; [done|]. intros id. by rewrite decide_False by apply not_elem_of_nil. }
  destruct (proj1 (elem_of_registered_libs _ _) (Hin id ltac:(left))) as (n & r & Hr & Hl & <-).
  destruct (sy_rows _ _ _ Hsy n r Hr) as (_ & Hv & Hlib & _). unfold lib_synced in Hlib. rewrite Hl in Hlib.
  destruct Hlib as (wasm & api & Hd & Hs & Ha & Hloaded).
  destruct (registered_metadata_row _ _ _ Hok Hr) as (metadata & Hm & Hhas & _).
  assert (load_registered load_lib (st_db s) (st_disk s) candidates (identity r) = Ok (<[identity r := api]> candidates)) as ->.
  { unfold load_registered, disk_bytes, read_runtime_wasm. rewrite Hv, Hm, Hhas, Hl, Hd. cbn. rewrite String.eqb_refl. cbn.
    rewrite Z.gtb_ltb, (proj2 (Z.ltb_ge _ _)) by done. cbn. by rewrite Ha. }
  destruct (IH (<[identity r := api]> candidates)) as (m & Hm' & Hlook); [intros; apply Hin; by right|].
  exists m. split; [done|]. intros id. rewrite Hlook. destruct (decide (id = identity r)) as [->|Hne].
  - rewrite (decide_True _ _ (list_elem_of_here _ _)). rewrite lookup_insert_eq, Hloaded. by case_decide.
  - rewrite lookup_insert_ne by done. repeat case_decide; set_solver.
Qed.
Lemma registered_record_all db rows records :
  db_ok db -> (forall r, r ∈ rows -> package db !! row_name r = Some r /\ valid_id (identity r) = Ok tt) ->
  NoDup (map row_name rows) -> (forall r e, r ∈ rows -> e ∈ records -> short_name e.1 <> row_name r) ->
  try_fold registered_record records rows = Ok (records ++ map (fun r => (identity r, row_version r)) rows).
Proof.
  intros Hok. revert records. induction rows as [|r rows IH]; intros records Hrows Hnd Hother; cbn [try_fold map]; [by rewrite app_nil_r|].
  destruct (Hrows r ltac:(left)) as [Hr Hv]. cbn in Hnd. apply NoDup_cons in Hnd as [Hfresh Hnd].
  assert (registered_record records r = Ok (records ++ [(identity r, row_version r)])) as ->.
  { unfold registered_record. rewrite Hv, (short_name_identity _ _ _ Hok Hr), String.eqb_refl. cbn.
    replace (existsb _ records) with false; [done|]. symmetry. apply negb_existsb, Forall_forall. intros e He.
    apply String.eqb_neq. apply Hother; [left|done]. }
  rewrite IH; [by rewrite <- app_assoc|..].
  - intros; apply Hrows. by right.
  - done.
  - intros r' e Hr' [He| ->%list_elem_of_singleton]%elem_of_app; [apply Hother; [by right|done]|]. cbn.
    rewrite (short_name_identity _ _ _ Hok Hr). intros Heq. apply Hfresh. rewrite Heq. by apply list_elem_of_fmap_2.
Qed.
Lemma elem_of_kind_rows db kind r : r ∈ kind_rows db kind <-> of_kind kind r = true /\ exists n, package db !! n = Some r.
Proof.
  unfold kind_rows. rewrite elem_of_sort_by, list_elem_of_filter. split.
  - intros [Hk ([n r'] & -> & Hin%elem_of_map_to_list)%list_elem_of_fmap]. eauto.
  - intros [Hk [n Hr]]. split; [done|]. apply list_elem_of_fmap. exists (n, r). split; [done|by apply elem_of_map_to_list].
Qed.
Lemma kind_rows_nodup db kind : db_ok db -> NoDup (map row_name (kind_rows db kind)).
Proof.
  intros Hok. unfold kind_rows. rewrite sort_by_Permutation. apply filter_map_nodup.
  replace (map row_name (map_to_list (package db)).*2) with (map_to_list (package db)).*1; [apply NoDup_fst_map_to_list|].
  change ((map_to_list (package db)).*1) with (map fst (map_to_list (package db))).
  change ((map_to_list (package db)).*2) with (map snd (map_to_list (package db))). rewrite map_map. apply map_ext_in. intros [n r] Hin%list_elem_of_In%elem_of_map_to_list. cbn.
  symmetry. by apply (ok_names _ Hok).
Qed.
Lemma open_app_all s entries m0 :
  db_ok (st_db s) -> synced s ->
  (forall e, e ∈ entries -> exists n r, package (st_db s) !! n = Some r /\ has_app r = true /\ e = (identity r, row_version r)) ->
  exists m, try_fold (open_app (st_db s) (st_disk s)) m0 entries = Ok m /\
    forall id, m !! id = if decide (id ∈ map fst entries) then apps (st_sandbox s) !! id else m0 !! id.
Proof.
  intros Hok Hsy. revert m0. induction entries as [|e entries IH]; intros m0 Hin; cbn [try_fold map].
  { exists m0. split; [done|]. intros id. by rewrite decide_False by apply not_elem_of_nil. }
  destruct (Hin e ltac:(left)) as (n & r & Hr & Ha & ->). destruct (sy_rows _ _ _ Hsy n r Hr) as (_ & _ & _ & Happ).
  unfold app_synced in Happ. rewrite Ha in Happ. destruct Happ as [[c Hd] Hloaded].
  destruct (registered_metadata_row _ _ _ Hok Hr) as (metadata & Hm & _ & Hver).
  assert (open_app (st_db s) (st_disk s) m0 (identity r, row_version r) = Ok (<[identity r := row_version r]> m0)) as ->.
  { unfold open_app. cbn [fst]. rewrite Hm. cbn beta iota. rewrite Hver, Hd. done. }
  destruct (IH (<[identity r := row_version r]> m0)) as (m & Hm' & Hlook); [intros; apply Hin; by right|].
  exists m. split; [done|]. intros id. rewrite Hlook. cbn. destruct (decide (id = identity r)) as [->|Hne].
  - rewrite (decide_True _ _ (list_elem_of_here _ _)), lookup_insert_eq, Hloaded. by case_decide.
  - rewrite lookup_insert_ne by done. repeat case_decide; set_solver.
Qed.
Lemma filter_all {A} (P : A -> Prop) `{!forall x, Decision (P x)} (l : list A) : (forall x, P x) -> filter P l = l.
Proof. intros HP. induction l as [|x l IH]; [done|]. by rewrite filter_cons_True, IH. Qed.
Lemma installed_apps_synced s :
  db_ok (st_db s) -> synced s -> installed_apps (st_db s) (st_disk s) None = Ok (apps (st_sandbox s)).
Proof.
  intros Hok Hsy. unfold installed_apps, registered_packages. rewrite filter_all by done.
  assert (forall r, r ∈ kind_rows (st_db s) "app" -> package (st_db s) !! row_name r = Some r /\ has_app r = true /\ valid_id (identity r) = Ok tt) as Hrows.
  { intros r [Hk [n Hr]]%elem_of_kind_rows. rewrite (proj1 (ok_names _ Hok _ _ Hr)). split_and!; [done..|]. by apply (sy_rows _ _ _ Hsy n). }
  rewrite (registered_record_all (st_db s)); [|done| |by apply kind_rows_nodup|by intros r e _ ?%not_elem_of_nil].
  2: { intros r Hr. by destruct (Hrows r Hr) as (? & _ & ?). }
  cbn. destruct (open_app_all s (map (fun r => (identity r, row_version r)) (kind_rows (st_db s) "app")) ∅ Hok Hsy) as (m & -> & Hm).
  { intros e (r & -> & Hr)%list_elem_of_fmap. destruct (Hrows r Hr) as (? & ? & _). eauto. }
  f_equal. apply map_eq. intros id. rewrite Hm, map_map. cbn. case_decide as Hid; [done|]. rewrite lookup_empty.
  destruct (apps (st_sandbox s) !! id) as [v|] eqn:Hv; [|done]. exfalso. apply Hid.
  destruct (sy_loaded _ _ _ Hsy id ltac:(right; by exists v)) as (r & Hr & <-). apply list_elem_of_fmap_2, elem_of_kind_rows.
  split; [|by eexists]. destruct (sy_rows _ _ _ Hsy _ _ Hr) as (_ & _ & _ & Ha). unfold app_synced in Ha. cbn.
  destruct (has_app r); [done|congruence].
Qed.
(** The list of this release is empty: nothing is handed over. *)
Lemma migrate_legacy_packages_none files fuel io db : migrate_legacy_packages files fuel io db = (db, Ok tt).
Proof. done. Qed.
Lemma load_synced s : db_ok (st_db s) -> synced s -> forall sb, closed sb = closed (st_sandbox s) ->
  load_libs (set_sandbox sb s) = (s, Ok tt).
Proof.
  intros Hok Hsy sb Hclosed. unfold Startup.load_libs. rewrite migrate_legacy_packages_none. cbn [st_db st_disk st_crls st_sandbox set_db set_sandbox].
  destruct (load_registered_all s (registered_libs (st_db s)) ∅ Hok Hsy ltac:(done)) as (m & -> & Hm).
  rewrite installed_apps_synced by done. cbn. rewrite Hclosed.
  assert (m = libs (st_sandbox s)) as ->; [|by destruct s as [? ? ? [] ?]].
  apply map_eq. intros id. rewrite Hm. case_decide as Hid; [done|]. rewrite lookup_empty.
  destruct (libs (st_sandbox s) !! id) as [api|] eqn:Hv; [|done]. exfalso. apply Hid.
  destruct (sy_loaded _ _ _ Hsy id ltac:(left; by exists api)) as (r & Hr & <-). apply elem_of_registered_libs.
  eexists _, r. split_and!; [done| |done]. destruct (sy_rows _ _ _ Hsy _ _ Hr) as (_ & _ & Hl & _). unfold lib_synced in Hl.
  destruct (has_lib r); [done|congruence].
Qed.

(** *** Changing one package *)
Definition put {A} (k : string) (o : option A) (m : gmap string A) : gmap string A :=
  match o with Some x => <[k := x]> m | None => delete k m end.
Lemma put_lookup {A} (k i : string) (o : option A) (m : gmap string A) : put k o m !! i = if decide (i = k) then o else m !! i.
Proof.
  unfold put. case_decide as Hi; [subst i|]; destruct o; by rewrite ?lookup_insert_eq, ?lookup_delete_eq, ?lookup_insert_ne, ?lookup_delete_ne by done.
Qed.
Lemma set_path_lookup path c disk p : set_path path c disk !! p = if decide (p = path) then c else disk !! p.
Proof. apply (put_lookup path p c disk). Qed.
Lemma app_path_inj id id' : resource_path "app" id = resource_path "app" id' -> short_name id = short_name id'.
Proof. unfold resource_path. cbn [String.eqb Ascii.eqb Bool.eqb]. by intros ?%(inj (String.append "app/")). Qed.
Lemma append_inj_r (t a b : string) : a +:+ t = b +:+ t -> a = b.
Proof.
  revert b. induction a as [|x a IH]; intros [|y b] Hab; cbn in Hab; [done|..].
  - apply (f_equal String.length) in Hab. cbn in Hab. rewrite length_app_str in Hab. lia.
  - apply (f_equal String.length) in Hab. cbn in Hab. rewrite length_app_str in Hab. lia.
  - injection Hab as -> Hab. f_equal. by apply IH.
Qed.
Lemma lib_path_inj id id' : resource_path "lib" id = resource_path "lib" id' -> short_name id = short_name id'.
Proof.
  unfold resource_path. cbn [String.eqb Ascii.eqb Bool.eqb].
  pose proof (short_name_clean id) as Hc. pose proof (short_name_clean id') as Hc'.
  destruct (match split_once "/" id with Some _ => _ | None => _ end), (match split_once "/" id' with Some _ => _ | None => _ end);
    cbn [String.append]; intros Heq; simplify_eq.
  - by apply append_inj_r in Heq.
  - exfalso. assert (contains_char "/" ("std/" +:+ short_name id) = true) as Ht by done.
    apply (append_inj_r ".wasm" ("std/" +:+ short_name id)) in Heq. congruence.
  - exfalso. assert (contains_char "/" ("std/" +:+ short_name id') = true) as Ht by done.
    apply (append_inj_r ".wasm" _ ("std/" +:+ short_name id')) in Heq. congruence.
  - by apply append_inj_r in Heq.
Qed.
Lemma lib_app_path id id' : resource_path "lib" id <> resource_path "app" id'.
Proof. unfold resource_path. cbn [String.eqb Ascii.eqb Bool.eqb]. by case_match. Qed.

(** What is staged and loaded of a package that is to have this row. *)
Definition package_is (id : string) (o : option row) (lib app : option content) (api : option openapi) (v : option string) : Prop :=
  match o with
  | Some r => identity r = id /\
      (if has_lib r then exists wasm a, lib = Some [(short_name id +:+ ".wasm", wasm)] /\ slen wasm <= 64 * mib /\
         load_lib id wasm = Ok a /\ api = Some a else api = None) /\
      (if has_app r then is_Some app /\ v = Some (row_version r) else v = None)
  | None => api = None /\ v = None
  end.
Lemma synced_put rows disk sb id o lib app api v :
  synced_at rows disk sb -> valid_id id = Ok tt -> (forall r, rows !! short_name id = Some r -> identity r = id) ->
  package_is id o lib app api v ->
  synced_at (put (short_name id) o rows)
    (set_path (resource_path "app" id) app (set_path (resource_path "lib" id) lib disk))
    (Sandbox (closed sb) (put id api (libs sb)) (put id v (apps sb))).
Proof.
  intros [Hrows Hloaded] Hv Hid Hpkg. split.
  - intros n r. rewrite put_lookup. case_decide as Hn.
    + intros ->. subst n. destruct Hpkg as (Hidr & Hl & Ha). rewrite Hidr. split_and!; [done..| |].
      * unfold lib_synced. rewrite Hidr. cbn [libs]. rewrite put_lookup, decide_True by done.
        destruct (has_lib r); [|done]. destruct Hl as (wasm & a & -> & ? & ? & ->). exists wasm, a.
        rewrite set_path_lookup, decide_False by apply lib_app_path. by rewrite set_path_lookup, decide_True.
      * unfold app_synced. rewrite Hidr. cbn [apps]. rewrite put_lookup, decide_True by done.
        destruct (has_app r); [|done]. destruct Ha as [? ->]. by rewrite set_path_lookup, decide_True.
    + intros Hr. destruct (Hrows n r Hr) as (Hname & Hvalid & Hl & Ha).
      assert (identity r <> id) as Hne by (intros <-; done).
      assert (forall A (x : option A) (m : gmap string A), put id x m !! identity r = m !! identity r) as Hput
        by (intros A x m; rewrite (put_lookup id (identity r) x m); by rewrite decide_False).
      split_and!; [done..| |].
      * unfold lib_synced in *. cbn [libs]. rewrite Hput, set_path_lookup, decide_False by apply lib_app_path.
        rewrite set_path_lookup, decide_False; [done|]. intros Heq%lib_path_inj. congruence.
      * unfold app_synced in *. cbn [apps]. rewrite Hput, set_path_lookup, decide_False by (intros Heq%app_path_inj; congruence).
        rewrite set_path_lookup, decide_False; [done|]. intros Heq. by apply (lib_app_path id (identity r)).
  - intros i. cbn [libs apps]. rewrite !put_lookup. destruct (decide (i = id)) as [Hi|Hi].
    + subst i. destruct o as [r|]; cbn in Hpkg; [|destruct Hpkg as [-> ->]; by intros [[]|[]]].
      intros _. exists r. rewrite decide_True by done. by destruct Hpkg as [? _].
    + intros Hsome. destruct (Hloaded i Hsome) as (r & Hr & Hrid). exists r. rewrite decide_False; [done|].
      intros Heq. rewrite Heq in Hr. apply Hi. by rewrite <- (Hid r Hr).
Qed.

(** *** Installing *)
Lemma expanded_lib_Ok c o :
  expanded "lib" c = Ok o ->
  if is_true (c_metadata c).["has_lib"] then exists wasm, o = Some [(short_name (c_id c) +:+ ".wasm", wasm)] else o = None.
Proof. unfold expanded. cbn [String.append]. destruct (is_true _); cbn; intros He; simplify_ok; eauto. Qed.
Lemma expanded_app_Ok c o :
  expanded "app" c = Ok o -> if is_true (c_metadata c).["has_app"] then is_Some o else o = None.
Proof. unfold expanded. cbn [String.append]. destruct (is_true _); cbn; intros He; simplify_ok; eauto. Qed.
Lemma prepare_package disk c p previous :
  prepare load_lib disk c = Ok p -> is_Some (as_str (c_metadata c).["version"]) ->
  m_id (p_member p) = c_id c /\
  (valid_id (c_id c) = Ok tt ->
  package_is (c_id c) (Some (new_row now (c_id c) (c_metadata c) previous))
    (s_candidate (m_lib (p_member p))) (s_candidate (m_app (p_member p))) (p_lib p) (p_app p)).
Proof.
  unfold prepare. intros Hp [version Hver]. simplify_ok.
  match goal with Hl : expanded "lib" c = Ok ?l, Ha : expanded "app" c = Ok ?a |- _ =>
    apply expanded_lib_Ok in Hl; apply expanded_app_Ok in Ha end.
  cbn [p_member p_lib p_app stage_member m_id m_lib m_app staged s_candidate]. split; [done|]. intros Hv.
  split; [by apply identity_new_row|]. cbn [has_lib has_app row_version new_row]. unfold unwrap_str. rewrite Hver.
  split.
  - destruct (is_true _).
    + match goal with He : exists _, _ |- _ => destruct He as [wasm ->] end. simplify_ok. simplify_bool. eauto 6.
    + subst. by simplify_ok.
  - destruct (is_true (c_metadata c).["has_app"]).
    + match goal with He : is_Some ?o |- _ => destruct o; [|by destruct He] end. simplify_ok. by split; [eexists|].
    + subst. by simplify_ok.
Qed.
(** The files of a switched transaction. *)
Lemma publish_switched m disk :
  is_staged (m_lib m) -> is_staged (m_app m) ->
  publish_member disk (switched_member m) =
  set_path (resource_path "app" (m_id m)) (s_candidate (m_app m)) (set_path (resource_path "lib" (m_id m)) (s_candidate (m_lib m)) disk).
Proof. intros Hl Ha. unfold publish_member. cbn [switched_member on_app on_lib m_id m_lib m_app]. by rewrite !switched_target. Qed.
Lemma save_registration_checked id api files db db' :
  save_registration now id api files db = Ok db' ->
  is_Some (as_str api.["version"]) /\ forall r, package db !! short_name id = Some r -> identity r = id.
Proof.
  unfold save_registration. intros Hs. simplify_ok. split; [by eexists|]. intros r Hr.
  match goal with Hc : check_name _ _ _ = Ok _ |- _ => unfold check_name in Hc; rewrite Hr in Hc end.
  cbn in *. simplify_ok. by simplify_bool.
Qed.
Lemma synced_changes changed ps db tx disk0 disk sb :
  try_fold (save_change now) db changed = Ok tx -> Forall2 (fun c p => prepare load_lib disk0 c = Ok p) changed ps ->
  db_ok db -> (forall c, c ∈ changed -> valid_id (c_id c) = Ok tt) -> synced_at (package db) disk sb ->
  synced_at (package tx) (publish (map switched_member (map p_member ps)) disk) (switch_sandbox sb ps).
Proof.
  intros Hf Hps. revert db disk sb Hf. induction Hps as [|c p changed ps Hp _ IH]; intros db disk sb Hf Hok Hv Hsy.
  { cbn in Hf. simplify_ok. done. }
  cbn [try_fold] in Hf. simplify_ok.
  match goal with Hs : save_change _ _ _ = Ok ?d |- _ => rename Hs into Hsave, d into db1 end.
  destruct (save_registration_facts _ _ _ _ _ _ Hok Hsave) as (Hok1 & Hp1 & _).
  destruct (save_registration_checked _ _ _ _ _ Hsave) as [Hver Hid].
  destruct (prepare_package _ _ _ (package db !! short_name (c_id c)) Hp Hver) as [Hm Hpkg].
  destruct (prepare_staged _ _ _ _ Hp) as (Sl & Sa & _).
  cbn [map publish fold_left switch_sandbox]. rewrite publish_switched by done.
  apply (IH db1); [done..|intros; apply Hv; by right|]. rewrite Hp1, Hm. unfold switch_one. rewrite Hm.
  apply (synced_put _ _ _ _ (Some _)); [done|apply Hv; left|done|]. apply Hpkg, Hv. left.
Qed.

(** The changes of an installation, once they are switched. *)
Lemma changes_synced io s packages crls changed tx ps :
  db_ok (st_db s) -> synced s -> admit_packages root_der now io s [] [] packages = (crls, Ok changed) ->
  register_changes now changed (st_db s) = Ok tx -> try_map (prepare load_lib (st_disk s)) changed = Ok ps ->
  synced_at (package tx) (publish (map switched_member (map p_member ps)) (st_disk s)) (switch_sandbox (st_sandbox s) ps).
Proof.
  intros Hok Hsy Hadm Hreg Hps.
  destruct (delete_changed_dependencies changed _ Hok) as (Hok1 & Hp1 & _). unfold register_changes in Hreg.
  apply admit_packages_settled in Hadm as (new & -> & _ & Hnew & _); [|done]. cbn [app] in *.
  apply (synced_changes _ _ _ _ (st_disk s) _ _ Hreg); [by apply try_map_Forall2|done|intros c Hc; by apply Hnew|].
  by rewrite Hp1.
Qed.
Lemma switch_sandbox_closed sb ps : closed (switch_sandbox sb ps) = closed sb.
Proof. revert sb. induction ps as [|p ps IH]; intros sb; [done|]. apply (IH (switch_one sb p)). Qed.

(** *** Every operation keeps the packages on disk and in the sandbox together *)
Definition keeps (s s' : state) : Prop :=
  db_ok (st_db s) -> synced s ->
  db_ok (st_db s') /\ synced s' /\ closed (st_sandbox s') = closed (st_sandbox s) /\ st_stages s' = st_stages s.
(** Rolling back works, and the journal of a finished transaction is removed. *)
Definition clean (io : io_faults) : Prop := f_rollback io = None /\ f_cleanup io <> 0%nat.
Lemma keeps_unchanged s s' :
  st_db s' = st_db s -> st_disk s' = st_disk s -> st_sandbox s' = st_sandbox s -> st_stages s' = st_stages s -> keeps s s'.
Proof. intros Hdb Hd Hs Hst Hok Hsy. unfold synced. by rewrite Hdb, Hd, Hs, Hst. Qed.
Lemma keeps_trans s1 s2 s3 : keeps s1 s2 -> keeps s2 s3 -> keeps s1 s3.
Proof. intros H12 H23 Hok Hsy. destruct (H12 Hok Hsy) as (Hok2 & Hsy2 & <- & <-). by apply H23. Qed.
Lemma keeps_opened s db : opened (st_db s) db -> keeps s (set_db db s).
Proof.
  intros [(Hp & _) Hdb]%opened_ok Hok Hsy. split_and!; [by apply Hdb| |done..]. unfold synced. cbn. by rewrite Hp.
Qed.
(** A clean transaction leaves no journal behind. *)
Lemma commit_no_journal io w tx w' r :
  w_journal w = None -> clean io -> commit_packages_files io w tx = (w', r) -> left_behind w' = [].
Proof.
  intros Hj [Hr Hc]. destruct io as [? ? ? ? f]. cbn [io_commit] in *.
  assert (forall w0, w_journal (execute (take (f_cleanup f) cleanup_steps) w0) = None) as Hclean.
  { intros w0. by destruct (f_cleanup f) as [|[|[|k]]]; cbn; rewrite ?take_nil. }
  enough (commit_packages_files f w tx = (w', r) -> w_journal w' = None) as Hn by (intros Hx%Hn; unfold left_behind; by rewrite Hx).
  unfold commit_packages_files, rolled_back. rewrite Hr. destruct (f_prepare f); [by intros [= <- _]|].
  destruct (_ >? _); [by intros [= <- _]|]. destruct (f_switch f) as [[n e]|]; intros [= <- _]; [apply Hclean|].
  rewrite execute_app. apply Hclean.
Qed.
Lemma install_opened_stages io s packages s' r :
  clean io -> install_opened root_der now load_lib io s packages = (s', r) -> st_stages s' = st_stages s.
Proof.
  intros Hf. unfold install_opened. destruct (plan_packages _ _ _ _ _ _) as [crls [[tx ps]|e]]; [|by intros [= <- _]].
  destruct (commit_packages_files _ _ _) as [w u] eqn:Hc. apply commit_no_journal in Hc as Hj; [|done..].
  destruct u; intros [= <- _]; cbn; by rewrite Hj, app_nil_r.
Qed.
Lemma install_opened_keeps io s packages s' result :
  clean io -> install_opened root_der now load_lib io s packages = (s', result) -> keeps s s'.
Proof.
  intros Hf Hi. pose proof (install_opened_stages _ _ _ _ _ Hf Hi) as Hstages. destruct result as [u|e].
  - intros Hok Hsy. apply install_opened_Ok in Hi as (crls & changed & ps & Hadm & Hreg & Hps & Hd & Hs).
    destruct (register_changes_ok _ _ _ _ Hok Hreg) as (Hok' & _). unfold synced. rewrite Hd, Hs, switch_sandbox_closed.
    split_and!; [done| |done|done]. by eapply changes_synced.
  - apply install_opened_unchanged in Hi as (? & ? & ?); [|apply Hf]. by apply keeps_unchanged.
Qed.
Lemma install_packages_keeps io s packages s' result :
  clean io -> install_packages root_der now load_lib io s packages = (s', result) -> keeps s s'.
Proof.
  intros Hf (db & Hopen & [[-> _]|[_ Hi]])%install_packages_cases; apply keeps_opened in Hopen; [done|].
  eapply keeps_trans; [exact Hopen|]. by eapply install_opened_keeps.
Qed.
Lemma install_store_package_keeps io s publisher name version s' value :
  clean io ->
  install_store_package root_der now load_lib io s publisher name version = (s', value) -> keeps s s'.
Proof.
  intros Hf. unfold install_store_package. destruct (plan_store_package _ _ _ _ _ _) as [[ordered v]|]; [|intros [= <- _]; by apply keeps_unchanged].
  destruct (install_packages _ _ _ _ _ _) as [s1 result] eqn:Hi. apply install_packages_keeps in Hi; [|done].
  by destruct result; intros [= <- _].
Qed.

(** *** Removing *)
Lemma remove_registered_unchanged io s id s' e :
  clean io -> remove_registered io s id = (s', Err e) ->
  st_db s' = st_db s /\ st_disk s' = st_disk s /\ st_sandbox s' = st_sandbox s /\ st_stages s' = st_stages s.
Proof.
  intros Hf. unfold remove_registered. destruct (io_stage io); [by intros [= <- _]|]. cbn beta iota.
  destruct (unregister id (st_db s)) as [tx|]; [|by intros [= <- _]].
  destruct (commit_packages_files _ _ _) as [w' [u'|e']] eqn:Hc; [done|]. intros [= <- _].
  apply commit_no_journal in Hc as Hj; [|done..].
  apply commit_failed_members in Hc as [Hdb Hm]; [|by repeat constructor; do 2 eexists|apply Hf].
  cbn in *. rewrite Hj, app_nil_r. split_and!; [done| |done..]. apply publish_in_place.
  inversion_clear Hm as [|m0 m ms0 ms (Hid & Hl & Ha) Hnil]. inversion_clear Hnil. constructor; [|done].
  unfold in_place. by rewrite Hid, Hl, Ha.
Qed.
Lemma remove_registered_Ok io s id s' :
  db_ok (st_db s) -> clean io -> remove_registered io s id = (s', Ok tt) ->
  db_ok (st_db s') /\ package (st_db s') = delete (short_name id) (package (st_db s)) /\
  st_disk s' = set_path (resource_path "app" id) None (set_path (resource_path "lib" id) None (st_disk s)) /\
  st_sandbox s' = st_sandbox s /\ st_stages s' = st_stages s.
Proof.
  intros Hok Hf. unfold remove_registered. pose proof (unregister_facts id _ Hok) as Hun.
  destruct (io_stage io); [done|]. cbn beta iota.
  destruct (referenced _ _); [by rewrite Hun|]. destruct Hun as (tx & -> & Hok' & Hp & _).
  destruct (commit_packages_files _ _ _) as [w' [u'|e']] eqn:Hc; [|done]. intros [= <- _].
  apply commit_no_journal in Hc as Hj; [|done..].
  apply commit_succeeded in Hc as [Hdb Hms]. cbn. rewrite Hdb, Hms, Hj, app_nil_r. cbn [w_members map publish fold_left].
  split_and!; [done..| |done|done]. by rewrite publish_switched by by do 2 eexists.
Qed.
(** The removal of a registered package is the transaction on the opened registry. *)
Lemma remove_package_registered io s id n r s' result :
  package (st_db s) !! n = Some r -> identity r = id -> valid_id id = Ok tt ->
  remove_package io s id = (s', result) ->
  exists db, opened (st_db s) db /\
    ((s' = set_db db s /\ exists e, result = Err e) \/ remove_registered io (set_db db s) id = (s', result)).
Proof.
  intros Hr Hid Hv. unfold remove_package. rewrite Hv.
  destruct (open_registry io s) as [s1 r1] eqn:Ho. apply open_registry_opened in Ho as (db & -> & Hopen).
  intros Hx. exists db. split; [done|]. destruct r1 as [u1|e]; [right|left; injection Hx as <- <-; eauto].
  apply opened_ok in Hopen as [(Hp & _) _]. rewrite <- Hp in Hr.
  destruct (registered_packages _ _ _) as [|[]] eqn:Hreg; try done. exfalso. by apply (registered_packages_missing _ _ _ _ Hreg Hr).
Qed.
Lemma remove_named_keeps io s name expected s' result :
  clean io -> remove_named io s name expected = (s', result) -> keeps s s'.
Proof.
  intros Hf. unfold remove_named, registered_identity.
  destruct (_ && _); [intros [= <- _]; by apply keeps_unchanged|].
  destruct (closed _); [intros [= <- _]; by apply keeps_unchanged|].
  destruct (package (st_db s) !! name) as [r|] eqn:Hr; cbn; [|intros [= <- _]; by apply keeps_unchanged].
  destruct (valid_id (identity r)) as [[]|e] eqn:Hv; [|intros [= <- _]; by apply keeps_unchanged].
  destruct (negb _) eqn:Hn; [intros [= <- _]; by apply keeps_unchanged|]. simplify_bool.
  destruct (remove_package io s (identity r)) as [s1 r1] eqn:Hrem.
  destruct (remove_package_registered _ _ _ _ _ _ _ Hr eq_refl Hv Hrem) as (db & Hopen & [[-> [e ->]]|Hx]).
  { intros [= <- _]. by apply keeps_opened. }
  apply opened_ok in Hopen as Hpkg. destruct Hpkg as [(Hp0 & _) _]. apply keeps_opened in Hopen.
  destruct r1 as [[]|e]; intros [= <- _]; (eapply keeps_trans; [exact Hopen|]).
  - intros Hok Hsy. apply remove_registered_Ok in Hx as (Hok' & Hp & Hd & Hs & Hst); [|done..].
    split_and!; [done| |by cbn; rewrite Hs|done]. unfold synced. cbn [st_db st_disk st_sandbox set_sandbox]. rewrite Hp, Hd, Hs.
    apply (synced_put _ _ _ (identity r) None None None None None); [done|done| |done].
    cbn [st_db set_db]. rewrite Hp0, Hn. intros r' Hr'. congruence.
  - apply remove_registered_unchanged in Hx as (? & ? & ? & ?); [|done]. by apply keeps_unchanged.
Qed.

(** *** Series of requests *)
Local Abbreviation pkg_requests := (pkg_requests root_der now load_lib).
Lemma perform_keeps io s a s' result :
  clean io -> perform root_der now load_lib io s a = (s', result) -> keeps s s'.
Proof.
  intros Hf. destruct a as [publisher name version| |name|name expected]; cbn.
  - destruct (install_store_package _ _ _ _ _ _ _ _) as [s1 value] eqn:Hi. intros [= <- _]. by eapply install_store_package_keeps.
  - intros [= <- _]. by apply keeps_unchanged.
  - intros [= <- _]. by apply keeps_unchanged.
  - destruct (remove_named _ _ _ _) as [s1 value] eqn:Hi. intros [= <- _]. by eapply remove_named_keeps.
Qed.
Lemma pkg_requests_keeps ep s rqs s' trace :
  Forall (fun entry => clean entry.1) rqs -> pkg_requests ep s rqs = (s', trace) -> keeps s s'.
Proof.
  intros Hf. revert s trace. induction Hf as [|[io rq] rqs Hf _ IH]; intros s trace Hrun; cbn in Hrun.
  { injection Hrun as <- _. by apply keeps_unchanged. }
  destruct (pkg_management_request _ _ _ io ep s rq) as [s1 result] eqn:Hrq.
  destruct (pkg_requests ep s1 rqs) as [s2 trace2] eqn:Hrest. injection Hrun as <- _.
  apply IH in Hrest. eapply keeps_trans; [|exact Hrest]. unfold pkg_management_request in Hrq.
  destruct (pkg_action_of ep rq) as [[early|a]|e]; [injection Hrq as <- _; by apply keeps_unchanged| |injection Hrq as <- _; by apply keeps_unchanged].
  by eapply perform_keeps.
Qed.

(** C3: A restart finds the packages the running server had loaded: after any series of management
    requests, whatever fails (as long as rolling back works and the journal of a finished transaction is
    removed, since a journal that outlives its transaction can undo a later one, see
    stale_journal_restores), the registry, the files on disk and the sandbox agree, no journal is left,
    and a start (recovery of journals, hand-over of packages of older releases, whose list is empty in
    this release, and loading from the registry and the disk into a new sandbox) succeeds and gives
    exactly the running state, the components of the Libs and the versions of the Apps included. *)
Theorem restart_reloads ep s rqs s' trace :
  db_ok (st_db s) -> synced s -> closed (st_sandbox s) = false -> st_stages s = [] ->
  Forall (fun entry => clean entry.1) rqs -> pkg_requests ep s rqs = (s', trace) ->
  synced s' /\ restart s' = (s', Ok tt).
Proof.
  intros Hok Hsy Hopen Hno Hf Hrun.
  destruct (pkg_requests_keeps _ _ _ _ _ Hf Hrun Hok Hsy) as (Hok' & Hsy' & Hclosed & Hst).
  split; [done|]. unfold Startup.restart. rewrite Hst, Hno. cbn [recover_stages].
  replace (set_stages [] (set_sandbox new_sandbox s')) with (set_sandbox new_sandbox s')
    by (unfold set_stages, set_sandbox; cbn; by rewrite Hst, Hno).
  apply load_synced; [done..|]. cbn. congruence.
Qed.

(** *** A crash in the middle of an installation *)
Lemma publish_ext ms ms' disk :
  map m_id ms = map m_id ms' ->
  map (fun m => (s_target (m_lib m), s_target (m_app m))) ms = map (fun m => (s_target (m_lib m), s_target (m_app m))) ms' ->
  publish ms disk = publish ms' disk.
Proof.
  unfold publish. revert ms' disk. induction ms as [|m ms IH]; intros [|m' ms'] disk; cbn; [done..|].
  intros [= Hid Hids] [= Hl Ha Ht]. unfold publish_member at 2 4. rewrite Hid, Hl, Ha. by apply IH.
Qed.
Lemma admit_packages_root io s names changed packages crls out :
  packages <> [] -> admit_packages root_der now io s names changed packages = (crls, Ok out) ->
  (length changed < length out <= length changed + length packages)%nat.
Proof.
  revert s names changed. induction packages as [|r packages IH]; intros s names changed Hne Ha; [done|]. cbn in Ha.
  destruct (authenticate _ _ _ _) as [a|]; [|done].
  destruct (check_revocations _ _ _ _ _) as [crls' [u|]]; [|done].
  destruct (decide_package _ _ _ _ _ _) as [o|] eqn:Hd; [|done].
  destruct packages as [|r' packages].
  - cbn in Ha. injection Ha as _ <-. unfold decide_package in Hd. rewrite bool_decide_true in Hd by done. simplify_ok.
    cbn in Hd. simplify_ok. rewrite length_app. cbn. lia.
  - apply IH in Ha; [|done]. rewrite length_app in Ha. destruct o; cbn in *; lia.
Qed.
Lemma prepare_members disk cs ps :
  try_map (prepare load_lib disk) cs = Ok ps ->
  Forall2 (fun c m => m_id m = c_id c /\ m_directory m = short_name (c_id c)) cs (map p_member ps).
Proof.
  intros Hp%try_map_Forall2. induction Hp as [|c p cs ps Hc _ IH]; constructor; [|exact IH].
  unfold prepare in Hc. by simplify_ok.
Qed.
(** A plan is a transaction as recovery expects it. *)
Lemma plan_members_ok io s packages crls tx ps :
  db_ok (st_db s) -> (1 <= length packages <= 100)%nat -> plan_packages root_der now load_lib io s packages = (crls, Ok (tx, ps)) ->
  members_ok (map p_member ps) /\ staged_world (staged_packages s ps).
Proof.
  intros Hok Hlen (crls' & changed & Hadm & _ & Hps)%plan_packages_Ok.
  pose proof (prepare_members _ _ _ Hps) as Hms. apply prepare_all in Hps as [Hst _]. split; [|done].
  apply admit_packages_root in Hadm as Hn; [|by destruct packages; [cbn in Hlen; lia|]].
  apply admit_packages_settled in Hadm as (new & -> & Hnd & Hnew & _); [|done]. cbn [app length] in *.
  pose proof (Forall2_length _ _ _ Hms) as Hl. split_and!; [lia|lia|..].
  - apply (Forall2_Forall_r _ _ _ _ Hms), Forall_forall. intros c Hc m [-> _]. by apply Hnew.
  - replace (map (fun m => short_name (m_id m)) (map p_member ps)) with (map (short_name ∘ c_id) new); [done|].
    clear - Hms. induction Hms as [|c m cs ms [Hm _] _ IH]; [done|]. cbn. by rewrite Hm, IH.
  - apply (Forall2_Forall_r _ _ _ _ Hms), Forall_forall. intros c Hc m [-> ->]. by left.
Qed.

(** *** What recovery finds on disk is what the transaction left *)
Definition member_paths (m : member) : list string := [resource_path "lib" (m_id m); resource_path "app" (m_id m)].
Definition distinct (ms : list member) : Prop := NoDup (map (fun m => short_name (m_id m)) ms).
Lemma publish_member_lookup disk m p :
  publish_member disk m !! p =
  if decide (p = resource_path "app" (m_id m)) then s_target (m_app m)
  else if decide (p = resource_path "lib" (m_id m)) then s_target (m_lib m) else disk !! p.
Proof. unfold publish_member. by rewrite !set_path_lookup. Qed.
Lemma publish_other ms disk p : (forall m, m ∈ ms -> p ∉ member_paths m) -> publish ms disk !! p = disk !! p.
Proof.
  revert disk. induction ms as [|m ms IH]; intros disk Hp; [done|]. change (publish (m :: ms) disk) with (publish ms (publish_member disk m)).
  rewrite IH by (intros m' Hm'; apply Hp; by right). rewrite publish_member_lookup.
  pose proof (Hp m ltac:(left)) as Hn. unfold member_paths in Hn. rewrite !not_elem_of_cons in Hn. by rewrite !decide_False by apply Hn.
Qed.
Lemma other_paths m m' p : short_name (m_id m) <> short_name (m_id m') -> p ∈ member_paths m -> p ∉ member_paths m'.
Proof.
  unfold member_paths. intros Hne Hp Hp'. rewrite !elem_of_cons in Hp, Hp'.
  destruct Hp as [->|[->|?%not_elem_of_nil]]; [..|done]; destruct Hp' as [Hx|[Hx|?%not_elem_of_nil]]; [..|done| | |done].
  - by apply lib_path_inj in Hx.
  - by apply lib_app_path in Hx.
  - symmetry in Hx. by apply lib_app_path in Hx.
  - by apply app_path_inj in Hx.
Qed.
Lemma publish_at ms disk m :
  distinct ms -> m ∈ ms ->
  publish ms disk !! resource_path "lib" (m_id m) = s_target (m_lib m) /\
  publish ms disk !! resource_path "app" (m_id m) = s_target (m_app m).
Proof.
  revert disk. induction ms as [|m0 ms IH]; intros disk Hnd Hin; [by apply not_elem_of_nil in Hin|].
  change (publish (m0 :: ms) disk) with (publish ms (publish_member disk m0)).
  apply NoDup_cons in Hnd as [Hfresh Hnd]. apply elem_of_cons in Hin as [->|Hin]; [|by apply IH].
  assert (forall p, p ∈ member_paths m0 -> publish ms (publish_member disk m0) !! p = publish_member disk m0 !! p) as Hkeep.
  { intros p Hp. apply publish_other. intros m' Hm'. eapply other_paths; [|exact Hp]. intros Heq. apply Hfresh.
    rewrite Heq. by apply (list_elem_of_fmap_2 (fun m => short_name (m_id m))). }
  rewrite !Hkeep by (unfold member_paths; set_solver). rewrite !publish_member_lookup.
  rewrite decide_False by apply lib_app_path. by rewrite !decide_True.
Qed.
Lemma placed_published ms disk : distinct ms -> map (placed_member (publish ms disk)) ms = ms.
Proof.
  intros Hnd. etrans; [|apply map_id]. apply map_ext_in. intros m Hm%list_elem_of_In.
  destruct (publish_at _ disk _ Hnd Hm) as [Hl Ha]. unfold placed_member. rewrite Hl, Ha. by destruct m as [? ? [] []].
Qed.
Lemma distinct_ids ms ms' : map m_id ms = map m_id ms' -> distinct ms -> distinct ms'.
Proof.
  unfold distinct. intros Hids. rewrite <- (map_map m_id short_name ms), <- (map_map m_id short_name ms'). by rewrite Hids.
Qed.
Lemma publish_publish ms ms' disk : map m_id ms = map m_id ms' -> distinct ms' -> publish ms' (publish ms disk) = publish ms' disk.
Proof.
  intros Hids Hnd. apply map_eq. intros p.
  destruct (decide (Exists (fun m => p ∈ member_paths m) ms')) as [(m & Hm & Hp)%Exists_exists|Hno].
  - unfold member_paths in Hp. rewrite !elem_of_cons in Hp.
    destruct Hp as [->|[->|?%not_elem_of_nil]]; [..|done]; by rewrite !(proj1 (publish_at _ _ _ Hnd Hm)) || by rewrite !(proj2 (publish_at _ _ _ Hnd Hm)).
  - assert (forall m, m ∈ ms' -> p ∉ member_paths m) as Hno' by (intros m Hm Hp; apply Hno, Exists_exists; eauto).
    rewrite !(publish_other ms') by done. apply publish_other. intros m Hm.
    assert (m_id m ∈ map m_id ms') as (m' & Heq & Hm')%list_elem_of_fmap by (rewrite <- Hids; by apply list_elem_of_fmap_2).
    specialize (Hno' m' Hm'). unfold member_paths in *. by rewrite Heq.
Qed.
(** Recovery does not depend on how the start finds the stage. *)
Lemma recover_found w w' journal :
  w_journal w = Some journal -> recover_package_files w = Ok w' ->
  recover_package_files (World (w_members w) (Some journal) true (w_db w)) = Ok w' /\ left_behind w' = [].
Proof.
  intros Hj. unfold recover_package_files, recover_until. rewrite Hj. cbn [w_journal w_db w_members].
  destruct (read_journal journal) as [rs|]; [|done]. intros [= <-].
  split; [|by destruct (committed _ _)]. by destruct (committed _ _).
Qed.
(** A start after a transaction that stopped in [w1]. *)
Lemma restart_recovers s w1 w2 :
  st_stages s = [] -> distinct (w_members w1) -> map m_id (w_members w1) = map m_id (w_members w2) ->
  recover_package_files w1 = Ok w2 ->
  restart (after_commit w1 s) =
  load_libs (set_sandbox new_sandbox (State (w_db w2) (st_crls s) (publish (w_members w2) (st_disk s)) (st_sandbox s) [])).
Proof.
  intros Hno Hnd Hids Hr. unfold Startup.restart. cbn [st_stages after_commit]. rewrite Hno. cbn [app].
  destruct (w_journal w1) as [journal|] eqn:Hj.
  - destruct (recover_found _ _ _ Hj Hr) as [Hf Hl]. unfold left_behind at 1. rewrite Hj. cbn [recover_stages].
    assert (stage_world (set_sandbox new_sandbox (after_commit w1 s)) (Stage (w_members w1) journal) =
      World (w_members w1) (Some journal) true (w_db w1)) as ->.
    { unfold stage_world. cbn [sg_members sg_journal st_disk st_db set_sandbox after_commit]. by rewrite placed_published. }
    rewrite Hf. unfold set_stages, set_sandbox, after_commit. cbn [st_db st_crls st_disk st_sandbox].
    rewrite publish_publish; [done..|]. by eapply distinct_ids.
  - unfold recover_package_files, recover_until in Hr. rewrite Hj in Hr. injection Hr as <-.
    unfold left_behind. rewrite Hj. done.
Qed.

Section crash.
(** Printing and parsing JSON are inverse: documented behaviour of
    [serde_json]. *)
Hypothesis json_roundtrip : forall v, from_slice (to_json_string v) = Some v.

(** The end of an installation that nothing disturbs. *)
Lemma install_planned io s packages crls tx ps :
  plan_packages root_der now load_lib io s packages = (crls, Ok (tx, ps)) -> io_commit io = no_failure -> st_stages s = [] ->
  slen (to_json_string (journal_json tx (map p_member ps))) <= 2 * 1024 * 1024 ->
  install_opened root_der now load_lib io s packages =
    (State tx crls (publish (map switched_member (map p_member ps)) (st_disk s)) (switch_sandbox (st_sandbox s) ps) [], Ok tt).
Proof.
  intros Hplan Hio Hno Hsize. unfold install_opened. rewrite Hplan, Hio.
  destruct (commit_packages_files _ _ _) as [w' [[]|e]] eqn:Hc.
  - assert (left_behind w' = []) as Hj by (by eapply (commit_no_journal (no_io no_failure)) in Hc).
    apply commit_succeeded in Hc as [Hdb Hms]. unfold after_commit, set_sandbox, set_crls. cbn. by rewrite Hno, Hj, Hdb, Hms.
  - exfalso. unfold commit_packages_files in Hc. cbn [f_prepare f_switch no_failure staged_packages w_members] in Hc.
    by rewrite Z.gtb_ltb, (proj2 (Z.ltb_ge _ _)) in Hc by done.
Qed.

(** C4: If the process dies at any step of an installation that changes the registration facts of at
    least one of its packages, and every following start dies somewhere in its recovery, the first start
    that completes (recovery from what is on disk, hand-over of older packages, loading) succeeds and
    has exactly the packages that were loaded before the installation (when the registry had not
    committed) or exactly the ones a completed installation would have loaded: never a mixture. When no
    facts change (the same release again within the second) recovery takes the transaction for
    committed, see recovery_equal_facts. *)
Theorem crash_restart_reloads io s0 s packages crls tx ps crash stops :
  db_ok (st_db s0) -> synced s0 -> st_stages s0 = [] ->
  install_allowed s0 packages = Ok tt -> open_registry io s0 = (s, Ok tt) -> io_commit io = no_failure ->
  plan_packages root_der now load_lib io s packages = (crls, Ok (tx, ps)) ->
  let w := staged_packages s ps in
  slen (to_json_string (journal_json tx (w_members w))) <= 2 * 1024 * 1024 ->
  (exists m, m ∈ w_members w /\
     registration_facts true tx (short_name (m_id m)) <> registration_facts true (st_db s) (short_name (m_id m))) ->
  exists w1, recoveries stops (execute (take crash (commit_steps w tx ++ cleanup_steps)) (journalled w tx)) = Ok w1 /\
    restart (after_commit w1 (set_crls crls s)) =
      (if (crash <=? length (switch_steps (w_members w)))%nat then set_crls crls s
       else fst (install_packages root_der now load_lib io s0 packages), Ok tt).
Proof.
  intros Hok0 Hsy0 Hno0 Hallowed Hopen Hio Hplan w Hsize Hdiff.
  destruct (install_allowed_Ok _ _ _ Hallowed) as [Hlen Hclosed0].
  pose proof (open_registry_opened _ _ _ _ Hopen) as (db & Hs & Hdb%keeps_opened).
  destruct (Hdb Hok0 Hsy0) as (Hok & Hsy & Hclosed & Hno). rewrite <- Hs in Hok, Hsy, Hclosed, Hno.
  rewrite Hno0 in Hno. rewrite Hclosed0 in Hclosed. clear Hs Hdb.
  destruct (plan_members_ok _ _ _ _ _ _ Hok Hlen Hplan) as [Hms Hst].
  destruct (commit_crash_settles json_roundtrip w tx crash stops Hms Hst Hsize Hdiff) as (w1 & w2 & R1 & R2 & _ & R3).
  exists w1. split; [done|].
  pose proof (recoveries_ids _ _ _ R1) as Hids1. rewrite execute_ids in Hids1. cbn [journalled set_journal w_members] in Hids1.
  pose proof (recover_until_ids _ _ _ R2) as Hids2.
  assert (distinct (w_members w1)) as Hnd by (eapply distinct_ids; [symmetry; exact Hids1|apply Hms]).
  rewrite (restart_recovers (set_crls crls s) w1 w2) by done. cbn [st_crls st_disk set_crls].
  assert (map m_id (w_members w2) = map m_id (w_members w)) as Hids by by rewrite Hids2.
  pose proof (plan_packages_Ok _ _ _ _ _ _ _ _ _ Hplan) as (crls' & changed & Hadm & Hreg & Hps).
  destruct (crash <=? _)%nat; destruct R3 as [Ht ->].
  - apply prepare_all in Hps as [_ Hin]. rewrite (publish_ext _ _ _ Hids Ht), publish_in_place by exact Hin.
    rewrite <- (load_synced (set_crls crls s) Hok Hsy new_sandbox) by done. unfold set_crls. cbn. by rewrite Hno.
  - assert (publish (w_members w2) (st_disk s) = publish (map switched_member (map p_member ps)) (st_disk s)) as ->.
    { apply publish_ext; [rewrite Hids; symmetry; apply (map_map switched_member m_id)|]. rewrite switched_targets by done. exact Ht. }
    unfold install_packages. rewrite Hallowed, Hopen, (install_planned _ _ _ _ _ _ Hplan Hio Hno Hsize). cbn [fst].
    apply (load_synced (State tx crls _ (switch_sandbox (st_sandbox s) ps) [])); [by eapply register_changes_ok| |];
      cbn [st_db st_disk st_sandbox]; [by eapply changes_synced|by rewrite switch_sandbox_closed].
Qed.

(** *** A journal that outlives its transaction *)
Lemma recover_files_map pr0 tx f ms :
  recover_files (fun _ => pr0) (map (recovered_of tx) ms) (map f ms) =
  map (fun m => on_app (undo_slot (s_old (m_app m), s_new (m_app m)) pr0)
                  (on_lib (undo_slot (s_old (m_lib m), s_new (m_lib m)) pr0) (f m))) ms.
Proof. induction ms as [|m ms IH]; [done|]. cbn [map recover_files]. by rewrite IH. Qed.
Lemma undo_switched c s :
  is_staged s -> is_Some (s_target s) \/ is_Some (s_candidate s) ->
  s_target (undo_slot (s_old s, s_new s) Restored (at_target c (switched s))) = s_target s.
Proof.
  intros Hst Hsome. apply undo_restored; [done|]. destruct Hst as (t & n & ->). unfold restorable_slot, switched.
  destruct t, n; cbn in *; split_and!; auto. by destruct Hsome as [[]|[]].
Qed.
Lemma committed_journal f w tx w' u :
  f_cleanup f = 0%nat -> commit_packages_files f w tx = (w', Ok u) ->
  w_members w' = map switched_member (w_members w) /\
  left_behind w' = [Stage (map switched_member (w_members w)) (to_json_string (journal_json tx (w_members w)))].
Proof.
  intros Hf Hc. apply commit_succeeded in Hc as Hms. destruct Hms as [_ Hms]. split; [done|]. unfold left_behind. rewrite Hms.
  enough (w_journal w' = Some (to_json_string (journal_json tx (w_members w)))) as -> by done.
  unfold commit_packages_files in Hc. destruct (f_prepare f); [done|]. destruct (_ >? _); [done|].
  destruct (f_switch f) as [[]|]; [done|]. injection Hc as <- _. rewrite Hf. cbn [take]. rewrite app_nil_r.
  unfold commit_steps. rewrite execute_app.
  destruct (execute_switch_steps (length (switch_steps (w_members w))) (journalled w tx)) as (ms' & E & _ & _).
  change (w_members (journalled w tx)) with (w_members w) in *. rewrite take_ge in E by done. by rewrite E.
Qed.
(** When a committed transaction could not remove its journal and one of its
    packages is changed again before the next start, that start puts the files
    back that were there before the first transaction: the registry describes
    the last installation, the files are those of the one before the first. *)
Theorem stale_journal_restores f w tx w1 u s :
  members_ok (w_members w) -> staged_world w ->
  slen (to_json_string (journal_json tx (w_members w))) <= 2 * 1024 * 1024 ->
  f_cleanup f = 0%nat -> commit_packages_files f w tx = (w1, Ok u) ->
  st_stages s = left_behind w1 ->
  (exists m, m ∈ w_members w /\
     registration_facts true tx (short_name (m_id m)) <> registration_facts true (st_db s) (short_name (m_id m))) ->
  exists s', recover_stages (st_stages s) s = (s', Ok tt) /\ st_db s' = st_db s /\
    forall m, m ∈ w_members w ->
      (is_Some (s_target (m_lib m)) \/ is_Some (s_candidate (m_lib m)) ->
       st_disk s' !! resource_path "lib" (m_id m) = s_target (m_lib m)) /\
      (is_Some (s_target (m_app m)) \/ is_Some (s_candidate (m_app m)) ->
       st_disk s' !! resource_path "app" (m_id m) = s_target (m_app m)).
Proof.
  intros Hok Hst Hsize Hf Hc Hstages Hdiff. destruct (committed_journal _ _ _ _ _ Hf Hc) as [_ Hleft].
  rewrite Hstages, Hleft. cbn [recover_stages].
  unfold recover_package_files, recover_until. cbn [stage_world w_journal w_db w_members sg_journal sg_members].
  rewrite read_journal_written by done. rewrite committed_old by done. cbn [stop_cleanup stop_files].
  rewrite map_map, recover_files_map. eexists. split; [reflexivity|]. split; [done|].
  intros m Hm. set (g := fun m0 => on_app _ (on_lib _ (placed_member _ (switched_member m0)))).
  assert (distinct (map g (w_members w))) as Hnd.
  { unfold distinct. rewrite map_map. apply Hok. }
  destruct (publish_at _ (st_disk s) (g m) Hnd) as [Hl Ha]; [by apply list_elem_of_fmap_2|].
  unfold staged_world in Hst. rewrite Forall_forall in Hst. destruct (Hst m Hm) as [Sl Sa].
  cbn [st_disk set_stages after_commit]. change (m_id m) with (m_id (g m)). split; intros Hsome.
  - etrans; [exact Hl|]. by apply undo_switched.
  - etrans; [exact Ha|]. by apply undo_switched.
Qed.
End crash.
End startup_facts.
