(* ===== verification/Profiles.v ===== *)
(** * Finding identity profiles ([src/server/run.rs] [account_homes],
      [parse_account_homes], [discover_profiles])

    Where identities live: in the home of the process, and for a process run by
    root in the homes of all accounts.  What the file system and [dhttp_home]
    answer are parameters. *)
From S2P Require Import Prelude RustStr Errors.

(** ** [std::path::Path] *)
(** The components of a path; a path is compared by them, so that [/a], [/a/]
    and [/a/./] are equal.  The number is the rank of [Component]'s variants. *)
Definition component (segment : string) : nat * string :=
  if String.eqb segment "." then (1%nat, segment) else if String.eqb segment ".." then (2%nat, segment) else (3%nat, segment).
Definition segments (l : list string) : list string := filter (fun c => c <> "" /\ c <> ".") l.
Definition components (path : string) : list (nat * string) :=
  match split_on "/" path with
  | EmptyString :: rest => (if String.eqb path "" then [] else [(0%nat, "/")]) ++ map component (segments rest)
  | "." :: rest => component "." :: map component (segments rest)
  | rest => map component (segments rest)
  end.
Definition path_eqb (a b : string) : bool := bool_decide (components a = components b).
Definition component_leb (a b : nat * string) : bool :=
  if Nat.eqb a.1 b.1 then String.leb a.2 b.2 else Nat.leb a.1 b.1.
Fixpoint components_leb (a b : list (nat * string)) : bool :=
  match a, b with
  | [], _ => true
  | _, [] => false
  | x :: a, y :: b => if bool_decide (x = y) then components_leb a b else component_leb x y
  end.
Definition path_leb (a b : string) : bool := components_leb (components a) (components b).
Definition is_absolute (path : string) : bool := starts_with "/" path.
(** [Vec::dedup_by]: an element equal to the one kept before it goes. *)
Fixpoint dedup_after {A} (same : A -> A -> bool) (previous : A) (l : list A) : list A :=
  match l with
  | [] => []
  | x :: l => if same x previous then dedup_after same previous l else x :: dedup_after same x l
  end.
Definition dedup_by {A} (same : A -> A -> bool) (l : list A) : list A :=
  match l with [] => [] | x :: l => x :: dedup_after same x l end.

(** ** Account homes *)
Definition strip_cr (line : string) : string := default line (strip_suffix (String "013" "") line).
(** [str::lines]: a last line without a line feed keeps a carriage return. *)
Definition lines (text : string) : list string :=
  let parts := split_on "010" text in
  map strip_cr (removelast parts) ++ match last parts with Some (String a s) => [String a s] | _ => [] end.
Definition account_home (line : string) : option string := split_on ":" line !! 5%nat.
Definition parse_account_homes (records : string) : list string :=
  dedup_by path_eqb (sort_by path_leb (filter (fun home => is_absolute home = true) (omap account_home (lines records)))).

(** What [getent passwd] did. *)
Inductive getent :=
| Listed (output : result string string)     (* from_utf8 of the output *)
| Failed (stderr : string)
| NoGetent (passwd : Result string)           (* /etc/passwd instead *)
| NotStarted (e : error).
Definition account_homes (g : getent) : Result (list string) :=
  let? records := match g with
                  | Listed output => map_err (fun e => InvalidConfig ("invalid account database: " +:+ e)) output
                  | Failed stderr => Err (InvalidConfig ("account discovery failed: " +:+ trim stderr))
                  | NoGetent passwd => passwd
                  | NotStarted e => Err e
                  end in
  Ok (parse_account_homes records).

(** ** Profiles *)
(** [IdentityProfile]: its name and directory. *)
Record profile := Profile { pf_name : string; pf_path : string }.
#[export] Instance profile_eq_dec : EqDecision profile.
Proof. solve_decision. Defined.
(** [symlink_metadata] of a path. *)
Inductive path_state := Directory | OtherFile | Missing | Unreadable (e : error).

Section discover.
Variable symlink_metadata : string -> path_state.
Variable discover_identity_profiles : string -> Result (list profile).
Variable for_user_home_dir : string -> string.

Definition user_home (homes : list string) (home : string) : Result (list string) :=
  match symlink_metadata home with
  | Directory => Ok (homes ++ [for_user_home_dir home])
  | OtherFile | Missing => Ok homes
  | Unreadable e => Err e
  end.
Definition duplicate (p previous : profile) : error :=
  InvalidConfig ("duplicate identity " +:+ pf_name p +:+ " in " +:+ pf_path previous +:+ " and " +:+ pf_path p).
Definition add_profile (profiles : gmap string profile) (p : profile) : Result (gmap string profile) :=
  match profiles !! pf_name p with
  | Some previous => Err (duplicate p previous)
  | None => Ok (<[pf_name p := p]> profiles)
  end.
Definition scan_home (profiles : gmap string profile) (home : string) : Result (gmap string profile) :=
  match symlink_metadata home with
  | Directory => let? found := discover_identity_profiles home in try_fold add_profile profiles found
  | OtherFile | Missing => Ok profiles
  | Unreadable e => Err e
  end.
(** [into_values]: in the order of the names. *)
Definition profile_leb (a b : profile) : bool := String.leb (pf_name a) (pf_name b).
Definition all_homes (home : string) (user_homes : list string) : Result (list string) :=
  let? homes := try_fold user_home [home] user_homes in
  Ok (dedup_by path_eqb (sort_by path_leb homes)).
Definition discover_profiles (home : string) (user_homes : option (list string)) : Result (list profile) :=
  match user_homes with
  | None => discover_identity_profiles home
  | Some user_homes =>
      let? homes := all_homes home user_homes in
      let? profiles := try_fold scan_home ∅ homes in
      Ok (sort_by profile_leb (map_to_list profiles).*2)
  end.
End discover.

(** ** Properties *)
Lemma components_leb_total a b : components_leb a b = true \/ components_leb b a = true.
Proof.
  revert b. induction a as [|x a IH]; intros [|y b]; cbn; auto.
  destruct (bool_decide_reflect (x = y)) as [->|Hne]; [rewrite bool_decide_true by done; apply IH|].
  rewrite bool_decide_false by done. destruct x as [n s], y as [m t]. unfold component_leb. cbn.
  destruct (Nat.eqb_spec n m) as [->|]; [rewrite Nat.eqb_refl; destruct (String.leb_total s t); auto|].
  destruct (Nat.eqb_spec m n); [congruence|]. rewrite !Nat.leb_le. lia.
Qed.

(** An element of a list is kept by [dedup_by] up to the relation. *)
Section dedup.
Context {A} (same : A -> A -> bool) (key : A -> list (nat * string)) (same_key : forall a b, same a b = true <-> key a = key b).
Lemma dedup_after_elem previous l x : x ∈ dedup_after same previous l -> x ∈ l.
Proof.
  revert previous. induction l as [|y l IH]; intros previous; cbn; [done|].
  destruct (same y previous); [intros ?%IH; by right|].
  intros [->|?%IH]%elem_of_cons; [left|by right].
Qed.
Lemma dedup_by_elem l x : x ∈ dedup_by same l -> x ∈ l.
Proof. destruct l as [|y l]; cbn; [done|]. intros [->|?%dedup_after_elem]%elem_of_cons; [left|by right]. Qed.
Lemma dedup_after_keeps previous l x :
  x ∈ l -> key x = key previous \/ exists y, y ∈ dedup_after same previous l /\ key y = key x.
Proof using same_key.
  revert previous. induction l as [|y l IH]; intros previous; cbn; [by intros ?%not_elem_of_nil|].
  intros [->|Hx]%elem_of_cons.
  - destruct (same y previous) eqn:Hs; [left; by apply same_key|]. right. exists y. split; [left|done].
  - destruct (same y previous) eqn:Hs.
    + apply IH, Hx.
    + destruct (IH y Hx) as [He|(z & Hz & He)]; right; [exists y; split; [left|done]|exists z; split; [by right|done]].
Qed.
Lemma dedup_by_keeps l x : x ∈ l -> exists y, y ∈ dedup_by same l /\ key y = key x.
Proof using same_key.
  destruct l as [|y l]; cbn; [by intros ?%not_elem_of_nil|]. intros [->|Hx]%elem_of_cons.
  { exists y. split; [left|done]. }
  destruct (dedup_after_keeps y l x Hx) as [He|(z & Hz & He)];
    [exists y; split; [left|done]|exists z; split; [by right|done]].
Qed.
End dedup.

(** *** The order of paths *)
Lemma component_leb_antisym a b : component_leb a b = true -> component_leb b a = true -> a = b.
Proof.
  destruct a as [n s], b as [m t]. unfold component_leb. cbn.
  destruct (Nat.eqb_spec n m) as [->|Hne]; [rewrite Nat.eqb_refl; intros; by rewrite (String.leb_antisym s t)|].
  destruct (Nat.eqb_spec m n); [congruence|]. rewrite !Nat.leb_le. lia.
Qed.
Lemma component_leb_trans a b c : component_leb a b = true -> component_leb b c = true -> component_leb a c = true.
Proof.
  destruct a as [n s], b as [m t], c as [k u]. unfold component_leb. cbn.
  destruct (Nat.eqb_spec n m) as [E1|E1], (Nat.eqb_spec m k) as [E2|E2], (Nat.eqb_spec n k) as [E3|E3];
    rewrite ?Nat.leb_le; try lia; try done. apply string_leb_trans.
Qed.
Lemma components_leb_antisym a b : components_leb a b = true -> components_leb b a = true -> a = b.
Proof.
  revert b. induction a as [|x a IH]; intros [|y b]; cbn; try done.
  destruct (bool_decide_reflect (x = y)) as [->|Hne].
  - rewrite bool_decide_true by done. intros. f_equal. by apply IH.
  - rewrite bool_decide_false by done. intros Hxy Hyx. by destruct Hne; apply component_leb_antisym.
Qed.
Lemma components_leb_trans a b c : components_leb a b = true -> components_leb b c = true -> components_leb a c = true.
Proof.
  revert b c. induction a as [|x a IH]; intros [|y b] [|z c]; cbn; try done.
  destruct (bool_decide_reflect (x = y)) as [->|Hxy], (bool_decide_reflect (y = z)) as [->|Hyz].
  - apply IH.
  - by intros _ ?.
  - rewrite bool_decide_false by done. by intros ? _.
  - intros H1 H2. destruct (bool_decide_reflect (x = z)) as [->|]; [|by eapply component_leb_trans].
    exfalso. by apply Hyz, component_leb_antisym.
Qed.
Lemma path_leb_total a b : path_leb a b = true \/ path_leb b a = true.
Proof. apply components_leb_total. Qed.
Lemma path_leb_trans a b c : path_leb a b = true -> path_leb b c = true -> path_leb a c = true.
Proof. apply components_leb_trans. Qed.
Lemma path_eqb_spec a b : path_eqb a b = true <-> components a = components b.
Proof. apply bool_decide_eq_true. Qed.

(** Removing repetitions from a sorted list leaves one path of each kind. *)
Lemma dedup_after_sorted previous l :
  StronglySorted (fun a b => path_leb a b = true) (previous :: l) ->
  NoDup (map components (previous :: dedup_after path_eqb previous l)).
Proof.
  revert previous. induction l as [|x l IH]; intros previous Hs; cbn; [apply NoDup_singleton|].
  inversion Hs as [|? ? Hsx Hall]; subst. inversion Hsx as [|? ? Hsl Hallx]; subst.
  apply Forall_cons in Hall as [Hpx Hpl]. destruct (path_eqb x previous) eqn:Hxp.
  - apply IH. by constructor.
  - specialize (IH x Hsx). cbn in IH. constructor; [|done]. intros (z & Hz & Hin)%list_elem_of_fmap.
    assert (path_leb x z = true) as Hxz.
    { apply elem_of_cons in Hin as [->|Hin]; [by destruct (path_leb_total x x)|].
      apply dedup_after_elem in Hin. rewrite Forall_forall in Hallx. by apply Hallx. }
    enough (path_eqb x previous = true) by congruence. apply path_eqb_spec, components_leb_antisym; [|done].
    unfold path_leb in Hxz. by rewrite Hz.
Qed.
Lemma homes_unique l : NoDup (map components (dedup_by path_eqb (sort_by path_leb l))).
Proof.
  pose proof (sort_by_sorted path_leb path_leb_total path_leb_trans l) as Hs.
  destruct (sort_by path_leb l) as [|x l']; [constructor|]. by apply dedup_after_sorted.
Qed.
Lemma homes_elem l x : x ∈ dedup_by path_eqb (sort_by path_leb l) -> x ∈ l.
Proof. intros Hx%dedup_by_elem. by apply elem_of_sort_by in Hx. Qed.
Lemma homes_keep l x : x ∈ l -> exists y, y ∈ dedup_by path_eqb (sort_by path_leb l) /\ components y = components x.
Proof. intros Hx. apply (dedup_by_keeps _ _ path_eqb_spec). by apply elem_of_sort_by. Qed.

(** The homes of an account database are absolute paths of its lines, one for
    each different path. *)
Theorem parse_account_homes_spec records :
  NoDup (map components (parse_account_homes records)) /\
  (forall home, home ∈ parse_account_homes records -> is_absolute home = true /\ exists line, line ∈ lines records /\ account_home line = Some home) /\
  (forall line home, line ∈ lines records -> account_home line = Some home -> is_absolute home = true ->
     exists home', home' ∈ parse_account_homes records /\ components home' = components home).
Proof.
  split_and!; [apply homes_unique| |].
  - intros home [Ha (line & Hl & Hh)%list_elem_of_omap]%homes_elem%list_elem_of_filter. eauto.
  - intros line home Hl Hh Ha. apply homes_keep, list_elem_of_filter. split; [done|]. apply list_elem_of_omap. eauto.
Qed.

(** *** Discovery *)
Section discover_facts.
Variable symlink_metadata : string -> path_state.
Variable discover_identity_profiles : string -> Result (list profile).
Variable for_user_home_dir : string -> string.
Local Abbreviation discover_profiles := (discover_profiles symlink_metadata discover_identity_profiles for_user_home_dir).

(** [profiles] maps each name to its profile, found in one of [found]. *)
Definition collected (profiles : gmap string profile) (found : list profile) : Prop :=
  (forall n p, profiles !! n = Some p <-> p ∈ found /\ pf_name p = n) /\ NoDup (map pf_name found).
Lemma add_profile_collected profiles found p profiles' :
  collected profiles found -> add_profile profiles p = Ok profiles' -> collected profiles' (found ++ [p]).
Proof.
  intros [Hc Hn] Ha. unfold add_profile in Ha. destruct (profiles !! pf_name p) eqn:Hp; [done|]. injection Ha as <-.
  assert (pf_name p ∉ map pf_name found) as Hfresh.
  { intros (q & Hq & Hin)%list_elem_of_fmap. assert (profiles !! pf_name p = Some q) by (by apply Hc). congruence. }
  split.
  - intros n q. rewrite elem_of_app, list_elem_of_singleton. destruct (decide (n = pf_name p)) as [->|Hne].
    + rewrite lookup_insert_eq. split; [intros [= ->]; auto|]. intros [[Hin| ->] Hq]; [|done].
      exfalso. apply Hfresh, list_elem_of_fmap. eauto.
    + rewrite lookup_insert_ne by done. rewrite Hc. naive_solver.
  - rewrite map_app. apply NoDup_app. split_and!; [done| |apply NoDup_singleton].
    intros x Hx ->%list_elem_of_singleton. done.
Qed.
Lemma add_profiles_collected ps profiles found profiles' :
  collected profiles found -> try_fold add_profile profiles ps = Ok profiles' -> collected profiles' (found ++ ps).
Proof.
  revert profiles found. induction ps as [|p ps IH]; intros profiles found Hc Hf; cbn in Hf; simplify_ok; [by rewrite app_nil_r|].
  rewrite (cons_middle p), app_assoc. eapply IH; [|done]. by eapply add_profile_collected.
Qed.

(** The homes of [homes] that are directories, with what was found there. *)
Definition scanned (homes : list string) (found : list profile) : Prop :=
  exists parts, Forall2 (fun home part => match symlink_metadata home with
    | Directory => discover_identity_profiles home = Ok part
    | OtherFile | Missing => part = []
    | Unreadable _ => False
    end) homes parts /\ found = concat parts.
Lemma scan_homes_collected homes profiles found profiles' :
  collected profiles found ->
  try_fold (scan_home symlink_metadata discover_identity_profiles) profiles homes = Ok profiles' ->
  exists more, scanned homes more /\ collected profiles' (found ++ more).
Proof.
  revert profiles found. induction homes as [|home homes IH]; intros profiles found Hc Hf; cbn in Hf; simplify_ok.
  { exists []. rewrite app_nil_r. split; [|done]. by exists []; split; [constructor|]. }
  match goal with Hs : scan_home _ _ _ _ = Ok ?p1 |- _ => assert (exists part, collected p1 (found ++ part) /\
    match symlink_metadata home with
    | Directory => discover_identity_profiles home = Ok part
    | OtherFile | Missing => part = []
    | Unreadable _ => False
    end) as (part & Hpart & Hkind) end.
  { unfold scan_home in *. destruct (symlink_metadata home) eqn:Hm; simplify_ok.
    - eexists. split; [by eapply add_profiles_collected|done].
    - exists []. by rewrite app_nil_r.
    - exists []. by rewrite app_nil_r. }
  destruct (IH _ _ Hpart Hf) as (more & (parts & Hparts & Hconcat) & Hmore). subst more.
  exists (part ++ concat parts). rewrite app_assoc. split; [|done]. exists (part :: parts). split; [by constructor|done].
Qed.

(** Discovery over account homes returns the identities of every existing home directory exactly once,
    each home visited once whatever the spelling of its path, and fails instead when two homes hold the
    same name. *)
Theorem discover_profiles_all home user_homes profiles :
  discover_profiles home (Some user_homes) = Ok profiles ->
  NoDup (map pf_name profiles) /\
  exists homes found, all_homes symlink_metadata for_user_home_dir home user_homes = Ok homes /\
    NoDup (map components homes) /\ scanned homes found /\ profiles ≡ₚ found.
Proof.
  unfold Profiles.discover_profiles. intros Hd. simplify_ok.
  match goal with Hf : try_fold _ ∅ _ = Ok ?m |- _ => rename m into ps; apply (scan_homes_collected _ _ []) in Hf as (found & Hs & Hc) end.
  2: { split; [|constructor]. intros n p. rewrite lookup_empty. split; [done|]. by intros [?%not_elem_of_nil _]. }
  cbn [app] in Hc. destruct Hc as [Hc Hn].
  assert ((map_to_list ps).*2 ≡ₚ found) as Hperm.
  { apply NoDup_Permutation; [| by eapply NoDup_fmap_1|].
    - apply NoDup_fmap_2_strong; [|apply NoDup_map_to_list]. intros [n p] [m q] Hnp Hmq Heq. cbn in Heq. subst q.
      apply elem_of_map_to_list, Hc in Hnp, Hmq. destruct Hnp as [_ <-], Hmq as [_ <-]. done.
    - intros p. rewrite list_elem_of_fmap. split.
      + intros ([n q] & -> & Hin%elem_of_map_to_list). by apply Hc in Hin as [? _].
      + intros Hin. exists (pf_name p, p). split; [done|]. apply elem_of_map_to_list, Hc. done. }
  assert (sort_by profile_leb (map_to_list ps).*2 ≡ₚ found) as Hsort by (by rewrite sort_by_Permutation).
  split; [by rewrite Hsort|]. eexists _, found. split_and!; [done| |done|done].
  unfold all_homes in *. simplify_ok. apply homes_unique.
Qed.
End discover_facts.
