(* ===== verification/Ocsp.v ===== *)
(** * OCSP proofs of the identity ([src/server/ocsp.rs])

    Fetching the status of the loaded certificate from the responder it names,
    and renewing the cached one.  The certificate and OCSP libraries, the HTTP
    client and the file system are arguments. *)
From S2P Require Import Prelude RustStr Json Crates Errors.

Definition ocsp_error (e : string) : error := InvalidIdentity ("OCSP: " +:+ e).
(** [GeneralName] of an access description: an URI or another name. *)
Record access_description := AccessDescription { access_method : string; access_location : option string }.
(** What the certificate library reads of the leaf: whether it is valid now,
    and the descriptions of each Authority Information Access extension. *)
Record ocsp_leaf := OcspLeaf { leaf_valid : bool; leaf_access : list (list access_description) }.
Definition OCSP_RESPONDER : string := "1.3.6.1.5.5.7.48.1".
Definition BODY_MAX : Z := 64 * 1024.

Section ocsp.
Context `{UrlCrates}.
(** [X509Certificate::from_der]; the encoded request for a leaf and its issuer;
    [Url::parse]; [validate_ocsp] now. *)
Variable parse_leaf : string -> result string ocsp_leaf.
Variable encode_request : string -> string -> result string string.
Variable url_error : string -> string.
Variable status_text : Z -> string.                                             (* a status with its reason *)
Variable client : result string unit.                                           (* [Client::builder().build()] *)
Variable validate_ocsp : string -> list string -> result string unit.
(** The answer to a POST: a status and the chunks of its body until the end or
    a failure; the seconds it takes until then. *)
Record answer := Answer { an_status : Z; an_chunks : list string; an_end : result string unit }.
Variable post : url -> string -> Z * result string answer.

(** [find_map] *)
Definition responder_of (access : access_description) : option string :=
  if String.eqb (access_method access) OCSP_RESPONDER then access_location access else None.
Fixpoint find_map {A B} (f : A -> option B) (l : list A) : option B :=
  match l with [] => None | x :: l => match f x with Some y => Some y | None => find_map f l end end.
Definition responder (leaf : ocsp_leaf) : option string := find_map (find_map responder_of) (leaf_access leaf).
(** The body, as long as it stays within the limit. *)
Fixpoint read_body (body : string) (chunks : list string) (end_ : result string unit) : Result string :=
  match chunks with
  | [] => match end_ with Ok _ => Ok body | Err e => Err (ocsp_error e) end
  | chunk :: chunks =>
      throw (ocsp_error "response exceeds 64KiB") when slen body + slen chunk >? BODY_MAX;;
      read_body (body +:+ chunk) chunks end_
  end.
Definition success (status : Z) : bool := (200 <=? status) && (status <? 300).
(** What happens within the fifteen seconds. *)
Definition exchange (url : string) (request : string) (certificates : list string) : Z * Result string :=
  match client with Err e => (0, Err (ocsp_error e)) | Ok _ =>
  match url_parse url with
  | None => (0, Err (ocsp_error (url_error url)))
  | Some uri =>
      if negb (mem (url_scheme uri) ["http"; "https"]) then (0, Err (ocsp_error "unsupported responder scheme")) else
      match post uri request with
      | (t, Err e) => (t, Err (ocsp_error e))
      | (t, Ok answer) =>
          (t, if negb (success (an_status answer)) then Err (ocsp_error ("responder returned " +:+ status_text (an_status answer))) else
              let? body := read_body "" (an_chunks answer) (an_end answer) in
              let? _ := map_err ocsp_error (validate_ocsp body certificates) in
              Ok body)
      end
  end end.
Definition fetch_ocsp (certificates : list string) : Result string :=
  let? leaf := ok_or (ocsp_error "missing certificate") (certificates !! 0%nat) in
  let? issuer := ok_or (ocsp_error "missing issuer certificate") (certificates !! 1%nat) in
  let? parsed := map_err ocsp_error (parse_leaf leaf) in
  throw (ocsp_error "certificate is outside its validity period") when negb (leaf_valid parsed);;
  let? url := ok_or (ocsp_error "certificate has no OCSP responder URI") (responder parsed) in
  let? request := map_err ocsp_error (encode_request leaf issuer) in
  let '(t, result) := exchange url request certificates in
  throw (ocsp_error "responder timed out after 15 seconds") when t >? 15;;
  result.

(** ** The cache: the file of the proof, replaced by a rename *)
Record ocsp_io := OcspIo { io_temporary : Result unit; io_owner : Result unit; io_write : Result unit; io_persist : Result unit; io_sync : Result unit }.
Definition cache_ocsp (io : ocsp_io) (cached : option string) (response : string) : option string * Result unit :=
  match (let? _ := io_temporary io in let? _ := io_owner io in let? _ := io_write io in io_persist io) with
  | Err e => (cached, Err e)
  | Ok _ => (Some response, io_sync io)
  end.
(** [reload] of the endpoint with the cached proof. *)
Context {endpoint : Type}.
Variable reload : option string -> Result endpoint.
Definition renew_ocsp (io : ocsp_io) (cached : option string) (authority : Result (list string)) : option string * Result endpoint :=
  match (let? certificates := authority in fetch_ocsp certificates) with
  | Err e => (cached, Err e)
  | Ok response =>
      match cache_ocsp io cached response with
      | (cached, Err e) => (cached, Err e)
      | (cached, Ok _) => (cached, reload cached)
      end
  end.

(** ** Properties *)
Lemma read_body_Ok body chunks end_ whole : read_body body chunks end_ = Ok whole ->
  whole = body +:+ fold_right String.append "" chunks /\ (slen body <= BODY_MAX -> slen whole <= BODY_MAX) /\ is_ok end_ = true.
Proof.
  revert body. induction chunks as [|chunk chunks IH]; intros body; cbn.
  - destruct end_; [|done]. intros [= <-]. split; [|done]. by rewrite app_nil_r_str.
  - destruct (_ >? BODY_MAX) eqn:Hb; [done|]. intros (-> & Hl & He)%IH. rewrite app_assoc_str. split; [done|]. split; [|done].
    intros _. rewrite <- app_assoc_str. apply Hl. rewrite slen_app. lia.
Qed.
(** A proof is fetched only for a valid certificate with an issuer, from the
    responder the certificate names over HTTP, in time and within the limit, and
    only one that validates for the chain. *)
Theorem fetch_ocsp_Ok certificates response :
  fetch_ocsp certificates = Ok response ->
  exists leaf issuer rest parsed url uri request t answer, certificates = leaf :: issuer :: rest /\
    parse_leaf leaf = Ok parsed /\ leaf_valid parsed = true /\ responder parsed = Some url /\ url_parse url = Some uri /\
    url_scheme uri ∈ ["http"; "https"] /\ encode_request leaf issuer = Ok request /\ post uri request = (t, Ok answer) /\ t <= 15 /\
    success (an_status answer) = true /\ response = fold_right String.append "" (an_chunks answer) /\
    slen response <= BODY_MAX /\ validate_ocsp response certificates = Ok tt.
Proof.
  unfold fetch_ocsp. intros Hf. destruct certificates as [|leaf [|issuer rest]]; [done..|]. cbn in Hf.
  destruct (parse_leaf leaf) as [parsed|] eqn:Hp; [|done]. cbn in Hf. destruct (leaf_valid parsed) eqn:Hv; [|done]. cbn in Hf.
  destruct (responder parsed) as [url|] eqn:Hr; [|done]. cbn in Hf. destruct (encode_request leaf issuer) as [request|] eqn:He; [|done]. cbn in Hf.
  unfold exchange in Hf. destruct client as [[]|]; [|done]. destruct (url_parse url) as [uri|] eqn:Hu; [|done]. destruct (mem (url_scheme uri) _) eqn:Hm; [|done]. cbn in Hf.
  destruct (post uri request) as [t [answer|]] eqn:Ha; [|by destruct (t >? 15)].
  destruct (t >? 15) eqn:Ht; [done|]. destruct (success (an_status answer)) eqn:Hs; [|done]. cbn in Hf.
  destruct (read_body _ _ _) as [body|] eqn:Hb; [|done]. destruct (validate_ocsp body _) as [[]|] eqn:Hval; [|done]. injection Hf as <-.
  apply read_body_Ok in Hb as (-> & Hl & _). apply mem_true in Hm.
  exists leaf, issuer, rest, parsed, url, uri, request, t, answer. split_and!; try done; [lia|]. apply Hl. done.
Qed.
(** Renewing either leaves the cached proof or replaces it by one that validates;
    an endpoint is returned only with that one. *)
Theorem renew_ocsp_cache io cached authority cached' result :
  renew_ocsp io cached authority = (cached', result) ->
  (cached' = cached \/ exists certificates response, authority = Ok certificates /\ cached' = Some response /\ validate_ocsp response certificates = Ok tt) /\
  (is_ok result = true -> exists certificates response, authority = Ok certificates /\ cached' = Some response /\
     validate_ocsp response certificates = Ok tt /\ reload (Some response) = result).
Proof.
  unfold renew_ocsp. destruct authority as [certificates|]; [|intros [= <- <-]; split; [by left|done]].
  destruct (fetch_ocsp certificates) as [response|] eqn:Hf; [|intros [= <- <-]; split; [by left|done]].
  apply fetch_ocsp_Ok in Hf as (_ & _ & _ & _ & _ & _ & _ & _ & _ & _ & _ & _ & _ & _ & _ & _ & _ & _ & _ & _ & _ & Hv).
  unfold cache_ocsp. destruct (let? _ := io_temporary io in _) as [u|]; [|intros [= <- <-]; split; [by left|done]].
  destruct (io_sync io); intros [= <- <-]; (split; [right; eauto|]); [|done]. intros _. eauto 6.
Qed.
End ocsp.
