(* ===== verification/Dns.v ===== *)
(** * Keeping DNS records ([src/dns.rs])

    One publication of an identity's addresses with the time of the next one,
    and one maintenance of the mDNS resources.  The resolver libraries are
    arguments: what their calls answer, and which resources exist after the
    calls made so far. *)
From S2P Require Import Prelude RustStr Errors.

(** ** [publish]: milliseconds *)
Definition PUBLISH_TIMEOUT : Z := 3000.
Definition MAINTENANCE_RETRY : Z := 5000.
Definition PUBLISH_INTERVAL : Z := 20000.
(** [answer]: the duration of the publication and whether it succeeds. *)
Definition publish {A} (started : Z) (addresses : list A) (answer : Z * bool) : option Z :=
  match addresses with
  | [] => None
  | _ =>
      let '(duration, ok) := answer in
      if duration <=? PUBLISH_TIMEOUT then
        if ok then Some (started + PUBLISH_INTERVAL) else Some (started + duration + MAINTENANCE_RETRY)
      else Some (started + PUBLISH_TIMEOUT + MAINTENANCE_RETRY)
  end.

(** ** [maintain_mdns] *)
(** A resource is bound to a device and an IP; a socket to an IP and a port. *)
Abbreviation binding := (string * string)%type.
Abbreviation bound := (string * Z)%type.
Section maintain.
Context {addr : Type} `{EqDecision addr}.
Variable addr_leb : addr -> addr -> bool.
Variables (internal : addr -> bool) (port : addr -> Z).
(** The calls that change a resource. *)
Inductive call :=
| Remove (b : binding)
| Upsert (b : binding)
| Publish (b : binding) (name : string) (addresses : list addr).
(** The failure of the last of the calls, and the resources after them. *)
Variable answers : list call -> option string.
Variable snapshot : list call -> list binding.
(** The calls made and the first failure. *)
Record progress := Progress { calls : list call; failed : option string }.
Definition report (e : option string) (p : progress) : progress :=
  Progress (calls p) (match failed p with Some e => Some e | None => e end).
Definition perform (c : call) (p : progress) : progress := let cs := calls p ++ [c] in report (answers cs) (Progress cs (failed p)).
(** The sockets with their devices, whether the dock still has each with that
    device, and the addresses behind it. *)
Variable inner_bindings : list (bound * string).
Variable docked : bound -> string -> bool.
Variable mdns_endpoints : bound -> list addr.
Definition desired_binding (e : bound * string) : binding := (e.2, e.1.1).
Definition live (e : bound * string) : bool := docked e.1 e.2.
Definition sources (b : binding) : list addr :=
  flat_map (fun e => mdns_endpoints e.1) (List.filter (fun e => live e && bool_decide (desired_binding e = b)) inner_bindings).
(** [sort_unstable] and [dedup]: [addr_leb] is a total order, so the result does
    not depend on which of two equal addresses is dropped. *)
Definition addresses_of (b : binding) : list addr :=
  sort_by addr_leb (remove_dups (List.filter (fun a => internal a && negb (port a =? 0)) (sources b))).
Definition desired : list (binding * list addr) :=
  List.filter (fun e => negb (bool_decide (e.2 = [])))
    (map (fun b => (b, addresses_of b)) (remove_dups (map desired_binding (List.filter live inner_bindings)))).
(** An endpoint: its name and whether its credentials may publish
    ([authority]). *)
Variable endpoints : list (string * option string).
Definition publish_endpoint (b : binding) (addresses : list addr) (p : progress) (endpoint : string * option string) : progress :=
  match endpoint.2 with
  | Some e => report (Some e) p
  | None => perform (Publish b endpoint.1 addresses) p
  end.
Definition publish_binding (p : progress) (e : binding * list addr) : progress :=
  let p' := perform (Upsert e.1) p in
  match answers (calls p') with
  | Some _ => p'
  | None => fold_left (publish_endpoint e.1 e.2) endpoints p'
  end.
Definition remove_when (test : binding -> bool) (p : progress) (b : binding) : progress :=
  if test b then perform (Remove b) p else p.
Definition maintain_mdns (removed_bounds : list bound) : progress :=
  let p := fold_left (remove_when (fun b => existsb (fun r => String.eqb r.1 b.2) removed_bounds)) (snapshot []) (Progress [] None) in
  let p := fold_left (remove_when (fun b => negb (mem b (map fst desired)))) (snapshot (calls p)) p in
  fold_left publish_binding desired p.

(** ** Properties *)
Lemma desired_exact b addresses : (b, addresses) ∈ desired ->
  addresses = addresses_of b /\ addresses <> [] /\
  forall a, a ∈ addresses <-> internal a = true /\ port a <> 0 /\
    exists e, e ∈ inner_bindings /\ live e = true /\ desired_binding e = b /\ a ∈ mdns_endpoints e.1.
Proof.
  unfold desired. intros Hin. apply list_elem_of_In, filter_In in Hin as [Hin Hne]. apply in_map_iff in Hin as (b' & Heq & _). injection Heq as <- <-.
  cbn in Hne. simplify_bool. split; [done|]. split; [done|]. intros a. unfold addresses_of.
  rewrite elem_of_sort_by, elem_of_remove_dups, list_elem_of_In, filter_In. unfold sources. rewrite in_flat_map. split.
  - intros [(e & He & Ha) Hb]. apply filter_In in He as [He Hl]. simplify_bool. split; [done|]. split; [done|].
    exists e. rewrite !list_elem_of_In. done.
  - intros (Hi & Hp & e & He & Hl & Hb & Ha). split; [|by rewrite Hi; apply Z.eqb_neq in Hp as ->].
    exists e. split; [|by apply list_elem_of_In]. apply filter_In. split; [by apply list_elem_of_In|]. rewrite Hl. by apply bool_decide_eq_true.
Qed.
(** What the calls are for. *)
Definition justified (removed_bounds : list bound) (c : call) : Prop :=
  match c with
  | Remove b => existsb (fun r => String.eqb r.1 b.2) removed_bounds = true \/ b ∉ map fst desired
  | Upsert b => b ∈ map fst desired
  | Publish b name addresses => (b, addresses) ∈ desired /\ (name, None) ∈ endpoints
  end.
Definition all_justified (rs : list bound) (p : progress) : Prop := Forall (justified rs) (calls p).
Lemma perform_justified rs c p : justified rs c -> all_justified rs p -> all_justified rs (perform c p).
Proof. intros Hc Hp. apply Forall_app. split; [done|by constructor]. Qed.
Lemma fold_keeps {A B} (P : A -> Prop) (f : A -> B -> A) l a : P a -> (forall a b, b ∈ l -> P a -> P (f a b)) -> P (fold_left f l a).
Proof.
  revert a. induction l as [|b l IH]; intros a Ha Hf; [done|]. cbn. apply IH; [apply Hf; [left|done]|].
  intros a' b' Hb. apply Hf. by right.
Qed.
(** Maintenance removes only resources whose socket is gone or that are not
    wanted, and publishes only identities with credentials, under a wanted
    resource, with its internal addresses that have a port. *)
Theorem maintain_mdns_justified rs : all_justified rs (maintain_mdns rs).
Proof.
  unfold maintain_mdns. apply fold_keeps; [apply fold_keeps; [apply fold_keeps; [constructor|]|]|].
  - intros p b _ Hp. unfold remove_when. destruct (existsb _ _) eqn:Ht; [|done]. apply perform_justified; [by left|done].
  - intros p b _ Hp. unfold remove_when. destruct (mem b _) eqn:Ht; [done|]. apply perform_justified; [|done]. right.
    intros Hin. apply mem_true in Hin. congruence.
  - intros p [b addresses] Hin Hp. unfold publish_binding.
    assert (Hu : all_justified rs (perform (Upsert b) p)).
    { apply perform_justified; [|done]. by apply (list_elem_of_fmap_2 fst _ (b, addresses)). }
    destruct (answers _); [done|]. apply fold_keeps; [done|]. intros p' [name [e|]] Hn Hp'; [done|]. by apply perform_justified.
Qed.
End maintain.
