(* ===== verification/Supervisor.v ===== *)
(** * Identity servers and their reconciliation ([src/server/run.rs],
      [src/server.rs] [Server], [src/lib.rs] [configure], [src/dns.rs] [authority])

    A server holds an identity's endpoint, configuration, publisher, listener
    and routes; [reconcile_profiles] brings the running servers in line with the
    profiles and settings on disk, one identity after the other.  The outcomes
    of I/O (certificates, OCSP, sockets, clean-up) are given per identity and
    scan; the settings are the databases of [Setup]. *)
From S2P Require Import Prelude RustStr Json Crates Errors Registry Capabilities NetAddr Setup Profiles.

(** ** A server *)
Inductive scopes := Loopback | Internal | External | AllScopes.
#[export] Instance scopes_eq_dec : EqDecision scopes.
Proof. solve_decision. Defined.
(** The routes serve an endpoint and its proxy locations; a closed server has
    the empty router. *)
Record server := Server {
  sv_profile : profile;
  sv_endpoint : endpoint;
  sv_config : ServerConfig;
  sv_publisher : option endpoint;                       (* the resolver of an endpoint *)
  sv_listener : option scopes;
  sv_routes : option (endpoint * list ProxyLocation);
  sv_open : bool                                        (* the sandbox *)
}.
Definition set_config c sv := Server (sv_profile sv) (sv_endpoint sv) c (sv_publisher sv) (sv_listener sv) (sv_routes sv) (sv_open sv).
Definition set_endpoint e sv := Server (sv_profile sv) e (sv_config sv) (sv_publisher sv) (sv_listener sv) (sv_routes sv) (sv_open sv).
Definition set_publisher p sv := Server (sv_profile sv) (sv_endpoint sv) (sv_config sv) p (sv_listener sv) (sv_routes sv) (sv_open sv).
Definition set_listener l sv := Server (sv_profile sv) (sv_endpoint sv) (sv_config sv) (sv_publisher sv) l (sv_routes sv) (sv_open sv).
Definition set_routes r sv := Server (sv_profile sv) (sv_endpoint sv) (sv_config sv) (sv_publisher sv) (sv_listener sv) r (sv_open sv).
(** What [current_router] captures of the server. *)
Definition current_routes (sv : server) : option (endpoint * list ProxyLocation) :=
  Some (sv_endpoint sv, proxy_locations (sv_config sv)).

(** The outcomes of one load, one listen and one scan. *)
Inductive endpoint_error := InvalidName (e : string) | HomeError (e : string) | CredentialsError (e : string) | OtherDhttp (e : string).
Record load_io := LoadIo {
  li_database : Result bool; li_config_db : Result bool;      (* try_exists *)
  li_directories : Result unit;
  li_certs : result string (list string);
  li_ocsp : option string; li_fetch : Result string; li_cache : Result unit;
  li_endpoint : result endpoint_error endpoint;               (* Endpoint::load_from *)
  li_access : Result unit; li_libs : Result unit;
  li_contacts : result string unit; li_ownership : Result unit }.
Record listen_io := ListenIo { lo_log : Result unit; lo_listen : result string unit }.
Record identity_io := IdentityIo { io_load : load_io; io_first : listen_io; io_second : listen_io; io_finished : bool }.

Section supervisor.
Context `{DhttpHome, UrlCrates, AccessControl}.
(** The texts of certificate errors, OCSP validation, and
    [H3Resolver::new]. *)
Variable certificate_error : list string -> string.
Variable ocsp_valid : string -> list string -> bool.
Variable h3_resolver : endpoint -> result string unit.

(** ** [dns::authority], [dns::publisher] *)
Definition dns_authority (ep : endpoint) : result (io_kind * string) authority_ :=
  let? authority := map_err (pair OtherIo) (ep_local ep) in
  let? ski := ok_or (OtherIo, certificate_error (au_certificates authority)) (extract_ski (au_certificates authority)) in
  throw (InvalidInput, ep_name ep +:+ ": listening requires ClientAndServer publishing credentials") when
    negb (client_and_server ski);;
  Ok authority.
Definition io_error (e : io_kind * string) : error := Io e.1 e.2.
Definition publisher (ep : endpoint) : Result endpoint :=
  let? _ := map_err io_error (dns_authority ep) in
  let? _ := map_err (Io OtherIo) (h3_resolver ep) in
  Ok ep.
Definition published (mode : string) : bool := String.eqb mode "external" || String.eqb mode "all".
Definition announced (mode : string) : bool := String.eqb mode "internal" || String.eqb mode "all".
Definition publisher_for (mode : string) (ep : endpoint) : Result (option endpoint) :=
  if published mode then result_map Some (publisher ep) else Ok None.
Definition publishing_authority (ep : endpoint) : Result authority_ :=
  map_err (fun e : io_kind * string => InvalidIdentity e.2) (dns_authority ep).

(** ** [Server::listen], [Server::close], [Server::load] *)
Definition listen_scopes (mode : string) : Result scopes :=
  if String.eqb mode "off" then Err (InvalidConfig "listen is disabled")
  else if String.eqb mode "loopback" then Ok Loopback
  else if String.eqb mode "internal" then Ok Internal
  else if String.eqb mode "external" then Ok External
  else if String.eqb mode "all" then Ok AllScopes
  else Err (InvalidConfig "invalid listen mode").
Definition server_listen (io : listen_io) (sv : server) : Result scopes :=
  let? scopes := listen_scopes (listen (sv_config sv)) in
  let? _ := lo_log io in
  let? _ := map_err Dhttp (lo_listen io) in
  Ok scopes.
Definition server_close (finished : bool) (sv : server) : server * Result unit :=
  (Server (sv_profile sv) (sv_endpoint sv) (sv_config sv) None None None false,
   if finished then Ok tt else Err ShutdownDeadline).

Definition endpoint_load_error (e : endpoint_error) : error :=
  match e with InvalidName e | HomeError e | CredentialsError e => InvalidIdentity e | OtherDhttp e => Dhttp e end.
(** [Server::load] up to the access database: the endpoint. *)
Definition load_identity (io : load_io) : Result endpoint :=
  let? _ := li_directories io in
  let? certs := map_err InvalidIdentity (li_certs io) in
  let? _ := if match li_ocsp io with Some response => ocsp_valid response certs | None => false end then Ok tt
            else let? response := li_fetch io in li_cache io in
  let? ep := map_err endpoint_load_error (li_endpoint io) in
  let? ski := ok_or (InvalidIdentity (certificate_error certs)) (extract_ski certs) in
  throw (InvalidIdentity "invalid certificate subject") when negb (subject_ok (owner_hash ski));;
  let? _ := li_access io in
  Ok ep.
(** The rest, with the configuration. *)
Definition load_services (io : load_io) (p : profile) (ep : endpoint) (config : ServerConfig) (s : settings) : Result server :=
  let? _ := if negb (String.eqb (listen config) "off") then result_map (fun _ => tt) (publishing_authority ep) else Ok tt in
  let? resolver := publisher_for (listen config) ep in
  let? _ := li_libs io in
  let? _ := open_config false s in
  let? _ := map_err InvalidConfig (li_contacts io) in
  let? _ := li_ownership io in
  let sv := Server p ep config resolver None None true in
  Ok (set_routes (current_routes sv) sv).
Definition database_path (p : profile) : string := pf_path p +:+ "/.volume/sys/setting/database".
Definition server_load (io : load_io) (p : profile) (s : settings) : settings * Result server :=
  match load_identity io with
  | Err e => (s, Err e)
  | Ok ep =>
      let '(s, config) := load_server_config (database_path p) s in
      (s, let? config := config in load_services io p ep config s)
  end.

(** ** [configure], [load_profile] *)
Definition configure (inherit : option error) (path : string) (mode : option string) (initialize : bool) (s : settings) : settings * Result json :=
  let '(s, ready) := if initialize then let '(s, config) := load_server_config path s in (s, result_map (fun _ => tt) config)
                     else (s, Ok tt) in
  match ready with
  | Err e => (s, Err e)
  | Ok _ => config_database inherit (match mode with Some _ => "PATCH" | None => "GET" end) "/std/sys/listen" None
              ((fun listen => jobj [("listen", JStr listen)]) <$> mode) s
  end.
Definition load_profile (io : identity_io) (p : profile) (s : settings) : settings * Result (option server) :=
  match (let? exists_ := li_database (io_load io) in if exists_ then Ok true else li_config_db (io_load io)) with
  | Err e => (s, Err e)
  | Ok false => (s, Ok None)
  | Ok true =>
      let '(s, shown) := match config_database None "GET" "/std/sys/listen" None None s with
                         | (s, Ok value) => (s, Ok value)
                         | (s, Err _) => configure None (database_path p) None true s
                         end in
      match shown with
      | Err e => (s, Err e)
      | Ok value =>
          if is_str value.["listen"] "off" then (s, Ok None) else
          let '(s, loaded) := server_load (io_load io) p s in
          (s, match loaded with
              | Ok sv => if String.eqb (listen (sv_config sv)) "off"
                         then let? _ := (server_close (io_finished io) sv).2 in Ok None
                         else Ok (Some sv)
              | Err (InvalidIdentity _) => Ok None
              | Err e => Err e
              end)
      end
  end.

(** ** [apply_config], [apply_ocsp], [same_config] *)
Definition same_proxy (a b : ProxyLocation) : bool :=
  String.eqb (location a) (location b)
  && bool_decide (scheme (proxy_pass a) = scheme (proxy_pass b))
  && bool_decide (Crates.authority (proxy_pass a) = Crates.authority (proxy_pass b))
  && bool_decide (path_and_query (proxy_pass a) = path_and_query (proxy_pass b)).
Definition same_config (a b : ServerConfig) : bool :=
  String.eqb (listen a) (listen b)
  && Nat.eqb (length (proxy_locations a)) (length (proxy_locations b))
  && forallb (fun ab => same_proxy ab.1 ab.2) (combine (proxy_locations a) (proxy_locations b)).
(** The new publisher, before anything changes. *)
Definition next_publisher (sv : server) (config : ServerConfig) : Result (option endpoint) :=
  if negb (String.eqb (listen (sv_config sv)) (listen config)) then
    if negb (String.eqb (listen config) "off") then
      let? _ := publishing_authority (sv_endpoint sv) in publisher_for (listen config) (sv_endpoint sv)
    else Ok None
  else Ok (sv_publisher sv).
(** The listener of the new scope, else of the previous one. *)
Definition relisten (first second : listen_io) (previous : ServerConfig) (sv : server) : server * Result unit :=
  let sv := set_listener None sv in
  if String.eqb (listen (sv_config sv)) "off" then (sv, Ok tt) else
  match server_listen first sv with
  | Ok scopes => (set_listener (Some scopes) sv, Ok tt)
  | Err e =>
      let sv := set_config previous sv in
      (if String.eqb (listen previous) "off" then sv
       else match server_listen second sv with
            | Ok scopes => set_listener (Some scopes) sv
            | Err _ => sv
            end, Err e)
  end.
Definition apply_config (first second : listen_io) (config : ServerConfig) (sv : server) : server * Result unit :=
  match next_publisher sv config with
  | Err e => (sv, Err e)
  | Ok resolver =>
      let previous := sv_config sv in
      let '(sv, result) :=
        if negb (String.eqb (listen previous) (listen config))
        then relisten first second previous (set_config config sv) else (set_config config sv, Ok tt) in
      match result with
      | Err e => (sv, Err e)
      | Ok _ => let sv := set_publisher resolver sv in (set_routes (current_routes sv) sv, Ok tt)
      end
  end.
Definition apply_ocsp (ep : endpoint) (sv : server) : server * Result unit :=
  match publisher_for (listen (sv_config sv)) ep with
  | Err e => (sv, Err e)
  | Ok resolver =>
      let sv := set_publisher resolver (set_endpoint ep sv) in
      (set_routes (current_routes sv) sv, Ok tt)
  end.

(** ** [reconcile_profiles] *)
(** The running servers by name, the names mDNS answers for, and the settings
    in each profile directory. *)
Record supervisor := Supervisor {
  servers : gmap string server; mdns : gset string; disk : gmap (list (nat * string)) settings }.
Definition no_database : settings := Settings 0 false false ∅ (Database ∅ ∅ ∅ ∅ []) [].
Definition settings_at (s : supervisor) (path : string) : settings := default no_database (disk s !! components path).
Definition insert_server n sv s := Supervisor (<[n := sv]> (servers s)) (mdns s) (disk s).
Definition remove_server n s := Supervisor (delete n (servers s)) (mdns s) (disk s).
Definition remove_mdns_name n s := Supervisor (servers s) (mdns s ∖ {[n]}) (disk s).
Definition set_settings path d s := Supervisor (servers s) (mdns s) (<[components path := d]> (disk s)).

Definition still_there (profiles : list profile) (n : string) (sv : server) : bool :=
  existsb (fun p => String.eqb (pf_name p) n && path_eqb (pf_path p) (pf_path (sv_profile sv))) profiles.
(** Servers whose profile is gone. *)
Definition retire (profiles : list profile) (s : supervisor) : supervisor * bool :=
  let removed := filter (fun e => still_there profiles e.1 e.2 = false) (servers s) in
  (Supervisor (filter (fun e => still_there profiles e.1 e.2 = true) (servers s)) (mdns s ∖ dom removed) (disk s),
   negb (bool_decide (removed = ∅))).

(** One profile with a running server; whether anything changed. *)
Definition reconcile_running (io : identity_io) (n : string) (sv : server) (s : supervisor) : supervisor * bool :=
  match read_server_config (settings_at s (pf_path (sv_profile sv))) with
  | Err _ => (s, false)
  | Ok config =>
      if String.eqb (listen config) "off" then (remove_mdns_name n (remove_server n s), true)
      else if same_config (sv_config sv) config then (s, false)
      else
        let '(sv, result) := apply_config (io_first io) (io_second io) config sv in
        let s := insert_server n sv s in
        let lost := bool_decide (sv_listener sv = None) in
        let s := if negb (announced (listen (sv_config sv))) || lost then remove_mdns_name n s else s in
        let dropped := negb (String.eqb (listen (sv_config sv)) "off") && lost in
        let s := if dropped then remove_server n s else s in
        (s, dropped || match result with Ok _ => true | Err _ => false end)
  end.
(** One profile without a server. *)
Definition reconcile_new (io : identity_io) (p : profile) (s : supervisor) : supervisor * bool :=
  let '(d, loaded) := load_profile io p (settings_at s (pf_path p)) in
  let s := set_settings (pf_path p) d s in
  match loaded with
  | Ok (Some sv) =>
      if String.eqb (listen (sv_config sv)) "off" then (insert_server (pf_name p) sv s, true)
      else match server_listen (io_first io) sv with
           | Ok scopes => (insert_server (pf_name p) (set_listener (Some scopes) sv) s, true)
           | Err _ => (s, false)
           end
  | _ => (s, false)
  end.
Definition reconcile_one (io : string -> identity_io) (st : supervisor * bool) (p : profile) : supervisor * bool :=
  let '(s, changed) := st in
  let '(s, now_changed) :=
    match servers s !! pf_name p with
    | Some sv => reconcile_running (io (pf_name p)) (pf_name p) sv s
    | None => reconcile_new (io (pf_name p)) p s
    end in
  (s, changed || now_changed).
Definition reconcile_profiles (found : Result (list profile)) (io : string -> identity_io) (s : supervisor) :
    supervisor * Result bool :=
  match found with
  | Err e => (s, Err e)
  | Ok profiles =>
      let '(s, changed) := fold_left (reconcile_one io) profiles (retire profiles s) in
      (s, Ok changed)
  end.
End supervisor.

(** ** Properties *)
Section supervisor_facts.
Context `{DhttpHome, UrlCrates, AccessControl}.
Variable certificate_error : list string -> string.
Variable ocsp_valid : string -> list string -> bool.
Variable h3_resolver : endpoint -> result string unit.
Local Abbreviation load_profile := (load_profile certificate_error ocsp_valid h3_resolver).
Local Abbreviation apply_config := (apply_config certificate_error h3_resolver).
Local Abbreviation apply_ocsp := (apply_ocsp certificate_error h3_resolver).
Local Abbreviation publisher_for := (publisher_for certificate_error h3_resolver).
Local Abbreviation reconcile_one := (reconcile_one certificate_error ocsp_valid h3_resolver).
Local Abbreviation reconcile_profiles := (reconcile_profiles certificate_error ocsp_valid h3_resolver).

(** *** Servers *)
(** Everything but the listener agrees with the endpoint and configuration. *)
Definition server_ready (n : string) (sv : server) : Prop :=
  pf_name (sv_profile sv) = n /\ ep_name (sv_endpoint sv) = n /\ sv_open sv = true /\
  sv_publisher sv = (if published (listen (sv_config sv)) then Some (sv_endpoint sv) else None) /\
  sv_routes sv = current_routes sv.
Definition server_ok (n : string) (sv : server) : Prop :=
  server_ready n sv /\ exists sc, listen_scopes (listen (sv_config sv)) = Ok sc /\ sv_listener sv = Some sc.

Lemma listen_scopes_off mode sc : listen_scopes mode = Ok sc -> String.eqb mode "off" = false.
Proof. unfold listen_scopes. by destruct (String.eqb mode "off"). Qed.
Lemma server_listen_Ok io sv sc : server_listen io sv = Ok sc -> listen_scopes (listen (sv_config sv)) = Ok sc.
Proof. unfold server_listen. intros Hl. by simplify_ok. Qed.
Lemma publisher_for_Ok mode ep r : publisher_for mode ep = Ok r -> r = if published mode then Some ep else None.
Proof.
  unfold Supervisor.publisher_for, publisher. destruct (published mode); [|by intros [= <-]].
  destruct (dns_authority _ ep), (h3_resolver ep); cbn; congruence.
Qed.
Lemma same_proxy_eq a b : same_proxy a b = true <-> a = b.
Proof.
  unfold same_proxy. split.
  - intros Hs. simplify_bool. destruct a as [l [s a q]], b as [m [t b r]]. cbn in *. by subst.
  - intros ->. rewrite String.eqb_refl, !bool_decide_true by done. done.
Qed.
(** The comparison of configurations, made field by field, is equality. *)
Lemma same_config_eq a b : same_config a b = true <-> a = b.
Proof.
  unfold same_config. destruct a as [l ps], b as [m qs]. cbn. split.
  - intros Hs. apply andb_true_iff in Hs as [[Hl Hlen]%andb_true_iff Hall]. apply String.eqb_eq in Hl as ->.
    f_equal. apply Nat.eqb_eq in Hlen. revert qs Hlen Hall. induction ps as [|p ps IH]; intros [|q qs] Hlen Hall; cbn in *; try done.
    apply andb_true_iff in Hall as [->%same_proxy_eq Hall]. f_equal. apply IH; [lia|done].
  - intros [= -> ->]. rewrite String.eqb_refl, Nat.eqb_refl. cbn. induction qs as [|q qs IH]; cbn; [done|].
    rewrite IH, andb_true_r. by apply same_proxy_eq.
Qed.

Lemma load_services_ready io p ep config s sv :
  load_services certificate_error h3_resolver io p ep config s = Ok sv -> ep_name ep = pf_name p ->
  server_ready (pf_name p) sv /\ sv_listener sv = None /\ sv_config sv = config /\ sv_profile sv = p.
Proof.
  unfold load_services. intros Hl Hn. simplify_ok.
  match goal with Hp : Supervisor.publisher_for _ _ _ _ = Ok _ |- _ => apply publisher_for_Ok in Hp as -> end.
  by repeat split.
Qed.
Lemma load_profile_ready io p s d sv :
  load_profile io p s = (d, Ok (Some sv)) ->
  (forall e, li_endpoint (io_load io) = Ok e -> ep_name e = pf_name p) ->
  server_ready (pf_name p) sv /\ sv_listener sv = None /\ String.eqb (listen (sv_config sv)) "off" = false /\ sv_profile sv = p.
Proof.
  unfold Supervisor.load_profile. intros Hl Hname.
  destruct (let? e := li_database _ in _) as [[]|]; [|done..].
  destruct (match config_database _ _ _ _ _ _ with (s, Ok v) => _ | _ => _ end) as [d1 [value|]]; [|done].
  destruct (is_str _ _); [done|]. unfold server_load in Hl.
  destruct (load_identity _ _ _) as [ep|e] eqn:Hid.
  2: { injection Hl as _ Hl. by destruct e. }
  destruct (load_server_config _ _) as [d2 config]. injection Hl as _ Hl.
  destruct (let? config := config in _) as [sv1|e] eqn:Hs; [|by destruct e].
  simplify_ok. destruct (String.eqb (listen (sv_config sv1)) "off") eqn:Hoff; simplify_ok.
  assert (ep_name ep = pf_name p) as Hep.
  { unfold load_identity in Hid. simplify_ok. apply Hname. by destruct (li_endpoint (io_load io)); simplify_ok. }
  match goal with Hx : load_services _ _ _ _ _ _ _ = Ok _ |- _ => apply load_services_ready in Hx as (Hr & Hln & _ & Hp); [|done] end.
  by split_and!.
Qed.

(** *** Configuration changes *)
Lemma next_publisher_Ok n sv config r :
  server_ready n sv -> String.eqb (listen config) "off" = false ->
  next_publisher certificate_error h3_resolver sv config = Ok r ->
  r = if published (listen config) then Some (sv_endpoint sv) else None.
Proof.
  intros (_ & _ & _ & Hp & _) Hoff. unfold next_publisher. rewrite Hoff.
  destruct (String.eqb_spec (listen (sv_config sv)) (listen config)) as [<-|Hne]; cbn; [congruence|].
  destruct (publishing_authority _ _); cbn; [|done]. apply publisher_for_Ok.
Qed.
(** Listening on a new scope: there, or where it was, or nowhere. *)
Lemma relisten_cases first second previous sv sv' r :
  relisten first second previous sv = (sv', r) -> String.eqb (listen (sv_config sv)) "off" = false ->
  (r = Ok tt /\ exists sc, listen_scopes (listen (sv_config sv)) = Ok sc /\ sv' = set_listener (Some sc) sv) \/
  (exists e, r = Err e /\ exists l, sv' = set_listener l (set_config previous sv) /\
     (l = None \/ exists sc, listen_scopes (listen previous) = Ok sc /\ l = Some sc)).
Proof.
  unfold relisten. cbn [sv_config set_listener]. intros Hr Hoff. rewrite Hoff in Hr.
  destruct (server_listen first _) as [sc|e] eqn:Hl.
  - injection Hr as <- <-. left. split; [done|]. apply server_listen_Ok in Hl. eauto.
  - injection Hr as <- <-. right. exists e. split; [done|].
    destruct (String.eqb (listen previous) "off"); [eauto|].
    destruct (server_listen second _) as [sc|] eqn:Hl2; [|eauto].
    apply server_listen_Ok in Hl2. exists (Some sc). split; [done|]. eauto.
Qed.
Lemma apply_config_cases n first second config sv sv' r :
  server_ok n sv -> String.eqb (listen config) "off" = false -> apply_config first second config sv = (sv', r) ->
  sv_profile sv' = sv_profile sv /\
  match r with
  | Ok _ => server_ok n sv' /\ sv_config sv' = config
  | Err _ => sv_config sv' = sv_config sv /\ (server_ok n sv' \/ sv_listener sv' = None)
  end.
Proof.
  intros [Hready (sc & Hsc & Hln)] Hoff. unfold Supervisor.apply_config.
  destruct (next_publisher _ _ sv config) as [p|e] eqn:Hp.
  2: { intros [= <- <-]. split_and!; [done..|]. left. split; [done|]. eauto. }
  apply (next_publisher_Ok n) in Hp as ->; [|done..]. pose proof Hready as (Hn & Hep & Hopen & Hpub & Hroutes).
  destruct (String.eqb_spec (listen (sv_config sv)) (listen config)) as [Heq|Hne]; cbn [negb].
  { intros [= <- <-]. split; [done|]. split; [|done]. split; [done|]. exists sc. cbn. by rewrite <- Heq. }
  destruct (relisten _ _ _ _) as [sv1 r1] eqn:Hr. apply relisten_cases in Hr as [(-> & sc' & Hsc' & ->)|(e & -> & l & -> & Hl)]; [| |done].
  - intros [= <- <-]. split; [done|]. split; [|done]. split; [by repeat split|]. eauto.
  - intros [= <- <-]. split; [done|]. split; [done|]. destruct Hl as [->|(sc' & Hsc' & ->)]; [by right|left].
    split; [by repeat split|]. eauto.
Qed.

(** *** Invariant of the supervisor *)
Definition sup_ok (s : supervisor) : Prop :=
  (forall n sv, servers s !! n = Some sv -> server_ok n sv) /\
  (forall n, n ∈ mdns s -> exists sv, servers s !! n = Some sv /\ announced (listen (sv_config sv)) = true).

Lemma sup_ok_remove n s : sup_ok s -> sup_ok (remove_mdns_name n (remove_server n s)).
Proof.
  intros [Hs Hm]. split; cbn.
  - intros m sv [_ Hl]%lookup_delete_Some. by apply Hs.
  - intros m [Hin Hne]%elem_of_difference. rewrite not_elem_of_singleton in Hne. destruct (Hm m Hin) as (sv & Hl & Ha).
    exists sv. by rewrite lookup_delete_ne by done.
Qed.
Lemma sup_ok_insert n sv s :
  sup_ok s -> server_ok n sv -> n ∉ mdns s \/ announced (listen (sv_config sv)) = true -> sup_ok (insert_server n sv s).
Proof.
  intros [Hs Hm] Hok Ha. split; cbn.
  - intros m sv'. rewrite lookup_insert. case_decide as Hd; [by intros [= <-]; subst|apply Hs].
  - intros m Hin. rewrite lookup_insert. case_decide as Hd; [subst|by apply Hm]. exists sv. split; [done|]. by destruct Ha.
Qed.
Lemma sup_ok_settings path d s : sup_ok s -> sup_ok (set_settings path d s).
Proof. intros [Hs Hm]. by split. Qed.
Lemma sup_ok_remove_mdns n s : sup_ok s -> sup_ok (remove_mdns_name n s).
Proof. intros [Hs Hm]. split; cbn; [done|]. intros m [Hin _]%elem_of_difference. by apply Hm. Qed.
(** The states along a configuration change, up to the order of the updates. *)
Lemma remove_insert n sv s : remove_server n (remove_mdns_name n (insert_server n sv s)) = remove_mdns_name n (remove_server n s).
Proof. unfold remove_server, remove_mdns_name, insert_server. cbn. by rewrite delete_insert_eq. Qed.
Lemma insert_remove_mdns n sv s : remove_mdns_name n (insert_server n sv s) = insert_server n sv (remove_mdns_name n s).
Proof. done. Qed.

Lemma sup_ok_retire profiles s : sup_ok s -> sup_ok (retire profiles s).1.
Proof.
  intros [Hs Hm]. split; cbn.
  - intros n sv [Hl _]%map_lookup_filter_Some. by apply Hs.
  - intros n [Hin Hnot]%elem_of_difference. destruct (Hm n Hin) as (sv & Hl & Ha). exists sv. split; [|done].
    apply map_lookup_filter_Some. split; [done|]. cbn. apply not_false_is_true. intros Hf. apply Hnot, elem_of_dom.
    exists sv. by apply map_lookup_filter_Some.
Qed.

(** The endpoint loaded from a profile bears its name. *)
Definition named (io : string -> identity_io) (profiles : list profile) : Prop :=
  forall p e, p ∈ profiles -> li_endpoint (io_load (io (pf_name p))) = Ok e -> ep_name e = pf_name p.

Lemma reconcile_running_ok io n sv s :
  sup_ok s -> servers s !! n = Some sv ->
  sup_ok (reconcile_running certificate_error h3_resolver io n sv s).1.
Proof.
  intros Hok Hl. unfold reconcile_running. destruct (read_server_config _) as [config|]; [|done].
  destruct (String.eqb (listen config) "off") eqn:Hoff; [by apply sup_ok_remove|].
  destruct (same_config _ _); [done|]. pose proof (proj1 Hok n sv Hl) as Hsv.
  destruct (apply_config _ _ _ _) as [sv' r] eqn:Ha.
  apply (apply_config_cases n) in Ha as [_ Ha]; [|done..]. cbn [fst].
  assert (server_ok n sv' \/ sv_listener sv' = None) as [Hsv'|Hnone] by (destruct r; naive_solver).
  - destruct Hsv' as [Hready (sc & Hsc & Hln)]. rewrite Hln. rewrite bool_decide_false by done.
    rewrite orb_false_r, andb_false_r. destruct (announced _) eqn:Hann; cbn [negb].
    + apply sup_ok_insert; [done|split; [done|by eauto]|by right].
    + rewrite insert_remove_mdns. apply sup_ok_insert; [by apply sup_ok_remove_mdns|split; [done|by eauto]|].
      left. cbn. set_solver.
  - rewrite Hnone, bool_decide_true by done. rewrite orb_true_r, andb_true_r.
    assert (String.eqb (listen (sv_config sv')) "off" = false) as ->.
    { destruct Hsv as [_ (sc & Hsc & _)]. apply listen_scopes_off in Hsc.
      destruct r; [destruct Ha as [_ ->]|destruct Ha as [-> _]]; done. }
    cbn [negb]. rewrite remove_insert. by apply sup_ok_remove.
Qed.
Lemma reconcile_new_ok io p s :
  sup_ok s -> servers s !! pf_name p = None ->
  (forall e, li_endpoint (io_load io) = Ok e -> ep_name e = pf_name p) ->
  sup_ok (reconcile_new certificate_error ocsp_valid h3_resolver io p s).1.
Proof.
  intros Hok Hl Hn. unfold reconcile_new. destruct (load_profile io p _) as [d loaded] eqn:Hload.
  apply (sup_ok_settings (pf_path p) d) in Hok. destruct loaded as [[sv|]|]; [|done..].
  apply load_profile_ready in Hload as (Hready & Hnone & Hoff & _); [|done]. rewrite Hoff.
  destruct (server_listen _ sv) as [sc|] eqn:Hlisten; [|done]. apply server_listen_Ok in Hlisten.
  apply sup_ok_insert; [done|split; [by destruct Hready as (?&?&?&?&?)|cbn; eauto]|].
  left. cbn. intros Hin. destruct (proj2 Hok _ Hin) as (sv' & Hl' & _). cbn in Hl'. congruence.
Qed.
Lemma reconcile_one_ok io st p :
  sup_ok st.1 -> named io [p] -> sup_ok (reconcile_one io st p).1.
Proof.
  intros Hok Hn. destruct st as [s changed]. unfold Supervisor.reconcile_one. cbn in Hok.
  destruct (servers s !! pf_name p) as [sv|] eqn:Hl.
  - pose proof (reconcile_running_ok (io (pf_name p)) _ _ _ Hok Hl). by destruct (reconcile_running _ _ _ _ _ _).
  - assert (forall e, li_endpoint (io_load (io (pf_name p))) = Ok e -> ep_name e = pf_name p) as Hn'
      by (intros e; apply Hn; left).
    pose proof (reconcile_new_ok (io (pf_name p)) _ _ Hok Hl Hn'). by destruct (reconcile_new _ _ _ _ _ _).
Qed.
Lemma reconcile_all_ok io profiles st :
  sup_ok st.1 -> named io profiles -> sup_ok (fold_left (reconcile_one io) profiles st).1.
Proof.
  revert st. induction profiles as [|p profiles IH]; intros st Hok Hn; cbn; [done|].
  apply IH; [|by intros q e Hq; apply Hn; right]. apply reconcile_one_ok; [done|].
  intros q e ->%list_elem_of_singleton. apply Hn. left.
Qed.

Lemma reconcile_profiles_ok found io s s' r :
  sup_ok s -> (forall profiles, found = Ok profiles -> named io profiles) ->
  reconcile_profiles found io s = (s', r) ->
  sup_ok s' /\ match r with Err _ => s' = s | Ok _ => True end.
Proof.
  intros Hok Hn. unfold Supervisor.reconcile_profiles. destruct found as [profiles|e]; [|by intros [= <- <-]].
  destruct (fold_left _ _ _) as [s1 changed] eqn:Hf. intros [= <- <-]. split; [|done].
  pose proof (reconcile_all_ok io profiles (retire profiles s) (sup_ok_retire _ _ Hok) (Hn _ eq_refl)) as Hall.
  by rewrite Hf in Hall.
Qed.

(** C10: Every scan, whichever load, listen or clean-up fails, keeps the running servers consistent:
    each is registered under its own name, its publisher, listener and routes belong to its endpoint and
    configuration, and mDNS answers only for running servers that announce themselves; a failed
    discovery changes nothing at all. *)
Theorem reconcile_profiles_keeps found io s s' r :
  sup_ok s -> (forall profiles, found = Ok profiles -> named io profiles) ->
  reconcile_profiles found io s = (s', r) ->
  sup_ok s' /\ match r with Err _ => s' = s | Ok _ => True end.
Proof. apply reconcile_profiles_ok. Qed.

(** *** Convergence *)
(** The configuration an identity with these settings is to run with. *)
Definition wanted (d : settings) : option ServerConfig :=
  match read_server_config d with
  | Ok config => if String.eqb (listen config) "off" then None else Some config
  | Err _ => None
  end.
(** The settings are set up and read back. *)
Definition settled_settings (d : settings) : Prop :=
  user_version d = 3 /\ complete d = true /\ exists config, read_server_config d = Ok config.
Definition can_publish (ep : endpoint) : Prop :=
  exists authority, dns_authority certificate_error ep = Ok authority /\ h3_resolver ep = Ok tt.
Definition can_listen (io : listen_io) : Prop := lo_log io = Ok tt /\ lo_listen io = Ok tt.
(** Everything the scan needs of an identity succeeds. *)
Definition healthy (io : identity_io) (p : profile) : Prop :=
  li_database (io_load io) = Ok true /\ can_listen (io_first io) /\
  exists certs k ep, li_directories (io_load io) = Ok tt /\ li_certs (io_load io) = Ok certs /\
    (exists response, li_ocsp (io_load io) = Some response /\ ocsp_valid response certs = true) /\
    li_endpoint (io_load io) = Ok ep /\ ep_name ep = pf_name p /\ can_publish ep /\
    extract_ski certs = Some k /\ subject_ok (owner_hash k) = true /\
    li_access (io_load io) = Ok tt /\ li_libs (io_load io) = Ok tt /\ li_contacts (io_load io) = Ok tt /\
    li_ownership (io_load io) = Ok tt.
(** What the identity [p] is to look like. *)
Definition converged (p : profile) (d : settings) (o : option server) : Prop :=
  match wanted d, o with
  | None, None => True
  | Some config, Some sv => server_ok (pf_name p) sv /\ sv_config sv = config /\
      components (pf_path (sv_profile sv)) = components (pf_path p)
  | _, _ => False
  end.

Lemma publisher_for_total mode ep :
  can_publish ep -> publisher_for mode ep = Ok (if published mode then Some ep else None).
Proof. intros (au & Ha & Hh). unfold Supervisor.publisher_for, publisher. rewrite Ha, Hh. by destruct (published mode). Qed.
Lemma read_listen_modes d config :
  read_server_config d = Ok config -> String.eqb (listen config) "off" = false ->
  exists sc, listen_scopes (listen config) = Ok sc.
Proof.
  unfold read_server_config, read_config. intros Hr Hoff. simplify_ok. cbn in *. rewrite Hoff in *. cbn in *.
  unfold listen_scopes. rewrite Hoff. simplify_bool.
  repeat match goal with |- context [if ?b then _ else _] => destruct b; [by eexists|]; cbn in * end. done.
Qed.
(** The settings of an identity are shown and loaded as they are. *)
Lemma settled_shown d config :
  settled_settings d -> read_server_config d = Ok config ->
  config_database None "GET" "/std/sys/listen" None None d = (d, Ok (jobj [("listen", JStr (listen config))])).
Proof.
  intros (Hv & _ & _) Hr. unfold config_database, config_checks. cbn. unfold open_config. rewrite Hv. cbn. by rewrite Hr.
Qed.
Lemma settled_loaded path d config :
  settled_settings d -> read_server_config d = Ok config -> load_server_config path d = (d, Ok config).
Proof.
  intros (Hv & Hc & _) Hr. unfold load_server_config, initialize_config. rewrite Hv. cbn. rewrite Hv, Hc. cbn.
  unfold open_config. rewrite Hv. cbn. by rewrite Hr.
Qed.
Lemma healthy_load_services io p ep config d :
  can_publish ep -> li_libs io = Ok tt -> li_contacts io = Ok tt -> li_ownership io = Ok tt -> user_version d = 3 ->
  exists sv, load_services certificate_error h3_resolver io p ep config d = Ok sv /\ sv_config sv = config.
Proof.
  intros Hp Hl Hc Ho Hv. unfold load_services. rewrite (publisher_for_total _ _ Hp), Hl, Hc, Ho.
  destruct Hp as (au & Ha & _). unfold publishing_authority, open_config. rewrite Ha, Hv. cbn.
  destruct (String.eqb (listen config) "off"); cbn; eauto.
Qed.
Lemma healthy_load_profile io p d :
  healthy io p -> settled_settings d ->
  exists o, load_profile io p d = (d, Ok o) /\
    match wanted d, o with
    | None, None => True
    | Some config, Some sv => sv_config sv = config
    | _, _ => False
    end.
Proof.
  intros (Hdb & _ & certs & k & ep & Hdir & Hcerts & (response & Hocsp & Hvalid) & Hep & Hname & Hpub & Hski & Hsub & Hacc & Hlibs & Hcon & Hown) Hset.
  pose proof Hset as (Hv & _ & config & Hr). unfold Supervisor.load_profile. rewrite (settled_shown d config Hset Hr), Hdb. unfold is_str, jobj. cbn. unfold wanted. rewrite Hr.
  destruct (String.eqb (listen config) "off") eqn:Hoff; [by exists None|].
  unfold server_load, load_identity. rewrite Hdir, Hcerts, Hocsp. cbn. rewrite Hvalid. cbn.
  rewrite Hep. cbn. rewrite Hski. cbn. rewrite Hsub, Hacc. cbn.
  rewrite (settled_loaded _ d config Hset Hr). cbn.
  destruct (healthy_load_services (io_load io) p ep config d) as (sv & Hsv & Hc); [done..|].
  rewrite Hsv, Hc, Hoff. by exists (Some sv).
Qed.
Lemma can_listen_total io sv sc :
  can_listen io -> listen_scopes (listen (sv_config sv)) = Ok sc -> server_listen io sv = Ok sc.
Proof. intros [Hlog Hl] Hsc. unfold server_listen. by rewrite Hsc, Hlog, Hl. Qed.
Lemma apply_config_succeeds n first second config sv :
  server_ok n sv -> can_publish (sv_endpoint sv) -> can_listen first ->
  String.eqb (listen config) "off" = false -> (exists sc, listen_scopes (listen config) = Ok sc) ->
  exists sv', apply_config first second config sv = (sv', Ok tt).
Proof.
  intros _ Hp Hl Hoff (sc & Hsc). unfold Supervisor.apply_config, next_publisher.
  rewrite Hoff, (publisher_for_total _ _ Hp). pose proof Hp as (au & Ha & _). unfold publishing_authority. rewrite Ha.
  destruct (String.eqb (listen (sv_config sv)) (listen config)); cbn [negb map_err]; [by eexists|].
  unfold relisten. cbn [sv_config set_config set_listener]. rewrite Hoff.
  rewrite (can_listen_total first _ sc); [by eexists|done|done].
Qed.

Lemma settings_at_set path d s path' :
  d = settings_at s path -> settings_at (set_settings path d s) path' = settings_at s path'.
Proof.
  intros ->. unfold settings_at. cbn. destruct (decide (components path' = components path)) as [->|Hne].
  - by rewrite lookup_insert_eq.
  - by rewrite lookup_insert_ne.
Qed.

(** A step of the scan changes its own identity only, and not the settings. *)
Definition touches_only (n : string) (s s' : supervisor) : Prop :=
  (forall m, m <> n -> servers s' !! m = servers s !! m) /\ (forall path, settings_at s' path = settings_at s path).
Lemma reconcile_running_converges io p sv s :
  sup_ok s -> servers s !! pf_name p = Some sv -> components (pf_path (sv_profile sv)) = components (pf_path p) ->
  healthy io p -> settled_settings (settings_at s (pf_path p)) -> can_publish (sv_endpoint sv) ->
  let s' := (reconcile_running certificate_error h3_resolver io (pf_name p) sv s).1 in
  converged p (settings_at s (pf_path p)) (servers s' !! pf_name p) /\ touches_only (pf_name p) s s'.
Proof.
  intros Hok Hl Hpath (_ & Hlisten & _) (_ & _ & config & Hr) Hpub. cbn.
  pose proof (proj1 Hok _ _ Hl) as Hsv. unfold reconcile_running.
  assert (settings_at s (pf_path (sv_profile sv)) = settings_at s (pf_path p)) as -> by (unfold settings_at; by rewrite Hpath).
  unfold converged, wanted. rewrite Hr. destruct (String.eqb (listen config) "off") eqn:Hoff.
  { cbn. rewrite lookup_delete_eq. split; [done|]. split; [|done]. intros m Hm. cbn. by rewrite lookup_delete_ne. }
  destruct (same_config _ _) eqn:Hsame.
  { apply same_config_eq in Hsame. cbn. rewrite Hl. by split_and!. }
  destruct (apply_config_succeeds (pf_name p) (io_first io) (io_second io) config sv) as [sv' Ha]; [done..|by eapply read_listen_modes|].
  rewrite Ha. apply (apply_config_cases (pf_name p)) in Ha as [Hprof [Hsv' Hc]]; [|done..].
  pose proof Hsv' as [_ (sc & _ & Hln)]. rewrite Hln, bool_decide_false by done. rewrite andb_false_r, orb_false_r. cbn.
  assert (forall b : bool, servers (if b then remove_mdns_name (pf_name p) (insert_server (pf_name p) sv' s) else insert_server (pf_name p) sv' s)
    = <[pf_name p := sv']> (servers s)) as Hservers by by intros [].
  rewrite Hservers, lookup_insert_eq. split; [by rewrite Hprof|].
  split; [intros m Hm; rewrite Hservers; by rewrite lookup_insert_ne|]. by intros path; destruct (negb _).
Qed.
Lemma reconcile_new_converges io p s :
  sup_ok s -> servers s !! pf_name p = None -> healthy io p -> settled_settings (settings_at s (pf_path p)) ->
  let s' := (reconcile_new certificate_error ocsp_valid h3_resolver io p s).1 in
  converged p (settings_at s (pf_path p)) (servers s' !! pf_name p) /\ touches_only (pf_name p) s s'.
Proof.
  intros Hok Hl Hh Hset. cbn. destruct (healthy_load_profile io p _ Hh Hset) as (o & Hload & Hw).
  unfold reconcile_new. rewrite Hload. unfold converged. destruct o as [sv|].
  - destruct (wanted (settings_at s (pf_path p))) as [config|] eqn:Hwant; [|done].
    assert (forall e, li_endpoint (io_load io) = Ok e -> ep_name e = pf_name p) as Hn.
    { destruct Hh as (_ & _ & certs & k & ep & _ & _ & _ & Hep & Hname & _). intros e He. congruence. }
    apply load_profile_ready in Hload as (Hready & Hnone & Hoff & Hp); [|done]. rewrite Hoff.
    destruct Hset as (_ & _ & config' & Hr). assert (config' = config) as ->.
    { unfold wanted in Hwant. rewrite Hr in Hwant. destruct (String.eqb (listen config') "off"); [done|]. by injection Hwant. }
    rewrite Hw in Hoff. destruct (read_listen_modes _ _ Hr Hoff) as [sc Hsc].
    assert (listen_scopes (listen (sv_config sv)) = Ok sc) as Hsc' by by rewrite Hw.
    rewrite (can_listen_total (io_first io) sv sc); [|apply Hh|done]. cbn. rewrite lookup_insert_eq. split.
    + split_and!; [|done|cbn; by rewrite Hp]. split; [by destruct Hready as (?&?&?&?&?)|]. eauto.
    + split; [intros m Hm; cbn; by rewrite lookup_insert_ne|]. intros path. by apply settings_at_set.
  - destruct (wanted _); [done|]. cbn. rewrite Hl. split; [done|]. split; [done|]. intros path. by apply settings_at_set.
Qed.

Lemma reconcile_one_converges io s changed p :
  sup_ok s ->
  (forall sv, servers s !! pf_name p = Some sv ->
     components (pf_path (sv_profile sv)) = components (pf_path p) /\ can_publish (sv_endpoint sv)) ->
  healthy (io (pf_name p)) p -> settled_settings (settings_at s (pf_path p)) ->
  let s' := (reconcile_one io (s, changed) p).1 in
  converged p (settings_at s (pf_path p)) (servers s' !! pf_name p) /\ touches_only (pf_name p) s s'.
Proof.
  intros Hok Hsv Hh Hset. cbn. unfold Supervisor.reconcile_one. destruct (servers s !! pf_name p) as [sv|] eqn:Hl.
  - destruct (Hsv sv eq_refl) as [Hpath Hpub].
    pose proof (reconcile_running_converges (io (pf_name p)) p sv s Hok Hl Hpath Hh Hset Hpub). by destruct (reconcile_running _ _ _ _ _ _).
  - pose proof (reconcile_new_converges (io (pf_name p)) p s Hok Hl Hh Hset). by destruct (reconcile_new _ _ _ _ _ _).
Qed.

(** The identities a scan is to handle, with the state it starts from. *)
Definition all_healthy (io : string -> identity_io) (profiles : list profile) (s : supervisor) : Prop :=
  NoDup (map pf_name profiles) /\
  Forall (fun p => healthy (io (pf_name p)) p /\ settled_settings (settings_at s (pf_path p)) /\
    forall sv, servers s !! pf_name p = Some sv ->
      components (pf_path (sv_profile sv)) = components (pf_path p) /\ can_publish (sv_endpoint sv)) profiles.
Lemma all_healthy_named io profiles s : all_healthy io profiles s -> named io profiles.
Proof.
  intros [_ Hall] p e Hp He. rewrite Forall_forall in Hall.
  destruct (Hall p Hp) as ((_ & _ & certs & k & ep & _ & _ & _ & Hep & Hname & _) & _). congruence.
Qed.
Lemma reconcile_all_converges io profiles st :
  sup_ok st.1 -> all_healthy io profiles st.1 ->
  let s' := (fold_left (reconcile_one io) profiles st).1 in
  (forall p, p ∈ profiles -> converged p (settings_at st.1 (pf_path p)) (servers s' !! pf_name p)) /\
  (forall m, m ∉ map pf_name profiles -> servers s' !! m = servers st.1 !! m) /\
  (forall path, settings_at s' path = settings_at st.1 path).
Proof.
  revert st. induction profiles as [|p profiles IH]; intros [s changed] Hok Hall; cbn [fold_left fst] in *.
  { split_and!; [by intros p ?%not_elem_of_nil|done|done]. }
  pose proof (all_healthy_named _ _ _ Hall) as Hnamed. destruct Hall as [Hnd Hall]. cbn in Hnd.
  apply NoDup_cons in Hnd as [Hfresh Hnd]. apply Forall_cons in Hall as [(Hh & Hset & Hsv) Hall].
  destruct (reconcile_one_converges io s changed p Hok Hsv Hh Hset) as [Hc [Hother Hdisk]].
  assert (sup_ok (reconcile_one io (s, changed) p).1) as Hok1.
  { apply reconcile_one_ok; [done|]. intros q e ->%list_elem_of_singleton. apply Hnamed. left. }
  destruct (IH (reconcile_one io (s, changed) p)) as (IH1 & IH2 & IH3); [done| |].
  { split; [done|]. eapply Forall_impl; [apply Forall_and, (conj Hall)|].
    { apply Forall_forall. intros q Hq. exact (list_elem_of_fmap_2 pf_name profiles q Hq). }
    cbn. intros q [(Hhq & Hsetq & Hsvq) Hq]. rewrite Hdisk, Hother; [done|]. intros Heq. by rewrite Heq in Hq. }
  split_and!.
  - intros q [->|Hq]%elem_of_cons; [by rewrite IH2|]. rewrite <- Hdisk. by apply IH1.
  - intros m [Hne Hm]%not_elem_of_cons. rewrite IH2 by done. by apply Hother.
  - intros path. by rewrite IH3.
Qed.

Lemma retire_servers profiles s n sv :
  servers (retire profiles s).1 !! n = Some sv <->
  servers s !! n = Some sv /\ exists p, p ∈ profiles /\ pf_name p = n /\ components (pf_path p) = components (pf_path (sv_profile sv)).
Proof.
  cbn. rewrite map_lookup_filter_Some. cbn. unfold still_there. rewrite existsb_exists. split.
  - intros [Hl (p & Hp & Hs)]. split; [done|]. exists p. simplify_bool.
    apply list_elem_of_In in Hp. by split_and!; [|done|apply path_eqb_spec].
  - intros (Hl & p & Hp & Hn & Hc). split; [done|]. exists p. split; [by apply list_elem_of_In|].
    rewrite Hn, String.eqb_refl. by apply path_eqb_spec.
Qed.
Lemma retire_settings profiles s path : settings_at (retire profiles s).1 path = settings_at s path.
Proof. done. Qed.

(** *** A scan of converged identities *)
Definition unchanged (s s' : supervisor) : Prop :=
  servers s' = servers s /\ mdns s' = mdns s /\ forall path, settings_at s' path = settings_at s path.
(** The server of every identity agrees with its settings, and there is no other. *)
Definition all_converged (profiles : list profile) (s : supervisor) : Prop :=
  (forall p, p ∈ profiles -> settled_settings (settings_at s (pf_path p)) /\
     converged p (settings_at s (pf_path p)) (servers s !! pf_name p)) /\
  (forall n, n ∉ map pf_name profiles -> servers s !! n = None).
Lemma retire_idle profiles s : all_converged profiles s -> retire profiles s = (s, false).
Proof.
  intros [Hall Hnone]. assert (forall n sv, servers s !! n = Some sv -> still_there profiles n sv = true) as Hstill.
  { intros n sv Hl. destruct (decide (n ∈ map pf_name profiles)) as [(p & -> & Hp)%list_elem_of_fmap|Hn];
      [|rewrite Hnone in Hl by done; done].
    destruct (Hall p Hp) as [_ Hc]. rewrite Hl in Hc. unfold converged in Hc. destruct (wanted _); [|done].
    destruct Hc as (_ & _ & Hc). apply existsb_exists. exists p. split; [by apply list_elem_of_In|].
    rewrite String.eqb_refl. by apply path_eqb_spec. }
  assert (filter (fun e => still_there profiles e.1 e.2 = true) (servers s) = servers s) as Hkeep.
  { apply map_filter_id. intros n sv Hl. by apply Hstill. }
  assert (filter (fun e : string * server => still_there profiles e.1 e.2 = false) (servers s) = ∅) as Hdrop.
  { apply map_eq. intros n. rewrite lookup_empty. apply map_lookup_filter_None. right. intros sv Hl. cbn. by rewrite (Hstill n sv Hl). }
  unfold retire. rewrite Hkeep, Hdrop. rewrite bool_decide_true by done. destruct s. cbn. f_equal. f_equal. rewrite dom_empty_L. set_solver.
Qed.
Lemma reconcile_one_idle io s changed p :
  li_database (io_load (io (pf_name p))) = Ok true -> settled_settings (settings_at s (pf_path p)) ->
  converged p (settings_at s (pf_path p)) (servers s !! pf_name p) ->
  exists s', reconcile_one io (s, changed) p = (s', changed) /\ unchanged s s'.
Proof.
  intros Hdb Hset Hc. pose proof Hset as (_ & _ & config & Hr). unfold Supervisor.reconcile_one, converged, wanted in *. rewrite Hr in Hc.
  destruct (servers s !! pf_name p) as [sv|] eqn:Hl.
  - destruct (String.eqb (listen config) "off") eqn:Hoff; [done|]. destruct Hc as (_ & Hc & Hpath).
    unfold reconcile_running. assert (settings_at s (pf_path (sv_profile sv)) = settings_at s (pf_path p)) as -> by (unfold settings_at; by rewrite Hpath).
    rewrite Hr, Hoff, (proj2 (same_config_eq _ _) Hc), orb_false_r. by exists s.
  - destruct (String.eqb (listen config) "off") eqn:Hoff; [|done]. unfold reconcile_new, Supervisor.load_profile.
    rewrite Hdb, (settled_shown _ config Hset Hr). unfold is_str, jobj. cbn. rewrite Hoff, orb_false_r. eexists. split; [done|].
    split_and!; [done..|]. intros path. by apply settings_at_set.
Qed.
Lemma reconcile_all_idle io profiles s changed :
  (forall p, p ∈ profiles -> li_database (io_load (io (pf_name p))) = Ok true /\ settled_settings (settings_at s (pf_path p)) /\
     converged p (settings_at s (pf_path p)) (servers s !! pf_name p)) ->
  exists s', fold_left (reconcile_one io) profiles (s, changed) = (s', changed) /\ unchanged s s'.
Proof.
  revert s. induction profiles as [|p profiles IH]; intros s Hall; cbn [fold_left]; [by exists s|].
  destruct (Hall p ltac:(left)) as (Hdb & Hset & Hc).
  destruct (reconcile_one_idle io s changed p Hdb Hset Hc) as (s1 & -> & Hs1 & Hm1 & Hd1).
  destruct (IH s1) as (s2 & -> & Hs2 & Hm2 & Hd2).
  { intros q Hq. rewrite Hd1, Hs1. apply Hall. by right. }
  exists s2. split; [done|]. split_and!; [congruence..|]. intros path. by rewrite Hd2.
Qed.
Lemma reconcile_profiles_idle profiles io s :
  all_converged profiles s -> (forall p, p ∈ profiles -> li_database (io_load (io (pf_name p))) = Ok true) ->
  exists s', reconcile_profiles (Ok profiles) io s = (s', Ok false) /\ unchanged s s'.
Proof.
  intros Hc Hdb. unfold Supervisor.reconcile_profiles. rewrite (retire_idle _ _ Hc).
  destruct (reconcile_all_idle io profiles s false) as (s' & -> & Hu); [|by exists s'].
  intros p Hp. split; [by apply Hdb|]. by apply (proj1 Hc).
Qed.

(** C9: When the settings of the profiles on disk are readable and their certificates, listeners and
    publishers work, one scan leaves exactly one running server for every profile that is to listen,
    with its configuration, publisher, listener and routes, and none for the others; a second scan
    changes nothing. *)
Theorem reconcile_profiles_converges profiles io s :
  sup_ok s -> NoDup (map pf_name profiles) ->
  (forall p, p ∈ profiles -> healthy (io (pf_name p)) p /\ settled_settings (settings_at s (pf_path p))) ->
  (forall n sv, servers s !! n = Some sv -> can_publish (sv_endpoint sv)) ->
  exists s' changed, reconcile_profiles (Ok profiles) io s = (s', Ok changed) /\
    (forall p, p ∈ profiles -> converged p (settings_at s (pf_path p)) (servers s' !! pf_name p)) /\
    (forall n, n ∉ map pf_name profiles -> servers s' !! n = None) /\
    exists s'', reconcile_profiles (Ok profiles) io s' = (s'', Ok false) /\ unchanged s' s''.
Proof.
  intros Hok Hnd Hall Hpub. unfold Supervisor.reconcile_profiles at 1.
  destruct (fold_left (reconcile_one io) profiles (retire profiles s)) as [s' changed] eqn:Hf.
  exists s', changed. split; [done|].
  destruct (reconcile_all_converges io profiles (retire profiles s)) as (H1' & H2' & H3').
  - by apply sup_ok_retire.
  - split; [done|]. apply Forall_forall. intros p Hp. rewrite retire_settings. destruct (Hall p Hp) as [Hh Hset].
    split_and!; [done..|]. intros sv (Hl & q & Hq & Hn & Hc)%retire_servers. split; [|by eapply Hpub].
    assert (q = p) as ->; [|done]. apply list_elem_of_lookup in Hp as [i Hi], Hq as [j Hj].
    assert (i = j) as ->; [|congruence]. eapply NoDup_lookup; [exact Hnd|by rewrite list_lookup_fmap, Hi|].
    rewrite list_lookup_fmap, Hj. cbn. by rewrite Hn.
  - rewrite Hf in *. cbn [fst] in *.
    assert (forall n, n ∉ map pf_name profiles -> servers s' !! n = None) as Hnone.
    { intros n Hn. rewrite H2' by done. apply eq_None_not_Some. intros [sv (_ & p & Hp & <- & _)%retire_servers].
      by apply Hn, list_elem_of_fmap_2. }
    split_and!; [done..|]. apply reconcile_profiles_idle.
    + split; [|done]. intros p Hp. rewrite H3', retire_settings. split; [apply Hall, Hp|]. by apply H1'.
    + intros p Hp. by destruct (Hall p Hp) as [[Hdb _] _].
Qed.
End supervisor_facts.
