(* ===== verification/EventLoop.v ===== *)
(** * The event loop of the process ([src/server/run.rs] [run])

    The loop as a step relation: its state is the supervisor and the work in
    flight, its steps are the branches of the two nested [loop]s with their
    guards.  What the network, the disk and the clock deliver is free in every
    step. *)
From S2P Require Import Prelude RustStr Json Crates Errors Registry Capabilities NetAddr Setup Profiles Supervisor.

(** Where the loop is: before the first scan, at the head of the outer loop, in
    the inner [select!], leaving with a result, ended; [Panicked] is the
    [expect] of the OCSP branch. *)
Inductive phase :=
| Starting
| Maintaining
| Waiting
| Leaving (result : Result unit)
| Ended (result : Result unit)
| Panicked.
Record loop := Loop {
  lp_sup : supervisor;
  lp_jobs : list string;      (* DNS publications in flight *)
  lp_runs : list string;      (* application runs in flight *)
  lp_ocsp : list string;      (* OCSP renewals in flight *)
  lp_phase : phase }.

(** The names of [servers.values()], through the profile and the endpoint. *)
Definition profile_names (s : supervisor) : list string := map (fun e => pf_name (sv_profile e.2)) (map_to_list (servers s)).
Definition endpoint_names (sv_wanted : server -> bool) (s : supervisor) : list string :=
  map (fun e => ep_name (sv_endpoint e.2)) (filter (fun e => sv_wanted e.2 = true) (map_to_list (servers s))).
Definition announces (sv : server) : bool := announced (listen (sv_config sv)).
Definition publishes (sv : server) : bool := bool_decide (is_Some (sv_publisher sv)).
(** [maintain_mdns] publishes the announced names it can. *)
Definition add_mdns (names : list string) (s : supervisor) : supervisor :=
  Supervisor (servers s) (list_to_set names ∪ mdns s) (disk s).

(** The end of [run]: mDNS names go first, then every server is closed; the last
    failure is reported, unless the loop failed itself. *)
Definition shutdown (finished : string -> bool) (mdns_result : result string unit) (s : supervisor) : supervisor * Result unit :=
  let closed := map_imap (fun n sv => Some (server_close (finished n) sv).1) (servers s) in
  (Supervisor closed (mdns s ∖ list_to_set (endpoint_names (fun _ => true) s)) (disk s),
   match mdns_result with
   | Err e => Err (Io OtherIo e)
   | Ok _ => if forallb (fun e => finished e.1) (map_to_list (servers s)) then Ok tt else Err ShutdownDeadline
   end).
Definition and_then {A} (a b : Result A) : Result A := match a with Ok _ => b | Err e => Err e end.

Section run.
Context `{DhttpHome, UrlCrates, AccessControl}.
Variable certificate_error : list string -> string.
Variable ocsp_valid : string -> list string -> bool.
Variable h3_resolver : endpoint -> result string unit.

(** The phase a scan leads to; a failed discovery is logged. *)
Definition after_scan (r : Result bool) : phase := match r with Ok true => Maintaining | _ => Waiting end.
(** The phase the first scan leads to: its failure ends [run]. *)
Definition after_start (r : Result bool) : phase := match r with Ok _ => Maintaining | Err e => Leaving (Err e) end.
(** A finished renewal: [servers.get_mut(&name).expect(..)], [apply_ocsp]. *)
Definition renewed (n : string) (result : Result endpoint) (s : supervisor) : supervisor * phase :=
  match servers s !! n with
  | None => (s, Panicked)
  | Some sv =>
      match result with
      | Ok ep => (insert_server n (apply_ocsp certificate_error h3_resolver ep sv).1 s, Maintaining)
      | Err _ => (s, Maintaining)
      end
  end.

Inductive step : loop -> loop -> Prop :=
(* the first scan *)
| step_start s found io s' r :
    (forall profiles, found = Ok profiles -> named io profiles) ->
    reconcile_profiles certificate_error ocsp_valid h3_resolver found io s = (s', r) ->
    step (Loop s [] [] [] Starting) (Loop s' [] [] [] (after_start r))
(* the outer loop: maintain mDNS, start the publications *)
| step_maintain s jobs runs ocsp names :
    (forall n, n ∈ names -> n ∈ endpoint_names announces s) ->
    step (Loop s jobs runs ocsp Maintaining)
         (Loop (add_mdns names s) (jobs ++ endpoint_names publishes s) runs ocsp Waiting)
(* a signal, or a subscription that ended *)
| step_signal s jobs runs ocsp r :
    step (Loop s jobs runs ocsp Waiting) (Loop s jobs runs ocsp (Leaving r))
| step_subscription_ended s runs ocsp e :
    step (Loop s [] runs ocsp Waiting) (Loop s [] runs ocsp (Leaving (Err e)))
| step_job s jobs1 n jobs2 runs ocsp :
    step (Loop s (jobs1 ++ n :: jobs2) runs ocsp Waiting) (Loop s (jobs1 ++ jobs2) runs ocsp Waiting)
| step_wasi_tick s jobs ocsp :
    step (Loop s jobs [] ocsp Waiting) (Loop s jobs (endpoint_names (fun _ => true) s) ocsp Waiting)
| step_run s jobs runs1 n runs2 ocsp :
    step (Loop s jobs (runs1 ++ n :: runs2) ocsp Waiting) (Loop s jobs (runs1 ++ runs2) ocsp Waiting)
(* a scan, with no publication and no renewal in flight *)
| step_config_tick s runs found io s' r :
    (forall profiles, found = Ok profiles -> named io profiles) ->
    reconcile_profiles certificate_error ocsp_valid h3_resolver found io s = (s', r) ->
    step (Loop s [] runs [] Waiting) (Loop s' [] runs [] (after_scan r))
| step_ocsp_tick s jobs runs :
    step (Loop s jobs runs [] Waiting) (Loop s jobs runs (profile_names s) Waiting)
| step_ocsp s runs ocsp1 n ocsp2 result s' ph :
    (forall ep, result = Ok ep -> ep_name ep = n) ->
    renewed n result s = (s', ph) ->
    step (Loop s [] runs (ocsp1 ++ n :: ocsp2) Waiting) (Loop s' [] runs (ocsp1 ++ ocsp2) ph)
(* an address event, a new outer address, a due publication *)
| step_wake s runs ocsp :
    step (Loop s [] runs ocsp Waiting) (Loop s [] runs ocsp Maintaining)
(* the end of [run]; the runs and renewals are dropped, the publications awaited *)
| step_shutdown s jobs runs ocsp r finished mdns_result s' sd :
    shutdown finished mdns_result s = (s', sd) ->
    step (Loop s jobs runs ocsp (Leaving r)) (Loop s' [] [] [] (Ended (and_then r sd))).

(** ** Properties *)
Definition initial (s : supervisor) : Prop := servers s = ∅ /\ mdns s = ∅.
Definition start (s : supervisor) : loop := Loop s [] [] [] Starting.

(** While the loop runs: the servers agree with their configurations, and every
    renewal in flight is of a running server; at the end everything is closed. *)
Definition all_closed (s : supervisor) : Prop :=
  mdns s = ∅ /\ forall n sv, servers s !! n = Some sv ->
    sv_listener sv = None /\ sv_publisher sv = None /\ sv_routes sv = None /\ sv_open sv = false.
Definition loop_ok (l : loop) : Prop :=
  match lp_phase l with
  | Panicked => False
  | Ended _ => all_closed (lp_sup l) /\ lp_jobs l = []
  | _ => sup_ok (lp_sup l) /\ forall n, n ∈ lp_ocsp l -> is_Some (servers (lp_sup l) !! n)
  end.

Lemma profile_names_running s n : sup_ok s -> n ∈ profile_names s -> is_Some (servers s !! n).
Proof.
  intros [Hs _] ([m sv] & -> & Hin%elem_of_map_to_list)%list_elem_of_fmap. cbn.
  destruct (Hs m sv Hin) as [(-> & _) _]. by exists sv.
Qed.
Lemma endpoint_names_running f s n :
  sup_ok s -> n ∈ endpoint_names f s <-> exists sv, servers s !! n = Some sv /\ f sv = true.
Proof.
  intros [Hs _]. unfold endpoint_names. rewrite list_elem_of_fmap. split.
  - intros ([m sv] & -> & [Hf Hin%elem_of_map_to_list]%list_elem_of_filter). cbn in *.
    destruct (Hs m sv Hin) as [(_ & -> & _) _]. eauto.
  - intros (sv & Hl & Hf). exists (n, sv). destruct (Hs n sv Hl) as [(_ & Hn & _) _]. split; [done|].
    apply list_elem_of_filter. split; [done|]. by apply elem_of_map_to_list.
Qed.
Lemma add_mdns_ok names s :
  sup_ok s -> (forall n, n ∈ names -> n ∈ endpoint_names announces s) -> sup_ok (add_mdns names s).
Proof.
  intros Hok Hn. pose proof Hok as [Hs Hm]. split; cbn; [done|].
  intros n [Hin%elem_of_list_to_set|Hin]%elem_of_union; [|by apply Hm].
  by apply Hn, (endpoint_names_running announces) in Hin.
Qed.
Lemma apply_ocsp_ok n ep sv :
  server_ok n sv -> ep_name ep = n -> server_ok n (apply_ocsp certificate_error h3_resolver ep sv).1 /\
  listen (sv_config (apply_ocsp certificate_error h3_resolver ep sv).1) = listen (sv_config sv).
Proof.
  intros [(Hn & Hep & Hopen & Hpub & Hr) (sc & Hsc & Hl)] Hname. unfold apply_ocsp.
  destruct (publisher_for _ _ _ ep) as [resolver|] eqn:Hp; cbn [fst].
  - apply publisher_for_Ok in Hp as ->. split; [|done]. split; [by repeat split|]. eauto.
  - split; [|done]. split; [by repeat split|]. eauto.
Qed.
Lemma renewed_ok n result s s' ph :
  sup_ok s -> is_Some (servers s !! n) -> (forall ep, result = Ok ep -> ep_name ep = n) ->
  renewed n result s = (s', ph) ->
  ph = Maintaining /\ sup_ok s' /\ forall m, is_Some (servers s' !! m) <-> is_Some (servers s !! m).
Proof.
  intros Hok [sv Hl] Hn. unfold renewed. rewrite Hl. destruct result as [ep|]; intros [= <- <-]; [|done].
  destruct (apply_ocsp_ok n ep sv (proj1 Hok n sv Hl) (Hn ep eq_refl)) as [Hsv Hlisten].
  split; [done|]. split.
  - apply sup_ok_insert; [done|done|]. destruct (decide (n ∈ mdns s)) as [Hin|]; [right|by left].
    destruct (proj2 Hok n Hin) as (sv' & Hl' & Ha). rewrite Hlisten. congruence.
  - intros m. cbn. destruct (decide (m = n)) as [->|]; [|by rewrite lookup_insert_ne].
    rewrite lookup_insert_eq, Hl. split; eauto.
Qed.
Lemma shutdown_closes finished mdns_result s s' sd :
  sup_ok s -> shutdown finished mdns_result s = (s', sd) -> all_closed s'.
Proof.
  intros Hok [= <- _]. split; cbn.
  - apply set_eq. intros n. split; [|by intros ?%not_elem_of_empty]. intros [Hin Hno]%elem_of_difference. exfalso. apply Hno.
    apply elem_of_list_to_set, endpoint_names_running; [done|]. destruct (proj2 Hok n Hin) as (sv & Hl & _). eauto.
  - intros n sv. rewrite map_lookup_imap. destruct (servers s !! n); cbn; [|done]. by intros [= <-].
Qed.

Lemma phase_ok s jobs runs ocsp ph :
  (ph = Starting \/ ph = Maintaining \/ ph = Waiting \/ exists r, ph = Leaving r) ->
  sup_ok s -> (forall n, n ∈ ocsp -> is_Some (servers s !! n)) -> loop_ok (Loop s jobs runs ocsp ph).
Proof. unfold loop_ok. cbn. by intros [->|[->|[->|[r ->]]]] ? ?. Qed.
Lemma no_renewals (s : supervisor) n : n ∈ [] -> is_Some (servers s !! n).
Proof. by intros ?%not_elem_of_nil. Qed.
Lemma step_ok l l' : loop_ok l -> step l l' -> loop_ok l'.
Proof.
  intros Hok Hstep. destruct Hstep as [s found io s' r Hn Hr|s jobs runs ocsp names Hn|s jobs runs ocsp r|s runs ocsp e|
    s jobs1 n jobs2 runs ocsp|s jobs ocsp|s jobs runs1 n runs2 ocsp|s runs found io s' r Hn Hr|s jobs runs|
    s runs ocsp1 n ocsp2 result s' ph Hn Hr|s runs ocsp|s jobs runs ocsp r finished mr s' sd Hsd];
    destruct Hok as [Hsup Hocsp]; cbn [lp_sup lp_ocsp] in *.
  - apply reconcile_profiles_ok in Hr as [Hsup' _]; [|done..].
    apply phase_ok; [destruct r; cbn; eauto|done|apply no_renewals].
  - apply phase_ok; [auto|by apply add_mdns_ok|done].
  - apply phase_ok; [eauto|done|done].
  - apply phase_ok; [eauto|done|done].
  - apply phase_ok; [auto|done|done].
  - apply phase_ok; [auto|done|done].
  - apply phase_ok; [auto|done|done].
  - apply reconcile_profiles_ok in Hr as [Hsup' _]; [|done..].
    apply phase_ok; [destruct r as [[]|]; cbn; auto|done|apply no_renewals].
  - apply phase_ok; [auto|done|]. intros n Hin. by apply profile_names_running.
  - assert (is_Some (servers s !! n)) as Hl by (apply Hocsp; apply elem_of_app; right; left).
    destruct (renewed_ok _ _ _ _ _ Hsup Hl Hn Hr) as (-> & Hsup' & Hdom).
    apply phase_ok; [auto|done|]. intros m Hm. apply Hdom, Hocsp. rewrite elem_of_app in Hm |- *.
    destruct Hm; [by left|right; by right].
  - apply phase_ok; [auto|done|done].
  - split; [by eapply shutdown_closes|done].
Qed.

(** C11: Whatever the order of ticks, signals, finished publications, renewals and scans, the event loop
    never reaches the expect on a renewed identity, keeps its servers consistent while it runs, and when
    it ends every server is closed and no mDNS name or publication is left. *)
Theorem run_safe s l :
  initial s -> rtc step (start s) l -> loop_ok l.
Proof.
  intros [Hs Hm] Hrun. assert (loop_ok (start s)) as Hstart.
  { apply phase_ok; [auto| |apply no_renewals]. split; [intros n sv; by rewrite Hs|].
    intros n. rewrite Hm. by intros ?%not_elem_of_empty. }
  induction Hrun as [|l1 l2 l3 Hstep _ IH]; [done|]. apply IH. by eapply step_ok.
Qed.
End run.
