(* ===== verification/Proxy.v ===== *)
(** * The local reverse proxy ([src/routes.rs], [src/routes/proxy.rs])

    Route selection, the upstream URI, the header rewriting of a forwarded
    request and of its response, and the WebSocket handshake.  The exchange with
    the upstream (connection, 30 second deadlines) and the random nonce are
    arguments; the two-way stream after an upgrade is not modelled. *)
From S2P Require Import Prelude RustStr Json Crates Errors Metadata NetAddr Setup.

(** A [Uri] in parts: [path], [query] and [path_and_query]. *)
Definition u_path (u : uri_parts) : string :=
  match path_and_query u with Some pq => uri_path pq | None => "" end.
Definition u_query (u : uri_parts) : option string := path_and_query u ≫= uri_query.

(** *** [routes::proxy_pass]: the route of a request *)
Inductive routed :=
| Redirect (location : string)   (* 301 with a Location header *)
| Forward (route : ProxyLocation).
(** A location without its trailing slashes. *)
Definition trimmed (p : ProxyLocation) : string := trim_end_matches "/" (location p).
Definition exact_match (path : string) (p : ProxyLocation) : bool :=
  match strip_prefix "= " (location p) with Some l => String.eqb l path | None => false end.
Definition directory_match (path : string) (p : ProxyLocation) : bool :=
  ends_with "/" (location p) && String.eqb (trimmed p) path.
Definition covers (path : string) (p : ProxyLocation) : bool :=
  starts_with "/" (location p)
  && (String.eqb (location p) "/" || String.eqb path (trimmed p) || starts_with (trimmed p +:+ "/") path).
(** [max_by_key]: the last of the greatest. *)
Definition longer (best : option ProxyLocation) (p : ProxyLocation) : option ProxyLocation :=
  match best with
  | Some b => if slen (location b) <=? slen (location p) then Some p else Some b
  | None => Some p
  end.
Definition longest (l : list ProxyLocation) : option ProxyLocation := fold_left longer l None.
Definition select_route (proxies : list ProxyLocation) (path : string) (query : option string) : Result routed :=
  throw RouteNotFound when reserved path;;
  match find (exact_match path) proxies with
  | Some p => Ok (Forward p)
  | None =>
      match find (directory_match path) proxies with
      | Some p => Ok (Redirect (match query with Some q => location p +:+ "?" +:+ q | None => location p end))
      | None => result_map Forward (ok_or RouteNotFound (longest (filter (fun p => covers path p = true) proxies)))
      end
  end.

Section proxy.
Context `{HeaderMap, UriValid, Base64, Sha1}.

(** *** Header rewriting *)
(** [flat_map(|v| v.split(','))] over the text values of a header. *)
Definition tokens (name : string) (h : headers) : list string :=
  map trim (flat_map (split_on ",") (omap to_str (get_all name h))).
Definition header_token (h : headers) (name token : string) : bool :=
  existsb (fun v => eq_ignore_ascii_case v token) (tokens name h).
Definition HOP_HEADERS : list string :=
  ["connection"; "keep-alive"; "proxy-connection"; "proxy-authenticate"; "proxy-authorization"; "te";
   "transfer-encoding"; "upgrade"].
Definition remove_all (names : list string) (h : headers) : headers :=
  fold_left (fun h name => remove name h) names h.
Definition clean_hop_headers (h : headers) : headers :=
  let named := omap header_name_parse (tokens "connection" h) in
  remove_all HOP_HEADERS (remove_all named h).

(** *** [proxy_uri] *)
Definition proxy_uri (route : ProxyLocation) (u : uri_parts) : Result uri_parts :=
  let? path :=
    match path_and_query (proxy_pass route) with
    | Some base =>
        let? suffix := if starts_with "= " (location route) then Ok ""
                       else ok_or RouteNotFound (strip_prefix (location route) (u_path u)) in
        Ok (uri_path base +:+ suffix)
    | None => Ok (u_path u)
    end in
  let path := match u_query u with Some q => path +:+ "?" +:+ q | None => path end in
  let? pq := ok_or (BadRequest "invalid upstream path") (path_and_query_parse path) in
  ok_or (BadRequest "invalid upstream URI")
    (uri_from_parts (UriParts (scheme (proxy_pass route)) (authority (proxy_pass route)) (Some pq))).

(** *** [proxy] *)
Record http_request := HttpRequest {
  rq_method : string; rq_uri : uri_parts; rq_headers : headers;
  rq_protocol : option string;   (* the :protocol extension *)
  rq_body : string
}.
Inductive body := Plain (bytes : string) | Duplex (upload : string).
Record http_response := HttpResponse { rs_status : Z; rs_headers : headers; rs_body : body }.

Definition is_websocket (rq : http_request) : bool :=
  String.eqb (rq_method rq) "CONNECT"
  && match rq_protocol rq with Some p => String.eqb p "websocket" | None => false end.
(** A request ready for the upstream: where it goes, the request, and for an
    upgrade its key, the offered headers and the upload. *)
Record prepared := Prepared {
  target : socket_addr; outgoing : http_request; upgrade : option (string * headers * string) }.
Definition upgrade_headers (key : string) (h : headers) : headers :=
  let h := remove "sec-websocket-accept" (remove "content-length" h) in
  let h := insert_header "connection" "Upgrade" h in
  let h := insert_header "upgrade" "websocket" h in
  let h := insert_header "sec-websocket-version" "13" h in
  insert_header "sec-websocket-key" key h.
(** [nonce]: 16 random bytes, or the error of the generator. *)
Definition prepare (route : ProxyLocation) (nonce : result string string) (rq : http_request) : Result prepared :=
  let websocket := is_websocket rq in
  throw (BadRequest "WebSocket requires version 13 and no trailers") when
    websocket && (match get_header "sec-websocket-version" (rq_headers rq) with
                  | Some v => negb (String.eqb v "13") | None => true end
                  || contains_key "trailer" (rq_headers rq));;
  let? uri := proxy_uri route (rq_uri rq) in
  let? authority := ok_or (BadRequest "invalid proxy authority") (authority uri) in
  let? address := ok_or (BadRequest "invalid proxy address") (parse_socket_addr authority) in
  throw (BadRequest "proxy target must be local HTTP/TCP") when
    negb (bool_decide (scheme uri = Some "http")) || negb (is_loopback address);;
  let? host := ok_or (BadRequest "invalid proxy authority") (header_value_parse authority) in
  let? path := ok_or (BadRequest "invalid upstream path")
    (path_and_query_parse (default "/" (path_and_query uri))) in
  let h := insert_header "host" host (clean_hop_headers (rq_headers rq)) in
  let origin := UriParts None None (Some path) in
  if websocket then
    let? nonce := map_err (Io OtherIo) nonce in
    let key := b64_encode nonce in
    Ok {| target := address; upgrade := Some (key, rq_headers rq, rq_body rq);
          outgoing := HttpRequest "GET" origin (upgrade_headers key h) None "" |}
  else Ok {| target := address; upgrade := None; outgoing := HttpRequest (rq_method rq) origin h None (rq_body rq) |}.

(** *** The response of the upstream *)
Definition GUID : string := "258EAFA5-E914-47DA-95CA-C5AB0DC85B11".
Definition accept_key (key : string) : string := b64_encode (sha1 (key +:+ GUID)).
Definition other_io (message : string) : error := Io OtherIo message.
Definition is_success (code : Z) : bool := (200 <=? code) && (code <? 300).
(** The subprotocol the upstream selected, if any, was offered and is one. *)
Definition check_protocol (offered h : headers) : Result unit :=
  match get_header "sec-websocket-protocol" h with
  | None => Ok tt
  | Some value =>
      let? protocol := ok_or (other_io "failed to convert header to a str") (to_str value) in
      throw (other_io "unoffered upstream WebSocket protocol") when
        String.eqb protocol "" || contains_char "," protocol
        || negb (Nat.eqb (length (get_all "sec-websocket-protocol" h)) 1)
        || negb (existsb (fun v => String.eqb v protocol) (tokens "sec-websocket-protocol" offered));;
      Ok tt
  end.
Definition check_handshake (key : string) (offered h : headers) : Result unit :=
  throw (other_io "invalid upstream WebSocket handshake") when
    negb (header_token h "connection" "upgrade") || negb (header_token h "upgrade" "websocket")
    || negb (Nat.eqb (length (get_all "sec-websocket-accept" h)) 1)
    || match get_header "sec-websocket-accept" h with Some v => negb (String.eqb v (accept_key key)) | None => true end;;
  check_protocol offered h.
(** [upgraded]: the outcome of taking over the upstream connection. *)
Definition finish (u : option (string * headers * string)) (upgraded : Result unit) (rs : http_response) : Result http_response :=
  match u with
  | Some (key, offered, upload) =>
      if negb (rs_status rs =? 101) then
        throw (other_io "upstream did not upgrade WebSocket") when is_success (rs_status rs);;
        Ok (HttpResponse (rs_status rs) (clean_hop_headers (rs_headers rs)) (rs_body rs))
      else
        let? _ := check_handshake key offered (rs_headers rs) in
        let? _ := upgraded in
        let h := remove "content-length" (remove "sec-websocket-accept" (clean_hop_headers (rs_headers rs))) in
        Ok (HttpResponse 200 h (Duplex upload))
  | None => Ok (HttpResponse (rs_status rs) (clean_hop_headers (rs_headers rs)) (rs_body rs))
  end.
(** [exchange]: connect, handshake and send, each within its deadline. *)
Definition proxy (exchange : socket_addr -> http_request -> Result http_response) (upgraded : Result unit)
    (nonce : result string string) (route : ProxyLocation) (rq : http_request) : Result http_response :=
  let? p := prepare route nonce rq in
  let? rs := exchange (target p) (outgoing p) in
  finish (upgrade p) upgraded rs.

(** *** [routes::proxy_pass] *)
Inductive answer :=
| Moved (location : string)
| Answer (rs : http_response)
| Failed (code : Z).            (* 502 for an I/O error, else [reject] *)
Definition routes_proxy_pass exchange upgraded nonce (proxies : list ProxyLocation) (rq : http_request) : answer :=
  let result :=
    let? route := select_route proxies (u_path (rq_uri rq)) (u_query (rq_uri rq)) in
    match route with
    | Redirect location => Ok (Moved location)
    | Forward route => result_map Answer (proxy exchange upgraded nonce route rq)
    end in
  match result with
  | Ok a => a
  | Err (Io _ _) => Failed 502
  | Err e => Failed (status e)
  end.
End proxy.

(** ** Properties *)
Section selection_facts.
Lemma longest_spec l : match longest l with
                       | Some p => p ∈ l /\ Forall (fun q => slen (location q) <= slen (location p)) l
                       | None => l = []
                       end.
Proof.
  unfold longest. induction l as [|x l IH] using rev_ind; [done|]. rewrite fold_left_app. cbn.
  destruct (fold_left longer l None) as [b|]; cbn.
  - destruct IH as [Hin Hall]. destruct (Z.leb_spec (slen (location b)) (slen (location x))).
    + split; [apply elem_of_app; right; by left|]. apply Forall_app. split; [|by repeat constructor].
      eapply Forall_impl; [exact Hall|]. cbn. lia.
    + split; [apply elem_of_app; by left|]. apply Forall_app. split; [done|]. constructor; [lia|constructor].
  - subst l. split; [by left|]. by repeat constructor.
Qed.

(** The location of a usable mount has at most one trailing slash. *)
Lemma trimmed_location p :
  starts_with "/" (location p) = true -> valid_path (bare_location (location p)) = true ->
  location p = trimmed p \/ location p = trimmed p +:+ "/".
Proof.
  intros Hs Hv. assert (bare_location (location p) = location p) as Hb.
  { unfold bare_location. apply starts_with_iff in Hs as [r ->]. done. }
  rewrite Hb in Hv. unfold valid_path in Hv. simplify_bool.
  unfold trimmed. destruct (trim_end_split "/" (location p)) as [[|[|n]] Hn].
  - left. by rewrite Hn, app_nil_r_str at 1.
  - by right.
  - exfalso. match goal with Hc : contains_str "//" _ = false |- _ => rewrite Hn in Hc end.
    match goal with Hc : contains_str "//" (?t +:+ _) = false |- _ =>
      assert (contains_str "//" (t +:+ ("//" +:+ of_bytes (replicate n "/"%char))) = true) as Ht by apply contains_str_app end.
    cbn [replicate of_bytes string_of_list_ascii] in *. cbn in Ht. congruence.
Qed.

Lemma covers_prefix path p :
  starts_with "/" path = true -> valid_path (bare_location (location p)) = true ->
  covers path p = true -> directory_match path p = false -> starts_with (location p) path = true.
Proof.
  intros Hpath Hv Hc Hd. unfold covers in Hc. simplify_bool.
  match goal with Hs : starts_with "/" (location p) = true |- _ => destruct (trimmed_location p Hs Hv) as [Ht|Ht] end;
  match goal with Hc : _ || _ = true |- _ => rewrite !orb_true_iff, !String.eqb_eq in Hc; destruct Hc as [[Hroot|Heq]|Hpre] end.
  - by rewrite Hroot.
  - rewrite Ht, <- Heq. apply starts_with_iff. exists "". by rewrite app_nil_r_str.
  - apply starts_with_iff in Hpre as [r ->]. rewrite Ht. apply starts_with_iff. exists ("/" +:+ r). by rewrite app_assoc_str.
  - by rewrite Hroot.
  - unfold directory_match in Hd. rewrite Heq, String.eqb_refl, andb_true_r in Hd.
    assert (ends_with "/" (location p) = true) as He by (apply ends_with_iff; eauto). congruence.
  - by rewrite Ht.
Qed.

Lemma bare_slash l : starts_with "/" l = true -> bare_location l = l.
Proof. intros [r ->]%starts_with_iff. done. Qed.
Lemma app_inv_tail_str (a b c : string) : a +:+ c = b +:+ c -> a = b.
Proof.
  intros Heq. apply bytes_of_inj. apply (f_equal bytes_of) in Heq. rewrite !bytes_of_app in Heq.
  by apply app_inv_tail in Heq.
Qed.
(** The mount whose path with a slash added is [path ++ "/"]. *)
Lemma directory_match_iff path p :
  starts_with "/" path = true -> valid_path (bare_location (location p)) = true ->
  directory_match path p = true <-> location p = path +:+ "/".
Proof.
  intros Hpath Hv. unfold directory_match. split.
  - intros Hd. simplify_bool. subst path. destruct (trim_end_split "/" (location p)) as [n Hn].
    assert (starts_with "/" (location p) = true) as Hs.
    { apply starts_with_iff in Hpath as [r Hr]. apply starts_with_iff. unfold trimmed in Hr. rewrite Hr in Hn.
      eexists. by rewrite Hn, app_assoc_str. }
    destruct (trimmed_location p Hs Hv) as [Ht|]; [|done].
    assert (ends_with "/" (trimmed p) = false) by apply trim_end_clean. congruence.
  - intros Hl. assert (ends_with "/" (location p) = true) as He by (apply ends_with_iff; eauto).
    assert (starts_with "/" (location p) = true) as Hs.
    { apply starts_with_iff in Hpath as [r ->]. apply starts_with_iff. rewrite Hl, app_assoc_str. eauto. }
    rewrite He. cbn. apply String.eqb_eq.
    destruct (trimmed_location p Hs Hv) as [Ht|Ht].
    + assert (ends_with "/" (trimmed p) = false) by apply trim_end_clean. congruence.
    + rewrite Hl in Ht. symmetry. by apply app_inv_tail_str in Ht.
Qed.
Lemma exact_match_iff path p : exact_match path p = true <-> location p = "= " +:+ path.
Proof.
  unfold exact_match. destruct (strip_prefix "= " (location p)) as [l|] eqn:Hl.
  - apply strip_prefix_Some in Hl. rewrite Hl, String.eqb_eq. split; [by intros ->|by intros ->%app_inv_head_str].
  - split; [done|]. intros Hp. by rewrite Hp, strip_prefix_app in Hl.
Qed.

(** What a selected route is. *)
Lemma select_route_facts proxies path query p :
  select_route proxies path query = Ok (Forward p) ->
  reserved path = false /\ p ∈ proxies /\
  (exact_match path p = true \/
   (Forall (fun q => exact_match path q = false /\ directory_match path q = false) proxies /\
    covers path p = true /\
    Forall (fun q => covers path q = true -> slen (location q) <= slen (location p)) proxies)).
Proof.
  unfold select_route. intros Hs. destruct (reserved path); [done|].
  destruct (find (exact_match path) proxies) as [e|] eqn:He.
  { injection Hs as ->. apply find_some in He as [Hin%list_elem_of_In Hm]. auto. }
  destruct (find (directory_match path) proxies) as [d|] eqn:Hd; [done|].
  pose proof (longest_spec (filter (fun p => covers path p = true) proxies)) as Hl.
  destruct (longest _) as [q|]; cbn in Hs; [|done]. injection Hs as ->.
  destruct Hl as [[Hc Hin]%list_elem_of_filter Hall]. split_and!; [done..|]. right.
  split_and!; [|done|].
  - apply Forall_forall. intros q Hq%list_elem_of_In. split; by eapply find_none in Hq.
  - apply Forall_forall. intros q Hq Hcq. rewrite Forall_forall in Hall. apply Hall.
    by apply list_elem_of_filter.
Qed.

(** Route selection never answers for a reserved path; it picks an exact location or else the longest
    covering prefix when there is no exact or slash location, and redirects only to an existing location
    that is the path with a slash. *)
Theorem select_route_sound proxies path query r :
  Forall local_proxy proxies -> starts_with "/" path = true ->
  select_route proxies path query = Ok r ->
  reserved path = false /\
  match r with
  | Forward p => p ∈ proxies /\
      (location p = "= " +:+ path \/
       (starts_with (location p) path = true /\
        Forall (fun q => location q <> "= " +:+ path /\ location q <> path +:+ "/" /\
                         (covers path q = true -> slen (location q) <= slen (location p))) proxies))
  | Redirect l => exists q, q ∈ proxies /\ location q = path +:+ "/" /\
      l = match query with Some t => path +:+ "/?" +:+ t | None => path +:+ "/" end
  end.
Proof.
  intros Hall Hpath Hs. rewrite Forall_forall in Hall.
  assert (reserved path = false) as Hres by (unfold select_route in Hs; by destruct (reserved path)).
  split; [done|]. destruct r as [l|p].
  - unfold select_route in Hs. rewrite Hres in Hs.
    destruct (find (exact_match path) proxies); [done|].
    destruct (find (directory_match path) proxies) as [d|] eqn:Hd;
      [|by destruct (longest _)].
    apply find_some in Hd as [Hin%list_elem_of_In Hd]. apply directory_match_iff in Hd; [|done|apply (Hall d Hin)].
    exists d. split_and!; [done..|]. injection Hs as <-. rewrite Hd. by destruct query; rewrite ?app_assoc_str.
  - apply select_route_facts in Hs as (_ & Hin & [He|(Hno & Hc & Hlong)]); (split; [done|]).
    + left. by apply exact_match_iff.
    + right. rewrite Forall_forall in Hno, Hlong.
      split; [eapply covers_prefix; [done|apply (Hall p Hin)|done|by apply Hno]|].
      apply Forall_forall. intros q Hq. destruct (Hno q Hq) as [Hq1 Hq2].
      split_and!; [|  |by apply Hlong].
      * intros Hx%exact_match_iff. congruence.
      * intros Hx%directory_match_iff; [congruence|done|apply (Hall q Hq)].
Qed.
End selection_facts.

Section proxy_facts.
Context `{HeaderMap, UriValid, Base64, Sha1, !HeaderLaws}.

Lemma get_all_remove_all names n h :
  get_all n (remove_all names h) = if existsb (String.eqb n) names then [] else get_all n h.
Proof.
  unfold remove_all. revert h. induction names as [|m names IH]; intros h; cbn; [done|].
  rewrite IH, get_all_remove. destruct (String.eqb n m); cbn; [by destruct (existsb _ _)|done].
Qed.
(** The names a Connection header lists. *)
Definition named_hop (h : headers) : list string := omap header_name_parse (tokens "connection" h).
Lemma clean_hop_headers_get n h :
  get_all n (clean_hop_headers h) = if existsb (String.eqb n) (HOP_HEADERS ++ named_hop h) then [] else get_all n h.
Proof.
  unfold clean_hop_headers. rewrite !get_all_remove_all, existsb_app. unfold named_hop.
  destruct (existsb _ HOP_HEADERS); cbn; [done|]. by destruct (existsb _ _).
Qed.

(** Removing hop headers removes exactly the fixed hop-by-hop names and the names the Connection header
    lists, keeps all values of the others, and is idempotent. *)
Theorem clean_hop_headers_spec n h :
  get_all n (clean_hop_headers h) = (if existsb (String.eqb n) (HOP_HEADERS ++ named_hop h) then [] else get_all n h) /\
  get_all n (clean_hop_headers (clean_hop_headers h)) = get_all n (clean_hop_headers h).
Proof.
  split; [apply clean_hop_headers_get|]. rewrite clean_hop_headers_get.
  assert (named_hop (clean_hop_headers h) = []) as ->.
  { unfold named_hop, tokens. by rewrite clean_hop_headers_get. }
  rewrite app_nil_r, clean_hop_headers_get, existsb_app. by destruct (existsb _ HOP_HEADERS).
Qed.

(** For a route that selection returned, the upstream address keeps the route's scheme and authority,
    and its path is the route's base followed by what remains of the request path after the location (or
    the request path itself when the route has no base), with the query kept. *)
Theorem proxy_uri_selected proxies p u :
  Forall local_proxy proxies -> starts_with "/" (u_path u) = true ->
  select_route proxies (u_path u) (u_query u) = Ok (Forward p) ->
  exists path, proxy_uri p u =
    (let? pq := ok_or (BadRequest "invalid upstream path")
       (path_and_query_parse match u_query u with Some q => path +:+ "?" +:+ q | None => path end) in
     ok_or (BadRequest "invalid upstream URI")
       (uri_from_parts (UriParts (scheme (proxy_pass p)) (authority (proxy_pass p)) (Some pq)))) /\
    match path_and_query (proxy_pass p) with
    | None => path = u_path u
    | Some base => exists suffix, path = uri_path base +:+ suffix /\
        (location p = "= " +:+ u_path u /\ suffix = "" \/ u_path u = location p +:+ suffix)
    end.
Proof.
  intros Hall Hpath Hs. apply select_route_facts in Hs as (_ & Hin & Hr). rewrite Forall_forall in Hall.
  unfold proxy_uri. destruct (path_and_query (proxy_pass p)) as [base|]; [|eauto].
  destruct Hr as [He|(Hno & Hc & _)].
  - apply exact_match_iff in He.
    assert (starts_with "= " (location p) = true) as -> by (apply starts_with_iff; eauto).
    eexists. split; [done|]. exists "". auto.
  - rewrite Forall_forall in Hno.
    assert (starts_with (location p) (u_path u) = true) as [suffix Hsuf]%starts_with_iff
      by (eapply covers_prefix; [done|apply (Hall p Hin)|done|by apply Hno]).
    destruct (starts_with "= " (location p)) eqn:Hex.
    + apply starts_with_iff in Hex as [r Hr]. unfold covers in Hc. by rewrite Hr in Hc.
    + assert (strip_prefix (location p) (u_path u) = Some suffix) as -> by (rewrite Hsuf; apply strip_prefix_app).
      eexists. split; [done|]. eauto.
Qed.

(** A prepared upstream request goes to a loopback address in origin form with exactly one Host header
    and without hop-by-hop headers, except the ones set anew for a WebSocket upgrade. *)
Theorem prepare_local route nonce rq p :
  prepare route nonce rq = Ok p ->
  is_loopback (target p) = true /\
  scheme (rq_uri (outgoing p)) = None /\ authority (rq_uri (outgoing p)) = None /\
  (exists h, get_all "host" (rq_headers (outgoing p)) = [h]) /\
  (forall n, existsb (String.eqb n) (HOP_HEADERS ++ named_hop (rq_headers rq)) = true -> n <> "host" ->
     if is_websocket rq && existsb (String.eqb n) ["connection"; "upgrade"; "sec-websocket-version"; "sec-websocket-key"]
     then exists v, get_all n (rq_headers (outgoing p)) = [v]
     else get_all n (rq_headers (outgoing p)) = []).
Proof.
  unfold prepare. intros Hp. simplify_ok. simplify_bool.
  destruct (is_websocket rq); simplify_ok; cbn [target outgoing rq_uri rq_headers scheme authority].
  - split_and!; try done.
    + eexists. unfold upgrade_headers. rewrite !get_all_insert, !get_all_remove, get_all_insert. done.
    + intros n Hn Hhost. unfold upgrade_headers. rewrite !get_all_insert, !get_all_remove, get_all_insert, clean_hop_headers_get, Hn.
      apply String.eqb_neq in Hhost. rewrite Hhost. cbn [existsb andb].
      repeat match goal with |- context [String.eqb n ?m] => destruct (String.eqb n m) end; cbn; eauto.
  - split_and!; try done.
    + eexists. by rewrite get_all_insert.
    + intros n Hn Hhost. rewrite get_all_insert, clean_hop_headers_get, Hn.
      apply String.eqb_neq in Hhost. by rewrite Hhost.
Qed.

Lemma one_value name h v :
  length (get_all name h) = 1%nat -> get_header name h = Some v -> get_all name h = [v].
Proof. unfold get_header. destruct (get_all name h) as [|x [|]]; cbn; [done|by intros _ [= ->]|done]. Qed.

(** A WebSocket request is answered with success only when the upstream switched protocols with a valid
    handshake: the upgrade tokens are there, the accept key is the one of the sent key, and a chosen
    subprotocol is one the client offered; the accept key is not passed on. *)
Theorem websocket_upgrade_sound key offered upload upgraded rs rs' :
  finish (Some (key, offered, upload)) upgraded rs = Ok rs' -> rs_status rs' = 200 ->
  rs_status rs = 101 /\ upgraded = Ok tt /\ rs_body rs' = Duplex upload /\
  header_token (rs_headers rs) "connection" "upgrade" = true /\
  header_token (rs_headers rs) "upgrade" "websocket" = true /\
  get_all "sec-websocket-accept" (rs_headers rs) = [accept_key key] /\
  get_all "sec-websocket-accept" (rs_headers rs') = [] /\
  (forall v, get_header "sec-websocket-protocol" (rs_headers rs) = Some v ->
     get_all "sec-websocket-protocol" (rs_headers rs) = [v] /\
     exists protocol, to_str v = Some protocol /\ protocol ∈ tokens "sec-websocket-protocol" offered).
Proof.
  unfold finish. destruct (Z.eqb_spec (rs_status rs) 101) as [Hst|Hst]; cbn [negb].
  - intros Hf _. simplify_ok. cbn [rs_headers rs_body].
    repeat match goal with u : unit |- _ => destruct u end.
    match goal with Hc : check_handshake _ _ _ = Ok _ |- _ => unfold check_handshake in Hc; simplify_ok; simplify_bool end.
    match goal with Hx : match get_header _ _ with _ => _ end = false |- _ =>
      destruct (get_header "sec-websocket-accept" _) as [v|] eqn:Hv; [|done] end.
    simplify_bool. subst v. split_and!; try done.
    + apply one_value; [by apply Nat.eqb_eq|done].
    + by rewrite !get_all_remove.
    + intros v Hp. match goal with Hc : check_protocol _ _ = Ok _ |- _ => unfold check_protocol in Hc; rewrite Hp in Hc end.
      simplify_ok. simplify_bool. split; [apply one_value; [by apply Nat.eqb_eq|done]|].
      eexists. split; [done|].
      match goal with He : existsb _ _ = true |- _ => apply existsb_exists in He as (t & Hin & ->%String.eqb_eq) end.
      by apply list_elem_of_In.
  - intros Hf Hs. simplify_ok. cbn in Hs. unfold is_success in *. rewrite Hs in *. done.
Qed.
End proxy_facts.
