(* ===== verification/Outbound.v ===== *)
(** * Outbound DHTTP requests ([src/routes/outbound.rs])

    [/std/dhttp/{name}[:{sequence}]/{path}] forwards to another identity, for the
    identity itself only.  Sending the request is an argument ([exchange]). *)
From S2P Require Import Prelude RustStr Json Crates Errors Metadata Capabilities Setup Proxy.

Definition DHTTP_PREFIX : string := "/std/dhttp/".
Record handshake := Handshake { hs_local : option authority_; hs_remote : option authority_ }.

Section outbound.
Context `{DhttpHome, UrlCrates, HeaderMap}.

Definition outbound_uri (u : uri_parts) : Result (uri_parts * string) :=
  let? path := ok_or RouteNotFound (strip_prefix DHTTP_PREFIX (u_path u)) in
  let '(target, suffix) := default (path, "") (split_once "/" path) in
  let '(name, sequence) := match split_once ":" target with
                           | Some (name, sequence) => (name, Some sequence)
                           | None => (target, None)
                           end in
  let? name := ok_or (BadRequest "invalid DHTTP target") (normalize_name name) in
  let? authority :=
    match sequence with
    | Some sequence =>
        let? number := ok_or (BadRequest "invalid DHTTP target sequence") (parse_u64 sequence) in
        let? _ := ok_or (BadRequest "invalid DHTTP target sequence") (certificate_sequence number) in
        Ok (name +:+ ":" +:+ sequence)
    | None => Ok name
    end in
  let path := match u_query u with
              | Some query => "/" +:+ suffix +:+ "?" +:+ query
              | None => "/" +:+ suffix
              end in
  let? uri := ok_or (BadRequest "invalid DHTTP target URI") (uri_parse ("https://" +:+ authority +:+ path)) in
  Ok (uri, authority).

(** *** [forward_dhttp] *)
Record forwarded := Forwarded {
  fw_handshake : option handshake;
  fw_local : option authority_;     (* the LocalAuthority extension *)
  fw_uri : uri_parts;
  fw_headers : headers;
  fw_body : string
}.
Definition owner_of (a : authority_) : Result string :=
  let? ski := ok_or Denied (extract_ski (au_certificates a)) in Ok (owner_hash ski).
Definition same_owner (a b : authority_) : Result unit :=
  let? a := owner_of a in
  let? b := owner_of b in
  throw Denied when negb (String.eqb a b);;
  Ok tt.
Definition check_self (ep : endpoint) (rq : forwarded) : Result unit :=
  match fw_handshake rq with
  | Some handshake =>
      let? local := ok_or MissingHandshake (hs_local handshake) in
      let? remote := ok_or Denied (hs_remote handshake) in
      throw Denied when
        negb (bool_decide (normalize_name (au_name local) = Some (ep_name ep)))
        || negb (bool_decide (normalize_name (au_name remote) = Some (ep_name ep)));;
      same_owner local remote
  | None =>
      match fw_local rq with
      | Some local =>
          let? actual := map_err Dhttp (ep_local ep) in
          let? local_hash := owner_of local in
          let? actual_hash := owner_of actual in
          throw Denied when negb (String.eqb (au_name local) (ep_name ep)) || negb (String.eqb local_hash actual_hash);;
          Ok tt
      | None => Err MissingHandshake
      end
  end.
(** The request that leaves: its URI and headers, and where it goes. *)
Definition prepare_outbound (ep : endpoint) (rq : forwarded) : Result (uri_parts * headers) :=
  let? _ := check_self ep rq in
  throw (BadRequest "DHTTP request trailers are not supported") when contains_key "trailer" (fw_headers rq);;
  let? (uri, authority) := outbound_uri (fw_uri rq) in
  let h := clean_hop_headers (fw_headers rq) in
  let? host := ok_or (BadRequest "invalid DHTTP target") (header_value_parse authority) in
  Ok (uri, insert_header "host" host h).
(** [upload_body]: a frame is data or trailers; the writer is shut down only
    at a clean end. *)
Inductive frame := Data (bytes : string) | Trailers.
Fixpoint upload_body (frames : list (result string frame)) (write : string -> Result unit) : Result string :=
  match frames with
  | [] => Ok ""
  | Err e :: _ => Err (Io OtherIo e)
  | Ok Trailers :: _ => Err (BadRequest "DHTTP request trailers are not supported")
  | Ok (Data bytes) :: frames =>
      let? _ := write bytes in
      let? rest := upload_body frames write in
      Ok (bytes +:+ rest)
  end.
Definition forward_dhttp (exchange : uri_parts -> headers -> string -> Result http_response) (ep : endpoint)
    (rq : forwarded) : result Z http_response :=
  map_err status
    (let? (uri, h) := prepare_outbound ep rq in
     let? rs := exchange uri h (fw_body rq) in
     Ok (HttpResponse (rs_status rs) (clean_hop_headers (rs_headers rs)) (rs_body rs))).
End outbound.

(** ** Properties *)
Section outbound_facts.
Context `{DhttpHome, UrlCrates, HeaderMap, !HeaderLaws}.

Lemma owner_of_ok a o : owner_of a = Ok o -> exists ski, extract_ski (au_certificates a) = Some ski /\ owner_hash ski = o.
Proof. unfold owner_of. intros Ho. simplify_ok. eauto. Qed.

(** An outbound request of the device is forwarded only when both ends are the endpoint itself: same
    name, and certificates with the same owner; and only without trailers. *)
Theorem forward_dhttp_self exchange ep rq rs :
  forward_dhttp exchange ep rq = Ok rs ->
  exists local remote l r,
    match fw_handshake rq with
    | Some hs => hs_local hs = Some local /\ hs_remote hs = Some remote /\
        normalize_name (au_name local) = Some (ep_name ep) /\ normalize_name (au_name remote) = Some (ep_name ep)
    | None => fw_local rq = Some local /\ ep_local ep = Ok remote /\ au_name local = ep_name ep
    end /\
    extract_ski (au_certificates local) = Some l /\ extract_ski (au_certificates remote) = Some r /\
    owner_hash l = owner_hash r /\ get_all "trailer" (fw_headers rq) = [].
Proof.
  unfold forward_dhttp, prepare_outbound, contains_key, check_self, same_owner. intros Hf. simplify_ok.
  destruct (get_all "trailer" (fw_headers rq)); [|done].
  destruct (fw_handshake rq) as [hs|]; simplify_ok; simplify_bool;
  repeat match goal with Ho : owner_of _ = Ok _ |- _ => apply owner_of_ok in Ho as (? & ? & ?) end; subst;
  do 4 eexists; split_and!; eauto.
Qed.

(** The outbound address is the normalised target name (with its sequence) and the rest of the path,
    with the query kept. *)
Theorem outbound_uri_target name n sequence suffix query uri authority :
  contains_char "/" name = false -> contains_char ":" name = false ->
  match sequence with Some s => contains_char "/" s = false | None => True end ->
  normalize_name name = Some n ->
  let target := match sequence with Some s => name +:+ ":" +:+ s | None => name end in
  let path := DHTTP_PREFIX +:+ target +:+ "/" +:+ suffix in
  u_path uri = path -> u_query uri = query ->
  outbound_uri uri = Ok authority ->
  authority.2 = match sequence with Some s => n +:+ ":" +:+ s | None => n end /\
  uri_parse ("https://" +:+ authority.2 +:+ "/" +:+ suffix +:+ match query with Some q => "?" +:+ q | None => "" end)
    = Some authority.1.
Proof.
  intros Hslash Hcolon Hseq Hn target path Hp Hq. unfold outbound_uri. rewrite Hp, Hq. subst path.
  rewrite strip_prefix_app. cbn [ok_or].
  assert (split_once "/" (target +:+ "/" +:+ suffix) = Some (target, suffix)) as ->.
  { apply split_once_Some. split; [done|]. subst target. destruct sequence as [t|]; [|done].
    unfold contains_char in *. autorewrite with pishoo. by rewrite Hslash, Hseq. }
  cbn [default from_option id]; cbn beta iota.
  assert (split_once ":" target = match sequence with Some t => Some (name, t) | None => None end) as ->.
  { subst target. destruct sequence; [by apply split_once_Some|by apply split_once_None]. }
  destruct sequence as [t|]; subst target; cbn beta iota match; rewrite Hn; cbn [ok_or].
  - intros Ho. simplify_ok. cbn. by destruct (u_query uri); rewrite ?app_nil_r_str.
  - intros Ho. simplify_ok. cbn. by destruct (u_query uri); rewrite ?app_nil_r_str.
Qed.
End outbound_facts.
