(* ===== verification/Access.v ===== *)
(** * Who may call what ([src/routes/access.rs])

    [authorize] runs before every handler of the endpoint.  The access database
    is a library's: [auth] answers for a request, a visitor's name and subject,
    and [next] is the rest of the router. *)
From S2P Require Import Prelude RustStr Json Crates Errors Capabilities Setup Proxy Outbound.

Section access.
Context `{DhttpHome, AccessControl, HeaderMap}.

(** What the handler is given: the transport's extensions and the request.
    [in_visitor] is whatever an earlier layer left there. *)
Record incoming := Incoming {
  in_handshake : option handshake;
  in_local : option authority_;
  in_visitor : option visitor;
  in_method : string;
  in_uri : uri_parts;
  in_headers : headers;
  in_body : string
}.
(** [access_control::Headers] *)
Record asked := Asked { ask_method : string; ask_path : string; ask_fields : headers }.
(** [AuthResult]; a pending review is its number and the fields of its answer,
    a waiting one what its future gave within 300 seconds. *)
Inductive review := Decided (allow : bool) | Unavailable | TimedOut.
Inductive verdict :=
| Allowed
| Refused
| Reviewing (id : string) (fields : list (string * json))
| Waiting (outcome : review).
Inductive access_error := TypeError (message : string) | OtherAccess.

(** The answers of the handler. *)
Inductive reply :=
| Rejected (e : error)                          (* [reject] *)
| Pending (location : string) (body : json)     (* 202, no-store, retry after 3 *)
| ReviewFailed (code : Z) (reason : string)     (* no-store, {"error": reason} *)
| Malformed (message : string)                  (* 400 *)
| Internal                                      (* 500 *)
| Served (rs : http_response).

(** *** The visitor *)
Definition visitor_of (a : authority_) : option visitor :=
  match extract_ski (au_certificates a) with
  | Some ski => if subject_ok (owner_hash ski) then Some (Visitor (au_name a) (owner_hash ski)) else None
  | None => None
  end.
Definition identify (rq : incoming) : Result (option visitor) :=
  match in_handshake rq with
  | Some handshake =>
      throw MissingHandshake when bool_decide (hs_local handshake = None);;
      match hs_remote handshake with
      | Some remote => result_map Some (ok_or Denied (visitor_of remote))
      | None => Ok None
      end
  | None =>
      match in_local rq with
      | Some local => result_map Some (ok_or Denied (visitor_of local))
      | None => Err MissingHandshake
      end
  end.

(** *** What is asked: an App is one resource *)
Definition app_root (rq : incoming) : option string :=
  if String.eqb (in_method rq) "GET" || String.eqb (in_method rq) "HEAD" then
    match strip_prefix "/app/" (u_path (in_uri rq)) with
    | Some tail => let name := first_segment "/" tail in if String.eqb name "" then None else Some ("/app/" +:+ name)
    | None => None
    end
  else None.
Definition auth_request (rq : incoming) : asked :=
  match app_root rq with
  | Some app => Asked "GET" app (in_headers rq)
  | None => Asked (in_method rq) (default "/" (path_and_query (in_uri rq))) (in_headers rq)
  end.
Definition app_head (rq : incoming) : bool :=
  bool_decide (is_Some (app_root rq)) && String.eqb (in_method rq) "HEAD".

(** *** [authorize] *)
Definition set_visitor (v : option visitor) (rq : incoming) : incoming :=
  Incoming (in_handshake rq) (in_local rq) v (in_method rq) (in_uri rq) (in_headers rq) (in_body rq).
Definition pending_body (fields : list (string * json)) : json :=
  JObj (obj_insert "status" (JStr "pending_review") (obj_remove "error" fields)).
Definition serve (next : incoming -> http_response) (v : option visitor) (rq : incoming) : reply :=
  let rs := next (set_visitor v rq) in
  if app_head rq then
    match header_value_parse (match v with Some v => v_name v | None => "" end) with
    | None => Rejected Denied
    | Some name =>
        Served (HttpResponse (rs_status rs)
          (insert_header "cache-control" "no-store" (insert_header "pishoo-viewer-name" name (rs_headers rs))) (rs_body rs))
    end
  else Served rs.
Definition authorize (auth : asked -> option string -> option string -> result access_error verdict)
    (next : incoming -> http_response) (rq : incoming) : reply :=
  match identify rq with
  | Err e => Rejected e
  | Ok v =>
      match auth (auth_request rq) (v_name <$> v) (v_subject <$> v) with
      | Ok Allowed => serve next v rq
      | Ok Refused => Rejected Denied
      | Ok (Reviewing id fields) => Pending ("/std/acl/status?id=" +:+ id) (pending_body fields)
      | Ok (Waiting (Decided true)) => serve next v rq
      | Ok (Waiting (Decided false)) => ReviewFailed 403 "review_denied"
      | Ok (Waiting Unavailable) => ReviewFailed 503 "review_unavailable"
      | Ok (Waiting TimedOut) => ReviewFailed 504 "review_timeout"
      | Err (TypeError message) => Malformed message
      | Err OtherAccess => Internal
      end
  end.

(** ** Properties *)

(** An App is reached by a GET or HEAD of its page, its assets and its deep
    links. *)
Lemma app_root_Some rq app :
  app_root rq = Some app <->
  (in_method rq = "GET" \/ in_method rq = "HEAD") /\
  exists name rest, app = "/app/" +:+ name /\ name <> "" /\ contains_char "/" name = false /\
    u_path (in_uri rq) = "/app/" +:+ (name +:+ rest) /\ (rest = "" \/ exists tail, rest = String "/" tail).
Proof.
  unfold app_root. rewrite <- !String.eqb_eq, <- orb_true_iff.
  destruct (_ || _); [|split; [done|intros [? _]; done]].
  destruct (strip_prefix "/app/" (u_path (in_uri rq))) as [tail|] eqn:Ht.
  - apply strip_prefix_Some in Ht. rewrite Ht.
    destruct (String.eqb_spec (first_segment "/" tail) "") as [He|He].
    + split; [done|]. intros (_ & name & rest & -> & Hne & Hc & Heq & Hr). exfalso. apply Hne. rewrite <- He. symmetry.
      apply first_segment_spec. split; [done|]. exists rest. split; [|done]. by injection Heq.
    + split.
      * intros [= <-]. split; [done|].
        destruct (proj1 (first_segment_spec "/" tail _) eq_refl) as (Hc & rest & Heq & Hr).
        exists (first_segment "/" tail), rest. split_and!; try done. by rewrite <- Heq.
      * intros (_ & name & rest & -> & Hne & Hc & Heq & Hr). do 2 f_equal.
        apply first_segment_spec. split; [done|]. exists rest. split; [|done]. by injection Heq.
  - split; [done|]. intros (_ & name & rest & _ & _ & _ & Heq & _). rewrite Heq, strip_prefix_app in Ht. done.
Qed.
Lemma visitor_of_Some a v :
  visitor_of a = Some v <-> exists ski, extract_ski (au_certificates a) = Some ski /\ subject_ok (owner_hash ski) = true /\
    v = Visitor (au_name a) (owner_hash ski).
Proof.
  unfold visitor_of. destruct (extract_ski (au_certificates a)) as [ski|]; [|split; [done|by intros (? & ? & _)]].
  destruct (subject_ok (owner_hash ski)) eqn:Hs; split.
  - intros [= <-]. eauto.
  - by intros (? & [= <-] & _ & ->).
  - done.
  - intros (? & [= <-] & Hs' & _). congruence.
Qed.

Lemma identify_Ok rq v :
  identify rq = Ok v ->
  match in_handshake rq with
  | Some handshake => is_Some (hs_local handshake) /\ v = (hs_remote handshake ≫= visitor_of) /\
      (is_Some (hs_remote handshake) -> is_Some v)
  | None => is_Some v /\ v = (in_local rq ≫= visitor_of)
  end /\
  (forall visitor, v = Some visitor -> exists a ski, extract_ski (au_certificates a) = Some ski /\
     v_name visitor = au_name a /\ v_subject visitor = owner_hash ski).
Proof.
  unfold identify. intros Hi.
  assert (forall a w, result_map Some (ok_or Denied (visitor_of a)) = Ok w -> visitor_of a = w /\ is_Some w) as Hw.
  { intros a w. destruct (visitor_of a); cbn; [by intros [= <-]|done]. }
  assert (forall a visitor, visitor_of a = Some visitor -> exists a ski, extract_ski (au_certificates a) = Some ski /\
     v_name visitor = au_name a /\ v_subject visitor = owner_hash ski) as Hs.
  { intros a vis (ski & ? & _ & ->)%visitor_of_Some. eauto. }
  destruct (in_handshake rq) as [[[l|] [r|]]|]; cbn in *.
  - apply Hw in Hi as [<- ?]. split; [by split_and!|]. eauto.
  - injection Hi as <-. split; [split_and!; try done; by intros [? ?]|done].
  - done.
  - done.
  - destruct (in_local rq) as [a|]; [|done]. apply Hw in Hi as [<- ?]. split; [by split|]. eauto.
Qed.
Lemma serve_Served `{!HeaderLaws} next v rq rs :
  serve next v rq = Served rs ->
  rs_status rs = rs_status (next (set_visitor v rq)) /\ rs_body rs = rs_body (next (set_visitor v rq)) /\
  if bool_decide (is_Some (app_root rq)) && String.eqb (in_method rq) "HEAD"
  then exists name, header_value_parse (match v with Some v => v_name v | None => "" end) = Some name /\
    get_all "pishoo-viewer-name" (rs_headers rs) = [name] /\ get_all "cache-control" (rs_headers rs) = ["no-store"]
  else rs = next (set_visitor v rq).
Proof.
  unfold serve. change (bool_decide (is_Some (app_root rq)) && String.eqb (in_method rq) "HEAD") with (app_head rq).
  destruct (app_head rq); [|intros [= <-]; by split_and!].
  destruct (header_value_parse _) as [name|]; [|done]. intros [= <-]. split_and!; [done..|].
  exists name. cbn. split; [done|]. by rewrite !get_all_insert.
Qed.

(** C19: A request reaches its handler only when the access service allowed it, at once or by a review
    that ended in time, for the visitor the transport authenticated: the name and owner hash of the
    peer's (or local) certificates, never what an earlier layer left. A page of an App is asked for as a
    GET of the App's root, everything else as it is; and the answer is the handler's, except that a HEAD
    of an App carries the visitor's name and is not stored. *)
Theorem authorize_served `{!HeaderLaws} auth next rq rs :
  authorize auth next rq = Served rs ->
  exists v,
    match in_handshake rq with
    | Some handshake => is_Some (hs_local handshake) /\ v = (hs_remote handshake ≫= visitor_of) /\
        (is_Some (hs_remote handshake) -> is_Some v)
    | None => is_Some v /\ v = (in_local rq ≫= visitor_of)
    end /\
    (forall visitor, v = Some visitor -> exists a ski, extract_ski (au_certificates a) = Some ski /\
       v_name visitor = au_name a /\ v_subject visitor = owner_hash ski) /\
    (let question := match app_root rq with
                     | Some app => Asked "GET" app (in_headers rq)
                     | None => Asked (in_method rq) (default "/" (path_and_query (in_uri rq))) (in_headers rq)
                     end in
     auth question (v_name <$> v) (v_subject <$> v) = Ok Allowed \/
     auth question (v_name <$> v) (v_subject <$> v) = Ok (Waiting (Decided true))) /\
    rs_status rs = rs_status (next (set_visitor v rq)) /\ rs_body rs = rs_body (next (set_visitor v rq)) /\
    if bool_decide (is_Some (app_root rq)) && String.eqb (in_method rq) "HEAD"
    then exists name, header_value_parse (match v with Some v => v_name v | None => "" end) = Some name /\
      get_all "pishoo-viewer-name" (rs_headers rs) = [name] /\ get_all "cache-control" (rs_headers rs) = ["no-store"]
    else rs = next (set_visitor v rq).
Proof.
  unfold authorize. intros Ha. destruct (identify rq) as [v|] eqn:Hi; [|done]. exists v.
  apply identify_Ok in Hi as [Hi Hv]. split; [exact Hi|]. split; [exact Hv|].
  destruct (auth (auth_request rq) (v_name <$> v) (v_subject <$> v)) as [[| | |[[]| |]]|[]] eqn:Hq; try done;
    (split; [unfold auth_request in Hq; destruct (app_root rq); auto|]); by apply serve_Served.
Qed.
End access.
