(* ===== verification/Guest.v ===== *)
(** * What a running Lib may do ([src/sandbox/host.rs],
      [src/sandbox/host/http.rs], the invocations of [src/sandbox/runtime.rs])

    A Lib runs for one request or in the background.  It can ask who it is and
    who called it, sign as the identity, verify signatures of the two, and send
    requests: to the identity itself through its native router, with the
    authentication facts of the invocation, or to another identity over DHTTP.
    The component engine, the router and the transport are arguments. *)
From S2P Require Import Prelude RustStr Decimal Json Crates Errors Metadata Capabilities Setup Proxy Outbound.

(** ** Identity capabilities *)
Inductive signature_scheme := RSA_PSS_SHA512 | ECDSA_NISTP256_SHA256 | ECDSA_NISTP384_SHA384 | ED25519.
Inductive sign_answer := Signed (signature : string) | UnsupportedScheme | SigningFailed.
Inductive sign_error := InputTooLarge | SignFailed.
Inductive verify_error := VerifyTooLarge | InvalidName | VerifyFailed | Unavailable.
(** The authorities of an invocation ([StoreData]). *)
Record store_data := StoreData { sd_local : authority_; sd_remote : option authority_ }.

Section identity_host.
Context `{DhttpHome}.
Variable ski_error : list string -> string.
Variable public_key_of : authority_ -> string.
Variable sign_with : authority_ -> signature_scheme -> string -> sign_answer.

Definition identity_of (a : authority_) : result string (string * string) :=
  let? ski := ok_or (ski_error (au_certificates a)) (extract_ski (au_certificates a)) in
  Ok (au_name a, owner_hash ski).
Definition local_identity (s : store_data) : result string (string * string) := identity_of (sd_local s).
Definition caller (s : store_data) : result string (option (string * string)) :=
  match sd_remote s with
  | None => Ok None
  | Some remote => let? identity := identity_of remote in Ok (Some identity)
  end.
Definition local_name (s : store_data) : string := au_name (sd_local s).
Definition caller_name (s : store_data) : option string := au_name <$> sd_remote s.
Definition caller_is_owner (s : store_data) : bool :=
  match sd_remote s with
  | None => false
  | Some remote =>
      match normalize_name (au_name (sd_local s)), normalize_name (au_name remote) with
      | Some local_name, Some caller_name =>
          String.eqb caller_name local_name
          && match extract_ski (au_certificates (sd_local s)), extract_ski (au_certificates remote) with
             | Some local, Some remote => String.eqb (owner_hash local) (owner_hash remote)
             | _, _ => false
             end
      | _, _ => false
      end
  end.
(** The first scheme the key supports, in this order. *)
Definition SCHEMES : list signature_scheme := [RSA_PSS_SHA512; ECDSA_NISTP256_SHA256; ECDSA_NISTP384_SHA384; ED25519].
Fixpoint first_signature (a : authority_) (data : string) (schemes : list signature_scheme) : result sign_error (option string) :=
  match schemes with
  | [] => Ok None
  | scheme :: schemes =>
      match sign_with a scheme data with
      | Signed value => Ok (Some value)
      | UnsupportedScheme => first_signature a data schemes
      | SigningFailed => Err SignFailed
      end
  end.
Definition sign (s : store_data) (data : string) : result sign_error string :=
  throw InputTooLarge when slen data >? 1024 * 1024;;
  let? signature := first_signature (sd_local s) data SCHEMES in
  let? signature := ok_or SignFailed signature in
  throw SignFailed when slen signature >? 8192;;
  Ok signature.
Definition verify (s : store_data) (signature data name : string) : result verify_error bool :=
  throw VerifyTooLarge when (slen data >? 1024 * 1024) || (slen signature >? 8192);;
  let? name := ok_or InvalidName (normalize_name name) in
  if String.eqb name (au_name (sd_local s))
  then ok_or VerifyFailed (verify_signature (public_key_of (sd_local s)) data signature)
  else match sd_remote s with
       | Some remote => if String.eqb name (au_name remote)
                        then ok_or VerifyFailed (verify_signature (public_key_of remote) data signature)
                        else Err Unavailable
       | None => Err Unavailable
       end.
End identity_host.

(** ** Requests of a Lib *)
Inductive http_error :=
| HttpRequestDenied | HttpRequestUriInvalid | HttpProtocolError | ConnectionTimeout | HttpRequestBodySize
| HttpResponseTimeout | HttpResponseBodySize | InternalError (e : string) | BodyError (e : string).
Inductive net_error := RemoteIdentityChanged | OtherNet (e : string).
Definition network_error (e : net_error) : http_error :=
  match e with RemoteIdentityChanged => HttpRequestDenied | OtherNet e => InternalError e end.

(** Times are nanoseconds.  A frame of a body is polled, and ready, at some
    time; a wait for it with a deadline fails when it is ready after that. *)
Definition SECOND : Z := 1000000000.
Definition late (deadline ready : Z) : bool := deadline <? ready.
Inductive guest_frame := GuestData (bytes : string) | GuestTrailers.
Record polled (A : Type) := Polled { po_polled : Z; po_ready : Z; po_value : A }.
Arguments Polled {A}.
Arguments po_polled {A}.
Arguments po_ready {A}.
Arguments po_value {A}.
(** The frames of a body, then its end. *)
Record body := BodyOf { bo_frames : list (polled (result string guest_frame)); bo_end : polled unit }.
(** [saturating_add] on [usize] *)
Definition saturating_add (a b : Z) : Z := Z.min (a + b) (2 ^ 64 - 1).
Definition BODY_LIMIT : Z := 1024 * 1024.

(** What [Outgoing] allows, and the extensions of a request the identity's own
    handlers authenticate it by. *)
Record extensions := Extensions {
  ex_visitor : option visitor; ex_local : option authority_; ex_handshake : option handshake; ex_other : list string }.
Definition no_extensions : extensions := Extensions None None None [].
Inductive outgoing :=
| OutgoingDenied
| Granted (ep : endpoint) (layer : extensions -> extensions).   (* the api router with its layers *)
Record options := Options { connect_timeout : option Z; first_byte_timeout : option Z; between_bytes_timeout : option Z }.
Definition no_options : options := Options None None None.
Inductive contact_found := ContactFound (subject : string) | NoContact | ContactError (e : string).

(** [std::str::from_utf8] *)
Definition cont_byte (c : Z) : bool := (128 <=? c) && (c <=? 191).
Definition second_byte_ok (a b : Z) : bool :=
  if a =? 224 then (160 <=? b) && (b <=? 191)
  else if a =? 237 then (128 <=? b) && (b <=? 159)
  else if a =? 240 then (144 <=? b) && (b <=? 191)
  else if a =? 244 then (128 <=? b) && (b <=? 143)
  else cont_byte b.
Fixpoint utf8_valid (l : list Z) : bool :=
  match l with
  | [] => true
  | a :: l =>
      if a <=? 127 then utf8_valid l else
      match l with
      | [] => false
      | b :: l =>
          if (194 <=? a) && (a <=? 223) then cont_byte b && utf8_valid l else
          match l with
          | [] => false
          | c :: l =>
              if (224 <=? a) && (a <=? 239) then second_byte_ok a b && cont_byte c && utf8_valid l else
              match l with
              | [] => false
              | d :: l => (240 <=? a) && (a <=? 244) && second_byte_ok a b && cont_byte c && cont_byte d && utf8_valid l
              end
          end
      end
  end.
Definition from_utf8 (s : string) : option string := if utf8_valid (map code (bytes_of s)) then Some s else None.
(** [replace('~', to)] *)
Fixpoint replace_char (c : ascii) (to s : string) : string :=
  match s with
  | EmptyString => ""
  | String a s => if Ascii.eqb a c then to +:+ replace_char c to s else String a (replace_char c to s)
  end.

Section guest_requests.
Context `{DhttpHome, HeaderMap, UriValid}.
Definition clean_headers (h : headers) : headers :=
  let named := omap header_name_parse (tokens "connection" h) in
  remove_all ["connection"; "keep-alive"; "proxy-connection"; "proxy-authenticate"; "proxy-authorization"; "te";
              "transfer-encoding"; "upgrade"] (remove_all named h).
(** [http::uri::Authority] and [DHTTP_SUFFIX] *)
Variable authority_host : string -> string.
Variable authority_port : string -> option string.
Variable authority_parse : string -> option string.
Variable dhttp_suffix : string.

Record guest_rq := GuestRq {
  gr_method : string; gr_uri : uri_parts; gr_headers : headers; gr_extensions : extensions; gr_body : body }.
Record guest_response := GuestResponse { gs_status : Z; gs_headers : headers; gs_body : body }.
(** A request that leaves the Lib: its body as far as it was read and how that
    ended. *)
Record sent := Sent {
  sn_to_self : bool; sn_method : string; sn_uri : uri_parts; sn_headers : headers; sn_extensions : extensions;
  sn_body : list string * result http_error unit; sn_expected : option string }.

(** *** The target *)
Definition target_name (ep : endpoint) (authority : string) : result http_error string :=
  let host := if String.eqb (authority_host authority) "~" then ep_name ep
              else replace_char "~" dhttp_suffix (authority_host authority) in
  ok_or HttpRequestUriInvalid (normalize_name host).
(** The certificate sequence of a port; the identity itself is only reached
    under its own. *)
Definition target_sequence (ep : endpoint) (target port : string) : result http_error Z :=
  let? sequence := ok_or HttpRequestUriInvalid
    (match parse_u64 port with Some n => certificate_sequence n | None => None end) in
  if String.eqb target (ep_name ep) then
    let? local := map_err (fun e => network_error (OtherNet e)) (ep_local ep) in
    let? ski := ok_or HttpRequestDenied (extract_ski (au_certificates local)) in
    throw HttpRequestDenied when negb (Crates.sequence ski =? sequence);;
    Ok sequence
  else Ok sequence.
Definition address (ep : endpoint) (u : uri_parts) : result http_error (string * string * uri_parts) :=
  throw HttpRequestDenied when negb (bool_decide (scheme u = Some "https"));;
  let? authority := ok_or HttpRequestUriInvalid (authority u) in
  throw HttpRequestUriInvalid when contains_char "@" authority;;
  let? target := target_name ep authority in
  let? canonical := match authority_port authority with
                    | Some port => let? sequence := target_sequence ep target port in Ok (target +:+ ":" +:+ show_Z sequence)
                    | None => Ok target
                    end in
  let? authority := ok_or HttpRequestUriInvalid (authority_parse canonical) in
  let? uri := ok_or HttpRequestUriInvalid (uri_from_parts (UriParts (scheme u) (Some authority) (path_and_query u))) in
  Ok (target, authority, uri).

(** *** Bodies *)
(** The frames of the request: data within the deadline and the limit. *)
Fixpoint request_frames (deadline bytes : Z) (frames : list (polled (result string guest_frame))) (end_ : polled unit) :
    list string * result http_error unit :=
  match frames with
  | [] => ([], if late deadline (po_ready end_) then Err ConnectionTimeout else Ok tt)
  | f :: frames =>
      if late deadline (po_ready f) then ([], Err ConnectionTimeout) else
      match po_value f with
      | Err e => ([], Err (BodyError e))
      | Ok GuestTrailers => ([], Err HttpProtocolError)
      | Ok (GuestData data) =>
          let bytes := saturating_add bytes (slen data) in
          if bytes >? BODY_LIMIT then ([], Err HttpRequestBodySize) else
          let '(chunks, ended) := request_frames deadline bytes frames end_ in (data :: chunks, ended)
      end
  end.
(** What reaches the peer: the worker writes chunk by chunk and shuts the
    writer down only at a clean end. *)
Fixpoint upload (deadline : Z) (write : string -> polled (result string unit)) (shutdown : polled (result string unit))
    (chunks : list string) (ended : result http_error unit) : list string * result http_error unit :=
  match chunks with
  | [] =>
      ([], let? _ := ended in
           throw ConnectionTimeout when late deadline (po_ready shutdown);;
           map_err InternalError (po_value shutdown))
  | data :: chunks =>
      match (throw ConnectionTimeout when late deadline (po_ready (write data));; map_err InternalError (po_value (write data))) with
      | Err e => ([], Err e)
      | Ok _ => let '(written, r) := upload deadline write shutdown chunks ended in (data :: written, r)
      end
  end.
(** The frames of the response; trailers pass. *)
Fixpoint response_frames (deadline between bytes : Z) (frames : list (polled (result string guest_frame))) (end_ : polled unit) :
    list guest_frame * result http_error unit :=
  let limit polled := Z.min deadline (polled + between) in
  match frames with
  | [] => ([], if late (limit (po_polled end_)) (po_ready end_) then Err HttpResponseTimeout else Ok tt)
  | f :: frames =>
      if late (limit (po_polled f)) (po_ready f) then ([], Err HttpResponseTimeout) else
      match po_value f with
      | Err e => ([], Err (InternalError e))
      | Ok frame =>
          let bytes := match frame with GuestData data => saturating_add bytes (slen data) | GuestTrailers => bytes end in
          if bytes >? BODY_LIMIT then ([], Err HttpResponseBodySize) else
          let '(rest, ended) := response_frames deadline between bytes frames end_ in (frame :: rest, ended)
      end
  end.

(** *** [send_request] *)
(** The router of the identity, the contacts, the connection and the answer of
    the peer, and the clock where a deadline is computed. *)
Variable api : sent -> polled guest_response.
Variable find_contact_by_name : string -> contact_found.
Variable connect : sent -> polled (result net_error unit).
Variable respond : sent -> polled (result net_error guest_response).

Definition duration (configured : option Z) (limit : Z) : Z := Z.min (default (600 * SECOND) configured) limit.
Definition phase_deadline (deadline now : Z) (configured : option Z) : Z := Z.min deadline (now + duration configured (300 * SECOND)).
Definition request_deadline (now : Z) (h : headers) : Z :=
  now + (if bool_decide (get_header "if-reviewed" h = Some "waiting") then 300 else 15) * SECOND.
(** The target, the authority and the request as the Lib hands it over. *)
Definition prepare (ep : endpoint) (rq : guest_rq) : result http_error (string * string * guest_rq) :=
  let? (target, authority, uri) := address ep (gr_uri rq) in
  throw HttpProtocolError when contains_key "trailer" (gr_headers rq);;
  Ok (target, authority, GuestRq (gr_method rq) uri (clean_headers (gr_headers rq)) no_extensions (gr_body rq)).
(** The subject on record for the target, and the owner hash it stands for. *)
Definition contact_subject (target : string) : result http_error (option string) :=
  match find_contact_by_name target with
  | ContactFound subject => Ok (Some subject)
  | NoContact => Ok None
  | ContactError e => Err (InternalError e)
  end.
Definition expected_owner (subject : option string) : result http_error (option string) :=
  match subject with
  | Some subject =>
      let? owner := ok_or HttpRequestDenied
        (match from_utf8 subject with Some hash => if owner_hash_ok hash then Some hash else None | None => None end) in
      Ok (Some owner)
  | None => Ok None
  end.
Definition to_self (layer : extensions -> extensions) (opts : options) (deadline now : Z) (rq : guest_rq) :
    option sent * result http_error guest_response :=
  let s := Sent true (gr_method rq) (gr_uri rq) (gr_headers rq) (layer (gr_extensions rq))
             (request_frames deadline 0 (bo_frames (gr_body rq)) (bo_end (gr_body rq))) None in
  (Some s, if late (phase_deadline deadline now (first_byte_timeout opts)) (po_ready (api s))
           then Err ConnectionTimeout else Ok (po_value (api s))).
Definition to_peer (target authority : string) (opts : options) (deadline connecting : Z) (rq : guest_rq) :
    option sent * result http_error guest_response :=
  match (let? subject := contact_subject target in
         let? host := ok_or HttpRequestUriInvalid (header_value_parse authority) in
         let? expected := expected_owner subject in
         Ok (expected, host)) with
  | Err e => (None, Err e)
  | Ok (expected, host) =>
      let s := Sent false (gr_method rq) (gr_uri rq) (insert_header "host" host (gr_headers rq)) (gr_extensions rq)
                 (request_frames deadline 0 (bo_frames (gr_body rq)) (bo_end (gr_body rq))) expected in
      (Some s,
       throw ConnectionTimeout when late (phase_deadline deadline connecting (connect_timeout opts)) (po_ready (connect s));;
       let? _ := map_err network_error (po_value (connect s)) in
       throw ConnectionTimeout when
         late (phase_deadline deadline (po_ready (connect s)) (first_byte_timeout opts)) (po_ready (respond s));;
       map_err network_error (po_value (respond s)))
  end.
(** What is sent, and the response with the frames the Lib reads. *)
Definition send_request (o : outgoing) (opts : option options) (now sending : Z) (rq : guest_rq) :
    option sent * result http_error (Z * headers * (list guest_frame * result http_error unit)) :=
  match o with
  | OutgoingDenied => (None, Err HttpRequestDenied)
  | Granted ep layer =>
      let opts := default no_options opts in
      match prepare ep rq with
      | Err e => (None, Err e)
      | Ok (target, authority, rq) =>
          let deadline := request_deadline now (gr_headers rq) in
          let '(s, response) := if String.eqb target (ep_name ep) then to_self layer opts deadline sending rq
                                else to_peer target authority opts deadline sending rq in
          (s, let? rs := response in
              let between := Z.min (default (15 * SECOND) (between_bytes_timeout opts)) (15 * SECOND) in
              Ok (gs_status rs, clean_headers (gs_headers rs),
                  response_frames deadline between 0 (bo_frames (gs_body rs)) (bo_end (gs_body rs))))
      end
  end.
End guest_requests.

(** ** Invocations *)
Section invocations.
Context `{DhttpHome}.
Record invocation := Invocation { iv_local : authority_; iv_remote : option authority_; iv_outgoing : outgoing }.

Definition owner_hash_of (e : error) (a : authority_) : Result string :=
  let? ski := ok_or e (extract_ski (au_certificates a)) in Ok (owner_hash ski).
Definition check_endpoint (actual granted : endpoint) : Result unit :=
  throw IdentityMismatch when negb (String.eqb (ep_name actual) (ep_name granted));;
  let? actual := map_err Dhttp (ep_local actual) in
  let? granted := map_err Dhttp (ep_local granted) in
  let? actual := owner_hash_of (InvalidIdentity "invalid execution owner") actual in
  let? granted := owner_hash_of (InvalidIdentity "invalid outgoing owner") granted in
  throw IdentityMismatch when negb (String.eqb actual granted);;
  Ok tt.
(** The layers that authenticate the Lib's own requests: as the handshake it is
    called under, or as the identity itself in the background. *)
Definition as_handshake (hs : handshake) (e : extensions) : extensions :=
  Extensions None None (Some hs) (ex_other e).
Definition as_local (local : authority_) (e : extensions) : extensions :=
  Extensions None (Some local) None (ex_other e).
Definition new_invocation (ep : endpoint) (hs : handshake) (o : outgoing) : Result invocation :=
  let? local := ok_or MissingHandshake (hs_local hs) in
  throw IdentityMismatch when negb (String.eqb (au_name local) (ep_name ep));;
  let? o := match o with
            | Granted granted layer =>
                let? _ := check_endpoint ep granted in
                let? actual := map_err Dhttp (ep_local ep) in
                let? actual := owner_hash_of (InvalidIdentity "invalid execution owner") actual in
                let? invoked := owner_hash_of (InvalidIdentity "invalid invocation owner") local in
                throw IdentityMismatch when negb (String.eqb actual invoked);;
                Ok (Granted granted (fun e => layer (as_handshake hs e)))
            | OutgoingDenied => Ok OutgoingDenied
            end in
  Ok (Invocation local (hs_remote hs) o).
Definition background (ep : endpoint) (o : outgoing) : Result invocation :=
  let? local := map_err Dhttp (ep_local ep) in
  let? o := match o with
            | Granted granted layer => let? _ := check_endpoint ep granted in Ok (Granted granted (fun e => layer (as_local local e)))
            | OutgoingDenied => Ok OutgoingDenied
            end in
  Ok (Invocation local None o).
Definition data_of (iv : invocation) : store_data := StoreData (iv_local iv) (iv_remote iv).

(** The end of a task: its result, or the text of a panic or cancellation. *)
Definition task_end (task : result string (Result unit)) : Result unit :=
  let? r := map_err Task task in r.
(** [execute]: the response the guest set, unless it ended without one. *)
Definition execute {A} (set : option (result string A)) (task : result string (Result unit)) : Result A :=
  match set with
  | Some response => map_err GuestRejectedResponse response
  | None => let? _ := task_end task in Err GuestExitedWithoutResponse
  end.
(** [run]: the end of the task within 15 seconds. *)
Definition run_background (started : Z) (task : polled (result string (Result unit))) : Result unit :=
  if late (started + 15 * SECOND) (po_ready task) then Err Deadline else task_end (po_value task).

(** [Sandbox::run]: the Libs that export [wasi:cli/run], by id. *)
Definition RUN : string := "wasi:cli/run@0.2.".
Definition background_libs (closed : bool) (libs : gmap string (list string)) : list string :=
  if closed then []
  else sort_by String.leb (filter (fun e => existsb (starts_with RUN) (snd e) = true) (map_to_list libs)).*1.
End invocations.

(** ** Properties *)
Section identity_facts.
Context `{DhttpHome}.
Variable public_key_of : authority_ -> string.

(** A Lib can only check signatures of the two identities of its invocation, over data and signatures
    within the limits, with the public key of the certificate chain it was called under. *)
Theorem verify_known s signature data name b :
  verify public_key_of s signature data name = Ok b ->
  slen data <= 1024 * 1024 /\ slen signature <= 8192 /\
  exists n a, normalize_name name = Some n /\ (a = sd_local s \/ sd_remote s = Some a) /\ au_name a = n /\
    verify_signature (public_key_of a) data signature = Some b.
Proof.
  unfold verify. intros Hv. simplify_ok. simplify_bool. split_and!; [lia..|].
  match goal with Hn : normalize_name name = Some ?n |- _ => rename n into norm; exists norm end.
  destruct (String.eqb_spec norm (au_name (sd_local s))) as [He|_]; [exists (sd_local s); simplify_ok; auto|].
  destruct (sd_remote s) as [remote|]; [|done]. destruct (String.eqb_spec norm (au_name remote)); [|done]. exists remote. simplify_ok. auto.
Qed.
End identity_facts.

Section request_facts.
Context `{DhttpHome, HeaderMap, UriValid, !HeaderLaws}.
Variable authority_host : string -> string.
Variable authority_port : string -> option string.
Variable authority_parse : string -> option string.
Variable dhttp_suffix : string.
Variable api : sent -> polled guest_response.
Variable find_contact_by_name : string -> contact_found.
Variable connect : sent -> polled (result net_error unit).
Variable respond : sent -> polled (result net_error guest_response).
Local Abbreviation send_request :=
  (send_request authority_host authority_port authority_parse dhttp_suffix api find_contact_by_name connect respond).

(** *** Bodies stay within the limit *)
Definition total (chunks : list string) : Z := foldr (fun c n => slen c + n) 0 chunks.
Definition data_of_frame (f : guest_frame) : string := match f with GuestData data => data | GuestTrailers => "" end.
Lemma total_cons c chunks : total (c :: chunks) = slen c + total chunks.
Proof. done. Qed.
Lemma saturating_limit a b : (saturating_add a b >? BODY_LIMIT) = false -> saturating_add a b = a + b /\ a + b <= BODY_LIMIT.
Proof. unfold saturating_add, BODY_LIMIT. change (2 ^ 64 - 1) with 18446744073709551615. rewrite Z.gtb_ltb, Z.ltb_ge. lia. Qed.
Lemma request_frames_bounded deadline bytes frames e chunks ended :
  bytes <= BODY_LIMIT -> request_frames deadline bytes frames e = (chunks, ended) -> bytes + total chunks <= BODY_LIMIT.
Proof.
  revert bytes chunks ended. induction frames as [|f frames IH]; intros bytes chunks ended Hb Hr; cbn in Hr; [injection Hr as <- _; cbn; lia|].
  destruct (late _ _); [injection Hr as <- _; cbn; lia|]. destruct (po_value f) as [[data|]|]; [|injection Hr as <- _; cbn; lia..].
  destruct (_ >? _) eqn:Hl; [injection Hr as <- _; cbn; lia|]. apply saturating_limit in Hl as [He Hl]. rewrite He in Hr.
  destruct (request_frames deadline (bytes + slen data) frames e) as [rest ended'] eqn:Hf. injection Hr as <- _.
  apply IH in Hf; [|done]. rewrite total_cons. lia.
Qed.
Lemma response_frames_bounded deadline between bytes frames e out ended :
  bytes <= BODY_LIMIT -> response_frames deadline between bytes frames e = (out, ended) ->
  bytes + total (map data_of_frame out) <= BODY_LIMIT.
Proof.
  revert bytes out ended. induction frames as [|f frames IH]; intros bytes out ended Hb Hr; cbn in Hr; [injection Hr as <- _; cbn; lia|].
  destruct (late _ _); [injection Hr as <- _; cbn; lia|]. destruct (po_value f) as [frame|]; [|injection Hr as <- _; cbn; lia].
  destruct frame as [data|].
  - destruct (_ >? _) eqn:Hl; [injection Hr as <- _; cbn; lia|]. apply saturating_limit in Hl as [He Hl]. rewrite He in Hr.
    destruct (response_frames deadline between (bytes + slen data) frames e) as [rest ended'] eqn:Hf. injection Hr as <- _.
    apply IH in Hf; [|done]. cbn [map data_of_frame]. rewrite total_cons. lia.
  - destruct (_ >? _); [injection Hr as <- _; cbn; lia|].
    destruct (response_frames deadline between bytes frames e) as [rest ended'] eqn:Hf. injection Hr as <- _.
    apply IH in Hf; [|done]. cbn [map data_of_frame]. rewrite total_cons. change (slen "") with 0. lia.
Qed.
(** What the worker writes is the beginning of the chunks, and it shuts the
    writer down cleanly only after all of them and a clean end. *)
Lemma upload_prefix deadline write shutdown chunks ended written r :
  upload deadline write shutdown chunks ended = (written, r) ->
  exists rest, chunks = written ++ rest /\ (r = Ok tt -> rest = [] /\ ended = Ok tt).
Proof.
  revert written r. induction chunks as [|c chunks IH]; intros written r Hu; cbn in Hu.
  - injection Hu as <- <-. exists []. split; [done|]. intros Hr. simplify_ok. split; [done|]. by repeat match goal with x : unit |- _ => destruct x end.
  - destruct (if late _ _ then _ else _) as [[]|]; [|injection Hu as <- <-; by exists (c :: chunks)].
    destruct (upload deadline write shutdown chunks ended) as [w r'] eqn:Hr. injection Hu as <- <-.
    destruct (IH _ _ eq_refl) as (rest & -> & Hc). by exists rest.
Qed.

(** *** What a request amounts to *)
(** The same headers as the proxy removes. *)
Lemma clean_headers_hop h : clean_headers h = clean_hop_headers h.
Proof. done. Qed.
Definition hop (h : headers) (n : string) : bool := existsb (String.eqb n) (HOP_HEADERS ++ named_hop h).
(** The authority of the request that is sent: the name, with the certificate
    sequence the port stands for if one was given, which is the identity's own
    when it is the target. *)
Definition sent_authority (ep : endpoint) (target a canonical : string) : Prop :=
  match authority_port a with
  | Some port => exists n sequence, parse_u64 port = Some n /\ certificate_sequence n = Some sequence /\
      authority_parse (target +:+ ":" +:+ show_Z sequence) = Some canonical /\
      (target = ep_name ep -> exists local ski, ep_local ep = Ok local /\ extract_ski (au_certificates local) = Some ski /\ Crates.sequence ski = sequence)
  | None => authority_parse target = Some canonical
  end.
Lemma address_Ok ep u target canonical uri :
  address authority_host authority_port authority_parse dhttp_suffix ep u = Ok (target, canonical, uri) ->
  scheme u = Some "https" /\ uri_from_parts (UriParts (Some "https") (Some canonical) (path_and_query u)) = Some uri /\
  exists a, authority u = Some a /\ contains_char "@" a = false /\
    target_name authority_host dhttp_suffix ep a = Ok target /\ sent_authority ep target a canonical.
Proof.
  unfold address, sent_authority. intros Ha. simplify_ok. simplify_bool. split; [done|]. split; [congruence|].
  match goal with |- exists _, Some ?x = _ /\ _ => exists x; destruct (authority_port x) as [port|] end; split_and!; try done.
  - unfold target_sequence in *. destruct (String.eqb_spec target (ep_name ep)); simplify_ok; simplify_bool; eauto 12.
    all: do 2 eexists; split_and!; [done..|]; intros ?; first [done|eauto].
  - simplify_ok. congruence.
Qed.
Lemma prepare_request_Ok ep rq target canonical rq' :
  prepare authority_host authority_port authority_parse dhttp_suffix ep rq = Ok (target, canonical, rq') ->
  (exists uri, address authority_host authority_port authority_parse dhttp_suffix ep (gr_uri rq) = Ok (target, canonical, uri) /\ gr_uri rq' = uri) /\
  get_all "trailer" (gr_headers rq) = [] /\ gr_headers rq' = clean_headers (gr_headers rq) /\ gr_extensions rq' = no_extensions /\
  gr_method rq' = gr_method rq.
Proof.
  unfold prepare, contains_key. intros Hp. destruct (address _ _ _ _ ep (gr_uri rq)) as [[[t c] uri]|e]; [|done]. cbn in Hp.
  destruct (get_all "trailer" (gr_headers rq)); [|done]. injection Hp as <- <- <-. split_and!; eauto.
Qed.
Lemma expected_owner_Ok subject expected : expected_owner subject = Ok expected -> expected = subject.
Proof. unfold expected_owner, from_utf8. intros He. destruct subject; simplify_ok; [|done]. by repeat (case_match; simplify_eq). Qed.
(** A request that left the Lib. *)
Lemma send_request_sent ep layer opts now sending rq s r :
  send_request (Granted ep layer) opts now sending rq = (Some s, r) ->
  exists target canonical rq', prepare authority_host authority_port authority_parse dhttp_suffix ep rq = Ok (target, canonical, rq') /\
    sn_uri s = gr_uri rq' /\ sn_method s = gr_method rq' /\ total (sn_body s).1 <= BODY_LIMIT /\
    if String.eqb target (ep_name ep)
    then sn_to_self s = true /\ sn_headers s = gr_headers rq' /\ sn_extensions s = layer no_extensions /\ sn_expected s = None
    else sn_to_self s = false /\ sn_extensions s = no_extensions /\
      exists host, header_value_parse canonical = Some host /\ sn_headers s = insert_header "host" host (gr_headers rq') /\
      match find_contact_by_name target with
      | ContactFound subject => sn_expected s = Some subject
      | NoContact => sn_expected s = None
      | ContactError _ => False
      end.
Proof.
  unfold Guest.send_request. destruct (prepare _ _ _ _ ep rq) as [[[target canonical] rq']|e] eqn:Hp; [|done].
  pose proof (prepare_request_Ok _ _ _ _ _ Hp) as (_ & _ & _ & Hext & _). intros Hs. exists target, canonical, rq'. split; [done|].
  assert (forall d, total (request_frames d 0 (bo_frames (gr_body rq')) (bo_end (gr_body rq'))).1 <= BODY_LIMIT) as Hb.
  { intros d. destruct (request_frames d 0 _ _) as [chunks ended] eqn:Hf. apply request_frames_bounded in Hf; [cbn [fst]; lia|by unfold BODY_LIMIT]. }
  destruct (String.eqb target (ep_name ep)).
  - unfold to_self in Hs. injection Hs as <- _. cbn. rewrite Hext. by split_and!.
  - unfold to_peer in Hs. destruct (let? _ := contact_subject _ _ in _) as [[expected host]|e] eqn:He; [|done].
    injection Hs as <- _. cbn. rewrite Hext. split_and!; [done..|]. unfold contact_subject in He. simplify_ok.
    match goal with Ho : expected_owner _ = Ok _ |- _ => apply expected_owner_Ok in Ho end. exists host. split_and!; [done..|].
    destruct (find_contact_by_name target); simplify_ok; congruence.
Qed.
(** C5: A request that leaves a Lib called for a visitor is sent to an https URI that consists of the
    normalised name of the target the Lib gave, followed by the certificate sequence its port stands for
    if it gave one (for the identity itself only its own), and the path and query the Lib gave; it names
    no user, has the Lib's method, and carries no hop-by-hop header, no trailer and at most 1 MiB. To
    the identity itself it carries the authentication facts of the handshake the Lib was called under,
    and nothing the Lib put there; to another identity it carries no authentication facts at all and
    expects the owner on record for that contact. *)
Theorem guest_requests_confined ep hs granted layer iv opts now sending rq s r :
  new_invocation ep hs (Granted granted layer) = Ok iv ->
  send_request (iv_outgoing iv) opts now sending rq = (Some s, r) ->
  exists local a target canonical,
    hs_local hs = Some local /\ au_name local = ep_name ep /\ ep_name granted = ep_name ep /\
    scheme (gr_uri rq) = Some "https" /\ authority (gr_uri rq) = Some a /\ contains_char "@" a = false /\
    target_name authority_host dhttp_suffix granted a = Ok target /\ sent_authority granted target a canonical /\
    uri_from_parts (UriParts (Some "https") (Some canonical) (path_and_query (gr_uri rq))) = Some (sn_uri s) /\
    sn_method s = gr_method rq /\
    get_all "trailer" (gr_headers rq) = [] /\
    (forall n, hop (gr_headers rq) n = true -> n <> "host" -> get_all n (sn_headers s) = []) /\
    total (sn_body s).1 <= BODY_LIMIT /\
    if String.eqb target (ep_name ep)
    then sn_to_self s = true /\ sn_extensions s = layer (Extensions None None (Some hs) [])
    else sn_to_self s = false /\ sn_extensions s = no_extensions /\ get_header "host" (sn_headers s) = header_value_parse canonical /\
      match find_contact_by_name target with
      | ContactFound subject => sn_expected s = Some subject
      | NoContact => sn_expected s = None
      | ContactError _ => False
      end.
Proof.
  intros Hi Hs. unfold new_invocation in Hi. simplify_ok. simplify_bool. cbn [iv_outgoing] in Hs.
  match goal with Hc : check_endpoint _ _ = Ok _ |- _ => unfold check_endpoint in Hc end. simplify_ok. simplify_bool.
  apply send_request_sent in Hs as (target & canonical & rq' & Hp & Huri & Hm & Hb & Hcase).
  apply prepare_request_Ok in Hp as ((uri & Ha & Hu) & Ht & Hh & _ & Hm'). apply address_Ok in Ha as (Hsch & Hfrom & au & Hau & Hat & Htn & Hsent).
  rewrite Hm' in Hm. rewrite Hu in Huri. rewrite <- Huri in Hfrom.
  match goal with Hl : hs_local hs = Some ?l |- _ => exists l, au, target, canonical end.
  match goal with Hn : ep_name ep = ep_name granted |- _ => rewrite Hn in * end.
  assert (forall n, hop (gr_headers rq) n = true -> get_all n (gr_headers rq') = []) as Hhop.
  { intros n Hn. rewrite Hh, clean_headers_hop, clean_hop_headers_get. unfold hop in Hn. by rewrite Hn. }
  destruct (String.eqb target (ep_name granted)).
  - destruct Hcase as (Hself & Hhd & Hext & _). split_and!; try done. intros n Hn _. rewrite Hhd. by apply Hhop.
  - destruct Hcase as (Hself & Hext & host & Hhost & Hhd & Hexp). split_and!; try done.
    + intros n Hn Hne. rewrite Hhd, get_all_insert. destruct (String.eqb_spec n "host"); [done|]. by apply Hhop.
    + unfold get_header. by rewrite Hhd, get_all_insert, String.eqb_refl.
Qed.
(** A response reaches the Lib with at most 1 MiB of data and without hop-by-hop headers. *)
Theorem guest_response_bounded o opts now sending rq s status h frames ended :
  send_request o opts now sending rq = (s, Ok (status, h, (frames, ended))) ->
  total (map data_of_frame frames) <= BODY_LIMIT /\ (forall n, mem n HOP_HEADERS = true -> get_all n h = []).
Proof.
  unfold Guest.send_request. destruct o as [|ep layer]; [done|]. destruct (prepare _ _ _ _ ep rq) as [[[target canonical] rq']|]; [|done].
  intros Hs. match type of Hs with (let '(_, _) := ?a in _) = _ => destruct a as [s0 response] end. injection Hs as -> Hs. simplify_ok. split.
  - match goal with Hf : response_frames _ _ _ _ _ = _ |- _ => apply response_frames_bounded in Hf; [lia|by unfold BODY_LIMIT] end.
  - intros n Hn. rewrite clean_headers_hop, clean_hop_headers_get, existsb_app. apply mem_true in Hn.
    replace (existsb (String.eqb n) HOP_HEADERS) with true; [done|]. symmetry. apply existsb_exists. exists n.
    split; [by apply list_elem_of_In|apply String.eqb_refl].
Qed.
End request_facts.
