(* ===== verification/ContactStore.v ===== *)
(** * The outbound contact requests ([src/contact/storage.rs] and the statements
      of [src/contact.rs] and [src/contact/delivery.rs])

    The table [outbound_contact_request] with its constraints and every
    statement on it: submission, expiry, the lease of a delivery and its
    outcome, cancellation by a deletion and its undoing.  The clock readings of
    a statement are arguments. *)
From S2P Require Import Prelude RustStr Decimal Json Crates Errors.

(** ** Failures: a status and a message *)
Definition Failure : Type := Z * string.
Abbreviation ContactResult := (result Failure).
Definition fail (status : Z) (message : string) : Failure := (status, message).
Definition storage (kind : sqlite_kind) (text : string) : Failure :=
  fail (match kind with DatabaseBusy | DatabaseLocked => 503 | _ => 500 end) ("contact storage: " +:+ text).
(** [string(value, key)] *)
Definition text_of (value : json) (key : string) : ContactResult string :=
  ok_or (fail 400 ("invalid " +:+ key)) (as_str value.[key]).

(** ** The table *)
Record pending_review := PendingReview { review_id : Z; review_subject : string; review_method : string; review_path : string }.
(** The columns that are written once. *)
Record draft := Draft {
  target_name : string; description : string;
  requested_capabilities : string; offered_capabilities : string;     (* JSON texts *)
  application_id : option string;
  requested_access : option string; offers : option string;
  delivery_deadline : Z; created_at : Z }.
(** A row; the four review columns are written together. *)
Record outbound := Outbound {
  ob_draft : draft;
  ob_contact_id : option Z; ob_contact_subject : option string;
  ob_status : string; ob_expired_after : Z; ob_remote_expired_after : option Z;
  ob_next_attempt_at : Z; ob_attempt_count : Z; ob_lease_until : option Z;
  ob_review : option pending_review;
  ob_last_checked_at : option Z; ob_error_message : option string; ob_updated_at : Z }.
(** The rows by id; ids are never used again ([AUTOINCREMENT]). *)
Record table := Table { rows : gmap Z outbound; sequence : Z }.
Definition target (o : outbound) : string := target_name (ob_draft o).
Definition STATUSES : list string := ["queued"; "pending"; "active"; "denied"; "expired"; "failed"; "revoked"].
(** The condition of the partial unique index; what may be delivered. *)
Definition open_status (s : string) : bool := mem s ["queued"; "pending"].
Definition live_status (s : string) : bool := mem s ["queued"; "pending"; "active"].

Definition set_contact (id : Z) (subject : string) (o : outbound) : outbound :=
  Outbound (ob_draft o) (Some id) (Some subject) (ob_status o) (ob_expired_after o) (ob_remote_expired_after o)
    (ob_next_attempt_at o) (ob_attempt_count o) (ob_lease_until o) (ob_review o) (ob_last_checked_at o) (ob_error_message o) (ob_updated_at o).
Definition set_status (status : string) (updated : Z) (o : outbound) : outbound :=
  Outbound (ob_draft o) (ob_contact_id o) (ob_contact_subject o) status (ob_expired_after o) (ob_remote_expired_after o)
    (ob_next_attempt_at o) (ob_attempt_count o) (ob_lease_until o) (ob_review o) (ob_last_checked_at o) (ob_error_message o) updated.
Definition set_lease (lease : option Z) (o : outbound) : outbound :=
  Outbound (ob_draft o) (ob_contact_id o) (ob_contact_subject o) (ob_status o) (ob_expired_after o) (ob_remote_expired_after o)
    (ob_next_attempt_at o) (ob_attempt_count o) lease (ob_review o) (ob_last_checked_at o) (ob_error_message o) (ob_updated_at o).
Definition set_review (review : option pending_review) (o : outbound) : outbound :=
  Outbound (ob_draft o) (ob_contact_id o) (ob_contact_subject o) (ob_status o) (ob_expired_after o) (ob_remote_expired_after o)
    (ob_next_attempt_at o) (ob_attempt_count o) (ob_lease_until o) review (ob_last_checked_at o) (ob_error_message o) (ob_updated_at o).
Definition set_error (message : option string) (o : outbound) : outbound :=
  Outbound (ob_draft o) (ob_contact_id o) (ob_contact_subject o) (ob_status o) (ob_expired_after o) (ob_remote_expired_after o)
    (ob_next_attempt_at o) (ob_attempt_count o) (ob_lease_until o) (ob_review o) (ob_last_checked_at o) message (ob_updated_at o).

Section contact_store.
Context `{SerdeJson}.
(** The texts of SQLite for a violated constraint, of rusqlite for a column
    without a text. *)
Variable constraint_text column_text : string.

(** *** Constraints *)
Definition rowid_leb (a b : Z * outbound) : bool := fst a <=? fst b.
Definition by_id (t : table) : list (Z * outbound) := sort_by rowid_leb (map_to_list (rows t)).
Definition clashes (id : Z) (o : outbound) (t : table) : bool :=
  open_status (ob_status o)
  && existsb (fun e => negb (fst e =? id) && open_status (ob_status (snd e)) && String.eqb (target (snd e)) (target o)) (by_id t).
Definition is_json_array (text : string) : bool := match from_slice text with Some (JArr _) => true | _ => false end.
Definition is_json_object (text : string) : bool := match from_slice text with Some (JObj _) => true | _ => false end.
Definition draft_checked (d : draft) : bool :=
  negb (String.eqb (target_name d) "") && Nat.leb (length (chars (description d))) 80
  && is_json_array (requested_capabilities d) && is_json_array (offered_capabilities d)
  && match application_id d with Some a => Nat.eqb (length (chars a)) 64 | None => true end
  && match requested_access d with Some a => is_json_object a | None => true end
  && match offers d with Some a => is_json_object a | None => true end.
Definition update_row (id : Z) (o : outbound) (t : table) : ContactResult table :=
  throw (storage ConstraintViolation constraint_text) when negb (mem (ob_status o) STATUSES) || clashes id o t;;
  Ok (Table (<[id := o]> (rows t)) (sequence t)).
Definition insert_row (o : outbound) (t : table) : ContactResult (table * Z) :=
  let id := sequence t + 1 in
  throw (storage ConstraintViolation constraint_text) when
    negb (draft_checked (ob_draft o)) || negb (mem (ob_status o) STATUSES) || clashes id o t
    || existsb (fun e => bool_decide (is_Some (application_id (ob_draft o)))
                         && bool_decide (application_id (ob_draft (snd e)) = application_id (ob_draft o))) (by_id t);;
  Ok (Table (<[id := o]> (rows t)) id, id).

(** *** [expire_requests] *)
Definition expire_row (now : Z) (o : outbound) : outbound :=
  if open_status (ob_status o) && (ob_expired_after o <=? now)
  then set_error (Some "contact request expired")
         (set_lease None (set_status (if String.eqb (ob_status o) "queued" then "failed" else "expired") now o))
  else o.
Definition expire_requests (now : Z) (t : table) : table := Table (expire_row now <$> rows t) (sequence t).

(** *** Submission ([dispatch], POST) *)
Definition new_outbound (doc : json) (application : ContactResult string) (time : Z) : ContactResult outbound :=
  let? target := text_of doc "target_name" in
  let? description := text_of doc "description" in
  let? application := application in
  (* NOT NULL *)
  let? valid_before := ok_or (storage ConstraintViolation constraint_text) (as_i64 doc.["valid_before"]) in
  Ok (Outbound (Draft target description (to_json_string doc.["requested_capabilities"]) (to_json_string doc.["offered_capabilities"])
                  (Some application) (Some (to_json_string doc.["_requested_access"])) (Some (to_json_string doc.["_offers"]))
                  valid_before time)
        (as_i64 doc.["contact_id"]) (as_str doc.["contact_subject"]) "queued" valid_before None time 0 None None None None time).
Definition submit (expired_at time : Z) (doc : json) (application : ContactResult string) (t : table) : table * ContactResult Z :=
  let t := expire_requests expired_at t in
  match (let? target_name := text_of doc "target_name" in
         throw (fail 409 "contact request already pending") when
           existsb (fun e => String.eqb (target (snd e)) target_name && open_status (ob_status (snd e))) (by_id t);;
         let? o := new_outbound doc application time in
         insert_row o t) with
  | Ok (t, id) => (t, Ok id)
  | Err e => (t, Err e)
  end.

(** *** Delivery ([deliver]) *)
Definition due (now : Z) (o : outbound) : bool :=
  live_status (ob_status o) && (ob_next_attempt_at o <=? now)
  && (String.eqb (ob_status o) "active" || (now <? ob_expired_after o))
  && match ob_lease_until o with Some lease => lease <=? now | None => true end.
Definition job_leb (a b : Z * outbound) : bool :=
  if ob_next_attempt_at (snd a) =? ob_next_attempt_at (snd b) then fst a <=? fst b
  else ob_next_attempt_at (snd a) <=? ob_next_attempt_at (snd b).
Definition select_job (now : Z) (t : table) : option (Z * outbound) :=
  head (sort_by job_leb (filter (fun e => due now (snd e) = true) (map_to_list (rows t)))).
(** The job to deliver and its lease; the clock is read for the expiry, for the
    selection and for the lease. *)
Definition claim (expired_at selected_at leased_at : Z) (t : table) : table * ContactResult (option (Z * outbound) * Z) :=
  let expired := expire_requests expired_at t in
  let lease := leased_at + 120 in
  match select_job selected_at expired with
  | None => (expired, Ok (None, lease))
  | Some (id, o) =>
      match application_id (ob_draft o) with
      | None => (t, Err (storage OtherSqlite column_text))
      | Some _ => (Table (<[id := set_lease (Some lease) o]> (rows expired)) (sequence t), Ok (Some (id, o), lease))
      end
  end.
(** The row under the lease of a delivery. *)
Definition leased (id lease : Z) (t : table) : option outbound :=
  match rows t !! id with
  | Some o => if bool_decide (ob_lease_until o = Some lease) then Some o else None
  | None => None
  end.
(** [contact_id IS NULL] *)
Definition bind_contact (id lease contact_id : Z) (subject : string) (t : table) : table :=
  match leased id lease t with
  | Some o => if bool_decide (ob_contact_id o = None)
              then Table (<[id := set_contact contact_id subject o]> (rows t)) (sequence t) else t
  | None => t
  end.
(** The outcome of a delivery. *)
Definition received (receipt : json) (checked_at next_from : Z) (o : outbound) : ContactResult outbound :=
  let? status := text_of receipt "status" in
  let? valid_before := ok_or (fail 500 "panicked") (as_i64 receipt.["valid_before"]) in
  Ok (Outbound (ob_draft o) (ob_contact_id o) (ob_contact_subject o) status
        (if String.eqb status "pending" then Z.min (delivery_deadline (ob_draft o)) valid_before else ob_expired_after o)
        (Some valid_before) (next_from + (if String.eqb status "active" then 30 else 3)) (ob_attempt_count o + 1) None
        (ob_review o) (Some checked_at) None checked_at).
Definition rejected (e : Failure) (checked_at next_from : Z) (o : outbound) : outbound :=
  let '(code, message) := e in
  let reviewing := String.eqb message "need_review" in
  let final := negb reviewing && existsb (Z.eqb code) [400; 403; 404; 409; 410] in
  Outbound (ob_draft o) (ob_contact_id o) (ob_contact_subject o) (if final then "failed" else ob_status o)
    (ob_expired_after o) (ob_remote_expired_after o) (next_from + (if reviewing then 30 else 5))
    (ob_attempt_count o + if reviewing then 0 else 1) None (ob_review o) (Some checked_at) (Some message) checked_at.
Definition finish (id lease : Z) (review : option pending_review) (outcome : ContactResult json) (checked_at next_from : Z)
    (t : table) : table * ContactResult unit :=
  match leased id lease t with
  | None => (t, Ok tt)
  | Some o =>
      let o := set_review review o in
      match (let? o := match outcome with
                       | Ok receipt => received receipt checked_at next_from o
                       | Err e => Ok (rejected e checked_at next_from o)
                       end in
             update_row id o t) with
      | Ok t => (t, Ok tt)
      | Err e => (t, Err e)
      end
  end.

(** *** Cancellation ([dispatch], DELETE) *)
(** A name with the readings of the clock for its check and its update; what
    was revoked is remembered with its status and time. *)
Definition revoke_row (name : string) (time : Z) (o : outbound) : outbound :=
  if String.eqb (target o) name then set_lease None (set_status "revoked" time o) else o.
Definition cancel_one (st : table * list (Z * string * Z)) (item : string * Z * Z) : ContactResult (table * list (Z * string * Z)) :=
  let '(t, previous) := st in
  let '(name, checked_at, time) := item in
  let found := filter (fun e => target (snd e) = name /\ ob_status (snd e) <> "revoked") (by_id t) in
  throw (fail 409 "contact delivery is in progress; retry deletion") when
    existsb (fun e => match ob_lease_until (snd e) with Some lease => checked_at <? lease | None => false end) found;;
  Ok (Table (revoke_row name time <$> rows t) (sequence t),
      previous ++ map (fun e => (fst e, ob_status (snd e), ob_updated_at (snd e))) found).
Definition cancel (items : list (string * Z * Z)) (t : table) : ContactResult (table * list (Z * string * Z)) :=
  try_fold cancel_one (t, []) items.
(** The contacts could not be deleted: the requests are put back. *)
Definition restore_one (t : table) (entry : Z * string * Z) : ContactResult table :=
  let '(id, status, updated) := entry in
  match rows t !! id with
  | Some o => if String.eqb (ob_status o) "revoked" then update_row id (set_status status updated o) t else Ok t
  | None => Ok t
  end.
Definition restore (previous : list (Z * string * Z)) (t : table) : ContactResult table := try_fold restore_one t previous.

(** *** Reading ([outbound_request], the drafts of a GET) *)
Definition json_column (text : string) : json := default JNull (from_slice text).
Definition outbound_request (id : Z) (o : outbound) : json :=
  let d := ob_draft o in
  jobj [("id", JInt id); ("target_name", JStr (target_name d)); ("description", JStr (description d));
        ("requested_capabilities", json_column (requested_capabilities d));
        ("offered_capabilities", json_column (offered_capabilities d)); ("status", JStr (ob_status o));
        ("valid_before", JInt (ob_expired_after o)); ("delivery_deadline", JInt (delivery_deadline d));
        ("remote_valid_before", jopt JInt (ob_remote_expired_after o)); ("last_checked_at", jopt JInt (ob_last_checked_at o));
        ("error_message", jopt JStr (ob_error_message o)); ("created_at", JInt (created_at d)); ("updated_at", JInt (ob_updated_at o))].
Definition draft_entry (e : Z * outbound) : json :=
  set_key "_contact_subject" (jopt JStr (ob_contact_subject (snd e)))
    (set_key "_contact_id" (jopt JInt (ob_contact_id (snd e))) (outbound_request (fst e) (snd e))).
(** The newest request of each target that is not revoked, by target. *)
Definition newest (entries : list (string * json)) (e : Z * outbound) : list (string * json) :=
  match assoc (target (snd e)) entries with
  | Some _ => entries
  | None => obj_insert (target (snd e)) (draft_entry e) entries
  end.
Definition drafts (t : table) : list (string * json) :=
  fold_left newest (rev (filter (fun e => ob_status (snd e) <> "revoked") (by_id t))) [].
End contact_store.

(** ** Properties of the table *)
Section contact_store_facts.
Context `{SerdeJson}.
Variable constraint_text column_text : string.
Local Abbreviation submit := (submit constraint_text).
Local Abbreviation claim := (claim column_text).
Local Abbreviation finish := (finish constraint_text).
Local Abbreviation update_row := (update_row constraint_text).
Local Abbreviation insert_row := (insert_row constraint_text).
Local Abbreviation restore := (restore constraint_text).

(** Ids are from the sequence; a lease is only held by a request that may be
    delivered; open requests have distinct targets, all of them distinct
    application ids. *)
Record table_ok (t : table) : Prop := {
  ok_sequence : 0 <= sequence t;
  ok_ids : forall id o, rows t !! id = Some o -> 0 < id <= sequence t;
  ok_status : forall id o, rows t !! id = Some o -> ob_status o ∈ STATUSES;
  ok_lease : forall id o, rows t !! id = Some o -> is_Some (ob_lease_until o) -> live_status (ob_status o) = true;
  ok_open : forall id1 id2 o1 o2, rows t !! id1 = Some o1 -> rows t !! id2 = Some o2 ->
    open_status (ob_status o1) = true -> open_status (ob_status o2) = true -> target o1 = target o2 -> id1 = id2;
  ok_application : forall id1 id2 o1 o2, rows t !! id1 = Some o1 -> rows t !! id2 = Some o2 ->
    is_Some (application_id (ob_draft o1)) -> application_id (ob_draft o1) = application_id (ob_draft o2) -> id1 = id2
}.

Lemma elem_of_by_id e t : e ∈ by_id t <-> rows t !! e.1 = Some e.2.
Proof. unfold by_id. rewrite elem_of_sort_by. destruct e as [id o]. by rewrite elem_of_map_to_list. Qed.
Lemma open_live s : open_status s = true -> live_status s = true.
Proof. unfold open_status, live_status. rewrite !mem_true. set_solver. Qed.
Lemma clashes_spec id o t :
  clashes id o t = false <->
  (open_status (ob_status o) = true -> forall id' o', rows t !! id' = Some o' -> id' <> id ->
     open_status (ob_status o') = true -> target o' <> target o).
Proof.
  unfold clashes. destruct (open_status (ob_status o)); cbn; [|split; [done|by intros _]].
  rewrite negb_existsb, Forall_forall. split.
  - intros Ha _ id' o' Hl Hne Ho Ht. specialize (Ha (id', o') ltac:(by apply elem_of_by_id)). cbn in Ha.
    rewrite Ho, Ht, String.eqb_refl in Ha. rewrite !andb_true_r in Ha. apply negb_false_iff, Z.eqb_eq in Ha. done.
  - intros Ha [id' o'] Hin%elem_of_by_id. cbn in *. destruct (id' =? id) eqn:He; [done|]. cbn.
    destruct (open_status (ob_status o')) eqn:Ho; [|done]. cbn. apply String.eqb_neq. apply Z.eqb_neq in He. by eapply Ha.
Qed.

(** Rows that keep their identity under a new status and lease. *)
Definition same_draft (o o' : outbound) : Prop := ob_draft o' = ob_draft o.
(** One row of a well-formed table is replaced. *)
Lemma put_row_ok id o o' t :
  table_ok t -> rows t !! id = Some o -> same_draft o o' -> ob_status o' ∈ STATUSES ->
  (is_Some (ob_lease_until o') -> live_status (ob_status o') = true) -> clashes id o' t = false ->
  table_ok (Table (<[id := o']> (rows t)) (sequence t)).
Proof.
  intros [Hseq Hids Hst Hle Hop Hap] Hl Hd Hs Hlease Hc. pose proof (proj1 (clashes_spec _ _ _) Hc) as Hcl; clear Hc; rename Hcl into Hc. unfold same_draft in Hd.
  split; cbn; [done|intros id1; intros..].
  - destruct (decide (id1 = id)) as [->|]; [by eapply Hids|]. rewrite lookup_insert_ne in * by done. by eapply Hids.
  - destruct (decide (id1 = id)) as [->|]; [rewrite lookup_insert_eq in *; by simplify_eq|].
    rewrite lookup_insert_ne in * by done. by eapply Hst.
  - destruct (decide (id1 = id)) as [->|]; [rewrite lookup_insert_eq in *; simplify_eq; auto|].
    rewrite lookup_insert_ne in * by done. by eapply Hle.
  - destruct (decide (id1 = id)) as [->|], (decide (id2 = id)) as [->|]; try done;
      repeat (rewrite lookup_insert_eq in * || rewrite lookup_insert_ne in * by done); simplify_eq.
    + exfalso. by eapply (Hc ltac:(done) id2).
    + exfalso. by eapply (Hc ltac:(done) id1).
    + by eapply Hop.
  - destruct (decide (id1 = id)) as [->|], (decide (id2 = id)) as [->|]; try done;
      repeat (rewrite lookup_insert_eq in * || rewrite lookup_insert_ne in * by done); simplify_eq; rewrite ?Hd in *; by eapply Hap.
Qed.
(** All rows are rewritten by a function that opens none. *)
Lemma map_rows_ok f t :
  table_ok t -> (forall o, same_draft o (f o)) ->
  (forall o, ob_status o ∈ STATUSES -> ob_status (f o) ∈ STATUSES) ->
  (forall o, open_status (ob_status (f o)) = true -> open_status (ob_status o) = true) ->
  (forall o, is_Some (ob_lease_until (f o)) -> ob_lease_until (f o) = ob_lease_until o /\ ob_status (f o) = ob_status o) ->
  table_ok (Table (f <$> rows t) (sequence t)).
Proof.
  intros [Hseq Hids Hst Hle Hop Hap] Hd Hs Ho Hl. split; cbn; [done|..].
  - intros id o' Hx. apply lookup_fmap_Some in Hx as (o & <- & Hx). by eapply Hids.
  - intros id o' Hx. apply lookup_fmap_Some in Hx as (o & <- & Hx). eapply Hs, Hst, Hx.
  - intros id o' Hx Hlease. apply lookup_fmap_Some in Hx as (o & <- & Hx). destruct (Hl o Hlease) as [He ->].
    rewrite He in Hlease. by eapply Hle.
  - intros id1 id2 o1' o2' Hx1 Hx2. apply lookup_fmap_Some in Hx1 as (o1 & <- & Hx1). apply lookup_fmap_Some in Hx2 as (o2 & <- & Hx2).
    unfold target. rewrite !Hd. intros H1%Ho H2%Ho Ht. by eapply Hop.
  - intros id1 id2 o1' o2' Hx1 Hx2. apply lookup_fmap_Some in Hx1 as (o1 & <- & Hx1). apply lookup_fmap_Some in Hx2 as (o2 & <- & Hx2).
    rewrite !Hd. by eapply Hap.
Qed.

(** *** What each statement does to a row *)
Lemma expire_row_draft now o : same_draft o (expire_row now o).
Proof. unfold expire_row. by destruct (_ && _). Qed.
Lemma expire_row_status now o :
  ob_status (expire_row now o) = ob_status o /\ expire_row now o = o \/
  live_status (ob_status (expire_row now o)) = false /\ ob_lease_until (expire_row now o) = None /\
  ob_status (expire_row now o) ∈ STATUSES /\ ob_status (expire_row now o) <> "revoked".
Proof.
  unfold expire_row. destruct (_ && _); [right|by left]. cbn.
  destruct (String.eqb _ _); (split; [done|]; split; [done|]; split; [unfold STATUSES; set_solver|done]).
Qed.
Lemma expire_requests_ok now t : table_ok t -> table_ok (expire_requests now t).
Proof.
  intros Hok. apply map_rows_ok; [done|apply expire_row_draft|..]; intros o; destruct (expire_row_status now o) as [[Hs Hr]|(Hs & Hl & Hin & _)].
  - by rewrite Hs.
  - done.
  - by rewrite Hs.
  - intros Ho%open_live. congruence.
  - by rewrite Hr.
  - rewrite Hl. by intros [? ?].
Qed.

Lemma insert_row_ok o t t' id :
  table_ok t -> insert_row o t = Ok (t', id) -> ob_lease_until o = None ->
  table_ok t' /\ id = sequence t + 1 /\ rows t' = <[id := o]> (rows t) /\ rows t !! id = None.
Proof.
  intros Hok. unfold ContactStore.insert_row. intros Hi Hl. simplify_ok. simplify_bool.
  match goal with Hm : mem _ STATUSES = true |- _ => apply mem_true in Hm end.
  match goal with Hc : clashes _ _ _ = false |- _ => pose proof (proj1 (clashes_spec _ _ _) Hc) as Hopen end.
  match goal with Ha : existsb _ _ = false |- _ => rewrite negb_existsb, Forall_forall in Ha; rename Ha into Happ end.
  destruct Hok as [Hseq Hids Hst Hle Hop Hap].
  assert (rows t !! (sequence t + 1) = None) as Hfresh.
  { destruct (rows t !! (sequence t + 1)) eqn:Hx; [|done]. apply Hids in Hx. lia. }
  assert (forall i, is_Some (rows t !! i) -> i <> sequence t + 1) as Hne by (intros i [x Hx]; apply Hids in Hx; lia).
  assert (forall i x, rows t !! i = Some x -> is_Some (application_id (ob_draft o)) ->
    application_id (ob_draft x) <> application_id (ob_draft o)) as Happ'.
  { intros i x Hx Hs He. specialize (Happ (i, x) ltac:(by apply elem_of_by_id)). cbn in Happ.
    rewrite !bool_decide_true in Happ by done. done. }
  split_and!; [|done..]. split; cbn; [lia|intros id1; intros..].
  - destruct (decide (id1 = sequence t + 1)) as [->|]; [lia|rewrite lookup_insert_ne in * by done].
    match goal with Hx : rows t !! id1 = _ |- _ => apply Hids in Hx end. lia.
  - destruct (decide (id1 = sequence t + 1)) as [->|]; [rewrite lookup_insert_eq in *; by simplify_eq|].
    rewrite lookup_insert_ne in * by done. by eapply Hst.
  - destruct (decide (id1 = sequence t + 1)) as [->|]; [rewrite lookup_insert_eq in *; simplify_eq|].
    + match goal with Hx : is_Some (ob_lease_until _) |- _ => rewrite Hl in Hx; by destruct Hx end.
    + rewrite lookup_insert_ne in * by done. by eapply Hle.
  - destruct (decide (id1 = sequence t + 1)) as [->|], (decide (id2 = sequence t + 1)) as [->|]; try done;
      repeat (rewrite lookup_insert_eq in * || rewrite lookup_insert_ne in * by done); simplify_eq.
    + exfalso. by eapply (Hopen ltac:(done) id2).
    + exfalso. by eapply (Hopen ltac:(done) id1).
    + by eapply Hop.
  - destruct (decide (id1 = sequence t + 1)) as [->|], (decide (id2 = sequence t + 1)) as [->|]; try done;
      repeat (rewrite lookup_insert_eq in * || rewrite lookup_insert_ne in * by done); simplify_eq.
    + exfalso. by eapply Happ'.
    + exfalso. match goal with He : application_id (ob_draft ?a) = _, Ha : is_Some (application_id (ob_draft ?a)) |- _ =>
        eapply Happ'; [done| |exact He]; by rewrite <- He end.
    + by eapply Hap.
Qed.

Lemma put_row_keep id o o' t :
  table_ok t -> rows t !! id = Some o -> same_draft o o' -> ob_status o' = ob_status o ->
  (is_Some (ob_lease_until o') -> live_status (ob_status o) = true) ->
  table_ok (Table (<[id := o']> (rows t)) (sequence t)).
Proof.
  intros Hok Hl Hd Hs Hle. eapply put_row_ok; [done|done|done| |by rewrite Hs|].
  - rewrite Hs. by eapply ok_status.
  - apply (proj2 (clashes_spec _ _ _)). rewrite Hs. intros Ho id' o2 Hl' Hne Ho' Ht. apply Hne.
    unfold target, same_draft in *. rewrite Hd in Ht. by eapply (ok_open _ Hok).
Qed.
Lemma update_row_ok id o o' t t' :
  table_ok t -> rows t !! id = Some o -> same_draft o o' -> ob_lease_until o' = None ->
  update_row id o' t = Ok t' -> table_ok t' /\ t' = Table (<[id := o']> (rows t)) (sequence t) /\ ob_status o' ∈ STATUSES.
Proof.
  intros Hok Hl Hd Hle. unfold ContactStore.update_row. intros Hu. simplify_ok. simplify_bool.
  match goal with Hm : mem _ STATUSES = true |- _ => apply mem_true in Hm end.
  split_and!; [|done|done]. eapply put_row_ok; [done..| |done]. rewrite Hle. by intros [? ?].
Qed.

Lemma job_leb_total a b : job_leb a b = true \/ job_leb b a = true.
Proof.
  unfold job_leb. rewrite (Z.eqb_sym (ob_next_attempt_at b.2)). destruct (_ =? _) eqn:He; rewrite !Z.leb_le; lia.
Qed.
Lemma job_leb_trans a b c : job_leb a b = true -> job_leb b c = true -> job_leb a c = true.
Proof.
  unfold job_leb. destruct (Z.eqb_spec (ob_next_attempt_at a.2) (ob_next_attempt_at b.2)),
    (Z.eqb_spec (ob_next_attempt_at b.2) (ob_next_attempt_at c.2)), (Z.eqb_spec (ob_next_attempt_at a.2) (ob_next_attempt_at c.2));
    rewrite !Z.leb_le; lia.
Qed.
(** The job is the due request that waits longest; there is one whenever a
    request is due. *)
Lemma select_job_spec now t :
  match select_job now t with
  | Some (id, o) => rows t !! id = Some o /\ due now o = true /\
      forall id' o', rows t !! id' = Some o' -> due now o' = true -> job_leb (id, o) (id', o') = true
  | None => forall id o, rows t !! id = Some o -> due now o = false
  end.
Proof.
  unfold select_job. set (l := filter _ _).
  assert (forall e, e ∈ l <-> rows t !! e.1 = Some e.2 /\ due now e.2 = true) as Hin.
  { intros [id o]. unfold l. rewrite list_elem_of_filter, elem_of_map_to_list. tauto. }
  pose proof (sort_by_sorted job_leb job_leb_total job_leb_trans l) as Hsort.
  pose proof (fun e => elem_of_sort_by job_leb e l) as Hel.
  destruct (sort_by job_leb l) as [|[id o] rest]; cbn.
  - intros id o Hl. destruct (due now o) eqn:Hd; [|done]. exfalso.
    apply (not_elem_of_nil (id, o)). apply Hel, Hin. done.
  - destruct (proj1 (Hin (id, o)) (proj1 (Hel _) (list_elem_of_here _ _))) as [Hl Hd]. split_and!; [done..|].
    intros id' o' Hl' Hd'. assert ((id', o') ∈ (id, o) :: rest) as [Heq|Hr]%elem_of_cons by (apply Hel, Hin; done).
    + injection Heq as -> ->. by destruct (job_leb_total (id, o) (id, o)).
    + apply StronglySorted_inv in Hsort as [_ Hf]. rewrite Forall_forall in Hf. by apply Hf.
Qed.

Lemma claim_Some t1 t2 t3 t t' id o lease :
  claim t1 t2 t3 t = (t', Ok (Some (id, o), lease)) ->
  lease = t3 + 120 /\ rows (expire_requests t1 t) !! id = Some o /\ due t2 o = true /\
  t' = Table (<[id := set_lease (Some lease) o]> (rows (expire_requests t1 t))) (sequence t).
Proof.
  unfold ContactStore.claim. pose proof (select_job_spec t2 (expire_requests t1 t)) as Hs.
  destruct (select_job _ _) as [[id' o']|]; [|done]. destruct (application_id _); [|done].
  intros [= <- <- <- <-]. by destruct Hs as (? & ? & _).
Qed.
Lemma claim_other t1 t2 t3 t t' r :
  claim t1 t2 t3 t = (t', r) -> match r with Ok (Some _, _) => False | _ => True end -> t' = t \/ t' = expire_requests t1 t.
Proof.
  unfold ContactStore.claim. destruct (select_job _ _) as [[id' o']|]; [destruct (application_id _)|];
    intros [= <- <-]; auto; done.
Qed.
Lemma due_live now o : due now o = true -> live_status (ob_status o) = true.
Proof. unfold due. intros Hd. by simplify_bool. Qed.
Lemma due_lease now o lease : due now o = true -> ob_lease_until o = Some lease -> lease <= now.
Proof. unfold due. intros Hd Hl. simplify_bool. rewrite Hl in *. by simplify_bool. Qed.
Lemma claim_ok t1 t2 t3 t t' r : table_ok t -> claim t1 t2 t3 t = (t', r) -> table_ok t'.
Proof.
  intros Hok Hc. destruct r as [[[[id o]|] lease]|e].
  - apply claim_Some in Hc as (-> & Hl & Hd & ->). change (sequence t) with (sequence (expire_requests t1 t)).
    apply (put_row_keep id o); [by apply expire_requests_ok|done..|]. intros _. by eapply due_live.
  - apply claim_other in Hc as [->| ->]; [done|by apply expire_requests_ok|done].
  - apply claim_other in Hc as [->| ->]; [done|by apply expire_requests_ok|done].
Qed.

Lemma leased_Some id lease t o : leased id lease t = Some o <-> rows t !! id = Some o /\ ob_lease_until o = Some lease.
Proof.
  unfold leased. destruct (rows t !! id) as [o'|]; [|split; [done|by intros []]].
  destruct (bool_decide _) eqn:Hb; simplify_bool; split.
  - intros [= ->]. done.
  - by intros [[= ->] _].
  - done.
  - intros [[= ->] ?]. done.
Qed.
(** The row under the lease, if any, is replaced by one without a lease. *)
Lemma finish_facts id lease review outcome t1 t2 t t' r :
  table_ok t -> finish id lease review outcome t1 t2 t = (t', r) ->
  table_ok t' /\ (t' = t \/ exists o o', leased id lease t = Some o /\ same_draft o o' /\ ob_lease_until o' = None /\
    ob_contact_id o' = ob_contact_id o /\ t' = Table (<[id := o']> (rows t)) (sequence t) /\ r = Ok tt).
Proof.
  intros Hok. unfold ContactStore.finish. destruct (leased id lease t) as [o|] eqn:Hl; [|intros [= <- <-]; by auto].
  apply leased_Some in Hl as [Hl Hle].
  destruct (match outcome with Ok _ => _ | Err _ => _ end) as [o'|e] eqn:Ho; [|intros [= <- <-]; by auto].
  assert (same_draft o o' /\ ob_lease_until o' = None /\ ob_contact_id o' = ob_contact_id o) as (Hd & Hn & Hid).
  { destruct outcome as [receipt|[code message]].
    - unfold received in Ho. by simplify_ok.
    - by injection Ho as <-. }
  destruct (ContactStore.update_row _ id o' t) as [t1'|] eqn:Hu; intros [= <- <-]; [|by auto].
  apply (update_row_ok id o) in Hu as (Hok' & -> & _); [|done..]. split; [done|right].
  exists o, o'. done.
Qed.
Lemma finish_status id lease review outcome t1 t2 t t' r :
  table_ok t -> finish id lease review outcome t1 t2 t = (t', r) ->
  t' = t \/ exists o o', leased id lease t = Some o /\ same_draft o o' /\
    t' = Table (<[id := o']> (rows t)) (sequence t) /\
    match outcome with
    | Ok receipt => as_str receipt.["status"] = Some (ob_status o')
    | Err _ => ob_status o' = ob_status o \/ ob_status o' = "failed"
    end.
Proof.
  intros Hok Hf. pose proof Hf as Hf'. apply finish_facts in Hf as [_ [->|(o & o' & Hl & Hd & _ & _ & Ht & Hr)]]; [by left| |done].
  right. exists o, o'. split_and!; [done..|]. subst r. unfold ContactStore.finish in Hf'. rewrite Hl in Hf'.
  apply leased_Some in Hl as [Hl Hle].
  destruct (match outcome with Ok _ => _ | Err _ => _ end) as [o2|e] eqn:Ho; [|done].
  assert (same_draft o o2 /\ ob_lease_until o2 = None) as [Hd2 Hn2].
  { destruct outcome as [receipt|[code message]]; [unfold received in Ho; by simplify_ok|by injection Ho as <-]. }
  destruct (ContactStore.update_row _ id o2 t) as [t2'|] eqn:Hu; [|done]. injection Hf' as ->.
  apply (update_row_ok id o) in Hu as (_ & Hu & _); [|done..]. rewrite Ht in Hu. injection Hu as Hu.
  apply (f_equal (fun m => m !! id)) in Hu. rewrite !lookup_insert_eq in Hu. injection Hu as <-.
  destruct outcome as [receipt|[code message]].
  - unfold received, text_of in Ho. simplify_ok. done.
  - injection Ho as <-. cbn. destruct (negb _ && _); auto.
Qed.
Lemma bind_contact_facts id lease contact subject t :
  table_ok t -> table_ok (bind_contact id lease contact subject t) /\
  (bind_contact id lease contact subject t = t \/
   exists o, leased id lease t = Some o /\ ob_contact_id o = None /\
     bind_contact id lease contact subject t = Table (<[id := set_contact contact subject o]> (rows t)) (sequence t)).
Proof.
  intros Hok. unfold bind_contact. destruct (leased id lease t) as [o|] eqn:Hl; [|by auto].
  destruct (bool_decide _) eqn:Hb; simplify_bool; [|by auto]. pose proof Hl as [Hr Hle]%leased_Some.
  split; [|right; eauto]. apply (put_row_keep id o); [done..|]. intros _. by eapply ok_lease.
Qed.

Lemma submit_facts t1 t2 doc application t t' r :
  table_ok t -> submit t1 t2 doc application t = (t', r) ->
  table_ok t' /\ (rows t' = rows (expire_requests t1 t) \/
    exists id o, rows (expire_requests t1 t) !! id = None /\ rows t' = <[id := o]> (rows (expire_requests t1 t)) /\
      ob_lease_until o = None /\ r = Ok id).
Proof.
  intros Hok Hs. apply (expire_requests_ok t1) in Hok. unfold ContactStore.submit in Hs.
  destruct (text_of doc "target_name"); [|injection Hs as <- <-; by auto].
  destruct (existsb _ _); [injection Hs as <- <-; by auto|].
  destruct (new_outbound _ doc application t2) as [o|] eqn:Ho; [|injection Hs as <- <-; by auto].
  destruct (ContactStore.insert_row _ o _) as [[ti id]|] eqn:Hi; [|injection Hs as <- <-; by auto].
  injection Hs as <- <-. apply insert_row_ok in Hi as (Hok' & -> & Hr & Hn); [|done|].
  - split; [done|right]. exists (sequence t + 1), o. cbn in *. split_and!; [done..| |done].
    unfold new_outbound in Ho. by simplify_ok.
  - unfold new_outbound in Ho. by simplify_ok.
Qed.

(** A submission that succeeds adds one queued request; one that fails leaves
    the expiry. *)
Lemma submit_added t1 t2 doc application t t' r :
  submit t1 t2 doc application t = (t', r) ->
  match r with
  | Ok id => exists o, rows t' = <[id := o]> (rows (expire_requests t1 t)) /\ id = sequence t + 1 /\
      ob_status o = "queued" /\ as_str doc.["target_name"] = Some (target o)
  | Err _ => t' = expire_requests t1 t
  end.
Proof.
  unfold ContactStore.submit. destruct (text_of doc "target_name") as [name|] eqn:Hn; [|by intros [= <- <-]].
  destruct (existsb _ _); [by intros [= <- <-]|].
  destruct (new_outbound _ doc application t2) as [o|] eqn:Ho; [|by intros [= <- <-]].
  destruct (ContactStore.insert_row _ o _) as [[ti id]|] eqn:Hi; [|by intros [= <- <-]]. intros [= <- <-].
  exists o. unfold ContactStore.insert_row in Hi. unfold new_outbound, text_of in Ho, Hn. simplify_ok. cbn. by split_and!.
Qed.

(** *** Cancellation *)
Definition entry_ids (previous : list (Z * string * Z)) : list Z := map (fun e => e.1.1) previous.
(** A row of the cancelled table is as before, or revoked. *)
Record cancelled (hi : Z) (t0 t : table) (previous : list (Z * string * Z)) : Prop := {
  ca_ok : table_ok t;
  ca_rows : forall id, match rows t0 !! id, rows t !! id with
    | Some o, Some o' => same_draft o o' /\ (o' = o \/ ob_status o' = "revoked" /\ ob_lease_until o' = None)
    | None, None => True
    | _, _ => False
    end;
  ca_entries : forall id st u, (id, st, u) ∈ previous -> exists o o',
    rows t0 !! id = Some o /\ ob_status o = st /\ st <> "revoked" /\ (forall l, ob_lease_until o = Some l -> l <= hi) /\
    rows t !! id = Some o' /\ ob_status o' = "revoked";
  ca_nodup : NoDup (entry_ids previous) }.
Lemma revoke_row_cases name time o :
  same_draft o (revoke_row name time o) /\
  (target o <> name /\ revoke_row name time o = o \/
   target o = name /\ ob_status (revoke_row name time o) = "revoked" /\ ob_lease_until (revoke_row name time o) = None).
Proof.
  unfold revoke_row. destruct (String.eqb_spec (target o) name) as [He|He]; (split; [done|]); [right|left]; done.
Qed.
Lemma revoke_ok name time t : table_ok t -> table_ok (Table (revoke_row name time <$> rows t) (sequence t)).
Proof.
  intros Hok. apply map_rows_ok; [done|..]; intros o; destruct (revoke_row_cases name time o) as (Hd & [[_ Hr]|(_ & Hs & Hl)]); try done.
  - by rewrite Hr.
  - rewrite Hs. unfold STATUSES. set_solver.
  - by rewrite Hr.
  - by rewrite Hs.
  - by rewrite Hr.
  - rewrite Hl. by intros [? ?].
Qed.
Lemma by_id_nodup t : NoDup (map fst (by_id t)).
Proof. unfold by_id. rewrite sort_by_Permutation. apply NoDup_fst_map_to_list. Qed.
Lemma cancel_one_ok hi t0 t previous item t' previous' :
  cancelled hi t0 t previous -> item.1.2 <= hi -> cancel_one (t, previous) item = Ok (t', previous') ->
  cancelled hi t0 t' previous'.
Proof.
  destruct item as [[name checked] time]. cbn. intros [Hok Hrows Hent Hnd] Hhi Hc. unfold cancel_one in Hc. simplify_ok.
  match goal with Hx : existsb _ _ = false |- _ => rewrite negb_existsb, Forall_forall in Hx; rename Hx into Hleases end.
  set (found := filter _ (by_id t)) in *.
  assert (forall id o, (id, o) ∈ found -> rows t !! id = Some o /\ target o = name /\ ob_status o <> "revoked") as Hfound.
  { intros id o [[? ?] Hin%elem_of_by_id]%list_elem_of_filter. done. }
  split.
  - by apply revoke_ok.
  - intros id. specialize (Hrows id). cbn. rewrite lookup_fmap.
    destruct (rows t0 !! id) as [o|], (rows t !! id) as [o'|]; cbn; try done. destruct Hrows as [Hd Hcase].
    destruct (revoke_row_cases name time o') as (Hd' & [[_ ->]|(_ & Hs & Hl)]); [done|].
    split; [|by right]. unfold same_draft in *. congruence.
  - intros id st u [Hin|Hin]%elem_of_app.
    + destruct (Hent id st u Hin) as (o & o' & H1 & H2 & H3 & H4 & H5 & H6).
      exists o, (revoke_row name time o'). split_and!; [done..| |].
      * cbn. by rewrite lookup_fmap, H5.
      * destruct (revoke_row_cases name time o') as (_ & [[_ ->]|(_ & Hs & _)]); done.
    + apply list_elem_of_fmap in Hin as ([id' o'] & [= -> -> ->] & Hin). pose proof (Hfound _ _ Hin) as (Hl & Ht & Hs).
      specialize (Hrows id'). rewrite Hl in Hrows. destruct (rows t0 !! id') as [o|]; [|done].
      destruct Hrows as [_ [->|[Hr _]]]; [|done]. exists o, (revoke_row name time o). split_and!; [done..| | |].
      * intros l Hlease. specialize (Hleases _ Hin). cbn in Hleases. rewrite Hlease in Hleases. simplify_bool. lia.
      * cbn. by rewrite lookup_fmap, Hl.
      * destruct (revoke_row_cases name time o) as (_ & [[? _]|(_ & ? & _)]); done.
  - unfold entry_ids in *. rewrite map_app. apply NoDup_app. split_and!; [done| |].
    + intros id Hin (([id2 st2] & u2) & -> & Hin2)%list_elem_of_fmap. cbn in Hin.
      apply list_elem_of_fmap in Hin2 as ([id' o'] & [= -> -> ->] & Hin2). destruct (Hfound _ _ Hin2) as (Hl & _ & Hs).
      apply list_elem_of_fmap in Hin as ([[id3 st3] u3] & He & Hin3). cbn in He. subst id3.
      destruct (Hent _ _ _ Hin3) as (? & o2 & _ & _ & _ & _ & Hl2 & Hs2). congruence.
    + rewrite map_map. cbn. apply (filter_map_nodup _ fst), by_id_nodup.
Qed.
Lemma cancel_facts hi items t t' previous :
  table_ok t -> Forall (fun item : string * Z * Z => item.1.2 <= hi) items -> cancel items t = Ok (t', previous) ->
  cancelled hi t t' previous.
Proof.
  intros Hok Hf Hc. unfold cancel in Hc.
  assert (cancelled hi t t []) as H0.
  { split; [done| |by intros ? ? ? ?%not_elem_of_nil|constructor].
    intros id. destruct (rows t !! id); [|done]. split; [done|by left]. }
  revert H0 Hc. generalize ([] : list (Z * string * Z)) as p. generalize t at 2 3 as t1.
  induction Hf as [|item items Hi _ IH]; intros t1 p H0 Hc; cbn [try_fold] in Hc; [by injection Hc as <- <-|].
  destruct (cancel_one (t1, p) item) as [[t2 p2]|] eqn:H1; [|done]. eapply IH; [|exact Hc]. by eapply cancel_one_ok.
Qed.
Lemma cancel_ok items t t' previous : table_ok t -> cancel items t = Ok (t', previous) -> table_ok t'.
Proof.
  intros Hok Hc. assert (exists hi, Forall (fun item : string * Z * Z => item.1.2 <= hi) items) as [hi Hi].
  { clear Hc. induction items as [|i items [hi IH]]; [by exists 0|]. exists (Z.max i.1.2 hi). constructor; [lia|].
    eapply Forall_impl; [exact IH|]. cbn. lia. }
  by destruct (cancel_facts hi items t t' previous Hok Hi Hc).
Qed.

(** A cancelled row that is put back has its former status and no lease. *)
Definition restored (t0 t : table) (previous : list (Z * string * Z)) : Prop :=
  table_ok t /\ forall id, match rows t0 !! id, rows t !! id with
    | Some o, Some o' => same_draft o o' /\
        (o' = o \/ ob_status o = "revoked" /\ ob_lease_until o' = None /\ exists u, (id, ob_status o', u) ∈ previous)
    | None, None => True
    | _, _ => False
    end.
Lemma restore_facts previous t t' : table_ok t -> restore previous t = Ok t' -> restored t t' previous.
Proof.
  intros Hok Hr. unfold ContactStore.restore in Hr.
  refine (try_fold_ind (restore_one constraint_text) (fun done t1 => restored t t1 done) t _ _ previous t' Hr).
  { split; [done|]. intros id. destruct (rows t !! id); [|done]. split; [done|by left]. }
  intros pre [[id st] u] t1 t2 [Hok1 Hrows] H1. cbn in H1.
  destruct (rows t1 !! id) as [o1|] eqn:Hl.
  2: { injection H1 as <-. split; [done|]. intros id'. specialize (Hrows id'). destruct (rows t !! id'), (rows t1 !! id'); try done.
    destruct Hrows as [? [?|(? & ? & u' & ?)]]; (split; [done|]); [by left|right]. split_and!; [done..|]. exists u'. set_solver. }
  destruct (String.eqb_spec (ob_status o1) "revoked") as [Hrev|Hrev].
  2: { injection H1 as <-. split; [done|]. intros id'. specialize (Hrows id'). destruct (rows t !! id'), (rows t1 !! id'); try done.
    destruct Hrows as [? [?|(? & ? & u' & ?)]]; (split; [done|]); [by left|right]. split_and!; [done..|]. exists u'. set_solver. }
  assert (ob_lease_until o1 = None) as Hle.
  { destruct (ob_lease_until o1) eqn:He; [|done]. pose proof (ok_lease _ Hok1 id o1 Hl ltac:(by rewrite He)) as Hlive.
    by rewrite Hrev in Hlive. }
  apply (update_row_ok id o1) in H1 as (Hok2 & -> & _); [|done..]. split; [done|]. intros id'. specialize (Hrows id'). cbn.
  destruct (decide (id' = id)) as [->|Hne].
  - rewrite lookup_insert_eq. rewrite Hl in Hrows. destruct (rows t !! id) as [o|]; [|done].
    destruct Hrows as [Hd Hcase]. split; [done|right]. cbn. split_and!; [|done|exists u; set_solver].
    destruct Hcase as [->|(? & _)]; done.
  - rewrite lookup_insert_ne by done. destruct (rows t !! id'), (rows t1 !! id'); try done.
    destruct Hrows as [? [?|(? & ? & u' & ?)]]; (split; [done|]); [by left|right]. split_and!; [done..|]. exists u'. set_solver.
Qed.

(** The rows of the named targets are revoked, and remembered unless they were
    revoked before. *)
Definition names_revoked (names : list string) (previous : list (Z * string * Z)) (t0 t : table) : Prop :=
  forall id, match rows t0 !! id, rows t !! id with
    | Some o, Some o' => same_draft o o' /\
        if decide (target o ∈ names)
        then ob_status o' = "revoked" /\ ob_lease_until o' = None /\
             (ob_status o = "revoked" \/ (id, ob_status o, ob_updated_at o) ∈ previous)
        else o' = o
    | None, None => True
    | _, _ => False
    end.
Lemma cancel_one_names names t0 t previous item t' previous' :
  names_revoked names previous t0 t -> cancel_one (t, previous) item = Ok (t', previous') ->
  names_revoked (names ++ [item.1.1]) previous' t0 t'.
Proof.
  destruct item as [[name checked] time]. cbn. intros Hrows Hc. unfold cancel_one in Hc. simplify_ok.
  intros id. specialize (Hrows id). cbn. rewrite lookup_fmap.
  destruct (rows t0 !! id) as [o|] eqn:Hl0, (rows t !! id) as [o1|] eqn:Hl; cbn; try done. destruct Hrows as [Hd Hrow].
  destruct (revoke_row_cases name time o1) as (Hd' & Hcase).
  assert (target o1 = target o) as Ht by (unfold target, same_draft in *; by rewrite Hd).
  split; [unfold same_draft in *; congruence|]. rewrite Ht in Hcase. repeat case_decide.
  - destruct Hrow as (Hs & Hle & Hp). split_and!; [by destruct Hcase as [[_ ->]|(_ & ? & _)]|by destruct Hcase as [[_ ->]|(_ & _ & ?)]|].
    destruct Hp; [by left|right]. apply elem_of_app. by left.
  - set_solver.
  - subst o1. destruct Hcase as [[Hne _]|(_ & Hs & Hle)]; [set_solver|]. split_and!; [done..|].
    destruct (decide (ob_status o = "revoked")) as [|Hst]; [by left|right]. apply elem_of_app. right.
    apply list_elem_of_fmap. exists (id, o). split; [done|]. apply list_elem_of_filter. split; [|by apply elem_of_by_id].
    cbn. split; [set_solver|done].
  - subst o1. destruct Hcase as [[_ ->]|(He & _)]; [done|set_solver].
Qed.
Lemma cancel_names items t t' previous :
  cancel items t = Ok (t', previous) -> names_revoked (map (fun i => i.1.1) items) previous t t'.
Proof.
  intros Hc. unfold cancel in Hc.
  refine (try_fold_ind cancel_one (fun pre st => names_revoked (map (fun i => i.1.1) pre) st.2 t st.1) (t, []) _ _ items _ Hc).
  - intros id. cbn. by destruct (rows t !! id).
  - intros pre item [t1 p1] [t2 p2] Hp H1. cbn in *. rewrite map_app. by eapply cancel_one_names.
Qed.
Lemma cancel_kept items t t' previous :
  cancel items t = Ok (t', previous) -> forall id st u, (id, st, u) ∈ previous -> exists o, rows t !! id = Some o /\ ob_status o = st /\ st <> "revoked".
Proof.
  intros Hc. unfold cancel in Hc.
  refine (proj2 (try_fold_ind cancel_one (fun _ st =>
    (forall id o, rows st.1 !! id = Some o -> ob_status o <> "revoked" -> rows t !! id = Some o) /\
    forall id s u, (id, s, u) ∈ st.2 -> exists o, rows t !! id = Some o /\ ob_status o = s /\ s <> "revoked") (t, []) _ _ items _ Hc)).
  { cbn. split; [done|]. by intros ? ? ? ?%not_elem_of_nil. }
  intros _ [[name checked] time] [t1 p1] [t2 p2] [Hr Hp] H1. cbn in *. unfold cancel_one in H1. simplify_ok. cbn. split.
  - intros id o Hl Hs. apply lookup_fmap_Some in Hl as (o1 & <- & Hl).
    destruct (revoke_row_cases name time o1) as (_ & [[_ He]|(_ & He & _)]); [|done]. rewrite He in *. by apply Hr.
  - intros id s u [Hin|Hin]%elem_of_app; [by eapply Hp|].
    apply list_elem_of_fmap in Hin as ([id' o] & [= -> -> ->] & [[Ht Hs] Hin%elem_of_by_id]%list_elem_of_filter). cbn in *. exists o. auto.
Qed.
(** Putting back what was revoked cannot violate a constraint, and every request
    has its status again. *)
Definition status_or_revoked (t0 t : table) : Prop :=
  forall id, match rows t0 !! id, rows t !! id with
    | Some o, Some o' => same_draft o o' /\ (ob_status o' = ob_status o \/ ob_status o' = "revoked")
    | None, None => True
    | _, _ => False
    end.
Lemma restore_total t0 previous t :
  table_ok t0 -> status_or_revoked t0 t ->
  (forall id st u, (id, st, u) ∈ previous -> exists o, rows t0 !! id = Some o /\ ob_status o = st) ->
  exists t', restore previous t = Ok t' /\ status_or_revoked t0 t' /\
    forall id o o', rows t0 !! id = Some o -> rows t' !! id = Some o' ->
      (exists u, (id, ob_status o, u) ∈ previous) \/ (exists o1, rows t !! id = Some o1 /\ ob_status o1 = ob_status o) -> ob_status o' = ob_status o.
Proof.
  intros Hok. revert t. unfold ContactStore.restore. induction previous as [|[[id st] u] previous IH]; intros t Hrel Hent; cbn [try_fold].
  { exists t. split_and!; [done..|]. intros id o o' Hl Hl' [[u Hu%not_elem_of_nil]|(o1 & Hl1 & Hs)]; [done|]. congruence. }
  destruct (Hent id st u ltac:(by left)) as (o0 & Hl0 & Hst).
  pose proof (Hrel id) as Hrow. rewrite Hl0 in Hrow. destruct (rows t !! id) as [o1|] eqn:Hl1; [|done]. destruct Hrow as [Hd1 Hs1].
  assert (exists t1, restore_one constraint_text t (id, st, u) = Ok t1 /\ status_or_revoked t0 t1 /\
    (forall i, i <> id -> rows t1 !! i = rows t !! i) /\ exists o2, rows t1 !! id = Some o2 /\ ob_status o2 = st) as (t1 & H1 & Hrel1 & Hne & o2 & Hl2 & Hs2).
  { cbn. rewrite Hl1. destruct (String.eqb_spec (ob_status o1) "revoked") as [Hrev|Hrev].
    2: { exists t. split_and!; [done..|]. exists o1. split; [done|]. destruct Hs1; congruence. }
    exists (Table (<[id := set_status st u o1]> (rows t)) (sequence t)). split_and!.
    - unfold ContactStore.update_row. replace (negb _ || _) with false; [done|]. symmetry. apply orb_false_iff. split.
      + cbn. rewrite (proj2 (mem_true st STATUSES)); [done|]. rewrite <- Hst. by eapply ok_status.
      + apply clashes_spec. cbn. intros Ho id' o' Hl' Hne Ho' Ht. pose proof (Hrel id') as Hrow. rewrite Hl' in Hrow.
        destruct (rows t0 !! id') as [o0'|] eqn:Hl0'; [|done]. destruct Hrow as [Hd' [Hs'|Hs']]; [|by rewrite Hs' in Ho'].
        apply Hne. eapply (ok_open _ Hok); [done|done|congruence|congruence|]. unfold target, same_draft in *. cbn in Ht. congruence.
    - intros i. specialize (Hrel i). cbn. destruct (decide (i = id)) as [->|]; [|by rewrite lookup_insert_ne].
      rewrite lookup_insert_eq, Hl0. cbn. split; [done|]. by left.
    - intros i Hi. cbn. by rewrite lookup_insert_ne.
    - cbn. rewrite lookup_insert_eq. eauto. }
  rewrite H1. destruct (IH t1 Hrel1) as (t' & Hr & Hrel' & Hback); [intros; eapply Hent; by right|].
  exists t'. split_and!; [done..|]. intros i o o' Hl Hl' Hcase. eapply Hback; [done..|].
  destruct (decide (i = id)) as [->|Hi].
  - right. exists o2. split; [done|]. congruence.
  - destruct Hcase as [[u' [Heq|Hin]%elem_of_cons]|Hsame]; [congruence|left; eauto|right; by rewrite Hne].
Qed.

(** ** Deliveries and deletions in progress

    A delivery claims a request, talks to the peer and records the outcome; a
    deletion revokes requests, deletes the contacts and puts the requests back
    when that failed.  Any number of both may be in progress, interleaved with
    submissions; every statement reads the clock between the times of the world
    before and after it. *)
Record job := Job { j_id : Z; j_lease : Z; j_row : outbound }.
Record world := World { w_clock : Z; w_table : table; w_jobs : list job; w_deletions : list (list (Z * string * Z)) }.
Inductive contact_step : world -> world -> Prop :=
| step_submit c t js ds t1 t2 c' doc application t' r :
    c <= t1 <= t2 -> t2 <= c' -> submit t1 t2 doc application t = (t', r) ->
    contact_step (World c t js ds) (World c' t' js ds)
| step_claim c t js ds t1 t2 t3 c' t' id o lease :
    c <= t1 <= t2 -> t2 <= t3 <= c' -> claim t1 t2 t3 t = (t', Ok (Some (id, o), lease)) ->
    contact_step (World c t js ds) (World c' t' (Job id lease o :: js) ds)
| step_no_claim c t js ds t1 t2 t3 c' t' r :
    c <= t1 <= t2 -> t2 <= t3 <= c' -> claim t1 t2 t3 t = (t', r) -> match r with Ok (Some _, _) => False | _ => True end ->
    contact_step (World c t js ds) (World c' t' js ds)
| step_bind c t js1 j js2 ds c' contact subject :
    c <= c' ->
    contact_step (World c t (js1 ++ j :: js2) ds)
      (World c' (bind_contact (j_id j) (j_lease j) contact subject t) (js1 ++ j :: js2) ds)
| step_finish c t js1 j js2 ds c' review outcome t1 t2 t' r :
    c <= t1 <= c' -> c <= t2 <= c' -> finish (j_id j) (j_lease j) review outcome t1 t2 t = (t', r) ->
    contact_step (World c t (js1 ++ j :: js2) ds) (World c' t' (js1 ++ js2) ds)
(* the process ends or the delivery is dropped *)
| step_abandon c t js1 j js2 ds c' :
    c <= c' -> contact_step (World c t (js1 ++ j :: js2) ds) (World c' t (js1 ++ js2) ds)
| step_cancel c t js ds items c' t' previous :
    c <= c' -> Forall (fun item : string * Z * Z => c <= item.1.2 <= c' /\ c <= item.2 <= c') items -> cancel items t = Ok (t', previous) ->
    contact_step (World c t js ds) (World c' t' js (previous :: ds))
(* the contacts are deleted *)
| step_deleted c t js ds1 previous ds2 c' :
    c <= c' -> contact_step (World c t js (ds1 ++ previous :: ds2)) (World c' t js (ds1 ++ ds2))
| step_restore c t js ds1 previous ds2 c' t' :
    c <= c' -> restore previous t = Ok t' ->
    contact_step (World c t js (ds1 ++ previous :: ds2)) (World c' t' js (ds1 ++ ds2)).
Definition quiet (t : table) (c : Z) : world := World c t [] [].

(** The row is still the one the delivery claimed. *)
Definition held (j : job) (o : outbound) : Prop :=
  ob_lease_until o = Some (j_lease j) /\ same_draft (j_row j) o /\ ob_status o = ob_status (j_row j) /\ ob_review o = ob_review (j_row j).
Definition job_ok (c : Z) (t : table) (j : job) : Prop :=
  exists o, rows t !! j_id j = Some o /\ (held j o \/ ob_lease_until o <> Some (j_lease j) /\ (j_lease j <= c \/ live_status (ob_status o) = false)).
Definition deletion_ok (c : Z) (t : table) (js : list job) (previous : list (Z * string * Z)) : Prop :=
  forall id st u, (id, st, u) ∈ previous ->
    (exists o, rows t !! id = Some o /\ ob_status o = "revoked") /\
    (live_status st = true -> forall j, j ∈ js -> j_id j = id -> j_lease j <= c).
Definition key (j : job) : Z * Z := (j_id j, j_lease j).
Record world_ok (w : world) : Prop := {
  wo_table : table_ok (w_table w);
  wo_jobs : Forall (job_ok (w_clock w) (w_table w)) (w_jobs w);
  wo_keys : NoDup (map key (w_jobs w));
  wo_deletions : Forall (deletion_ok (w_clock w) (w_table w) (w_jobs w)) (w_deletions w);
  wo_disjoint : NoDup (concat (map entry_ids (w_deletions w))) }.


Lemma job_ok_later c c' t j : c <= c' -> job_ok c t j -> job_ok c' t j.
Proof. intros Hc (o & Hl & [Hh|(Hn & [?|?])]); exists o; (split; [done|]); [by left|right; split; [done|left; lia]|right; auto]. Qed.
(** The row is as before, or has lost its lease lawfully. *)
Lemma job_ok_row c t t' j o o' :
  rows t !! j_id j = Some o -> rows t' !! j_id j = Some o' -> job_ok c t j ->
  (o' = o \/ ob_lease_until o' = None /\ (j_lease j <= c \/ live_status (ob_status o') = false)) -> job_ok c t' j.
Proof.
  intros Hl Hl' (o1 & Hl1 & Hj) Hc. rewrite Hl in Hl1. injection Hl1 as <-. exists o'. split; [done|].
  destruct Hc as [->|(Hn & Hc)]; [done|]. right. split; [by rewrite Hn|done].
Qed.
Lemma deletion_keep c c' t t' js js' previous :
  c <= c' -> (forall j, j ∈ js' -> j ∈ js) ->
  (forall id o, rows t !! id = Some o -> ob_status o = "revoked" -> exists o', rows t' !! id = Some o' /\ ob_status o' = "revoked") ->
  deletion_ok c t js previous -> deletion_ok c' t' js' previous.
Proof.
  intros Hc Hj Hr Hd id st u Hin. destruct (Hd id st u Hin) as ((o & Hl & Hs) & Hlive). split; [by eapply Hr|].
  intros Hst j Hjs Hid. specialize (Hlive Hst j (Hj j Hjs) Hid). lia.
Qed.
Lemma expire_job_ok c t1 t j : job_ok c t j -> job_ok c (expire_requests t1 t) j.
Proof.
  intros Hj. pose proof Hj as (o & Hl & _). eapply (job_ok_row c t); [exact Hl|cbn; by rewrite lookup_fmap, Hl|done|].
  destruct (expire_row_status t1 o) as [[_ ->]|(Hs & Hn & _)]; [by left|right]. split; [done|by right].
Qed.
Lemma expire_revoked t1 t id o :
  rows t !! id = Some o -> ob_status o = "revoked" -> rows (expire_requests t1 t) !! id = Some o.
Proof. intros Hl Hs. cbn. rewrite lookup_fmap, Hl. cbn. unfold expire_row. by rewrite Hs. Qed.

(** *** Every step keeps the world consistent. *)
Lemma world_ok_submit c t js ds t1 t2 c' doc application t' r :
  c <= c' -> submit t1 t2 doc application t = (t', r) -> world_ok (World c t js ds) -> world_ok (World c' t' js ds).
Proof.
  intros Hc Hs [Hok Hjs Hk Hds Hdj]. cbn in *. apply submit_facts in Hs as [Hok' Hrows]; [|done].
  assert (forall id o, rows (expire_requests t1 t) !! id = Some o -> rows t' !! id = Some o) as Hsame.
  { intros id o Hl. destruct Hrows as [->|(id' & o' & Hn & -> & _)]; [done|]. rewrite lookup_insert_ne; [done|]. intros ->. congruence. }
  split; cbn; [done| |done| |done].
  - eapply Forall_impl; [exact Hjs|]. intros j Hj. apply (job_ok_later c); [done|]. apply (expire_job_ok c t1) in Hj.
    pose proof Hj as (o & Hl & _). eapply job_ok_row; [exact Hl|by apply Hsame|done|by left].
  - eapply Forall_impl; [exact Hds|]. intros d. apply deletion_keep; [done|done|].
    intros id o Hl Hst. exists o. split; [|done]. by apply Hsame, expire_revoked.
Qed.
Lemma world_ok_claim c t js ds t1 t2 t3 c' t' id o lease :
  c <= c' -> t2 <= t3 <= c' -> claim t1 t2 t3 t = (t', Ok (Some (id, o), lease)) -> c <= t2 ->
  world_ok (World c t js ds) -> world_ok (World c' t' (Job id lease o :: js) ds).
Proof.
  intros Hc Ht Hcl Ht2 [Hok Hjs Hk Hds Hdj]. cbn in *. pose proof (claim_ok _ _ _ _ _ _ Hok Hcl) as Hok'.
  apply claim_Some in Hcl as (-> & Hl & Hdue & ->).
  assert (forall j, j ∈ js -> j_id j = id -> j_lease j <= t2) as Hold.
  { intros j Hj Hid. rewrite Forall_forall in Hjs. apply Hjs, (expire_job_ok c t1) in Hj. destruct Hj as (oj & Hlj & Hcase).
    rewrite Hid, Hl in Hlj. injection Hlj as <-. destruct Hcase as [(Hlease & _)|(_ & [Hle|Hdead])].
    - by eapply due_lease.
    - lia.
    - apply due_live in Hdue. congruence. }
  split; cbn; [done| | | |done].
  - apply Forall_cons. split.
    { exists (set_lease (Some (t3 + 120)) o). cbn. split; [by rewrite lookup_insert_eq|left]. done. }
    apply Forall_forall. intros j Hj. pose proof (Hold j Hj) as Hle. rewrite Forall_forall in Hjs. apply Hjs in Hj.
    apply (job_ok_later c c'), (expire_job_ok c' t1) in Hj; [|done]. destruct (decide (j_id j = id)) as [Heq|Hne].
    + specialize (Hle Heq). exists (set_lease (Some (t3 + 120)) o). cbn. rewrite Heq, lookup_insert_eq. split; [done|right].
      split; [intros [= ?]; lia|left; lia].
    + destruct Hj as (oj & Hlj & Hcase). exists oj. cbn in *. by rewrite lookup_insert_ne by done.
  - apply NoDup_cons. split; [|done]. intros (j & Hkey & Hj)%list_elem_of_fmap. unfold key in Hkey. cbn in Hkey.
    injection Hkey as Hid Hlease. pose proof (Hold j Hj (eq_sym Hid)). lia.
  - apply Forall_forall. intros d Hd. rewrite Forall_forall in Hds. specialize (Hds d Hd).
    intros id' st u Hin. destruct (Hds id' st u Hin) as ((o' & Hl' & Hs') & Hlive).
    assert (id' <> id) as Hne.
    { intros ->. pose proof (expire_revoked t1 t id o' Hl' Hs') as He. rewrite Hl in He. injection He as ->.
      apply due_live in Hdue. by rewrite Hs' in Hdue. }
    split.
    + exists o'. split; [|done]. cbn [rows]. rewrite lookup_insert_ne by done. by apply (expire_revoked t1 t).
    + intros Hst j [->|Hj]%elem_of_cons Hid; [done|]. specialize (Hlive Hst j Hj Hid). lia.
Qed.
Lemma world_ok_no_claim c t js ds t1 t2 t3 c' t' r :
  c <= c' -> claim t1 t2 t3 t = (t', r) -> match r with Ok (Some _, _) => False | _ => True end ->
  world_ok (World c t js ds) -> world_ok (World c' t' js ds).
Proof.
  intros Hc Hcl Hr [Hok Hjs Hk Hds Hdj]. cbn in *. pose proof (claim_ok _ _ _ _ _ _ Hok Hcl) as Hok'.
  apply claim_other in Hcl; [|done]. split; cbn; [done| |done| |done].
  - eapply Forall_impl; [exact Hjs|]. intros j Hj%(job_ok_later c c'); [|done]. destruct Hcl as [->| ->]; [done|by apply expire_job_ok].
  - eapply Forall_impl; [exact Hds|]. intros d. apply deletion_keep; [done|done|]. intros id o Hl Hs. exists o.
    split; [|done]. destruct Hcl as [->| ->]; [done|by apply expire_revoked].
Qed.
Lemma jobs_drop c t (js1 : list job) j js2 :
  Forall (job_ok c t) (js1 ++ j :: js2) -> NoDup (map key (js1 ++ j :: js2)) ->
  Forall (job_ok c t) (js1 ++ js2) /\ NoDup (map key (js1 ++ js2)) /\ forall j', j' ∈ js1 ++ js2 -> j' ∈ js1 ++ j :: js2 /\ key j' <> key j.
Proof.
  rewrite <- (Permutation_middle js1 js2 j). intros [_ Hf]%Forall_cons [Hn Hnd]%NoDup_cons. split_and!; [done..|].
  intros j' Hj'. split.
  - rewrite <- Permutation_middle. by right.
  - intros He. apply Hn. rewrite <- He. by apply list_elem_of_fmap_2.
Qed.
Lemma world_ok_bind c t js ds c' id lease contact subject :
  c <= c' -> world_ok (World c t js ds) -> world_ok (World c' (bind_contact id lease contact subject t) js ds).
Proof.
  intros Hc [Hok Hjs Hk Hds Hdj]. cbn in *. destruct (bind_contact_facts id lease contact subject t Hok) as [Hok' Hcase].
  split; cbn; [done| |done| |done].
  - eapply Forall_impl; [exact Hjs|]. intros j Hj%(job_ok_later c c'); [|done].
    destruct Hcase as [->|(o & [Hl Hle]%leased_Some & Hn & ->)]; [done|].
    destruct Hj as (oj & Hlj & Hj). destruct (decide (j_id j = id)) as [Heq|Hne].
    + rewrite Heq, Hl in Hlj. injection Hlj as <-. exists (set_contact contact subject o). cbn. rewrite Heq, lookup_insert_eq. done.
    + exists oj. cbn. by rewrite lookup_insert_ne by done.
  - eapply Forall_impl; [exact Hds|]. intros d. apply deletion_keep; [done|done|]. intros i o Hl Hs.
    destruct Hcase as [->|(o1 & [Hl1 Hle]%leased_Some & Hn & ->)]; [by exists o|]. cbn. destruct (decide (i = id)) as [->|Hne].
    + rewrite Hl in Hl1. injection Hl1 as <-. rewrite lookup_insert_eq. by eexists.
    + rewrite lookup_insert_ne by done. by exists o.
Qed.
Lemma world_ok_finish c t js1 j js2 ds c' review outcome t1 t2 t' r :
  c <= c' -> finish (j_id j) (j_lease j) review outcome t1 t2 t = (t', r) ->
  world_ok (World c t (js1 ++ j :: js2) ds) -> world_ok (World c' t' (js1 ++ js2) ds).
Proof.
  intros Hc Hf [Hok Hjs Hk Hds Hdj]. cbn in *. apply finish_facts in Hf as [Hok' Hcase]; [|done].
  apply jobs_drop in Hjs as (Hjs & Hk' & Hdrop); [|done]. split; cbn; [done| |done| |done].
  - apply Forall_forall. intros j' Hj'. destruct (Hdrop j' Hj') as [_ Hne]. rewrite Forall_forall in Hjs.
    apply Hjs, (job_ok_later c c') in Hj'; [|done].
    destruct Hcase as [->|(o & o' & [Hl Hle]%leased_Some & _ & Hn & _ & -> & _)]; [done|].
    destruct (decide (j_id j' = j_id j)) as [Heq|Hid].
    + eapply (job_ok_row c' t); [by rewrite Heq|cbn; by rewrite Heq, lookup_insert_eq|done|right]. split; [done|left].
      destruct Hj' as (oj & Hlj & Hj'). rewrite Heq, Hl in Hlj. injection Hlj as <-.
      destruct Hj' as [(Hlease & _)|(_ & [?|Hdead])]; [|done|].
      * exfalso. apply Hne. unfold key. rewrite Heq. f_equal. congruence.
      * pose proof (ok_lease _ Hok _ _ Hl ltac:(by rewrite Hle)). congruence.
    + destruct Hj' as (oj & Hlj & Hj'). exists oj. cbn. by rewrite lookup_insert_ne by done.
  - eapply Forall_impl; [exact Hds|]. intros d. apply deletion_keep; [done|intros j' Hj'; by apply Hdrop|]. intros i o Hl Hs.
    destruct Hcase as [->|(o1 & o' & [Hl1 Hle]%leased_Some & _ & _ & _ & -> & _)]; [by exists o|]. cbn.
    destruct (decide (i = j_id j)) as [->|Hne]; [|rewrite lookup_insert_ne by done; by exists o].
    rewrite Hl in Hl1. injection Hl1 as <-. pose proof (ok_lease _ Hok _ _ Hl ltac:(by rewrite Hle)) as Hlive. by rewrite Hs in Hlive.
Qed.
Lemma world_ok_abandon c t js1 j js2 ds c' :
  c <= c' -> world_ok (World c t (js1 ++ j :: js2) ds) -> world_ok (World c' t (js1 ++ js2) ds).
Proof.
  intros Hc [Hok Hjs Hk Hds Hdj]. cbn in *. apply jobs_drop in Hjs as (Hjs & Hk' & Hdrop); [|done]. split; cbn; [done| |done| |done].
  - eapply Forall_impl; [exact Hjs|]. intros j'. by apply job_ok_later.
  - eapply Forall_impl; [exact Hds|]. intros d. apply deletion_keep; [done|intros j' Hj'; by apply Hdrop|by eauto].
Qed.
Lemma concat_drop {A} (l1 : list (list A)) x l2 : NoDup (concat (l1 ++ x :: l2)) ->
  NoDup (concat (l1 ++ l2)) /\ forall a, a ∈ x -> a ∉ concat (l1 ++ l2).
Proof.
  rewrite !concat_app. cbn. intros (H1 & H12 & (H2 & H23 & H3)%NoDup_app)%NoDup_app. split.
  - apply NoDup_app. split_and!; [done| |done]. set_solver.
  - set_solver.
Qed.
Lemma world_ok_deleted c t js ds1 previous ds2 c' :
  c <= c' -> world_ok (World c t js (ds1 ++ previous :: ds2)) -> world_ok (World c' t js (ds1 ++ ds2)).
Proof.
  intros Hc [Hok Hjs Hk Hds Hdj]. cbn in *. rewrite map_app in *. cbn in Hdj. apply concat_drop in Hdj as [Hdj _].
  apply Forall_app in Hds as [Hd1 [_ Hd2]%Forall_cons]. split; cbn; [done| |done| |by rewrite map_app].
  - eapply Forall_impl; [exact Hjs|]. intros j'. by apply job_ok_later.
  - apply Forall_app. split; (eapply Forall_impl; [eassumption|]); intros d; (apply deletion_keep; [done|done|by eauto]).
Qed.
Lemma world_ok_cancel c t js ds items c' t' previous :
  c <= c' -> Forall (fun item : string * Z * Z => c <= item.1.2 <= c' /\ c <= item.2 <= c') items ->
  cancel items t = Ok (t', previous) -> world_ok (World c t js ds) -> world_ok (World c' t' js (previous :: ds)).
Proof.
  intros Hc Hi Hca [Hok Hjs Hk Hds Hdj]. cbn in *.
  destruct (cancel_facts c' items t t' previous Hok) as [Hok' Hrows Hent Hnd].
  { eapply Forall_impl; [exact Hi|]. cbn. intros item. lia. }
  { done. }
  split; cbn; [done| |done| |].
  - eapply Forall_impl; [exact Hjs|]. intros j Hj%(job_ok_later c c'); [|done]. pose proof Hj as (o & Hl & _).
    specialize (Hrows (j_id j)). rewrite Hl in Hrows. destruct (rows t' !! j_id j) as [o'|] eqn:Hl'; [|done].
    eapply job_ok_row; [exact Hl|exact Hl'|done|]. destruct Hrows as [_ [->|[Hs Hn]]]; [by left|right].
    split; [done|right]. by rewrite Hs.
  - apply Forall_cons. split.
    + intros id st u Hin. destruct (Hent id st u Hin) as (o & o' & Hl & Hs & Hne & Hlease & Hl' & Hs'). split; [by exists o'|].
      intros Hst j Hj Hid. rewrite Forall_forall in Hjs. apply Hjs in Hj as (oj & Hlj & Hj). rewrite Hid, Hl in Hlj. injection Hlj as <-.
      destruct Hj as [(Hle & _)|(_ & [?|Hdead])]; [by apply Hlease|lia|congruence].
    + eapply Forall_impl; [exact Hds|]. intros d. apply deletion_keep; [done|done|]. intros id o Hl Hs. specialize (Hrows id).
      rewrite Hl in Hrows. destruct (rows t' !! id) as [o'|]; [|done]. exists o'. split; [done|].
      by destruct Hrows as [_ [->|[? _]]].
  - apply NoDup_app. split_and!; [done| |done]. intros id (([id' st] & u) & -> & Hin)%list_elem_of_fmap. cbn.
    destruct (Hent id' st u Hin) as (o & o' & Hl & Hs & Hne & _). intros Hc2%list_elem_of_In. apply in_concat in Hc2 as (ids & Hids & Hid).
    apply list_elem_of_In, list_elem_of_fmap in Hids as (d & -> & Hd).
    rewrite Forall_forall in Hds. apply list_elem_of_In, list_elem_of_fmap in Hid as ([[id2 st2] u2] & -> & Hin2). cbn in *.
    destruct (Hds d Hd id2 st2 u2 Hin2) as ((o2 & Hl2 & Hs2) & _). congruence.
Qed.

Lemma world_ok_restore c t js ds1 previous ds2 c' t' :
  c <= c' -> restore previous t = Ok t' -> world_ok (World c t js (ds1 ++ previous :: ds2)) -> world_ok (World c' t' js (ds1 ++ ds2)).
Proof.
  intros Hc Hr [Hok Hjs Hk Hds Hdj]. cbn in *. apply restore_facts in Hr as [Hok' Hrows]; [|done].
  rewrite map_app in *. cbn in Hdj. apply concat_drop in Hdj as [Hdj Hout]. rewrite <- map_app in *.
  apply Forall_app in Hds as [Hd1 [Hd Hd2]%Forall_cons]. split; cbn; [done| |done| |done].
  - apply Forall_forall. intros j Hj. pose proof Hjs as Hall. rewrite Forall_forall in Hall. pose proof (Hall j Hj) as Hjo.
    apply (job_ok_later c c') in Hjo; [|done]. pose proof Hjo as (o & Hl & _). specialize (Hrows (j_id j)). rewrite Hl in Hrows.
    destruct (rows t' !! j_id j) as [o'|] eqn:Hl'; [|done]. eapply job_ok_row; [exact Hl|exact Hl'|done|].
    destruct Hrows as [_ [->|(_ & Hn & u & Hin)]]; [by left|right]. split; [done|].
    destruct (live_status (ob_status o')) eqn:Hst; [left|by right]. destruct (Hd _ _ _ Hin) as [_ Hlive].
    specialize (Hlive Hst j Hj eq_refl). lia.
  - assert (Forall (deletion_ok c t js) (ds1 ++ ds2)) as Hds by (apply Forall_app; by split).
    apply Forall_forall. intros d Hin. rewrite Forall_forall in Hds. specialize (Hds d Hin).
    intros id st u Hent. destruct (Hds id st u Hent) as ((o & Hl & Hs) & Hlive). split.
    + specialize (Hrows id). rewrite Hl in Hrows. destruct (rows t' !! id) as [o'|]; [|done]. exists o'. split; [done|].
      destruct Hrows as [_ [->|(_ & _ & u' & Hin')]]; [done|]. exfalso. apply (Hout id).
      * apply list_elem_of_fmap. by exists (id, ob_status o', u').
      * apply list_elem_of_In, in_concat. exists (entry_ids d). split; apply list_elem_of_In; [by apply list_elem_of_fmap_2|].
        apply list_elem_of_fmap. by exists (id, st, u).
    + intros Hst j Hj Hid. specialize (Hlive Hst j Hj Hid). lia.
Qed.

Lemma world_ok_step w w' : world_ok w -> contact_step w w' -> world_ok w'.
Proof.
  intros Hok Hs. destruct Hs;
    [eapply world_ok_submit; [..|exact Hok]|eapply world_ok_claim; [..|exact Hok]|eapply world_ok_no_claim; [..|exact Hok]
    |eapply world_ok_bind; [..|exact Hok]|eapply world_ok_finish; [..|exact Hok]|eapply world_ok_abandon; [..|exact Hok]
    |eapply world_ok_cancel; [..|exact Hok]|eapply world_ok_deleted; [..|exact Hok]|eapply world_ok_restore; [..|exact Hok]];
    try eassumption; lia.
Qed.
Lemma world_ok_run t c w : table_ok t -> rtc contact_step (quiet t c) w -> world_ok w.
Proof.
  intros Hok Hr. assert (world_ok (quiet t c)) as H0 by (split; [done|constructor|constructor|constructor|constructor]).
  induction Hr as [|w1 w2 w3 Hs _ IH]; [done|]. by apply IH, (world_ok_step w1).
Qed.

(** A revoked request that no deletion may put back stays revoked. *)
Lemma revoked_step w w' id o :
  world_ok w -> contact_step w w' -> rows (w_table w) !! id = Some o -> ob_status o = "revoked" ->
  id ∉ concat (map entry_ids (w_deletions w)) ->
  exists o', rows (w_table w') !! id = Some o' /\ ob_status o' = "revoked" /\ same_draft o o' /\
    id ∉ concat (map entry_ids (w_deletions w')).
Proof.
  intros [Hok Hjs Hk Hds Hdj] Hs Hl Hst Hid.
  assert (forall l, leased id l (w_table w) = None) as Hnone.
  { intros l. destruct (leased id l (w_table w)) as [o1|] eqn:H1; [|done]. apply leased_Some in H1 as [Hl1 Hle].
    rewrite Hl in Hl1. injection Hl1 as <-. pose proof (ok_lease _ Hok _ _ Hl ltac:(by rewrite Hle)) as Hlive. by rewrite Hst in Hlive. }
  destruct Hs as [c t js ds t1 t2 c' doc application t' r _ _ Hsub|c t js ds t1 t2 t3 c' t' id1 o1 lease _ _ Hcl
    |c t js ds t1 t2 t3 c' t' r _ _ Hcl Hno|c t js1 j js2 ds c' contact subject _|c t js1 j js2 ds c' review outcome t1 t2 t' r _ _ Hf
    | |c t js ds items c' t' previous Hc Hi Hca|c t js ds1 previous ds2 c' _|c t js ds1 previous ds2 c' t' _ Hre]; cbn in *.
  - exists o. apply submit_facts in Hsub as [_ Hrows]; [|done]. split_and!; [|done..].
    pose proof (expire_revoked t1 t id o Hl Hst) as He. destruct Hrows as [->|(id' & o' & Hn & -> & _)]; [done|].
    rewrite lookup_insert_ne; [done|]. intros ->. congruence.
  - exists o. split_and!; [|done..]. apply claim_Some in Hcl as (_ & Hl1 & Hdue & ->).
    pose proof (expire_revoked t1 t id o Hl Hst) as He. cbn. rewrite lookup_insert_ne; [done|]. intros ->.
    rewrite He in Hl1. injection Hl1 as ->. apply due_live in Hdue. by rewrite Hst in Hdue.
  - exists o. split_and!; [|done..]. apply claim_other in Hcl as [->| ->]; [done|by apply expire_revoked|done].
  - exists o. split_and!; [|done..]. destruct (bind_contact_facts (j_id j) (j_lease j) contact subject t Hok) as [_ [->|(o1 & Hx & _ & ->)]]; [done|].
    cbn. rewrite lookup_insert_ne; [done|]. intros <-. by rewrite Hnone in Hx.
  - exists o. split_and!; [|done..]. apply finish_facts in Hf as [_ [->|(o1 & o2 & Hx & _ & _ & _ & -> & _)]]; [done| |done].
    cbn. rewrite lookup_insert_ne; [done|]. intros <-. by rewrite Hnone in Hx.
  - by exists o.
  - destruct (cancel_facts c' items t t' previous Hok) as [_ Hrows Hent _]; [eapply Forall_impl; [exact Hi|]; cbn; lia|done|].
    specialize (Hrows id). rewrite Hl in Hrows. destruct (rows t' !! id) as [o'|]; [|done]. destruct Hrows as [Hd Hcase].
    exists o'. split_and!; [done|by destruct Hcase as [->|[? _]]|done|]. rewrite not_elem_of_app. split; [|done].
    intros ([[i st] u] & Heq & Hin)%list_elem_of_fmap. cbn in Heq. subst i. destruct (Hent _ _ _ Hin) as (o1 & _ & Hl1 & Hs1 & Hne & _). congruence.
  - exists o. split_and!; [done..|]. rewrite map_app, concat_app in *. cbn in Hid. set_solver.
  - apply restore_facts in Hre as [_ Hrows]; [|done]. specialize (Hrows id). rewrite Hl in Hrows.
    rewrite map_app, concat_app in *. cbn in Hid. destruct (rows t' !! id) as [o'|]; [|done]. destruct Hrows as [Hd Hcase].
    exists o'. split_and!; [done| |done|set_solver]. destruct Hcase as [->|(_ & _ & u & Hin)]; [done|]. exfalso. apply Hid.
    rewrite !elem_of_app. right. left. apply list_elem_of_fmap. by exists (id, ob_status o', u).
Qed.

(** C24: However deliveries, submissions, expiry, cancellations and their undoing interleave, no two
    deliveries in progress hold the same lease of a request, the table keeps its constraints, and
    recording the outcome of a delivery changes the table only when its request is still the one the
    delivery took under its lease, with the status it had then; otherwise it changes nothing. The clock
    of the steps never goes back. *)
Theorem lease_exclusive t c w :
  table_ok t -> rtc contact_step (quiet t c) w ->
  table_ok (w_table w) /\ NoDup (map key (w_jobs w)) /\
  forall j review outcome t1 t2 t' r,
    j ∈ w_jobs w -> finish (j_id j) (j_lease j) review outcome t1 t2 (w_table w) = (t', r) ->
    t' = w_table w \/
    exists o o', rows (w_table w) !! j_id j = Some o /\ held j o /\ same_draft o o' /\
      t' = Table (<[j_id j := o']> (rows (w_table w))) (sequence (w_table w)).
Proof.
  intros Hok Hr%world_ok_run; [|done]. destruct Hr as [Hok' Hjs Hk _ _]. split_and!; [done..|].
  intros j review outcome t1 t2 t' r Hj Hf. apply finish_facts in Hf as [_ [->|(o & o' & [Hl Hle]%leased_Some & Hd & _ & _ & -> & _)]];
    [by left| |done]. right. rewrite Forall_forall in Hjs. destruct (Hjs j Hj) as (oj & Hlj & Hcase).
  rewrite Hl in Hlj. injection Hlj as <-. exists o, o'. split_and!; [done| |done..]. destruct Hcase as [Hh|[Hn _]]; done.
Qed.

(** C25: A request that was revoked and that no unfinished deletion can put back stays revoked with the
    same content, whatever deliveries, submissions and deletions run afterwards: no late answer of a
    peer revives it. *)
Theorem cancelled_final t c w w' id o :
  table_ok t -> rtc contact_step (quiet t c) w -> rtc contact_step w w' ->
  rows (w_table w) !! id = Some o -> ob_status o = "revoked" -> id ∉ concat (map entry_ids (w_deletions w)) ->
  exists o', rows (w_table w') !! id = Some o' /\ ob_status o' = "revoked" /\ same_draft o o'.
Proof.
  intros Hok Hr%world_ok_run Hrun; [|done]. revert o. induction Hrun as [w|w1 w2 w3 Hs _ IH]; intros o Hl Hst Hid; [by exists o|].
  destruct (revoked_step w1 w2 id o Hr Hs Hl Hst Hid) as (o' & Hl' & Hs' & Hd & Hid').
  destruct (IH (world_ok_step _ _ Hr Hs) o' Hl' Hs' Hid') as (o2 & Hl2 & Hs2 & Hd2). exists o2. split_and!; [done..|].
  unfold same_draft in *. congruence.
Qed.
End contact_store_facts.
