(* ===== verification/Sqlite.v ===== *)
(** * Schemas that change

    As much of SQLite as the migrations use: tables with their columns and
    rows, partial unique indexes on one column, the version of the schema.  A
    row is its columns that are not NULL.  Tables and indexes of SQLite itself
    are left out, as [name NOT LIKE 'sqlite_%'] does. *)
From S2P Require Import Prelude RustStr Errors.

Inductive value := Integer (z : Z) | Text (s : string).
#[export] Instance value_eq_dec : EqDecision value.
Proof. solve_decision. Defined.
Abbreviation values := (gmap string value).
Record sql_table := SqlTable { columns : list string; records : list values }.
(** [CREATE UNIQUE INDEX .. ON table(column) WHERE status IN (..)] *)
Record sql_index := SqlIndex { ix_table : string; ix_column : string; ix_statuses : list string }.
Record sqlite := Sqlite { tables : gmap string sql_table; indexes : gmap string sql_index; user_version : Z }.
Definition sql_error : Type := sqlite_kind * string.
Definition sql_fails {A} (message : string) : result sql_error A := Err (OtherSqlite, message).

Definition objects (s : sqlite) : Z := Z.of_nat (size (tables s) + size (indexes s)).
Definition set_version (v : Z) (s : sqlite) : sqlite := Sqlite (tables s) (indexes s) v.
Definition with_table (t : string) (f : sql_table -> result sql_error sql_table) (s : sqlite) : result sql_error sqlite :=
  match tables s !! t with
  | None => sql_fails ("no such table: " +:+ t)
  | Some x => let? x := f x in Ok (Sqlite (<[t := x]> (tables s)) (indexes s) (user_version s))
  end.
(** [ALTER TABLE .. ADD COLUMN]: NULL in every row. *)
Definition add_column (t c : string) : sqlite -> result sql_error sqlite :=
  with_table t (fun x => throw (OtherSqlite, "duplicate column name: " +:+ c) when mem c (columns x);;
    Ok (SqlTable (columns x ++ [c]) (records x))).
Definition add_columns (t : string) (cs : list string) (s : sqlite) : result sql_error sqlite := try_fold (fun s c => add_column t c s) s cs.
Definition drop_table_if_exists (t : string) (s : sqlite) : sqlite :=
  Sqlite (delete t (tables s)) (filter (fun e => ix_table e.2 <> t) (indexes s)) (user_version s).
Definition named (name : string) (s : sqlite) : bool :=
  bool_decide (is_Some (tables s !! name)) || bool_decide (is_Some (indexes s !! name)).
Definition rename_table (a b : string) (s : sqlite) : result sql_error sqlite :=
  match tables s !! a with
  | None => sql_fails ("no such table: " +:+ a)
  | Some x =>
      throw (OtherSqlite, "there is already another table or index with this name: " +:+ b) when named b s;;
      Ok (Sqlite (<[b := x]> (delete a (tables s)))
        ((fun i => if String.eqb (ix_table i) a then SqlIndex b (ix_column i) (ix_statuses i) else i) <$> indexes s) (user_version s))
  end.
Definition drop_index (i : string) (s : sqlite) : result sql_error sqlite :=
  match indexes s !! i with
  | None => sql_fails ("no such index: " +:+ i)
  | Some _ => Ok (Sqlite (tables s) (delete i (indexes s)) (user_version s))
  end.
(** The values an index holds, of the rows it covers; NULLs are distinct. *)
Definition covered (statuses : list string) (r : values) : bool :=
  match r !! "status" with Some (Text s) => mem s statuses | _ => false end.
Definition indexed (ix : sql_index) (x : sql_table) : list value :=
  omap (fun r => if covered (ix_statuses ix) r then r !! ix_column ix else None) (records x).
Definition index_holds (ix : sql_index) (x : sql_table) : Prop := NoDup (indexed ix x).
Definition create_unique_index (name : string) (ix : sql_index) (s : sqlite) : result sql_error sqlite :=
  throw (OtherSqlite, "there is already a table or index named " +:+ name) when named name s;;
  match tables s !! ix_table ix with
  | None => sql_fails ("no such table: main." +:+ ix_table ix)
  | Some x =>
      throw (OtherSqlite, "no such column: " +:+ ix_column ix) when negb (mem (ix_column ix) (columns x) && mem "status" (columns x));;
      throw (ConstraintViolation, "UNIQUE constraint failed: " +:+ ix_table ix +:+ "." +:+ ix_column ix) when negb (bool_decide (index_holds ix x));;
      Ok (Sqlite (tables s) (<[name := ix]> (indexes s)) (user_version s))
  end.
(** [prepare("SELECT columns FROM table LIMIT 0")] *)
Definition prepare_select (cs : list string) (t : string) (s : sqlite) : result sql_error unit :=
  match tables s !! t with
  | None => sql_fails ("no such table: " +:+ t)
  | Some x =>
      match List.find (fun c => negb (mem c (columns x))) cs with
      | Some c => sql_fails ("no such column: " +:+ c)
      | None => Ok tt
      end
  end.

(** ** What the statements do *)
Lemma add_columns_Ok t cs s x :
  tables s !! t = Some x -> NoDup (columns x ++ cs) ->
  add_columns t cs s = Ok (Sqlite (<[t := SqlTable (columns x ++ cs) (records x)]> (tables s)) (indexes s) (user_version s)).
Proof.
  unfold add_columns. revert s x. induction cs as [|c cs IH]; intros s x Hx Hnd; cbn [try_fold].
  { rewrite app_nil_r. destruct x, s. cbn in *. by rewrite insert_id. }
  unfold add_column at 1, with_table. rewrite Hx.
  assert (Hc : mem c (columns x) = false).
  { apply not_true_iff_false. rewrite mem_true. intros Hin. apply NoDup_app in Hnd as (_ & Hd & _). apply (Hd c Hin). set_solver. }
  rewrite Hc. rewrite (IH _ (SqlTable (columns x ++ [c]) (records x))); cbn.
  - by rewrite insert_insert_eq, <- app_assoc.
  - by rewrite lookup_insert_eq.
  - by rewrite <- app_assoc.
Qed.
Lemma prepare_select_Ok cs t s x : tables s !! t = Some x -> (forall c, c ∈ cs -> c ∈ columns x) -> prepare_select cs t s = Ok tt.
Proof.
  intros Hx Hcs. unfold prepare_select. rewrite Hx. destruct (List.find _ _) as [c|] eqn:Hf; [|done].
  apply find_some in Hf as [Hin Hn]. apply negb_true_iff in Hn. apply not_true_iff_false in Hn. exfalso. apply Hn, mem_true, Hcs, list_elem_of_In, Hin.
Qed.
Lemma prepare_select_columns cs t s : prepare_select cs t s = Ok tt -> exists x, tables s !! t = Some x /\ forall c, c ∈ cs -> c ∈ columns x.
Proof.
  unfold prepare_select. destruct (tables s !! t) as [x|]; [|done]. destruct (List.find _ _) as [c|] eqn:Hf; [done|]. intros _.
  exists x. split; [done|]. intros c Hc. pose proof (find_none _ _ Hf c) as Hn. apply mem_true, negb_false_iff, Hn, list_elem_of_In, Hc.
Qed.
