(* ===== verification/ContactDb.v ===== *)
(** * Opening the contact database ([src/contact/storage.rs])

    The file is created or checked, its schema is created or brought to
    version 5 in one transaction, and a system service leaves the files to the
    owner of the directory. *)
From S2P Require Import Prelude RustStr Json Crates Errors ContactStore Sqlite.

(** ** The schema and its migrations *)
Definition COLUMNS : list string :=
  ["id"; "target_name"; "contact_id"; "contact_subject"; "description"; "requested_capabilities"; "offered_capabilities";
   "requested_access"; "offers"; "application_id"; "status"; "expired_after"; "delivery_deadline"; "remote_expired_after";
   "next_attempt_at"; "attempt_count"; "lease_until"; "review_id"; "review_subject"; "review_method"; "review_path";
   "last_checked_at"; "error_message"; "created_at"; "updated_at"].
Definition OLD : string := "outbound_contact_requests".
Definition TABLE : string := "outbound_contact_request".
Definition OLD_INDEX : string := "outbound_contact_requests_pending_target".
Definition INDEX : string := "outbound_contact_request_pending_target".
Definition pending_target (t : string) : sql_index := SqlIndex t "target_name" ["queued"; "pending"].
(** [sql/schema.sql] *)
Definition create_schema (s : sqlite) : result sql_error sqlite :=
  throw (OtherSqlite, "table " +:+ TABLE +:+ " already exists") when named TABLE s;;
  create_unique_index INDEX (pending_target TABLE) (Sqlite (<[TABLE := SqlTable COLUMNS []]> (tables s)) (indexes s) (user_version s)).
(** [sql/migrations] *)
Definition v2_bind_contact_generation (s : sqlite) : result sql_error sqlite :=
  let? s := add_columns OLD ["contact_id"; "contact_subject"] s in
  Ok (drop_table_if_exists "saved_contacts" s).
Definition v3_rename_outbound_request (s : sqlite) : result sql_error sqlite :=
  let? s := rename_table OLD TABLE s in
  let? s := drop_index OLD_INDEX s in
  create_unique_index INDEX (pending_target TABLE) s.
Definition v4_add_permission_snapshots (s : sqlite) : result sql_error sqlite := add_columns TABLE ["requested_access"; "offers"] s.
Definition v5_add_review_tracking (s : sqlite) : result sql_error sqlite :=
  add_columns TABLE ["review_id"; "review_subject"; "review_method"; "review_path"] s.

(** The transaction. *)
Definition sql {A} (r : result sql_error A) : ContactResult A := map_err (fun e => storage e.1 e.2) r.
Definition migrate_when (b : bool) (v : Z) (f : sqlite -> result sql_error sqlite) (s : sqlite) : ContactResult sqlite :=
  if b then let? s := sql (f s) in Ok (set_version v s) else Ok s.
Definition in_range (a b v : Z) : bool := (a <=? v) && (v <=? b).
Definition first_version (s : sqlite) : ContactResult sqlite :=
  let version := user_version s in
  if version =? 0 then
    throw (fail 500 "unrecognized contact database") when negb (objects s =? 0);;
    let? s := sql (create_schema s) in Ok (set_version 5 s)
  else if version =? 1 then
    let? s := sql (v2_bind_contact_generation s) in Ok (set_version 2 s)
  else
    throw (fail 500 "unsupported contact database version") when negb (in_range 2 5 version);;
    Ok s.
Definition upgrade (s : sqlite) : ContactResult sqlite :=
  let version := user_version s in
  let? s := first_version s in
  let? s := migrate_when ((version =? 1) || (version =? 2)) 3 v3_rename_outbound_request s in
  let? s := migrate_when (in_range 1 3 version) 4 v4_add_permission_snapshots s in
  let? s := migrate_when (in_range 1 4 version) 5 v5_add_review_tracking s in
  let? _ := sql (prepare_select
    ["id"; "target_name"; "description"; "requested_capabilities"; "offered_capabilities"; "application_id"; "status"; "expired_after";
     "delivery_deadline"; "remote_expired_after"; "next_attempt_at"; "attempt_count"; "lease_until"; "last_checked_at"; "error_message";
     "created_at"; "updated_at"; "contact_id"; "contact_subject"; "requested_access"; "offers"; "review_id"; "review_subject";
     "review_method"; "review_path"] TABLE s) in
  Ok s.

(** ** The files
    A file at a path with its owner, mode, links and contents ([None]: not a
    database); a link, a directory or a socket is [Special]. *)
Record db_file := DbFile { df_owner : Z * Z; df_mode : Z; df_links : Z; df_contents : option sqlite }.
Inductive at_path := Absent | File (f : db_file) | Special.
Record contact_files := ContactFiles { main : at_path; companions : list at_path }.     (* [database-wal], [database-shm] *)
Definition empty_sqlite : sqlite := Sqlite ∅ ∅ 0.
Definition set_mode (mode : Z) (f : db_file) : db_file := DbFile (df_owner f) mode (df_links f) (df_contents f).
Definition set_owner (owner : Z * Z) (f : db_file) : db_file := DbFile owner (df_mode f) (df_links f) (df_contents f).
Definition set_contents (c : sqlite) (f : db_file) : db_file := DbFile (df_owner f) (df_mode f) (df_links f) (Some c).
(** The errors of the system calls on the file: creating the directory and the
    file, giving a new file to the owner of the directory, opening it, and
    setting its mode. *)
Record file_errors := FileErrors {
  fe_directory : option string; fe_create : option string; fe_owner : option string; fe_open : option string; fe_mode : option string }.
Definition no_file_errors : file_errors := FileErrors None None None None None.
Section database.
(** Whether the process is the system service, who it is, and the owner of the
    directory. *)
Variables (root : bool) (process owner : Z * Z).
Variable errors : file_errors.
Definition created_file : db_file := DbFile process 384 1 (Some empty_sqlite).       (* 0o600 *)
(** The file that is opened. *)
Definition open_file (f : db_file) : at_path * ContactResult db_file :=
  match fe_open errors with
  | Some e => (File f, Err (fail 500 e))
  | None =>
      if negb (df_links f =? 1) then (File f, Err (fail 500 "contact database must be a single-link regular file"))
      else match fe_mode errors with
           | Some e => (File f, Err (fail 500 e))
           | None => (File (set_mode 384 f), Ok (set_mode 384 f))
           end
  end.
Definition contact_file (p : at_path) : at_path * ContactResult db_file :=
  match fe_directory errors with
  | Some e => (p, Err (fail 500 e))
  | None =>
      match p with
      | Special => (p, Err (fail 500 "contact database must be a regular file"))
      | Absent =>
          match fe_create errors with
          | Some e => (p, Err (fail 500 e))
          | None =>
              if root then
                match fe_owner errors with
                | Some e => (File created_file, Err (fail 500 e))
                | None => open_file (set_owner owner created_file)
                end
              else open_file created_file
          end
      | File f => open_file f
      end
  end.
(** A system service leaves the files to the owner of the directory. *)
Definition hand_back (p : at_path) : ContactResult at_path :=
  match p with
  | Absent => Ok Absent
  | Special => Err (fail 500 "contact database files must be single-link regular files")
  | File f =>
      throw (fail 500 "contact database files must be single-link regular files") when negb (df_links f =? 1);;
      Ok (File (set_owner owner f))
  end.
Fixpoint hand_back_all (ps : list at_path) : list at_path * ContactResult unit :=
  match ps with
  | [] => ([], Ok tt)
  | p :: ps =>
      match hand_back p with
      | Err e => (p :: ps, Err e)
      | Ok q => let '(qs, r) := hand_back_all ps in (q :: qs, r)
      end
  end.
Definition database (fs : contact_files) : contact_files * ContactResult sqlite :=
  match contact_file (main fs) with
  | (p, Err e) => (ContactFiles p (companions fs), Err e)
  | (p, Ok f) =>
      match df_contents f with
      | None => (ContactFiles p (companions fs), Err (storage OtherSqlite "file is not a database"))
      | Some s =>
          match upgrade s with
          | Err e => (ContactFiles p (companions fs), Err e)
          | Ok s =>
              let p := File (set_contents s f) in
              if root then
                match hand_back_all (p :: companions fs) with
                | (q :: qs, Ok _) => (ContactFiles q qs, Ok s)
                | (q :: qs, Err e) => (ContactFiles q qs, Err e)
                | ([], _) => (ContactFiles p (companions fs), Ok s)
                end
              else (ContactFiles p (companions fs), Ok s)
          end
      end
  end.
End database.

(** ** The databases of every version *)
Definition late_columns (version : Z) : list string :=
  (if 2 <=? version then ["contact_id"; "contact_subject"] else [])
  ++ (if 4 <=? version then ["requested_access"; "offers"] else [])
  ++ (if 5 <=? version then ["review_id"; "review_subject"; "review_method"; "review_path"] else []).
Definition FIRST_COLUMNS : list string :=
  ["id"; "target_name"; "description"; "requested_capabilities"; "offered_capabilities"; "application_id"; "status"; "expired_after";
   "delivery_deadline"; "remote_expired_after"; "next_attempt_at"; "attempt_count"; "lease_until"; "last_checked_at"; "error_message";
   "created_at"; "updated_at"].
Definition table_name (version : Z) : string := if 3 <=? version then TABLE else OLD.
Definition index_name (version : Z) : string := if 3 <=? version then INDEX else OLD_INDEX.
(** A contact database of this version with these rows: its columns in some
    order, its index, and nothing else except the table that version 2 drops. *)
Record contact_database (version : Z) (rs : list values) (s : sqlite) : Prop := ContactDatabase {
  cd_version : user_version s = version;
  cd_table : exists x, tables s !! table_name version = Some x /\ records x = rs /\ columns x ≡ₚ FIRST_COLUMNS ++ late_columns version;
  cd_others : forall t, is_Some (tables s !! t) -> t = table_name version \/ version = 1 /\ t = "saved_contacts";
  cd_index : indexes s = {[index_name version := pending_target (table_name version)]};
  cd_unique : NoDup (indexed (pending_target (table_name version)) (SqlTable [] rs))
}.

(** ** Every migration reaches the next version *)
Lemma all_columns : NoDup (FIRST_COLUMNS ++ late_columns 5).
Proof. apply (bool_decide_unpack _). vm_compute. exact I. Qed.
Lemma added_columns x t v cs s :
  tables s !! t = Some x -> columns x ≡ₚ FIRST_COLUMNS ++ late_columns v -> NoDup (FIRST_COLUMNS ++ late_columns v ++ cs) ->
  add_columns t cs s = Ok (Sqlite (<[t := SqlTable (columns x ++ cs) (records x)]> (tables s)) (indexes s) (user_version s)).
Proof. intros Hx Hc Hnd. apply add_columns_Ok; [done|]. by rewrite Hc, <- app_assoc. Qed.
Lemma migrate_2 rs s : contact_database 1 rs s ->
  exists s', v2_bind_contact_generation s = Ok s' /\ contact_database 2 rs (set_version 2 s').
Proof.
  intros [Hv (x & Hx & Hrs & Hc) Ho Hi Hu]. unfold v2_bind_contact_generation.
  rewrite (added_columns x _ 1) by (done || apply (bool_decide_unpack _); vm_compute; exact I).
  eexists. split; [done|]. split; cbn.
  - done.
  - eexists. rewrite lookup_delete_ne, lookup_insert_eq by done. split; [done|]. split; [done|]. cbn. by rewrite Hc.
  - intros t [y Hy]. left. apply lookup_delete_Some in Hy as [Hne Hy].
    destruct (decide (t = OLD)) as [->|Hn]; [done|]. rewrite lookup_insert_ne in Hy by done.
    destruct (Ho t) as [?|[_ ?]]; [by eexists|done..].
  - rewrite Hi, map_filter_singleton. by rewrite decide_True.
  - done.
Qed.
Lemma migrate_3 rs s : contact_database 2 rs s ->
  exists s', v3_rename_outbound_request s = Ok s' /\ contact_database 3 rs (set_version 3 s').
Proof.
  intros [Hv (x & Hx & Hrs & Hc) Ho Hi Hu]. cbn in Hx, Hi. unfold v3_rename_outbound_request, rename_table. rewrite Hx.
  assert (Hfree : tables s !! TABLE = None).
  { destruct (tables s !! TABLE) eqn:Ht; [|done]. destruct (Ho TABLE) as [?|[? _]]; [by eexists|done..]. }
  assert (Hnone : named TABLE s = false).
  { unfold named. rewrite Hfree, Hi. done. }
  rewrite Hnone. unfold drop_index. cbn [indexes tables user_version].
  set (renamed := (fun i => if String.eqb (ix_table i) OLD then _ else i) <$> indexes s).
  assert (Hr : renamed = {[OLD_INDEX := pending_target TABLE]}) by (unfold renamed; rewrite Hi; reflexivity).
  rewrite Hr, lookup_singleton_eq, delete_singleton_eq.
  unfold create_unique_index, named. cbn [tables indexes ix_table ix_column pending_target user_version].
  rewrite lookup_empty, lookup_insert_ne, lookup_delete_ne, lookup_insert_eq by done.
  assert (Hi' : tables s !! INDEX = None).
  { destruct (tables s !! INDEX) eqn:Ht; [|done]. destruct (Ho INDEX) as [?|[? _]]; [by eexists|done..]. }
  rewrite Hi'. cbn [bool_decide orb].
  assert (Hcols : mem "target_name" (columns x) && mem "status" (columns x) = true).
  { rewrite andb_true_iff, !mem_true, Hc. unfold FIRST_COLUMNS. set_solver. }
  assert (Hh : index_holds (pending_target TABLE) x) by (unfold index_holds, indexed in *; cbn in Hu; by rewrite Hrs).
  rewrite Hcols. cbn [negb]. rewrite (bool_decide_eq_true_2 _ Hh).
  eexists. split; [done|]. split; cbn.
  - done.
  - exists x. by rewrite lookup_insert_eq.
  - intros t [y Hy]. left. destruct (decide (t = TABLE)) as [->|Hn]; [done|]. rewrite lookup_insert_ne in Hy by done.
    apply lookup_delete_Some in Hy as [Hne Hy]. destruct (Ho t) as [?|[? _]]; [by eexists|done..].
  - done.
  - done.
Qed.
Lemma migrate_columns v w cs rs s :
  contact_database v rs s -> table_name v = TABLE -> table_name w = TABLE -> v <> 1 ->
  NoDup (FIRST_COLUMNS ++ late_columns v ++ cs) -> late_columns v ++ cs = late_columns w ->
  exists s', add_columns TABLE cs s = Ok s' /\ contact_database w rs (set_version w s').
Proof.
  intros [Hv (x & Hx & Hrs & Hc) Ho Hi Hu] Ht Hw Hne Hnd Hlate. unfold index_name, table_name in *.
  destruct (3 <=? v); [|done]. destruct (3 <=? w) eqn:Hw3; [|done].
  rewrite (added_columns x _ v) by done. eexists. split; [done|]. split; cbn; unfold index_name, table_name; rewrite ?Hw3.
  - done.
  - eexists. rewrite lookup_insert_eq. split; [done|]. split; [done|]. cbn. by rewrite Hc, <- app_assoc, Hlate.
  - intros t [y Hy]. destruct (decide (t = TABLE)) as [->|Hn]; [by left|]. rewrite lookup_insert_ne in Hy by done.
    destruct (Ho t) as [?|[? _]]; [by eexists|by left|done].
  - done.
  - done.
Qed.
Lemma migrate_4 rs s : contact_database 3 rs s ->
  exists s', v4_add_permission_snapshots s = Ok s' /\ contact_database 4 rs (set_version 4 s').
Proof. intros Hs. apply (migrate_columns 3); try done. apply (bool_decide_unpack _); vm_compute; exact I. Qed.
Lemma migrate_5 rs s : contact_database 4 rs s ->
  exists s', v5_add_review_tracking s = Ok s' /\ contact_database 5 rs (set_version 5 s').
Proof. intros Hs. apply (migrate_columns 4); try done. apply (bool_decide_unpack _); vm_compute; exact I. Qed.

(** ** Opening *)
Lemma current_prepared rs s : contact_database 5 rs s ->
  sql (prepare_select
    ["id"; "target_name"; "description"; "requested_capabilities"; "offered_capabilities"; "application_id"; "status"; "expired_after";
     "delivery_deadline"; "remote_expired_after"; "next_attempt_at"; "attempt_count"; "lease_until"; "last_checked_at"; "error_message";
     "created_at"; "updated_at"; "contact_id"; "contact_subject"; "requested_access"; "offers"; "review_id"; "review_subject";
     "review_method"; "review_path"] TABLE s) = Ok tt.
Proof.
  intros [_ (x & Hx & _ & Hc) _ _ _]. rewrite (prepare_select_Ok _ _ _ x); [done..|]. intros c Hin. rewrite Hc.
  change (c ∈ FIRST_COLUMNS ++ late_columns 5). exact Hin.
Qed.
Lemma upgrade_current rs s : contact_database 5 rs s -> upgrade s = Ok s.
Proof.
  intros Hs. unfold upgrade, first_version, migrate_when. rewrite (cd_version _ _ _ Hs). cbn [Z.eqb Pos.eqb in_range negb andb orb].
  cbn. by rewrite (current_prepared rs).
Qed.
(** The last migrations, one after the other. *)
Lemma finish_5 rs s : contact_database 4 rs s ->
  exists s', (let? s := sql (v5_add_review_tracking s) in Ok (set_version 5 s)) = Ok s' /\ contact_database 5 rs s'.
Proof. intros (s' & -> & Hs)%migrate_5. by eexists. Qed.
Lemma finish_4 rs s : contact_database 3 rs s ->
  exists s', (let? s := sql (v4_add_permission_snapshots s) in Ok (set_version 4 s)) = Ok s' /\ contact_database 4 rs s'.
Proof. intros (s' & -> & Hs)%migrate_4. by eexists. Qed.
Lemma finish_3 rs s : contact_database 2 rs s ->
  exists s', (let? s := sql (v3_rename_outbound_request s) in Ok (set_version 3 s)) = Ok s' /\ contact_database 3 rs s'.
Proof. intros (s' & -> & Hs)%migrate_3. by eexists. Qed.
Lemma finish_2 rs s : contact_database 1 rs s ->
  exists s', (let? s := sql (v2_bind_contact_generation s) in Ok (set_version 2 s)) = Ok s' /\ contact_database 2 rs s'.
Proof. intros (s' & -> & Hs)%migrate_2. by eexists. Qed.
Ltac next lemma Hs := let s1 := fresh "s" in let E := fresh "E" in let Hn := fresh "Hs" in
  destruct (lemma _ _ Hs) as (s1 & E & Hn); rewrite E; clear E.
Lemma upgrade_keeps v rs s : 1 <= v <= 5 -> contact_database v rs s -> exists s', upgrade s = Ok s' /\ contact_database 5 rs s'.
Proof.
  intros Hv Hs. assert (Hcases : v = 1 \/ v = 2 \/ v = 3 \/ v = 4 \/ v = 5) by lia.
  pose proof (cd_version _ _ _ Hs) as Hver. unfold upgrade, first_version, migrate_when. rewrite Hver.
  destruct Hcases as [->|[->|[->|[->| ->]]]]; cbn [Z.eqb Z.leb Z.compare Pos.eqb Pos.compare Pos.compare_cont in_range negb andb orb].
  - next finish_2 Hs. next finish_3 Hs0. next finish_4 Hs1. next finish_5 Hs2. rewrite (current_prepared rs) by done. by eexists.
  - next finish_3 Hs. next finish_4 Hs0. next finish_5 Hs1. rewrite (current_prepared rs) by done. by eexists.
  - next finish_4 Hs. next finish_5 Hs0. rewrite (current_prepared rs) by done. by eexists.
  - next finish_5 Hs. rewrite (current_prepared rs) by done. by eexists.
  - rewrite (current_prepared rs) by done. by eexists.
Qed.
Lemma upgrade_new s : user_version s = 0 -> objects s = 0 -> exists s', upgrade s = Ok s' /\ contact_database 5 [] s'.
Proof.
  intros Hv Ho. destruct s as [t i v]. cbn in *. subst v. unfold objects in Ho. cbn in Ho.
  assert (t = ∅) as -> by (apply map_size_empty_inv; lia). assert (i = ∅) as -> by (apply map_size_empty_inv; lia).
  exists (Sqlite {[TABLE := SqlTable COLUMNS []]} {[INDEX := pending_target TABLE]} 5).
  split; [vm_compute; reflexivity|]. split; try reflexivity.
  - eexists. split; [reflexivity|]. split; [reflexivity|]. apply (bool_decide_unpack _). vm_compute. exact I.
  - intros t [x Hx]. cbn [tables] in Hx. apply lookup_singleton_Some in Hx as [<- _]. by left.
  - constructor.
Qed.
Lemma upgrade_refused s : user_version s = 0 /\ objects s <> 0 \/ ~ 0 <= user_version s <= 5 -> is_err (upgrade s) = true.
Proof.
  unfold upgrade, first_version, in_range. intros [[-> Ho]|Hv].
  - cbn. destruct (Z.eqb_spec (objects s) 0); done.
  - destruct (Z.eqb_spec (user_version s) 0); [lia|]. destruct (Z.eqb_spec (user_version s) 1); [lia|].
    destruct (2 <=? user_version s) eqn:H2, (user_version s <=? 5) eqn:H5; simplify_bool; try done. lia.
Qed.

(** The files that a system service can leave to the owner. *)
Definition plain_file (p : at_path) : Prop := match p with Absent => True | File f => df_links f = 1 | Special => False end.
Definition handed_back (owner : Z * Z) (p : at_path) : at_path := match p with File f => File (set_owner owner f) | p => p end.
Lemma hand_back_all_plain owner ps : Forall plain_file ps -> hand_back_all owner ps = (map (handed_back owner) ps, Ok tt).
Proof.
  induction 1 as [|p ps Hp _ IH]; [done|]. cbn. destruct p as [|f|]; cbn in *; [by rewrite IH| |done].
  rewrite Hp. cbn. by rewrite IH.
Qed.
Definition opened (root : bool) (owner : Z * Z) (s : sqlite) (f : db_file) (ps : list at_path) : contact_files :=
  if root then ContactFiles (File (set_owner owner (set_contents s f))) (map (handed_back owner) ps)
  else ContactFiles (File (set_contents s f)) ps.
Lemma database_after root process owner errors fs p f s s' :
  contact_file root process owner errors (main fs) = (p, Ok f) -> df_contents f = Some s -> df_links f = 1 -> upgrade s = Ok s' ->
  Forall plain_file (companions fs) -> database root process owner errors fs = (opened root owner s' f (companions fs), Ok s').
Proof.
  intros Hf Hs Hl Hu Hplain. unfold database, opened. rewrite Hf, Hs, Hu. destruct root; [|done].
  rewrite hand_back_all_plain; [done|]. by constructor.
Qed.
Lemma opened_again root process owner s f ps :
  df_links f = 1 -> df_mode f = 384 -> Forall plain_file ps -> upgrade s = Ok s ->
  database root process owner no_file_errors (opened root owner s f ps) = (opened root owner s f ps, Ok s).
Proof.
  intros Hl Hm Hplain Hu. destruct f as [o m l c]. cbn in Hl, Hm. subst.
  destruct root.
  - rewrite (database_after _ _ _ _ _ (File (DbFile owner 384 1 (Some s))) (DbFile owner 384 1 (Some s)) s s); try done.
    + unfold opened. cbn. rewrite map_map. f_equal. f_equal. apply map_ext. by intros [].
    + cbn. apply Forall_fmap. eapply Forall_impl; [exact Hplain|]. by intros [].
  - by rewrite (database_after _ _ _ _ _ (File (DbFile o 384 1 (Some s))) (DbFile o 384 1 (Some s)) s s).
Qed.

(** What is at the path of the database before it is opened: nothing, or a file
    whose contents are a contact database of some version, with these rows. *)
Definition contact_content (fs : contact_files) (rs : list values) : Prop :=
  match main fs with
  | Absent => rs = []
  | File f => df_links f = 1 /\ exists s v, df_contents f = Some s /\
      (1 <= v <= 5 /\ contact_database v rs s \/ user_version s = 0 /\ objects s = 0 /\ rs = [])
  | Special => False
  end.

(** The file that is opened holds what was there, or is new. *)
Lemma contact_file_content root process owner errors fs rs p r :
  contact_content fs rs -> contact_file root process owner errors (main fs) = (p, r) ->
  contact_content (ContactFiles p (companions fs)) rs /\
  match r with
  | Ok f => p = File f /\ df_links f = 1 /\ df_mode f = 384 /\ exists s s', df_contents f = Some s /\ upgrade s = Ok s' /\ contact_database 5 rs s'
  | Err _ => errors <> no_file_errors
  end.
Proof.
  intros Hc. assert (Hopen : forall f, contact_content (ContactFiles (File f) (companions fs)) rs -> open_file errors f = (p, r) ->
    contact_content (ContactFiles p (companions fs)) rs /\
    match r with
    | Ok f => p = File f /\ df_links f = 1 /\ df_mode f = 384 /\ exists s s', df_contents f = Some s /\ upgrade s = Ok s' /\ contact_database 5 rs s'
    | Err _ => errors <> no_file_errors
    end).
  { intros f Hf. unfold open_file. destruct (fe_open errors) as [e|] eqn:He; [intros [= <- <-]; split; [done|intros ->; done]|].
    pose proof Hf as (Hl & s & v & Hs & Hcases). rewrite Hl. cbn.
    destruct (fe_mode errors) as [e|] eqn:Hm; intros [= <- <-]; [split; [done|intros ->; done]|].
    split; [split; [done|by exists s, v]|]. split_and!; try done. exists s.
    destruct Hcases as [[Hv Hcd]|(Hv & Ho & ->)].
    - destruct (upgrade_keeps _ _ _ Hv Hcd) as (s' & ? & ?). by exists s'.
    - destruct (upgrade_new s Hv Ho) as (s' & ? & ?). by exists s'. }
  unfold contact_file. destruct (fe_directory errors) as [e|] eqn:He.
  { intros [= <- <-]. destruct fs. split; [done|intros ->; done]. }
  destruct fs as [[|f|] cs]; unfold contact_content in Hc; cbn [main companions] in *; [|by apply Hopen|done].
  subst rs. assert (Hnew : forall o, contact_content (ContactFiles (File (set_owner o (created_file process))) cs) []).
  { intros o. split; [done|]. exists empty_sqlite, 0. split; [done|]. by right. }
  destruct (fe_create errors) as [e|] eqn:Hcr; [intros [= <- <-]; split; [done|intros ->; done]|].
  destruct root; [|apply Hopen, (Hnew process)].
  destruct (fe_owner errors) as [e|] eqn:Ho; [intros [= <- <-]; split; [apply (Hnew process)|intros ->; done]|apply Hopen, Hnew].
Qed.

(** C29: When the system calls on its file succeed, opening the contact database works on nothing, an
    empty file and a database of any of the five versions, and leaves version 5 with the same rows, the
    index on open targets and every column, in a single-link file of mode 0600 that a system service
    gives to the owner of the directory; opening it again changes nothing. When one of them fails
    (creating, giving away, opening or changing the mode), what is at the path still holds the same
    rows, and the other files are untouched. *)
Theorem contact_database_opens root process owner errors fs rs :
  contact_content fs rs -> Forall plain_file (companions fs) ->
  (errors = no_file_errors ->
   exists s fs', database root process owner errors fs = (fs', Ok s) /\ contact_database 5 rs s
    /\ (exists f, main fs' = File f /\ df_contents f = Some s /\ df_links f = 1 /\ df_mode f = 384 /\ (root = true -> df_owner f = owner))
    /\ database root process owner errors fs' = (fs', Ok s)) /\
  (forall fs' e, database root process owner errors fs = (fs', Err e) -> contact_content fs' rs /\ companions fs' = companions fs).
Proof.
  intros Hc Hplain. destruct (contact_file root process owner errors (main fs)) as [p r] eqn:Hf.
  destruct (contact_file_content _ _ _ _ _ _ _ _ Hc Hf) as [Hp Hr]. destruct r as [f|e].
  - destruct Hr as (-> & Hl & Hm & s & s' & Hs & Hu & Hcd).
    assert (Hd := database_after _ _ _ _ _ _ _ _ _ Hf Hs Hl Hu Hplain). rewrite Hd. split; [|done]. intros ->.
    exists s', (opened root owner s' f (companions fs)). split; [done|]. split; [done|]. split.
    + unfold opened. destruct root; eexists; (split; [done|]); cbn; done.
    + apply opened_again; try done. by eapply upgrade_current.
  - split; [done|]. unfold database. rewrite Hf. by intros fs' e' [= <- <-].
Qed.
