(* ===== verification/ContactSql.v ===== *)
(** * The statements on contact requests, on rows

    The same transactions as [ContactStore], as the SQL text says them: a row is
    its columns that are not NULL, conditions have three truth values, and every
    changed row is checked against the constraints of
    [src/contact/sql/schema.sql] and against the other rows.  Integers are
    unbounded.  The theorem: [ContactStore] is what these statements do. *)
From S2P Require Import Prelude RustStr Json Crates Errors ContactStore Sqlite ContactDb.

(** ** Expressions *)
Abbreviation cell := (option value).
Abbreviation truth := (option bool).
Definition num (z : Z) : cell := Some (Integer z).
Definition txt (s : string) : cell := Some (Text s).
Definition value_eqb (x y : value) : bool := bool_decide (x = y).
Definition value_leb (x y : value) : bool :=
  match x, y with
  | Integer a, Integer b => a <=? b
  | Integer _, Text _ => true
  | Text _, Integer _ => false
  | Text a, Text b => String.leb a b
  end.
Definition sql_and (a b : truth) : truth :=
  match a, b with
  | Some false, _ | _, Some false => Some false
  | Some true, Some true => Some true
  | _, _ => None
  end.
Definition sql_not (a : truth) : truth := negb <$> a.
Definition sql_or (a b : truth) : truth := sql_not (sql_and (sql_not a) (sql_not b)).
Definition compare_cells (f : value -> value -> bool) (a b : cell) : truth :=
  match a, b with Some x, Some y => Some (f x y) | _, _ => None end.
Definition sql_eq : cell -> cell -> truth := compare_cells value_eqb.
Definition sql_le : cell -> cell -> truth := compare_cells value_leb.
Definition sql_in (a : cell) (texts : list string) : truth := (fun v => existsb (fun s => value_eqb v (Text s)) texts) <$> a.
Definition is_null (a : cell) : truth := Some (negb (bool_decide (is_Some a))).
Definition sql_min (a b : cell) : cell := match a, b with Some x, Some y => Some (if value_leb x y then x else y) | _, _ => None end.
Definition sql_add (a b : cell) : cell := match a, b with Some (Integer x), Some (Integer y) => num (x + y) | _, _ => None end.
Definition holds (t : truth) : bool := match t with Some true => true | _ => false end.
Definition sql_case (t : truth) (a b : cell) : cell := if holds t then a else b.

(** ** Rows *)
Definition set_cell (c : string) (v : cell) (r : values) : values := match v with Some x => <[c := x]> r | None => delete c r end.
(** [SET c = v, ..], and the columns of an [INSERT]. *)
Definition assign (us : list (string * cell)) (r : values) : values := foldr (fun u r => set_cell u.1 u.2 r) r us.
(** [NOT NULL] and [CHECK]. *)
Definition int_column (r : values) (c : string) : bool := match r !! c with Some (Integer _) => true | _ => false end.
Definition text_column (r : values) (c : string) (null : bool) (p : string -> bool) : bool :=
  match r !! c with Some (Text s) => p s | Some (Integer _) => false | None => null end.
Record contact_rows := ContactRows { cr_rows : list values; cr_sequence : Z }.

Section statements.
Context `{SerdeJson}.
Variable constraint_text column_text : string.
Definition check_row (r : values) : bool :=
  text_column r "target_name" false (fun s => negb (String.eqb s ""))
  && text_column r "description" false (fun s => Nat.leb (length (chars s)) 80)
  && text_column r "requested_capabilities" false is_json_array
  && text_column r "offered_capabilities" false is_json_array
  && text_column r "application_id" true (fun s => Nat.eqb (length (chars s)) 64)
  && text_column r "requested_access" true is_json_object
  && text_column r "offers" true is_json_object
  && text_column r "status" false (fun s => mem s STATUSES)
  && forallb (int_column r) ["expired_after"; "delivery_deadline"; "next_attempt_at"; "attempt_count"; "created_at"; "updated_at"]
  && match r !! "review_id" with Some (Integer id) => 0 <? id | Some (Text _) => false | None => true end.
(** [PRIMARY KEY], [UNIQUE] and the partial index: NULLs are distinct. *)
Definition same_cell (c : string) (r r' : values) : bool := holds (sql_eq (r !! c) (r' !! c)).
Definition conflict (r r' : values) : bool :=
  same_cell "id" r r' || same_cell "application_id" r r'
  || covered ["queued"; "pending"] r && covered ["queued"; "pending"] r' && same_cell "target_name" r r'.
Definition accepts (r : values) (others : list values) : bool := check_row r && negb (existsb (conflict r) others).
Definition violated : Failure := storage ConstraintViolation constraint_text.

(** [UPDATE .. SET .. WHERE ..], row by row. *)
Fixpoint update_rows (set : values -> list (string * cell)) (where_ : values -> truth) (before after : list values) : ContactResult (list values) :=
  match after with
  | [] => Ok before
  | r :: after =>
      if holds (where_ r) then
        let r' := assign (set r) r in
        throw violated when negb (accepts r' (before ++ after));;
        update_rows set where_ (before ++ [r']) after
      else update_rows set where_ (before ++ [r]) after
  end.
Definition sql_update (set : values -> list (string * cell)) (where_ : values -> truth) (db : contact_rows) : ContactResult contact_rows :=
  let? rs := update_rows set where_ [] (cr_rows db) in Ok (ContactRows rs (cr_sequence db)).
Definition sql_insert (us : list (string * cell)) (db : contact_rows) : ContactResult (contact_rows * Z) :=
  let id := cr_sequence db + 1 in
  let r := assign (("id", num id) :: us) ∅ in
  throw violated when negb (accepts r (cr_rows db));;
  Ok (ContactRows (cr_rows db ++ [r]) id, id).
Definition sql_select (where_ : values -> truth) (db : contact_rows) : list values := List.filter (fun r => holds (where_ r)) (cr_rows db).

(** *** [expire_requests] *)
Definition sql_expire (now : Z) : contact_rows -> ContactResult contact_rows :=
  sql_update (fun r => [("status", sql_case (sql_eq (r !! "status") (txt "queued")) (txt "failed") (txt "expired")); ("lease_until", None);
                    ("updated_at", num now); ("error_message", txt "contact request expired")])
         (fun r => sql_and (sql_in (r !! "status") ["queued"; "pending"]) (sql_le (r !! "expired_after") (num now))).

(** *** Submission *)
Definition opt_text (o : option string) : cell := Text <$> o.
Definition opt_num (o : option Z) : cell := Integer <$> o.
Definition sql_submit (expired_at time : Z) (doc : json) (application : ContactResult string) (db : contact_rows) : contact_rows * ContactResult Z :=
  match sql_expire expired_at db with
  | Err e => (db, Err e)
  | Ok db =>
      match (let? target_name := text_of doc "target_name" in
             throw (fail 409 "contact request already pending") when
               negb (bool_decide (sql_select (fun r => sql_and (sql_eq (r !! "target_name") (txt target_name))
                                                     (sql_in (r !! "status") ["queued"; "pending"])) db = []));;
             let? target := text_of doc "target_name" in
             let? description := text_of doc "description" in
             let? application := application in
             let valid_before := opt_num (as_i64 doc.["valid_before"]) in
             sql_insert [("target_name", txt target); ("description", txt description);
                     ("requested_capabilities", txt (to_json_string doc.["requested_capabilities"]));
                     ("offered_capabilities", txt (to_json_string doc.["offered_capabilities"]));
                     ("application_id", txt application); ("status", txt "queued"); ("expired_after", valid_before);
                     ("delivery_deadline", valid_before); ("next_attempt_at", num time); ("created_at", num time); ("updated_at", num time);
                     ("contact_id", opt_num (as_i64 doc.["contact_id"])); ("contact_subject", opt_text (as_str doc.["contact_subject"]));
                     ("requested_access", txt (to_json_string doc.["_requested_access"])); ("offers", txt (to_json_string doc.["_offers"]));
                     ("attempt_count", num 0)] db) with
      | Ok (db, id) => (db, Ok id)
      | Err e => (db, Err e)
      end
  end.

(** *** Delivery *)
Definition order_leb (r r' : values) : bool :=
  if holds (sql_eq (r !! "next_attempt_at") (r' !! "next_attempt_at")) then holds (sql_le (r !! "id") (r' !! "id"))
  else holds (sql_le (r !! "next_attempt_at") (r' !! "next_attempt_at")).
Definition sql_due (now : Z) (r : values) : truth :=
  sql_and (sql_and (sql_and (sql_in (r !! "status") ["queued"; "pending"; "active"]) (sql_le (r !! "next_attempt_at") (num now)))
             (sql_or (sql_eq (r !! "status") (txt "active")) (sql_not (sql_le (r !! "expired_after") (num now)))))
          (sql_or (is_null (r !! "lease_until")) (sql_le (r !! "lease_until") (num now))).
Definition sql_claim (expired_at selected_at leased_at : Z) (db : contact_rows) : contact_rows * ContactResult (option values * Z) :=
  let lease := leased_at + 120 in
  match (let? expired := sql_expire expired_at db in
         match head (sort_by order_leb (sql_select (sql_due selected_at) expired)) with
         | None => Ok (expired, (None, lease))
         | Some job =>
             throw (storage OtherSqlite column_text) when negb (bool_decide (is_Some (job !! "application_id")));;
             let? leased := sql_update (fun _ => [("lease_until", num lease)]) (fun r => sql_eq (r !! "id") (job !! "id")) expired in
             Ok (leased, (Some job, lease))
         end) with
  | Ok (db, job) => (db, Ok job)
  | Err e => (db, Err e)
  end.
Definition under_lease (id lease : Z) (r : values) : truth := sql_and (sql_eq (r !! "id") (num id)) (sql_eq (r !! "lease_until") (num lease)).
Definition sql_bind (id lease contact_id : Z) (subject : string) (db : contact_rows) : contact_rows * ContactResult unit :=
  match sql_update (fun _ => [("contact_id", num contact_id); ("contact_subject", txt subject)])
          (fun r => sql_and (under_lease id lease r) (is_null (r !! "contact_id"))) db with
  | Ok db => (db, Ok tt)
  | Err e => (db, Err e)
  end.
Definition sql_received (receipt : json) (checked_at next_from : Z) (id lease : Z) (db : contact_rows) : ContactResult contact_rows :=
  let? status := text_of receipt "status" in
  let? valid_before := ok_or (fail 500 "panicked") (as_i64 receipt.["valid_before"]) in
  sql_update (fun r => [("status", txt status); ("remote_expired_after", num valid_before);
                    ("expired_after", sql_case (sql_eq (txt status) (txt "pending")) (sql_min (r !! "delivery_deadline") (num valid_before)) (r !! "expired_after"));
                    ("last_checked_at", num checked_at); ("next_attempt_at", num (next_from + if is_str receipt.["status"] "active" then 30 else 3));
                    ("attempt_count", sql_add (r !! "attempt_count") (num 1)); ("error_message", None); ("lease_until", None);
                    ("updated_at", num checked_at)])
         (under_lease id lease) db.
Definition sql_rejected (e : Failure) (checked_at next_from : Z) (id lease : Z) : contact_rows -> ContactResult contact_rows :=
  let '(code, message) := e in
  let reviewing := String.eqb message "need_review" in
  let final := negb reviewing && existsb (Z.eqb code) [400; 403; 404; 409; 410] in
  sql_update (fun r => [("status", sql_case (Some final) (txt "failed") (r !! "status"));
                    ("attempt_count", sql_add (r !! "attempt_count") (sql_case (sql_eq (txt message) (txt "need_review")) (num 0) (num 1)));
                    ("error_message", txt message); ("next_attempt_at", num (next_from + if reviewing then 30 else 5)); ("lease_until", None);
                    ("last_checked_at", num checked_at); ("updated_at", num checked_at)])
         (under_lease id lease).
Definition sql_finish (id lease : Z) (review : option pending_review) (outcome : ContactResult json) (checked_at next_from : Z)
    (db : contact_rows) : contact_rows * ContactResult unit :=
  match (let? db := sql_update (fun _ => [("review_id", opt_num (review_id <$> review)); ("review_subject", opt_text (review_subject <$> review));
                                      ("review_method", opt_text (review_method <$> review)); ("review_path", opt_text (review_path <$> review))])
                      (under_lease id lease) db in
         match outcome with
         | Ok receipt => sql_received receipt checked_at next_from id lease db
         | Err e => sql_rejected e checked_at next_from id lease db
         end) with
  | Ok db => (db, Ok tt)
  | Err e => (db, Err e)
  end.

(** *** Cancellation *)
(** [row.get]: id, status, time and lease. *)
Definition cancelled_row (r : values) : option (Z * string * Z * option Z) :=
  match r !! "id", r !! "status", r !! "updated_at", r !! "lease_until" with
  | Some (Integer id), Some (Text status), Some (Integer updated), Some (Integer lease) => Some (id, status, updated, Some lease)
  | Some (Integer id), Some (Text status), Some (Integer updated), None => Some (id, status, updated, None)
  | _, _, _, _ => None
  end.
Definition sql_cancel_one (st : contact_rows * list (Z * string * Z)) (item : string * Z * Z) :
    ContactResult (contact_rows * list (Z * string * Z)) :=
  let '(db, previous) := st in
  let '(name, checked_at, time) := item in
  let? found := try_map (fun r => ok_or (storage OtherSqlite column_text) (cancelled_row r))
    (sql_select (fun r => sql_and (sql_eq (r !! "target_name") (txt name)) (sql_not (sql_eq (r !! "status") (txt "revoked")))) db) in
  throw (fail 409 "contact delivery is in progress; retry deletion") when
    existsb (fun e => match e.2 with Some lease => checked_at <? lease | None => false end) found;;
  let? db := sql_update (fun _ => [("status", txt "revoked"); ("lease_until", None); ("updated_at", num time)])
               (fun r => sql_eq (r !! "target_name") (txt name)) db in
  Ok (db, previous ++ map fst found).
Definition sql_cancel (items : list (string * Z * Z)) (db : contact_rows) : contact_rows * ContactResult (list (Z * string * Z)) :=
  match try_fold sql_cancel_one (db, []) items with Ok (db, previous) => (db, Ok previous) | Err e => (db, Err e) end.
Definition sql_restore_one (db : contact_rows) (entry : Z * string * Z) : ContactResult contact_rows :=
  let '(id, status, updated) := entry in
  sql_update (fun _ => [("status", txt status); ("updated_at", num updated)])
    (fun r => sql_and (sql_eq (r !! "id") (num id)) (sql_eq (r !! "status") (txt "revoked"))) db.
Definition sql_restore (previous : list (Z * string * Z)) (db : contact_rows) : contact_rows * ContactResult unit :=
  match try_fold sql_restore_one db previous with Ok db => (db, Ok tt) | Err e => (db, Err e) end.
End statements.

(** ** A request as a row *)
Definition cells_of (e : Z * outbound) : list (string * cell) :=
  let '(id, o) := e in let d := ob_draft o in
  [("id", num id); ("target_name", txt (target_name d)); ("contact_id", opt_num (ob_contact_id o));
   ("contact_subject", opt_text (ob_contact_subject o)); ("description", txt (description d));
   ("requested_capabilities", txt (requested_capabilities d)); ("offered_capabilities", txt (offered_capabilities d));
   ("requested_access", opt_text (requested_access d)); ("offers", opt_text (offers d)); ("application_id", opt_text (application_id d));
   ("status", txt (ob_status o)); ("expired_after", num (ob_expired_after o)); ("delivery_deadline", num (delivery_deadline d));
   ("remote_expired_after", opt_num (ob_remote_expired_after o)); ("next_attempt_at", num (ob_next_attempt_at o));
   ("attempt_count", num (ob_attempt_count o)); ("lease_until", opt_num (ob_lease_until o));
   ("review_id", opt_num (review_id <$> ob_review o)); ("review_subject", opt_text (review_subject <$> ob_review o));
   ("review_method", opt_text (review_method <$> ob_review o)); ("review_path", opt_text (review_path <$> ob_review o));
   ("last_checked_at", opt_num (ob_last_checked_at o)); ("error_message", opt_text (ob_error_message o));
   ("created_at", num (created_at d)); ("updated_at", num (ob_updated_at o))].
Definition row_of (e : Z * outbound) : values := assign (cells_of e) ∅.
#[global] Arguments row_of : simpl never.

Lemma assign_lookup us r c : assign us r !! c = match assoc c us with Some v => v | None => r !! c end.
Proof.
  induction us as [|[c' v] us IH]; [done|]. cbn [assign foldr assoc fst snd]. fold (assign us r).
  unfold set_cell. destruct (String.eqb_spec c c') as [->|Hne].
  - destruct v; [apply lookup_insert_eq|apply lookup_delete_eq].
  - destruct v; [rewrite lookup_insert_ne by done|rewrite lookup_delete_ne by done]; exact IH.
Qed.
Lemma row_lookup e c : row_of e !! c = default None (assoc c (cells_of e)).
Proof. unfold row_of. rewrite assign_lookup. by destruct (assoc c _). Qed.
(** Two ways to write a row agree when they agree in each column. *)
Lemma assign_row us e e' :
  (forall c, match assoc c us with Some v => v | None => default None (assoc c (cells_of e)) end = default None (assoc c (cells_of e'))) ->
  assign us (row_of e) = row_of e'.
Proof. intros Hc. apply map_eq. intros c. rewrite assign_lookup, !row_lookup. apply Hc. Qed.
Ltac by_column c :=
  cbn [assoc cells_of];
  repeat match goal with |- context [String.eqb c ?x] => destruct (String.eqb_spec c x) as [->|]; [cbn; try reflexivity|] end; try reflexivity.
Ltac same_row := apply assign_row; intros ?c; match goal with c : string |- _ => by_column c end.
Lemma row_id e : row_of e !! "id" = num e.1.
Proof. destruct e. by rewrite row_lookup. Qed.

(** Conditions on the columns of a request. *)
Lemma value_eqb_text a b : value_eqb (Text a) (Text b) = String.eqb a b.
Proof. unfold value_eqb. destruct (String.eqb_spec a b) as [->|Hne]; [by apply bool_decide_eq_true|]. apply bool_decide_eq_false. congruence. Qed.
Lemma value_eqb_int a b : value_eqb (Integer a) (Integer b) = (a =? b).
Proof. unfold value_eqb. destruct (Z.eqb_spec a b) as [->|Hne]; [by apply bool_decide_eq_true|]. apply bool_decide_eq_false. congruence. Qed.
Lemma sql_eq_text a b : sql_eq (txt a) (txt b) = Some (String.eqb a b).
Proof. cbn. by rewrite value_eqb_text. Qed.
Lemma sql_eq_num a b : sql_eq (num a) (num b) = Some (a =? b).
Proof. cbn. by rewrite value_eqb_int. Qed.
Lemma sql_le_num a b : sql_le (num a) (num b) = Some (a <=? b).
Proof. done. Qed.
Lemma sql_in_text a l : sql_in (txt a) l = Some (mem a l).
Proof.
  cbn. f_equal. induction l as [|b l IH]; [done|]. cbn [existsb]. rewrite value_eqb_text, IH.
  destruct (String.eqb_spec a b) as [->|Hne]; cbn; symmetry; [apply mem_true; by left|].
  destruct (mem a l) eqn:Hm; [apply mem_true; right; by apply mem_true|]. apply not_true_iff_false. rewrite mem_true, elem_of_cons.
  intros [?|Hin]; [done|]. apply mem_true in Hin. congruence.
Qed.
Lemma holds_and a b : holds (sql_and a b) = holds a && holds b.
Proof. by destruct a as [[]|], b as [[]|]. Qed.
Lemma holds_or a b : holds (sql_or a b) = holds a || holds b.
Proof. by destruct a as [[]|], b as [[]|]. Qed.
Lemma holds_some b : holds (Some b) = b.
Proof. by destruct b. Qed.
Lemma case_some b x y : sql_case (Some b) x y = if b then x else y.
Proof. by destruct b. Qed.
Lemma sql_not_some b : sql_not (Some b) = Some (negb b).
Proof. done. Qed.
Create Rewrite HintDb sql.
#[local] Hint Rewrite sql_eq_text sql_eq_num sql_le_num sql_in_text holds_and holds_or holds_some case_some sql_not_some : sql.
Ltac columns_of := repeat (rewrite !row_lookup; cbn [assoc cells_of String.eqb Ascii.eqb Bool.eqb default Datatypes.id]); autorewrite with sql.
Lemma expire_where now e : holds (sql_and (sql_in (row_of e !! "status") ["queued"; "pending"]) (sql_le (row_of e !! "expired_after") (num now)))
  = open_status (ob_status e.2) && (ob_expired_after e.2 <=? now).
Proof. destruct e as [id o]. by columns_of. Qed.

Ltac write_row := columns_of; same_row.
Lemma expire_set now id o : open_status (ob_status o) && (ob_expired_after o <=? now) = true ->
  assign [("status", sql_case (sql_eq (row_of (id, o) !! "status") (txt "queued")) (txt "failed") (txt "expired")); ("lease_until", None);
          ("updated_at", num now); ("error_message", txt "contact request expired")] (row_of (id, o)) = row_of (id, expire_row now o).
Proof. intros He. unfold expire_row. rewrite He. columns_of. same_row. by destruct (String.eqb (ob_status o) "queued"). Qed.
Lemma lease_set lease id o : assign [("lease_until", num lease)] (row_of (id, o)) = row_of (id, set_lease (Some lease) o).
Proof. same_row. Qed.
Lemma bind_set contact subject id o :
  assign [("contact_id", num contact); ("contact_subject", txt subject)] (row_of (id, o)) = row_of (id, set_contact contact subject o).
Proof. same_row. Qed.
Lemma review_set review id o :
  assign [("review_id", opt_num (review_id <$> review)); ("review_subject", opt_text (review_subject <$> review));
          ("review_method", opt_text (review_method <$> review)); ("review_path", opt_text (review_path <$> review))] (row_of (id, o))
  = row_of (id, set_review review o).
Proof. same_row. Qed.
Lemma revoke_set time id o :
  assign [("status", txt "revoked"); ("lease_until", None); ("updated_at", num time)] (row_of (id, o))
  = row_of (id, set_lease None (set_status "revoked" time o)).
Proof. same_row. Qed.
Lemma restore_set status updated id o :
  assign [("status", txt status); ("updated_at", num updated)] (row_of (id, o)) = row_of (id, set_status status updated o).
Proof. same_row. Qed.

(** ** Rows and constraints *)
Section stored.
Context `{SerdeJson}.
Variable constraint_text column_text : string.
Local Abbreviation violated := (violated constraint_text).

Definition review_positive (o : outbound) : bool := match ob_review o with Some r => 0 <? review_id r | None => true end.
Lemma check_row_of id o : check_row (row_of (id, o)) = draft_checked (ob_draft o) && mem (ob_status o) STATUSES && review_positive o.
Proof.
  unfold check_row, text_column, int_column, review_positive, draft_checked. cbn [forallb]. columns_of.
  destruct (ob_draft o) as [? ? ? ? app access off ? ?], (ob_review o), app, access, off; cbn -[Nat.leb Nat.eqb mem]; by rewrite ?andb_true_r.
Qed.
Lemma conflict_row id o id' o' : conflict (row_of (id, o)) (row_of (id', o')) =
  (id =? id')
  || bool_decide (is_Some (application_id (ob_draft o))) && bool_decide (application_id (ob_draft o) = application_id (ob_draft o'))
  || open_status (ob_status o) && open_status (ob_status o') && String.eqb (target o) (target o').
Proof.
  unfold conflict, same_cell, covered, target. columns_of. cbn [txt]. f_equal. f_equal.
  destruct (application_id (ob_draft o)) as [a|], (application_id (ob_draft o')) as [a'|]; cbn; rewrite ?value_eqb_text, ?holds_some; try done.
  destruct (String.eqb_spec a a') as [->|Hne]; [by rewrite !bool_decide_eq_true_2|].
  cbn. symmetry. apply bool_decide_eq_false. congruence.
Qed.

(** The rows of a table, in any order. *)
Definition entries (t : table) (l : list (Z * outbound)) : Prop := NoDup l.*1 /\ forall id o, (id, o) ∈ l <-> rows t !! id = Some o.
Definition stored (t : table) (db : contact_rows) : Prop :=
  cr_sequence db = sequence t /\ exists l, cr_rows db = map row_of l /\ entries t l.
(** What the constraints say of the columns that [table_ok] leaves out. *)
Definition checked (t : table) : Prop :=
  forall id o, rows t !! id = Some o -> draft_checked (ob_draft o) = true /\ review_positive o = true.

Section rows_update.
Variables (set : values -> list (string * cell)) (where_ : values -> truth) (g : Z -> outbound -> outbound).
Local Abbreviation sql_update := (sql_update constraint_text set where_).
Definition changed (e : Z * outbound) : Z * outbound := if holds (where_ (row_of e)) then (e.1, g e.1 e.2) else e.
Definition written (e : Z * outbound) : Prop :=
  holds (where_ (row_of e)) = true -> assign (set (row_of e)) (row_of e) = row_of (changed e).
Lemma update_rows_all before after : Forall written after ->
  (forall pre e post, after = pre ++ e :: post -> holds (where_ (row_of e)) = true ->
     accepts (row_of (changed e)) (map row_of (before ++ map changed pre ++ post)) = true) ->
  update_rows constraint_text set where_ (map row_of before) (map row_of after) = Ok (map row_of (before ++ map changed after)).
Proof.
  intros Hw. revert before. induction Hw as [|e after He Hw IH]; intros before Ha; cbn [map update_rows]; [by rewrite app_nil_r|].
  assert (Hnext : forall pre e' post, after = pre ++ e' :: post -> holds (where_ (row_of e')) = true ->
     accepts (row_of (changed e')) (map row_of ((before ++ [changed e]) ++ map changed pre ++ post)) = true).
  { intros pre e' post -> Hh. rewrite <- app_assoc. by apply (Ha (e :: pre)). }
  specialize (IH _ Hnext). rewrite <- app_assoc in IH.
  destruct (holds (where_ (row_of e))) eqn:Hh.
  - rewrite (He Hh). rewrite <- map_app. specialize (Ha [] e after eq_refl Hh). cbn [map app] in Ha. rewrite Ha. cbn [negb].
    change [row_of (changed e)] with (map row_of [changed e]). rewrite <- map_app. exact IH.
  - assert (Hsame : changed e = e) by (unfold changed; by rewrite Hh).
    change [row_of e] with (map row_of [e]). rewrite <- map_app. rewrite Hsame in IH |- *. exact IH.
Qed.
Lemma update_rows_none before after : (forall e, e ∈ after -> holds (where_ (row_of e)) = false) ->
  update_rows constraint_text set where_ before (map row_of after) = Ok (before ++ map row_of after).
Proof.
  revert before. induction after as [|e after IH]; intros before Hn; cbn [map update_rows]; [by rewrite app_nil_r|].
  rewrite Hn by left. rewrite IH by (intros e' He'; apply Hn; by right). by rewrite <- app_assoc.
Qed.
Lemma update_rows_one before pre e post :
  (forall e', e' ∈ pre ++ post -> holds (where_ (row_of e')) = false) -> holds (where_ (row_of e)) = true -> written e ->
  update_rows constraint_text set where_ before (map row_of (pre ++ e :: post)) =
    if accepts (row_of (changed e)) (before ++ map row_of (pre ++ post)) then Ok (before ++ map row_of (pre ++ changed e :: post))
    else Err violated.
Proof.
  intros Hn Hh Hw. revert before. induction pre as [|e' pre IH]; intros before; cbn [map update_rows app].
  - rewrite Hh, (Hw Hh). destruct (accepts _ _); [|done]. cbn [negb].
    rewrite update_rows_none by (intros e' He'; apply Hn; done). by rewrite <- app_assoc.
  - rewrite Hn by left. rewrite IH by (intros x Hx; apply Hn; by right). by rewrite <- !app_assoc.
Qed.
End rows_update.

(** A version of a row that is not opened and keeps what was written once. *)
Definition quieter (o o' : outbound) : Prop := same_draft o o' /\ (open_status (ob_status o') = true -> open_status (ob_status o) = true).
Lemma quieter_refl o : quieter o o.
Proof. done. Qed.
Lemma no_conflict t id o o1 id' o' o1' : table_ok t -> rows t !! id = Some o -> rows t !! id' = Some o' -> id <> id' ->
  quieter o o1 -> quieter o' o1' -> conflict (row_of (id, o1)) (row_of (id', o1')) = false.
Proof.
  intros Hok Hl Hl' Hne [Hd Ho] [Hd' Ho']. rewrite conflict_row. unfold same_draft, target in *. rewrite Hd, Hd'.
  apply Z.eqb_neq in Hne as Hb. rewrite Hb. cbn. apply orb_false_iff. split; apply not_true_iff_false; intros Ht.
  - apply andb_true_iff in Ht as [Hs%bool_decide_eq_true He%bool_decide_eq_true]. by eapply Hne, (ok_application _ Hok).
  - apply andb_true_iff in Ht as [[H1 H2]%andb_true_iff He%String.eqb_eq]. eapply Hne, (ok_open _ Hok); eauto.
Qed.
Lemma accepts_row id o rs : draft_checked (ob_draft o) = true -> ob_status o ∈ STATUSES -> review_positive o = true ->
  (forall r, r ∈ rs -> conflict (row_of (id, o)) r = false) -> accepts (row_of (id, o)) rs = true.
Proof.
  intros Hd Hs Hr Hc. unfold accepts. rewrite check_row_of, Hd, (proj2 (mem_true _ _) Hs), Hr. cbn.
  apply negb_true_iff, negb_existsb, Forall_forall. intros r Hin. by apply Hc.
Qed.
Lemma entries_lookup t l e : entries t l -> e ∈ l -> rows t !! e.1 = Some e.2.
Proof. intros [_ Hl] He. apply Hl. by destruct e. Qed.
Lemma update_all set where_ g t db :
  table_ok t -> checked t -> stored t db ->
  (forall id o, rows t !! id = Some o -> holds (where_ (row_of (id, o))) = true ->
     assign (set (row_of (id, o))) (row_of (id, o)) = row_of (id, g id o)) ->
  (forall id o, rows t !! id = Some o -> holds (where_ (row_of (id, o))) = false -> g id o = o) ->
  (forall id o, rows t !! id = Some o -> quieter o (g id o) /\ ob_status (g id o) ∈ STATUSES /\ review_positive (g id o) = true) ->
  exists db', sql_update constraint_text set where_ db = Ok db' /\
    stored (Table (map_imap (fun id o => Some (g id o)) (rows t)) (sequence t)) db'.
Proof.
  intros Hok Hch [Hseq (l & Hrs & Hl)] Hset Hstay Hg. unfold sql_update. rewrite Hrs.
  assert (Hchanged : forall e, e ∈ l -> changed where_ g e = (e.1, g e.1 e.2)).
  { intros [id o] He. unfold changed. destruct (holds _) eqn:Hh; [done|]. cbn.
    rewrite (Hstay id o); [done|by apply (entries_lookup _ _ _ Hl) in He|done]. }
  assert (Hu : Forall (written set where_ g) l -> _ -> update_rows constraint_text set where_ [] (map row_of l) = Ok (map row_of (map (changed where_ g) l)))
    by exact (update_rows_all set where_ g [] l). rewrite Hu; clear Hu.
  - eexists. split; [done|]. split; [done|]. exists (map (changed where_ g) l). split; [done|]. destruct Hl as [Hnd Hl]. split.
    + assert (Hfst : (map (changed where_ g) l).*1 = l.*1); [|by rewrite Hfst].
      change (map fst (map (changed where_ g) l) = map fst l). rewrite map_map. apply map_ext_in. intros e _. unfold changed. by destruct (holds _).
    + intros id o'. cbn. rewrite map_lookup_imap. split.
      * intros (e & Heq & He)%list_elem_of_fmap. rewrite (Hchanged _ He) in Heq. injection Heq as -> ->. destruct e as [id o]. cbn [fst snd]. by apply Hl in He as ->.
      * intros (o & Ho & [= <-])%bind_Some. apply Hl in Ho. apply list_elem_of_fmap. exists (id, o). by rewrite Hchanged.
  - apply Forall_forall. intros e He Hh. rewrite (Hchanged _ He). destruct e as [id o]. apply Hset; [|done]. by apply (entries_lookup _ _ _ Hl) in He.
  - intros pre e post -> _. assert (He : e ∈ pre ++ e :: post) by (apply elem_of_app; right; left).
    rewrite Hchanged by done. pose proof (entries_lookup _ _ _ Hl He) as Hrow. destruct e as [id o]. cbn [fst snd] in *.
    destruct (Hg _ _ Hrow) as (Hq & Hs & Hp). apply accepts_row; [|done..|].
    + destruct Hq as [Hd _]. rewrite Hd. by destruct (Hch _ _ Hrow).
    + destruct Hl as [Hnd Hl]. rewrite fmap_app in Hnd. cbn in Hnd. apply NoDup_app in Hnd as (_ & Hpre & Hpost). apply NoDup_cons in Hpost as [Hpost _].
      intros r (e' & -> & Hin)%list_elem_of_fmap. cbn in Hin. apply elem_of_app in Hin as [Hin|Hin].
      * apply list_elem_of_fmap in Hin as ([id' o'] & -> & Hin).
        assert (Hin' : (id', o') ∈ pre ++ (id, o) :: post) by (apply elem_of_app; by left). rewrite Hchanged by done.
        apply Hl in Hin'. destruct (Hg _ _ Hin') as (Hq' & _). eapply no_conflict; eauto.
        cbn. intros <-. apply (Hpre id); [by apply (list_elem_of_fmap_2 fst _ (id, o'))|left].
      * destruct e' as [id' o']. assert (Hin' : (id', o') ∈ pre ++ (id, o) :: post) by (apply elem_of_app; right; by right).
        apply Hl in Hin'. eapply no_conflict; eauto using quieter_refl.
        cbn. intros <-. apply Hpost. by apply (list_elem_of_fmap_2 fst _ (id, o')).
Qed.
Lemma update_none set where_ t db : stored t db ->
  (forall id o, rows t !! id = Some o -> holds (where_ (row_of (id, o))) = false) -> sql_update constraint_text set where_ db = Ok db.
Proof.
  intros (_ & l & Hrs & Hl) Hn. unfold sql_update. rewrite Hrs, update_rows_none; [cbn; rewrite <- Hrs; by destruct db|].
  intros [id o] He. apply Hn. by apply (entries_lookup _ _ _ Hl) in He.
Qed.
(** The others, when one row was taken out. *)
Lemma others_lookup t pre id o post id' o' : entries t (pre ++ (id, o) :: post) ->
  (id', o') ∈ pre ++ post <-> rows t !! id' = Some o' /\ id' <> id.
Proof.
  intros [Hnd Hl]. assert (Hin : (id', o') ∈ pre ++ (id, o) :: post <-> (id', o') = (id, o) \/ (id', o') ∈ pre ++ post)
    by (rewrite !elem_of_app, elem_of_cons; tauto).
  rewrite <- Hl, Hin. rewrite fmap_app in Hnd. cbn in Hnd. rewrite <- Permutation_middle in Hnd. apply NoDup_cons in Hnd as [Hno _].
  rewrite <- fmap_app in Hno. split.
  - intros Ho. split; [by right|]. intros ->. apply Hno. by apply (list_elem_of_fmap_2 fst _ (id, o')).
  - intros [[[= -> ->]|?] Hne]; done.
Qed.
Lemma accepts_others t pre id o post o' : table_ok t -> entries t (pre ++ (id, o) :: post) -> same_draft o o' ->
  draft_checked (ob_draft o) = true -> review_positive o' = true ->
  accepts (row_of (id, o')) (map row_of (pre ++ post)) = mem (ob_status o') STATUSES && negb (clashes id o' t).
Proof.
  intros Hok Hl Hd Hch Hr. unfold accepts. rewrite check_row_of, Hd, Hch, Hr, andb_true_r. cbn. f_equal. f_equal.
  assert (Hrow : rows t !! id = Some o) by (apply Hl, elem_of_app; right; left).
  apply eq_true_iff_eq. unfold clashes. rewrite andb_true_iff, !existsb_exists. split.
  - intros (r & Hr' & Hc). apply list_elem_of_In, list_elem_of_fmap in Hr' as ([id' x] & -> & Hin).
    apply (others_lookup _ _ _ _ _ _ _ Hl) in Hin as [Hx Hne]. rewrite conflict_row in Hc. unfold same_draft in Hd. rewrite Hd in Hc.
    apply orb_true_iff in Hc as [[?%Z.eqb_eq|[Ha Hb]%andb_true_iff]%orb_true_iff|[[H1 H2]%andb_true_iff Ht]%andb_true_iff]; [by subst| |].
    + exfalso. apply bool_decide_eq_true in Ha, Hb. by eapply Hne, eq_sym, (ok_application _ Hok).
    + split; [done|]. exists (id', x). split; [by apply list_elem_of_In, elem_of_by_id|]. cbn. rewrite H2.
      apply Z.eqb_neq in Hne as ->. apply String.eqb_eq in Ht. rewrite Ht. by rewrite String.eqb_refl.
  - intros (H1 & [id' x] & Hin%list_elem_of_In%elem_of_by_id & Hc). cbn in *.
    apply andb_true_iff in Hc as [[Hne H2]%andb_true_iff Ht]. apply negb_true_iff, Z.eqb_neq in Hne.
    exists (row_of (id', x)). split; [by apply list_elem_of_In, list_elem_of_fmap_2, (others_lookup _ _ _ _ _ _ _ Hl)|].
    rewrite conflict_row, H1, H2, String.eqb_sym, Ht. by rewrite !orb_true_r.
Qed.
Lemma update_one set where_ t db id o o' :
  table_ok t -> checked t -> stored t db -> rows t !! id = Some o ->
  (forall id' x, rows t !! id' = Some x -> holds (where_ (row_of (id', x))) = bool_decide (id' = id)) ->
  assign (set (row_of (id, o))) (row_of (id, o)) = row_of (id, o') -> same_draft o o' -> review_positive o' = true ->
  match update_row constraint_text id o' t with
  | Ok t' => exists db', sql_update constraint_text set where_ db = Ok db' /\ stored t' db'
  | Err e => sql_update constraint_text set where_ db = Err e
  end.
Proof.
  intros Hok Hch [Hseq (l & Hrs & Hl)] Hrow Hw Hset Hd Hr. unfold sql_update. rewrite Hrs.
  assert (Hin : (id, o) ∈ l) by by apply Hl. apply list_elem_of_split in Hin as (pre & post & ->).
  assert (Hh : holds (where_ (row_of (id, o))) = true) by (rewrite Hw by done; by apply bool_decide_eq_true).
  assert (Hcg : changed where_ (fun _ _ => o') (id, o) = (id, o')) by (unfold changed; by rewrite Hh).
  rewrite (update_rows_one set where_ (fun _ _ => o') [] pre (id, o) post); [|..|done|].
  2: { intros [id' x] Hin. apply (others_lookup _ _ _ _ _ _ _ Hl) in Hin as [Hx Hne]. rewrite Hw by done. by apply bool_decide_eq_false. }
  2: { intros _. by rewrite Hcg. }
  rewrite Hcg. cbn [app]. rewrite (accepts_others t pre id o) by (done || by destruct (Hch _ _ Hrow)). unfold update_row.
  destruct (mem (ob_status o') STATUSES); [|done]. cbn. destruct (clashes id o' t); [done|]. cbn. eexists. split; [done|]. split; [done|].
  exists (pre ++ (id, o') :: post). split; [done|]. split.
  - destruct Hl as [Hnd _]. by rewrite !fmap_app in *.
  - intros id' x. cbn. assert (Hx : (id', x) ∈ pre ++ (id, o') :: post <-> (id', x) = (id, o') \/ (id', x) ∈ pre ++ post)
      by (rewrite !elem_of_app, elem_of_cons; tauto).
    rewrite Hx, (others_lookup _ _ _ _ _ _ _ Hl), lookup_insert_Some. naive_solver.
Qed.

(** ** The statements do what [ContactStore] says *)
Record refines (t : table) (db : contact_rows) : Prop := Refines { rf_ok : table_ok t; rf_checked : checked t; rf_stored : stored t db }.
Lemma map_imap_fmap (f : outbound -> outbound) (m : gmap Z outbound) : map_imap (fun _ o => Some (f o)) m = f <$> m.
Proof. apply map_eq. intros id. rewrite map_lookup_imap, lookup_fmap. by destruct (m !! id). Qed.
Lemma expire_row_review now o : ob_review (expire_row now o) = ob_review o.
Proof. unfold expire_row. by destruct (_ && _). Qed.
Lemma expire_row_quieter now o : quieter o (expire_row now o).
Proof.
  split; [apply expire_row_draft|]. intros Ho. destruct (expire_row_status now o) as [[<- _]|(Hl & _)]; [done|].
  by rewrite (open_live _ Ho) in Hl.
Qed.
Lemma sql_expire_refines now t db : refines t db -> exists db', sql_expire constraint_text now db = Ok db' /\ refines (expire_requests now t) db'.
Proof.
  intros [Hok Hch Hst]. unfold sql_expire.
  match goal with |- context [sql_update _ ?set ?where_ db] =>
    destruct (update_all set where_ (fun _ o => expire_row now o) t db Hok Hch Hst) as (db' & Hu & Hst') end.
  - intros id o _ Hh. rewrite expire_where in Hh. by apply expire_set.
  - intros id o _ Hh. rewrite expire_where in Hh. unfold expire_row. cbn in Hh. by rewrite Hh.
  - intros id o Hl. split; [apply expire_row_quieter|]. split.
    + destruct (expire_row_status now o) as [[-> _]|(_ & _ & ? & _)]; [by eapply ok_status|done].
    + unfold review_positive. rewrite expire_row_review. by apply (Hch _ _ Hl).
  - exists db'. split; [exact Hu|]. split; [by apply expire_requests_ok| |by rewrite map_imap_fmap in Hst'].
    intros id o' Hl. cbn in Hl. apply lookup_fmap_Some in Hl as (o & <- & Hl). unfold review_positive.
    rewrite expire_row_review, (expire_row_draft now o). by apply Hch in Hl.
Qed.
Lemma select_exists where_ p t db : stored t db -> (forall id o, rows t !! id = Some o -> holds (where_ (row_of (id, o))) = p o) ->
  negb (bool_decide (sql_select where_ db = [])) = existsb (fun e => p e.2) (by_id t).
Proof.
  intros (_ & l & Hrs & Hl) Hw. apply eq_true_iff_eq. rewrite negb_true_iff, bool_decide_eq_false, existsb_exists. unfold sql_select. rewrite Hrs. split.
  - intros Hne. destruct (List.filter _ (map row_of l)) as [|r rest] eqn:Hf; [done|].
    assert (Hin : In r (List.filter (fun r => holds (where_ r)) (map row_of l))) by (rewrite Hf; by left).
    apply filter_In in Hin as [Hin Hh]. apply in_map_iff in Hin as ([id o] & <- & Hin). apply list_elem_of_In, Hl in Hin.
    exists (id, o). split; [by apply list_elem_of_In, elem_of_by_id|]. by rewrite <- (Hw id).
  - intros ([id o] & Hin%list_elem_of_In%elem_of_by_id & Hp) Hf. cbn in *. rewrite <- (Hw id) in Hp by done.
    assert (Hin' : In (row_of (id, o)) (List.filter (fun r => holds (where_ r)) (map row_of l)))
      by (apply filter_In; split; [apply in_map, list_elem_of_In, Hl, Hin|exact Hp]).
    by rewrite Hf in Hin'.
Qed.
Lemma insert_stored us o t db : table_ok t -> stored t db ->
  assign (("id", num (sequence t + 1)) :: us) ∅ = row_of (sequence t + 1, o) -> ob_review o = None ->
  match insert_row constraint_text o t with
  | Ok (t', id) => exists db', sql_insert constraint_text us db = Ok (db', id) /\ stored t' db'
  | Err e => sql_insert constraint_text us db = Err e
  end.
Proof.
  intros Hok [Hseq (l & Hrs & Hl)] Hrow Hr. unfold sql_insert. rewrite Hseq, Hrow, Hrs.
  assert (Hfresh : forall id x, rows t !! id = Some x -> id <> sequence t + 1) by (intros id x Hx; apply (ok_ids _ Hok) in Hx; lia).
  assert (Ha : negb (accepts (row_of (sequence t + 1, o)) (map row_of l)) =
    negb (draft_checked (ob_draft o)) || negb (mem (ob_status o) STATUSES) || clashes (sequence t + 1) o t
    || existsb (fun e => bool_decide (is_Some (application_id (ob_draft o)))
                         && bool_decide (application_id (ob_draft (snd e)) = application_id (ob_draft o))) (by_id t)).
  { unfold accepts. rewrite check_row_of. unfold review_positive. rewrite Hr, andb_true_r, !negb_andb, negb_involutive, <- (orb_assoc (negb (draft_checked (ob_draft o)) || negb (mem (ob_status o) STATUSES))). f_equal.
    apply eq_true_iff_eq. unfold clashes. rewrite orb_true_iff, andb_true_iff, !existsb_exists. split.
    - intros (r & Hin & Hc). apply list_elem_of_In, list_elem_of_fmap in Hin as ([id x] & -> & Hin). apply Hl in Hin.
      assert (Hb : In (id, x) (by_id t)) by (by apply list_elem_of_In, elem_of_by_id). rewrite conflict_row in Hc.
      apply orb_true_iff in Hc as [[?%Z.eqb_eq|[H1 H2%bool_decide_eq_true]%andb_true_iff]%orb_true_iff|[[H1 H2]%andb_true_iff H3]%andb_true_iff].
      + by apply Hfresh in Hin.
      + right. exists (id, x). split; [done|]. cbn. rewrite H1. by apply bool_decide_eq_true.
      + left. split; [done|]. exists (id, x). split; [done|]. cbn. rewrite H2, String.eqb_sym, H3. apply Hfresh, Z.eqb_neq in Hin as ->. done.
    - intros [(H1 & [id x] & Hb & Hc)|([id x] & Hb & Hc)]; pose proof Hb as Hx; apply list_elem_of_In, elem_of_by_id in Hx; cbn in Hx, Hc;
        exists (row_of (id, x)); (split; [by apply list_elem_of_In, list_elem_of_fmap_2, Hl|]); rewrite conflict_row.
      + apply andb_true_iff in Hc as [[_ H2]%andb_true_iff H3]. rewrite H1, H2, String.eqb_sym, H3. by rewrite !orb_true_r.
      + apply andb_true_iff in Hc as [H2 H3%bool_decide_eq_true]. rewrite H2, bool_decide_eq_true_2 by done. by rewrite !orb_true_r. }
  rewrite Ha. unfold insert_row. destruct (_ || _); [done|]. cbn. eexists. split; [done|]. split; [done|].
  exists (l ++ [(sequence t + 1, o)]). split; [by rewrite map_app|]. destruct Hl as [Hnd Hl]. split.
  - rewrite fmap_app. apply NoDup_app. split_and!; [done| |apply NoDup_singleton].
    intros id Hin Hin2%list_elem_of_singleton. cbn in Hin2. apply list_elem_of_fmap in Hin as ([id' x] & Heq & Hin). cbn in Heq. subst.
    apply Hl, Hfresh in Hin. congruence.
  - intros id x. cbn. rewrite elem_of_app, list_elem_of_singleton, Hl, lookup_insert_Some. split.
    + intros [Hx|[= -> ->]]; [right; split; [apply not_eq_sym; by eapply Hfresh|done]|by left].
    + intros [[<- <-]|[_ Hx]]; [by right|by left].
Qed.

(** *** Submission *)
Lemma checked_insert t id o : checked t -> draft_checked (ob_draft o) = true -> review_positive o = true ->
  forall n, checked (Table (<[id := o]> (rows t)) n).
Proof. intros Hch Hd Hr n id' o' Hl. cbn in Hl. apply lookup_insert_Some in Hl as [[<- <-]|[_ Hl]]; [done|by eapply Hch]. Qed.
Lemma insert_row_draft o t t' id : insert_row constraint_text o t = Ok (t', id) -> draft_checked (ob_draft o) = true /\ t' = Table (<[id := o]> (rows t)) id.
Proof. unfold insert_row. destruct (draft_checked _); [|done]. cbn. destruct (_ || _); [done|]. by intros [= <- <-]. Qed.
Lemma unfinished_row us id db : assoc "expired_after" (("id", num id) :: us) = Some None -> id = cr_sequence db + 1 ->
  sql_insert constraint_text us db = Err violated.
Proof.
  intros Ha ->. unfold sql_insert. assert (Hc : check_row (assign (("id", num (cr_sequence db + 1)) :: us) ∅) = false).
  { unfold check_row. apply andb_false_iff. left. apply andb_false_iff. right. cbn [forallb]. unfold int_column at 1. rewrite assign_lookup, Ha. done. }
  unfold accepts. by rewrite Hc.
Qed.
Lemma sql_submit_refines t1 t2 doc application t db t' r :
  refines t db -> submit constraint_text t1 t2 doc application t = (t', r) ->
  exists db', sql_submit constraint_text t1 t2 doc application db = (db', r) /\ refines t' db'.
Proof.
  intros Hrf. destruct (sql_expire_refines t1 t db Hrf) as (db1 & He & Hrf1). unfold sql_submit, submit. rewrite He.
  set (t0 := expire_requests t1 t) in *. destruct Hrf1 as [Hok Hch Hst].
  destruct (text_of doc "target_name") as [name|e] eqn:Hname; [|intros [= <- <-]; by exists db1]. cbn.
  rewrite (select_exists _ (fun o => String.eqb (target o) name && open_status (ob_status o)) t0 db1 Hst).
  2: { intros id o _. rewrite holds_and. unfold target, open_status. by columns_of. }
  destruct (existsb _ (by_id t0)); [intros [= <- <-]; by exists db1|].
  unfold new_outbound. rewrite Hname. cbn. destruct (text_of doc "description") as [description|e]; [|intros [= <- <-]; by exists db1]. cbn.
  destruct application as [application|e]; [|intros [= <- <-]; by exists db1]. cbn.
  destruct (as_i64 doc.["valid_before"]) as [valid_before|] eqn:Hv; cbn.
  - match goal with |- context [insert_row _ ?o t0] => set (o1 := o) end.
    match goal with |- context [sql_insert _ ?us db1] => pose proof (insert_stored us o1 t0 db1 Hok Hst) as Hi end.
    destruct (insert_row constraint_text o1 t0) as [[t1' id]|e] eqn:Hins; intros [= <- <-].
    + destruct Hi as (db' & -> & Hst'); [|done|].
      { apply map_eq. intros c. rewrite assign_lookup, row_lookup, lookup_empty. subst o1. by_column c. }
      exists db'. split; [done|]. destruct (insert_row_draft _ _ _ _ Hins) as [Hd ->]. split; [|by apply checked_insert|done].
      by destruct (insert_row_ok _ _ _ _ _ Hok Hins).
    + rewrite Hi; [by exists db1| |done]. apply map_eq. intros c. rewrite assign_lookup, row_lookup, lookup_empty. subst o1. by_column c.
  - intros [= <- <-]. erewrite unfinished_row; [by exists db1|reflexivity|reflexivity].
Qed.

(** *** Delivery *)
Lemma due_where now id o : holds (sql_due now (row_of (id, o))) = due now o.
Proof.
  unfold sql_due, due, is_null, live_status. columns_of. rewrite <- Z.ltb_antisym. f_equal.
  destruct (ob_lease_until o) as [lease|]; cbn; [|done]. by destruct (lease <=? now).
Qed.
Lemma order_row e e' : order_leb (row_of e) (row_of e') = job_leb e e'.
Proof. destruct e as [id o], e' as [id' o']. unfold order_leb, job_leb. by columns_of. Qed.
Lemma sort_rows l : sort_by order_leb (map row_of l) = map row_of (sort_by job_leb l).
Proof.
  induction l as [|e l IH]; [done|]. cbn [map sort_by foldr]. fold (sort_by order_leb (map row_of l)) (sort_by job_leb l). rewrite IH.
  generalize (sort_by job_leb l) as k. induction k as [|e' k IHk]; [done|]. cbn [map insert_by]. rewrite order_row.
  destruct (job_leb e e'); [done|]. cbn. by rewrite IHk.
Qed.
Lemma select_rows where_ p l : (forall e, e ∈ l -> holds (where_ (row_of e)) = p e) ->
  List.filter (fun r => holds (where_ r)) (map row_of l) = map row_of (List.filter p l).
Proof.
  induction l as [|e l IH]; intros Hw; [done|]. cbn. rewrite Hw by left. rewrite IH by (intros e' He'; apply Hw; by right).
  by destruct (p e).
Qed.
Lemma entries_list t l : entries t l -> l ≡ₚ map_to_list (rows t).
Proof.
  intros [Hnd Hl]. apply NoDup_Permutation; [by eapply NoDup_fmap_1|apply NoDup_map_to_list|]. intros [id o]. by rewrite Hl, elem_of_map_to_list.
Qed.
Lemma filter_list (p : Z * outbound -> bool) l : List.filter p l = filter (fun e => p e = true) l.
Proof. induction l as [|e l IH]; [done|]. cbn [List.filter]. rewrite IH, filter_cons. destruct (p e) eqn:He; [by rewrite decide_True|by rewrite decide_False by congruence]. Qed.
Lemma select_job_row now t db : stored t db ->
  head (sort_by order_leb (sql_select (sql_due now) db)) = row_of <$> select_job now t.
Proof.
  intros (_ & l & Hrs & Hl). unfold sql_select, select_job. rewrite Hrs, (select_rows _ (fun e => due now e.2)), sort_rows by (intros [id o] _; apply due_where).
  rewrite filter_list. set (a := filter _ l). set (b := filter _ (map_to_list _)).
  assert (Hab : sort_by job_leb a ≡ₚ sort_by job_leb b).
  { rewrite !sort_by_Permutation. unfold a, b. by rewrite (entries_list _ _ Hl). }
  assert (Heq : sort_by job_leb a = sort_by job_leb b); [|rewrite Heq; by destruct (sort_by job_leb b)].
  apply (StronglySorted_unique_strong (fun x y => job_leb x y = true)); [|apply sort_by_sorted; [apply job_leb_total|apply job_leb_trans]..|done].
  intros [id o] [id' o'] H1 H2 H12 H21. rewrite Hab in H1. apply elem_of_sort_by, list_elem_of_filter in H1 as [_ H1%elem_of_map_to_list].
  apply elem_of_sort_by, list_elem_of_filter in H2 as [_ H2%elem_of_map_to_list]. unfold job_leb in *. cbn in *.
  rewrite Z.eqb_sym in H21. assert (Hid : id = id') by (destruct (_ =? _) eqn:E; lia). subst. congruence.
Qed.
(** One row is written by a statement that opens none. *)
Lemma map_imap_one id (o' : outbound) (m : gmap Z outbound) : is_Some (m !! id) ->
  map_imap (fun id' o => Some (if decide (id' = id) then o' else o)) m = <[id := o']> m.
Proof.
  intros [o Ho]. apply map_eq. intros id'. rewrite map_lookup_imap. destruct (decide (id' = id)) as [->|Hne].
  - by rewrite Ho, lookup_insert_eq.
  - rewrite lookup_insert_ne by done. cbn. by destruct (m !! id').
Qed.
Lemma update_quiet set where_ t db id o o' :
  refines t db -> rows t !! id = Some o ->
  (forall id' x, rows t !! id' = Some x -> holds (where_ (row_of (id', x))) = bool_decide (id' = id)) ->
  assign (set (row_of (id, o))) (row_of (id, o)) = row_of (id, o') ->
  quieter o o' -> ob_status o' ∈ STATUSES -> review_positive o' = true ->
  exists db', sql_update constraint_text set where_ db = Ok db' /\ checked (Table (<[id := o']> (rows t)) (sequence t))
    /\ stored (Table (<[id := o']> (rows t)) (sequence t)) db'.
Proof.
  intros [Hok Hch Hst] Hl Hw Hset Hq Hs Hr.
  destruct (update_all set where_ (fun id' x => if decide (id' = id) then o' else x) t db Hok Hch Hst) as (db' & Hu & Hst').
  - intros id' x Hx Hh. rewrite Hw in Hh by done. apply bool_decide_eq_true in Hh as ->. rewrite decide_True by done. by simplify_eq.
  - intros id' x Hx Hh. rewrite Hw in Hh by done. apply bool_decide_eq_false in Hh. by rewrite decide_False.
  - intros id' x Hx. destruct (decide (id' = id)) as [->|]; [by simplify_eq|]. split; [apply quieter_refl|].
    split; [by eapply ok_status|by apply (Hch _ _ Hx)].
  - exists db'. split; [done|]. rewrite map_imap_one in Hst' by by eexists. split; [|done].
    apply checked_insert; [done| |done]. destruct Hq as [Hd _]. rewrite Hd. by apply Hch in Hl as [? _].
Qed.
Lemma sql_claim_refines t1 t2 t3 t db t' r :
  refines t db -> claim column_text t1 t2 t3 t = (t', r) ->
  exists db', sql_claim constraint_text column_text t1 t2 t3 db
    = (db', result_map (fun job => (row_of <$> job.1, job.2)) r) /\ refines t' db'.
Proof.
  intros Hrf Hc. pose proof (claim_ok _ _ _ _ _ _ _ (rf_ok _ _ Hrf) Hc) as Hok'. revert Hc.
  destruct (sql_expire_refines t1 t db Hrf) as (db1 & He & Hrf1). unfold sql_claim, claim. rewrite He. cbn.
  set (t0 := expire_requests t1 t) in *. rewrite (select_job_row _ t0) by apply Hrf1.
  pose proof (select_job_spec t2 t0) as Hs. destruct (select_job t2 t0) as [[id o]|]; [|intros [= <- <-]; by exists db1].
  destruct Hs as (Hl & Hdue & _). cbn [fmap option_fmap option_map].
  assert (Happ : row_of (id, o) !! "application_id" = opt_text (application_id (ob_draft o))) by by columns_of. rewrite Happ.
  destruct (application_id (ob_draft o)) as [a|]; cbn; [|intros [= <- <-]; by exists db]. intros [= <- <-].
  match goal with |- context [sql_update _ ?set ?where_ db1] =>
    destruct (update_quiet set where_ t0 db1 id o (set_lease (Some (t3 + 120)) o)) as (db' & Hu & Hch & Hst) end; [done..| | | | | |].
  - intros id' x _. rewrite !row_id. cbn. rewrite value_eqb_int. by destruct (Z.eqb_spec id' id) as [->|]; [rewrite bool_decide_eq_true_2|rewrite bool_decide_eq_false_2].
  - apply lease_set.
  - done.
  - cbn. by eapply ok_status; [apply Hrf1|].
  - by apply (rf_checked _ _ Hrf1) in Hl as [_ ?].
  - rewrite Hu. exists db'. done.
Qed.

Lemma under_lease_row id lease id' o : holds (under_lease id lease (row_of (id', o))) = (id' =? id) && bool_decide (ob_lease_until o = Some lease).
Proof.
  unfold under_lease. columns_of. f_equal. destruct (ob_lease_until o) as [l|]; cbn; [|done]. rewrite value_eqb_int.
  destruct (Z.eqb_spec l lease) as [->|Hne]; cbn; symmetry; [by apply bool_decide_eq_true|]. apply bool_decide_eq_false. congruence.
Qed.
(** A condition that holds of the one row with this id, or of none. *)
Lemma only_row t id o (p : outbound -> bool) : rows t !! id = Some o -> p o = true ->
  forall id' x, rows t !! id' = Some x -> (id' =? id) && p x = bool_decide (id' = id).
Proof.
  intros Hl Hp id' x Hx. destruct (Z.eqb_spec id' id) as [->|Hne]; cbn; [|by rewrite bool_decide_eq_false_2].
  rewrite bool_decide_eq_true_2 by done. simplify_eq. done.
Qed.
Lemma no_row t id (p : outbound -> bool) : (forall o, rows t !! id = Some o -> p o = false) ->
  forall id' x, rows t !! id' = Some x -> (id' =? id) && p x = false.
Proof. intros Hp id' x Hx. destruct (Z.eqb_spec id' id) as [->|]; [by apply Hp|done]. Qed.
Lemma leased_None id lease t : leased id lease t = None -> forall o, rows t !! id = Some o -> bool_decide (ob_lease_until o = Some lease) = false.
Proof. unfold leased. intros Hn o Ho. rewrite Ho in Hn. by destruct (bool_decide _). Qed.
Lemma sql_bind_refines id lease contact subject t db : refines t db ->
  exists db', sql_bind constraint_text id lease contact subject db = (db', Ok tt) /\ refines (bind_contact id lease contact subject t) db'.
Proof.
  intros Hrf. destruct (bind_contact_facts id lease contact subject t (rf_ok _ _ Hrf)) as [Hok' _]. revert Hok'. unfold sql_bind.
  assert (Hw : forall id' o, holds (sql_and (under_lease id lease (row_of (id', o))) (is_null (row_of (id', o) !! "contact_id")))
    = (id' =? id) && (bool_decide (ob_lease_until o = Some lease) && bool_decide (ob_contact_id o = None))).
  { intros id' o. rewrite holds_and, under_lease_row, <- andb_assoc. f_equal. f_equal. unfold is_null. columns_of. by destruct (ob_contact_id o). }
  match goal with |- context [sql_update _ ?set ?where_ db] =>
    assert (Hnone : (forall o, rows t !! id = Some o -> bool_decide (ob_lease_until o = Some lease) && bool_decide (ob_contact_id o = None) = false) ->
      sql_update constraint_text set where_ db = Ok db) end.
  { intros Hn. apply (update_none _ _ t); [apply Hrf|]. intros id' o Ho. rewrite Hw.
    by apply (no_row t id (fun o => bool_decide (ob_lease_until o = Some lease) && bool_decide (ob_contact_id o = None)) Hn id'). }
  unfold bind_contact. destruct (leased id lease t) as [o|] eqn:Hl.
  - apply leased_Some in Hl as [Hl Hlease]. case_bool_decide as Hc; intros Hok'.
    + match goal with |- context [sql_update _ ?set ?where_ db] =>
        destruct (update_quiet set where_ t db id o (set_contact contact subject o)) as (db' & Hu & Hch & Hst) end; [done..| | | | | |].
      * intros id' x Hx. rewrite Hw. refine (only_row t id o (fun o => bool_decide (ob_lease_until o = Some lease) && bool_decide (ob_contact_id o = None)) Hl _ id' x Hx).
        by rewrite !bool_decide_eq_true_2.
      * apply bind_set.
      * done.
      * cbn. by eapply ok_status; [apply Hrf|].
      * by apply (rf_checked _ _ Hrf) in Hl as [_ ?].
      * rewrite Hu. exists db'. done.
    + rewrite Hnone; [by exists db|]. intros x Hx. simplify_eq. apply andb_false_iff. right. by apply bool_decide_eq_false.
  - intros _. rewrite Hnone; [by exists db|]. intros x Hx. by rewrite (leased_None _ _ _ Hl _ Hx).
Qed.

(** What a delivery ends with, as it checked it before. *)
Definition proper_outcome (outcome : ContactResult json) : Prop :=
  match outcome with Ok receipt => is_Some (as_str receipt.["status"]) /\ is_Some (as_i64 receipt.["valid_before"]) | Err _ => True end.
Definition proper_review (review : option pending_review) : Prop := match review with Some r => 0 < review_id r | None => True end.
(** The outcome on the row it is recorded in. *)
Definition outcome_row (outcome : ContactResult json) (checked_at next_from : Z) (o : outbound) : ContactResult outbound :=
  match outcome with
  | Ok receipt => received receipt checked_at next_from o
  | Err e => Ok (rejected e checked_at next_from o)
  end.
Definition record_outcome (outcome : ContactResult json) (checked_at next_from : Z) (id lease : Z) (db : contact_rows) : ContactResult contact_rows :=
  match outcome with
  | Ok receipt => sql_received constraint_text receipt checked_at next_from id lease db
  | Err e => sql_rejected constraint_text e checked_at next_from id lease db
  end.
Lemma received_set receipt status valid_before checked_at next_from id o o' :
  as_str receipt.["status"] = Some status -> as_i64 receipt.["valid_before"] = Some valid_before ->
  received receipt checked_at next_from o = Ok o' ->
  assign [("status", txt status); ("remote_expired_after", num valid_before);
          ("expired_after", sql_case (sql_eq (txt status) (txt "pending")) (sql_min (row_of (id, o) !! "delivery_deadline") (num valid_before)) (row_of (id, o) !! "expired_after"));
          ("last_checked_at", num checked_at); ("next_attempt_at", num (next_from + if is_str receipt.["status"] "active" then 30 else 3));
          ("attempt_count", sql_add (row_of (id, o) !! "attempt_count") (num 1)); ("error_message", None); ("lease_until", None);
          ("updated_at", num checked_at)] (row_of (id, o)) = row_of (id, o').
Proof.
  intros Hs Hv Hr. unfold received, text_of in Hr. rewrite Hs, Hv in Hr. cbn in Hr. injection Hr as <-.
  assert (Ha : is_str receipt.["status"] "active" = String.eqb status "active").
  { unfold is_str, as_str in *. destruct (receipt.["status"]); try done. by injection Hs as ->. }
  rewrite Ha. columns_of. same_row. all: destruct (String.eqb status "pending"); cbn; try done.
  destruct (delivery_deadline (ob_draft o) <=? valid_before) eqn:E; unfold num; f_equal; f_equal; lia.
Qed.
Lemma rejected_set code message checked_at next_from id o :
  let reviewing := String.eqb message "need_review" in
  let final := negb reviewing && existsb (Z.eqb code) [400; 403; 404; 409; 410] in
  assign [("status", sql_case (Some final) (txt "failed") (row_of (id, o) !! "status"));
          ("attempt_count", sql_add (row_of (id, o) !! "attempt_count") (sql_case (sql_eq (txt message) (txt "need_review")) (num 0) (num 1)));
          ("error_message", txt message); ("next_attempt_at", num (next_from + if reviewing then 30 else 5)); ("lease_until", None);
          ("last_checked_at", num checked_at); ("updated_at", num checked_at)] (row_of (id, o)) = row_of (id, rejected (code, message) checked_at next_from o).
Proof. intros reviewing final. columns_of. same_row; cbn; fold reviewing; [change (_ && _) with final; by destruct final|by destruct reviewing]. Qed.

Lemma record_none outcome checked_at next_from id lease t db : stored t db -> leased id lease t = None -> proper_outcome outcome ->
  record_outcome outcome checked_at next_from id lease db = Ok db.
Proof.
  intros Hst Hl Hp. assert (Hn : forall set, sql_update constraint_text set (under_lease id lease) db = Ok db).
  { intros set. apply (update_none _ _ t _ Hst). intros id' o Ho. rewrite under_lease_row.
    exact (no_row t id (fun o => bool_decide (ob_lease_until o = Some lease)) (leased_None _ _ _ Hl) id' o Ho). }
  destruct outcome as [receipt|[code message]]; cbn; [|apply Hn].
  destruct Hp as [[status Hs] [valid_before Hv]]. unfold sql_received, text_of. rewrite Hs, Hv. apply Hn.
Qed.
Lemma record_one outcome checked_at next_from id lease t db o o' :
  refines t db -> rows t !! id = Some o -> ob_lease_until o = Some lease -> proper_outcome outcome ->
  outcome_row outcome checked_at next_from o = Ok o' -> same_draft o o' -> review_positive o' = true ->
  match update_row constraint_text id o' t with
  | Ok t' => exists db', record_outcome outcome checked_at next_from id lease db = Ok db' /\ stored t' db'
  | Err e => record_outcome outcome checked_at next_from id lease db = Err e
  end.
Proof.
  intros [Hok Hch Hst] Hl Hlease Hp Ho Hd Hr.
  assert (Hw : forall id' x, rows t !! id' = Some x -> holds (under_lease id lease (row_of (id', x))) = bool_decide (id' = id)).
  { intros id' x Hx. rewrite under_lease_row. refine (only_row t id o (fun o => bool_decide (ob_lease_until o = Some lease)) Hl _ id' x Hx).
    by apply bool_decide_eq_true. }
  destruct outcome as [receipt|[code message]]; cbn [record_outcome].
  - destruct Hp as [[status Hs] [valid_before Hv]]. unfold sql_received, text_of. rewrite Hs, Hv. cbn [ok_or].
    apply (update_one _ _ t db id o o'); try done. by apply received_set.
  - unfold sql_rejected. injection Ho as <-. apply (update_one _ _ t db id o); try done. apply rejected_set.
Qed.
Lemma update_row_again id x o' t : update_row constraint_text id o' (Table (<[id := x]> (rows t)) (sequence t)) = update_row constraint_text id o' t.
Proof.
  unfold update_row. assert (Hc : clashes id o' (Table (<[id := x]> (rows t)) (sequence t)) = clashes id o' t).
  { apply eq_true_iff_eq. rewrite <- !not_false_iff_true, !clashes_spec. cbn. split; intros Hn Hx; apply Hn; intros Ho id' y Hy Hne;
      [rewrite lookup_insert_ne in Hy by done|]; [by apply (Hx Ho id')|]. apply (Hx Ho id'); [by rewrite lookup_insert_ne|done]. }
  rewrite Hc. cbn. by rewrite insert_insert_eq.
Qed.
Lemma outcome_row_facts outcome checked_at next_from o o' : outcome_row outcome checked_at next_from o = Ok o' ->
  same_draft o o' /\ ob_review o' = ob_review o.
Proof. destruct outcome as [receipt|[code message]]; cbn; [unfold received; intros Ho; by simplify_ok|by intros [= <-]]. Qed.
Lemma proper_row outcome checked_at next_from o : proper_outcome outcome -> exists o', outcome_row outcome checked_at next_from o = Ok o'.
Proof.
  destruct outcome as [receipt|[code message]]; cbn; [|by eexists]. intros [[status Hs] [valid_before Hv]].
  unfold received, text_of. rewrite Hs, Hv. by eexists.
Qed.
Lemma sql_finish_refines id lease review outcome checked_at next_from t db t' r :
  refines t db -> proper_review review -> proper_outcome outcome ->
  finish constraint_text id lease review outcome checked_at next_from t = (t', r) ->
  exists db', sql_finish constraint_text id lease review outcome checked_at next_from db = (db', r) /\ refines t' db'.
Proof.
  intros Hrf Hrev Hout Hf. pose proof (finish_facts _ _ _ _ _ _ _ _ _ _ (rf_ok _ _ Hrf) Hf) as [Hok' _]. revert Hf.
  unfold sql_finish, finish. change (match outcome with Ok receipt => sql_received constraint_text receipt checked_at next_from id lease ?db
    | Err e => sql_rejected constraint_text e checked_at next_from id lease ?db end) with (record_outcome outcome checked_at next_from id lease db).
  destruct (leased id lease t) as [o|] eqn:Hl.
  - apply leased_Some in Hl as [Hl Hlease].
    match goal with |- context [sql_update _ ?set ?where_ db] =>
      destruct (update_quiet set where_ t db id o (set_review review o) Hrf Hl) as (db1 & Hu & Hch1 & Hst1) end.
    + intros id' x Hx. rewrite under_lease_row. refine (only_row t id o (fun o => bool_decide (ob_lease_until o = Some lease)) Hl _ id' x Hx).
      by apply bool_decide_eq_true.
    + apply review_set.
    + done.
    + cbn. by eapply ok_status; [apply Hrf|].
    + unfold review_positive. cbn. destruct review; [by apply Z.ltb_lt|done].
    + rewrite Hu. cbn beta iota. set (t1 := Table _ _) in *.
      assert (Hrf1 : refines t1 db1).
      { split; [|done..]. unfold t1. eapply put_row_keep; [apply Hrf|done..|]. intros _. by eapply ok_lease; [apply Hrf|done|rewrite Hlease]. }
      destruct (proper_row outcome checked_at next_from (set_review review o) Hout) as [o' Ho'].
      destruct (outcome_row_facts _ _ _ _ _ Ho') as [Hd Hro].
      pose proof (record_one outcome checked_at next_from id lease t1 db1 (set_review review o) o' Hrf1) as Hone.
      unfold t1 in Hone. rewrite update_row_again in Hone. unfold outcome_row in Ho'. rewrite Ho'.
      destruct (update_row constraint_text id o' t) as [t2|e] eqn:Hup.
      * destruct Hone as (db' & Hrec & Hst'); [cbn; by rewrite lookup_insert_eq|done|done|done|done| |].
        { unfold review_positive. rewrite Hro. cbn. destruct review; [by apply Z.ltb_lt|done]. }
        rewrite Hrec. intros [= <- <-]. exists db'. split; [done|]. split; [done| |done].
        unfold update_row in Hup. simplify_ok. apply checked_insert; [apply Hrf| |].
        -- unfold same_draft in Hd. rewrite Hd. by apply (rf_checked _ _ Hrf) in Hl as [? _].
        -- unfold review_positive. rewrite Hro. cbn. destruct review; [by apply Z.ltb_lt|done].
      * rewrite Hone; [intros [= <- <-]; by exists db|cbn; by rewrite lookup_insert_eq|done..|].
        unfold review_positive. rewrite Hro. cbn. destruct review; [by apply Z.ltb_lt|done].
  - intros [= <- <-]. rewrite (update_none _ _ t); [cbn beta iota|apply Hrf|].
    + rewrite (record_none _ _ _ _ _ t); [by exists db|apply Hrf|done..].
    + intros id' o Ho. rewrite under_lease_row.
      exact (no_row t id (fun o => bool_decide (ob_lease_until o = Some lease)) (leased_None _ _ _ Hl) id' o Ho).
Qed.

(** *** Cancellation *)
Definition cancelled_entry (e : Z * outbound) : Z * string * Z * option Z := (e.1, ob_status e.2, ob_updated_at e.2, ob_lease_until e.2).
Lemma cancelled_rows k :
  try_map (fun r => ok_or (storage OtherSqlite column_text) (cancelled_row r)) (map row_of k) = Ok (map cancelled_entry k).
Proof.
  induction k as [|[id o] k IH]; [done|]. cbn [map try_map].
  assert (Hc : cancelled_row (row_of (id, o)) = Some (cancelled_entry (id, o))).
  { unfold cancelled_row. columns_of. cbn. unfold cancelled_entry. cbn. by destruct (ob_lease_until o). }
  rewrite Hc. cbn [ok_or]. by rewrite IH.
Qed.
Lemma existsb_Permutation {A} (p : A -> bool) l k : l ≡ₚ k -> existsb p l = existsb p k.
Proof. intros Hp. apply eq_true_iff_eq. rewrite !existsb_exists. split; intros (x & Hin & Hx); exists x; split; try done; by eapply Permutation_in. Qed.
Lemma revoke_refines name time t db : refines t db ->
  exists db', sql_update constraint_text (fun _ => [("status", txt "revoked"); ("lease_until", None); ("updated_at", num time)])
      (fun r => sql_eq (r !! "target_name") (txt name)) db = Ok db'
    /\ refines (Table (revoke_row name time <$> rows t) (sequence t)) db'.
Proof.
  intros [Hok Hch Hst].
  assert (Hw : forall id o, holds (sql_eq (row_of (id, o) !! "target_name") (txt name)) = String.eqb (target o) name)
    by (intros id o; unfold target; by columns_of).
  match goal with |- context [sql_update _ ?set ?where_ db] =>
    destruct (update_all set where_ (fun _ o => revoke_row name time o) t db Hok Hch Hst) as (db' & Hu & Hst') end.
  - intros id o _ Hh. rewrite Hw in Hh. unfold revoke_row. rewrite Hh. apply revoke_set.
  - intros id o _ Hh. rewrite Hw in Hh. unfold revoke_row. by rewrite Hh.
  - intros id o Hl. unfold revoke_row. destruct (String.eqb _ _); cbn.
    + split; [done|]. split; [unfold STATUSES; set_solver|by apply (Hch _ _ Hl)].
    + split; [done|]. split; [by eapply ok_status|by apply (Hch _ _ Hl)].
  - exists db'. split; [done|]. rewrite map_imap_fmap in Hst'. split; [by apply revoke_ok| |done].
    intros id o' Hl. cbn in Hl. apply lookup_fmap_Some in Hl as (o & <- & Hl). unfold revoke_row.
    destruct (String.eqb _ _); by apply Hch in Hl.
Qed.
Lemma sql_cancel_one_refines item t db previous previous' : refines t db -> previous' ≡ₚ previous ->
  match cancel_one (t, previous) item with
  | Ok (t', p) => exists db' p', sql_cancel_one constraint_text column_text (db, previous') item = Ok (db', p') /\ p' ≡ₚ p /\ refines t' db'
  | Err e => sql_cancel_one constraint_text column_text (db, previous') item = Err e
  end.
Proof.
  intros Hrf Hp. destruct item as [[name checked_at] time]. unfold cancel_one, sql_cancel_one.
  destruct (rf_stored _ _ Hrf) as (_ & l & Hrs & Hl). unfold sql_select. rewrite Hrs.
  set (p := fun e : Z * outbound => String.eqb (target e.2) name && negb (String.eqb (ob_status e.2) "revoked")).
  rewrite (select_rows _ p), cancelled_rows.
  2: { intros [id o] _. unfold p, target. rewrite holds_and. by columns_of. }
  set (found := filter _ (by_id t)). cbn beta iota.
  assert (Hfound : List.filter p l ≡ₚ found).
  { rewrite filter_list. assert (Hb : l ≡ₚ by_id t) by (unfold by_id; by rewrite sort_by_Permutation, entries_list). rewrite Hb. unfold found.
    assert (Hf : filter (fun e => p e = true) (by_id t) = filter (fun e => target e.2 = name /\ ob_status e.2 <> "revoked") (by_id t)); [|by rewrite Hf].
    apply list_filter_iff. intros [id o]. unfold p. rewrite andb_true_iff, String.eqb_eq, negb_true_iff, String.eqb_neq. done. }
  rewrite (existsb_Permutation _ _ (map cancelled_entry found)) by by rewrite Hfound.
  assert (He : existsb (fun e : Z * string * Z * option Z => match e.2 with Some lease => checked_at <? lease | None => false end) (map cancelled_entry found)
    = existsb (fun e : Z * outbound => match ob_lease_until e.2 with Some lease => checked_at <? lease | None => false end) found).
  { clear. induction found as [|e k IH]; [done|]. cbn. by rewrite IH. }
  rewrite He. destruct (existsb _ found); [done|]. destruct (revoke_refines name time t db Hrf) as (db' & -> & Hrf').
  eexists _, _. split; [done|]. split; [|done]. rewrite Hp, Hfound. apply Permutation_app_head. by rewrite map_map.
Qed.
Lemma sql_cancel_refines items t db : refines t db ->
  match cancel items t with
  | Ok (t', p) => exists db' p', sql_cancel constraint_text column_text items db = (db', Ok p') /\ p' ≡ₚ p /\ refines t' db'
  | Err e => sql_cancel constraint_text column_text items db = (db, Err e)
  end.
Proof.
  intros Hrf. unfold cancel, sql_cancel.
  assert (Hgen : forall t1 db1 p1 q1, refines t1 db1 -> q1 ≡ₚ p1 -> match try_fold cancel_one (t1, p1) items with
    | Ok (t', p) => exists db' p', try_fold (sql_cancel_one constraint_text column_text) (db1, q1) items = Ok (db', p') /\ p' ≡ₚ p /\ refines t' db'
    | Err e => try_fold (sql_cancel_one constraint_text column_text) (db1, q1) items = Err e end).
  { induction items as [|item items IH]; intros t1 db1 p1 q1 H1 Hq; cbn [try_fold]; [by eexists _, _|].
    pose proof (sql_cancel_one_refines item t1 db1 p1 q1 H1 Hq) as Hone. destruct (cancel_one (t1, p1) item) as [[t2 p2]|e].
    - destruct Hone as (db2 & q2 & -> & Hq2 & H2). by apply IH.
    - by rewrite Hone. }
  specialize (Hgen t db [] [] Hrf (Permutation_refl _)). destruct (try_fold cancel_one (t, []) items) as [[t' p]|e].
  - destruct Hgen as (db' & p' & -> & Hp & H'). by eexists _, _.
  - by rewrite Hgen.
Qed.
Lemma sql_restore_one_refines entry t db : refines t db ->
  match restore_one constraint_text t entry with
  | Ok t' => exists db', sql_restore_one constraint_text db entry = Ok db' /\ refines t' db'
  | Err e => sql_restore_one constraint_text db entry = Err e
  end.
Proof.
  intros Hrf. destruct entry as [[id status] updated]. unfold restore_one, sql_restore_one.
  assert (Hw : forall id' o, holds (sql_and (sql_eq (row_of (id', o) !! "id") (num id)) (sql_eq (row_of (id', o) !! "status") (txt "revoked")))
    = (id' =? id) && String.eqb (ob_status o) "revoked") by (intros id' o; by columns_of).
  match goal with |- context [sql_update _ ?set ?where_ db] =>
    assert (Hnone : (forall o, rows t !! id = Some o -> String.eqb (ob_status o) "revoked" = false) -> sql_update constraint_text set where_ db = Ok db) end.
  { intros Hn. apply (update_none _ _ t); [apply Hrf|]. intros id' o Ho. rewrite Hw. exact (no_row t id (fun o => String.eqb (ob_status o) "revoked") Hn id' o Ho). }
  destruct (rows t !! id) as [o|] eqn:Hl; [|rewrite Hnone by done; by exists db].
  destruct (String.eqb (ob_status o) "revoked") eqn:Hs; [|rewrite Hnone by (intros x [= <-]; done); by exists db].
  match goal with |- context [sql_update _ ?set ?where_ db] =>
    pose proof (update_one set where_ t db id o (set_status status updated o) (rf_ok _ _ Hrf) (rf_checked _ _ Hrf) (rf_stored _ _ Hrf) Hl) as Hone end.
  pose proof (rf_checked _ _ Hrf _ _ Hl) as [Hd Hr].
  assert (Hlease : ob_lease_until o = None).
  { destruct (ob_lease_until o) eqn:E; [|done]. pose proof (ok_lease _ (rf_ok _ _ Hrf) _ _ Hl) as Hlive. rewrite E in Hlive.
    apply String.eqb_eq in Hs. rewrite Hs in Hlive. by discriminate Hlive. }
  destruct (update_row constraint_text id (set_status status updated o) t) as [t'|e] eqn:Hu.
  - destruct Hone as (db' & Hone & Hst'); [|apply restore_set|done|done|].
    { intros id' x Hx. rewrite Hw. exact (only_row t id o (fun o => String.eqb (ob_status o) "revoked") Hl Hs id' x Hx). }
    exists db'. split; [done|]. edestruct (update_row_ok constraint_text id o (set_status status updated o)) as (Hok' & Heq & _); [apply Hrf|exact Hl| |exact Hlease|exact Hu|]; [done|]. subst t'.
    split; [done| |done]. by apply checked_insert; [apply Hrf|..].
  - apply Hone; [|apply restore_set|done|done].
    intros id' x Hx. rewrite Hw. exact (only_row t id o (fun o => String.eqb (ob_status o) "revoked") Hl Hs id' x Hx).
Qed.
Lemma sql_restore_refines previous t db : refines t db ->
  match restore constraint_text previous t with
  | Ok t' => exists db', sql_restore constraint_text previous db = (db', Ok tt) /\ refines t' db'
  | Err e => sql_restore constraint_text previous db = (db, Err e)
  end.
Proof.
  intros Hrf. unfold restore, sql_restore.
  assert (Hgen : forall t1 db1, refines t1 db1 -> match try_fold (restore_one constraint_text) t1 previous with
    | Ok t' => exists db', try_fold (sql_restore_one constraint_text) db1 previous = Ok db' /\ refines t' db'
    | Err e => try_fold (sql_restore_one constraint_text) db1 previous = Err e end).
  { induction previous as [|entry previous IH]; intros t1 db1 H1; cbn [try_fold]; [by eexists|].
    pose proof (sql_restore_one_refines entry t1 db1 H1) as Hone. destruct (restore_one constraint_text t1 entry) as [t2|e].
    - destruct Hone as (db2 & -> & H2). by apply IH.
    - by rewrite Hone. }
  specialize (Hgen t db Hrf). destruct (try_fold (restore_one constraint_text) t previous) as [t'|e].
  - destruct Hgen as (db' & -> & H'). by eexists.
  - by rewrite Hgen.
Qed.

(** *** Series of transactions *)
Inductive transaction :=
| ExpireRequests (now : Z)
| Submit (expired_at time : Z) (doc : json) (application : ContactResult string)
| Claim (expired_at selected_at leased_at : Z)
| Bind (id lease contact_id : Z) (subject : string)
| Finish (id lease : Z) (review : option pending_review) (outcome : ContactResult json) (checked_at next_from : Z)
| Cancel (items : list (string * Z * Z))
| PutBack (previous : list (Z * string * Z)).
Inductive answer (A : Type) :=
| Nothing
| NewId (id : Z)
| ClaimedJob (job : option A) (lease : Z)
| RevokedRows (previous : list (Z * string * Z)).
#[global] Arguments Nothing {A}.
#[global] Arguments NewId {A}.
#[global] Arguments ClaimedJob {A}.
#[global] Arguments RevokedRows {A}.
(** After an error the table is the one before. *)
Definition or_unchanged {S A B} (s : S) (r : ContactResult (S * A)) (f : A -> B) : S * ContactResult B :=
  match r with Ok (s', a) => (s', Ok (f a)) | Err e => (s, Err e) end.
Definition replied {S A B} (f : A -> B) (r : S * ContactResult A) : S * ContactResult B := (r.1, result_map f r.2).
Definition run_table (t : table) (x : transaction) : table * ContactResult (answer (Z * outbound)) :=
  match x with
  | ExpireRequests now => (expire_requests now t, Ok Nothing)
  | Submit t1 t2 doc application => replied NewId (submit constraint_text t1 t2 doc application t)
  | Claim t1 t2 t3 => replied (fun job => ClaimedJob job.1 job.2) (claim column_text t1 t2 t3 t)
  | Bind id lease contact subject => (bind_contact id lease contact subject t, Ok Nothing)
  | Finish id lease review outcome t1 t2 => replied (fun _ => Nothing) (finish constraint_text id lease review outcome t1 t2 t)
  | Cancel items => or_unchanged t (cancel items t) RevokedRows
  | PutBack previous => or_unchanged t (result_map (fun t' => (t', tt)) (restore constraint_text previous t)) (fun _ => Nothing)
  end.
Definition run_rows (db : contact_rows) (x : transaction) : contact_rows * ContactResult (answer values) :=
  match x with
  | ExpireRequests now => or_unchanged db (result_map (fun db' => (db', tt)) (sql_expire constraint_text now db)) (fun _ => Nothing)
  | Submit t1 t2 doc application => replied NewId (sql_submit constraint_text t1 t2 doc application db)
  | Claim t1 t2 t3 => replied (fun job => ClaimedJob job.1 job.2) (sql_claim constraint_text column_text t1 t2 t3 db)
  | Bind id lease contact subject => replied (fun _ => Nothing) (sql_bind constraint_text id lease contact subject db)
  | Finish id lease review outcome t1 t2 => replied (fun _ => Nothing) (sql_finish constraint_text id lease review outcome t1 t2 db)
  | Cancel items => replied RevokedRows (sql_cancel constraint_text column_text items db)
  | PutBack previous => replied (fun _ => Nothing) (sql_restore constraint_text previous db)
  end.
Fixpoint run_series {S A} (run : S -> transaction -> S * A) (s : S) (xs : list transaction) : S * list A :=
  match xs with
  | [] => (s, [])
  | x :: xs => let '(s, a) := run s x in let '(s, l) := run_series run s xs in (s, a :: l)
  end.
(** The same answer, jobs as their rows; what was revoked in any order. *)
Definition same_answer (a : ContactResult (answer (Z * outbound))) (b : ContactResult (answer values)) : Prop :=
  match a, b with
  | Ok Nothing, Ok Nothing => True
  | Ok (NewId id), Ok (NewId id') => id' = id
  | Ok (ClaimedJob job lease), Ok (ClaimedJob job' lease') => job' = row_of <$> job /\ lease' = lease
  | Ok (RevokedRows l), Ok (RevokedRows l') => l' ≡ₚ l
  | Err e, Err e' => e' = e
  | _, _ => False
  end.
(** A delivery only records a review with a number and a receipt it checked. *)
Definition proper_transaction (x : transaction) : Prop :=
  match x with Finish _ _ review outcome _ _ => proper_review review /\ proper_outcome outcome | _ => True end.
Lemma transaction_refines t db x : refines t db -> proper_transaction x ->
  refines (run_table t x).1 (run_rows db x).1 /\ same_answer (run_table t x).2 (run_rows db x).2.
Proof.
  intros Hrf Hx. destruct x as [now|t1 t2 doc application|t1 t2 t3|id lease contact subject|id lease review outcome t1 t2|items|previous];
    cbn [run_table run_rows].
  - destruct (sql_expire_refines now t db Hrf) as (db' & -> & H'). done.
  - destruct (submit _ _ _ _ _ t) as [t' r] eqn:Hs. destruct (sql_submit_refines _ _ _ _ _ _ _ _ Hrf Hs) as (db' & -> & H').
    split; [done|]. by destruct r.
  - destruct (claim _ _ _ _ t) as [t' r] eqn:Hs. destruct (sql_claim_refines _ _ _ _ _ _ _ Hrf Hs) as (db' & -> & H').
    split; [done|]. by destruct r.
  - destruct (sql_bind_refines id lease contact subject t db Hrf) as (db' & -> & H'). done.
  - destruct Hx as [Hrev Hout]. destruct (finish _ _ _ _ _ _ _ t) as [t' r] eqn:Hs.
    destruct (sql_finish_refines _ _ _ _ _ _ _ _ _ _ Hrf Hrev Hout Hs) as (db' & -> & H'). split; [done|]. by destruct r.
  - pose proof (sql_cancel_refines items t db Hrf) as Hc. destruct (cancel items t) as [[t' p]|e].
    + destruct Hc as (db' & p' & -> & Hp & H'). done.
    + by rewrite Hc.
  - pose proof (sql_restore_refines previous t db Hrf) as Hc. destruct (restore _ previous t) as [t'|e].
    + destruct Hc as (db' & -> & H'). done.
    + by rewrite Hc.
Qed.
(** *** The next start *)
Definition database_of (db : contact_rows) : sqlite :=
  Sqlite {[TABLE := SqlTable COLUMNS (cr_rows db)]} {[INDEX := pending_target TABLE]} 5.
Lemma stored_unique t db : table_ok t -> stored t db -> NoDup (indexed (pending_target TABLE) (SqlTable [] (cr_rows db))).
Proof.
  intros Hok (_ & l & Hrs & Hnd & Hl). unfold indexed. cbn [records pending_target ix_statuses ix_column]. rewrite Hrs.
  assert (Hsub : forall id o, (id, o) ∈ l -> rows t !! id = Some o) by (intros id o; apply Hl). clear Hrs Hl.
  induction l as [|[id o] l IH]; cbn [map omap list_omap]; [constructor|]. cbn [fmap list_fmap fst] in Hnd. apply NoDup_cons in Hnd as [Hno Hnd].
  assert (Hrest : forall id' o', (id', o') ∈ l -> rows t !! id' = Some o') by (intros id' o' Hin; apply Hsub; by right).
  assert (Hcell : forall id' o', (if covered ["queued"; "pending"] (row_of (id', o')) then row_of (id', o') !! "target_name" else None)
    = if open_status (ob_status o') then txt (target o') else None) by (intros id' o'; unfold covered, open_status, target; by columns_of).
  rewrite Hcell. destruct (open_status (ob_status o)) eqn:Ho; [cbn [txt]|by apply IH].
  apply NoDup_cons. split; [|by apply IH]. intros Hin. apply list_elem_of_omap in Hin as (r & Hin & Hr).
  apply list_elem_of_fmap in Hin as ([id' o'] & -> & Hin). rewrite Hcell in Hr. destruct (open_status (ob_status o')) eqn:Ho'; [|done].
  injection Hr as Ht. assert (id' = id).
  { eapply (ok_open _ Hok); [by apply Hrest|by apply Hsub; left|done..]. }
  subst. apply Hno. by apply (list_elem_of_fmap_2 fst _ (id, o')).
Qed.
Lemma stored_opens t db : table_ok t -> stored t db -> upgrade (database_of db) = Ok (database_of db).
Proof.
  intros Hok Hst. apply (upgrade_current (cr_rows db)). split; [done|..].
  - exists (SqlTable COLUMNS (cr_rows db)). split; [apply lookup_singleton_eq|]. split; [done|]. apply (bool_decide_unpack _). vm_compute. exact I.
  - intros x [y Hy]. cbn in Hy. apply lookup_singleton_Some in Hy as [<- _]. by left.
  - done.
  - by eapply stored_unique.
Qed.

(** C23: The SQL of the contact transactions does what the table of requests says: any series of
    expiries, submissions, claims, bindings, outcomes, deletions and their undoing, run on the rows with
    NULLs, three truth values and every constraint of the schema, gives the same answers and errors as
    on the abstract table, leaves exactly its rows, and the database it leaves is opened unchanged by
    the next start. *)
Theorem contact_statements_refine t db xs t' answers db' rows' :
  refines t db -> Forall proper_transaction xs ->
  run_series run_table t xs = (t', answers) -> run_series run_rows db xs = (db', rows') ->
  refines t' db' /\ Forall2 same_answer answers rows' /\ upgrade (database_of db') = Ok (database_of db').
Proof.
  intros Hrf Hxs. revert t db answers rows' Hrf. induction Hxs as [|x xs Hx Hxs IH]; intros t db answers rows' Hrf; cbn [run_series].
  { intros [= <- <-] [= <- <-]. split; [done|]. split; [constructor|]. destruct Hrf. by eapply stored_opens. }
  destruct (transaction_refines t db x Hrf Hx) as [H1 Ha].
  destruct (run_table t x) as [t1 a], (run_rows db x) as [db1 b]. cbn [fst snd] in *.
  destruct (run_series run_table t1 xs) as [t2 l] eqn:Ht, (run_series run_rows db1 xs) as [db2 k] eqn:Hd.
  intros [= <- <-] [= <- <-]. destruct (IH t1 db1 l k H1 Ht Hd) as (H2 & Hl & Hup). split; [done|]. split; [by constructor|done].
Qed.
End stored.
