(* ===== verification/AccessDb.v ===== *)
(** * The authorization database ([src/server/access.rs])

    An existing database is inspected and left to the access service (a
    library); a missing or empty one is initialized beside it, completely,
    before it takes the place.  Other processes may write at the same path
    meanwhile: what they do is an argument, except that nobody writes between the
    last check of the version and the copy over a file that exists. *)
From S2P Require Import Prelude RustStr Errors Sqlite.

(** ** Inspection *)
Inductive access_at := NoFile | NotRegular | NotSqlite | Database (s : sqlite).
Definition table_exists (t : string) (s : sqlite) : bool := bool_decide (is_Some (tables s !! t)).
Definition table_rows (t : string) (s : sqlite) : list values := match tables s !! t with Some x => records x | None => [] end.
Definition CAPABILITY_TABLES : list string := ["lib_capability"; "lib_capability_operation"].
Definition is_text (v : option value) (s : string) : bool := match v with Some (Text t) => String.eqb t s | _ => false end.
Definition sql_checked {A} (r : result sql_error A) : Result A := map_err (fun e => ConfigDatabase e.1 e.2) r.
Definition database_error {A} (message : string) : Result A := Err (ConfigDatabase OtherSqlite message).
(** [SELECT version FROM module WHERE module_name='access'] *)
Definition module_version (s : sqlite) : Result Z :=
  let? _ := sql_checked (prepare_select ["version"; "module_name"] "module" s) in
  match List.find (fun r => is_text (r !! "module_name") "access") (table_rows "module" s) with
  | None => database_error "Query returned no rows"
  | Some r => match r !! "version" with
              | Some (Integer v) => Ok v
              | _ => database_error "Invalid column type at index: 0, name: version"
              end
  end.
Definition CONTACTS : list string :=
  ["id"; "name"; "subject_id"; "alias"; "class"; "grants"; "offers"; "requests"; "description"; "status"; "expired_after"; "updated_at"; "created_at"].
Definition ACCESS_RULES : list string := ["id"; "method"; "api"; "effect"; "grantee_type"; "grantee"; "updated_at"; "created_at"].
Definition ACCESS_REVIEWS : list string :=
  ["id"; "request_id"; "visitor"; "visitor_sid"; "method"; "api"; "stage"; "reason"; "expired_after"; "updated_at"; "created_at"].
Definition REVIEW_DECISIONS : list string := ["remember"; "decided_at"; "grant_expires_at"; "consumed_at"; "invalidated_at"].
Definition CONTACT_APPLICATIONS : list string :=
  ["application_id"; "applicant_name"; "applicant_sid"; "payload_hash"; "status"; "received_at"; "expired_after"].
Definition version_text (v : Z) : string := show_Z v.
Section access.
(** [PRAGMA quick_check] and the name of the file. *)
Variable quick_check : sqlite -> string.
Variable path : string.
(** The columns every version must have before the library migrates it. *)
Definition check_schema (version : Z) (s : sqlite) : Result unit :=
  let? _ := try_fold (fun _ q => sql_checked (prepare_select q.1 q.2 s)) tt
    [(CONTACTS, "contacts"); (ACCESS_RULES, "access_rules"); (ACCESS_REVIEWS, "access_reviews")] in
  let? _ := if 2 <=? version then sql_checked (prepare_select ["name"; "updated_at"] "contact_deletions" s) else Ok tt in
  let? _ := if 3 <=? version then sql_checked (prepare_select REVIEW_DECISIONS "access_reviews" s) else Ok tt in
  if 1 <=? version then sql_checked (prepare_select CONTACT_APPLICATIONS "contact_applications" s)
  else throw (InvalidConfig "access v0 already contains v1 tables") when named "contact_applications" s;; Ok tt.
Definition inspect (s : sqlite) : Result (option Z) :=
  throw (InvalidConfig (quick_check s)) when negb (String.eqb (quick_check s) "ok");;
  if (objects s =? 0) && (user_version s =? 0) then Ok None else
  let module := table_exists "module" s in
  if negb module && forallb (fun t => named t s) CAPABILITY_TABLES && (objects s =? 2) then Ok None else
  throw (InvalidConfig "unrecognized access database format; original database preserved") when negb module;;
  throw (InvalidConfig "access module must contain exactly one row") when negb (Z.of_nat (length (table_rows "module" s)) =? 1);;
  let? version := module_version s in
  throw (InvalidConfig ("unsupported access database version " +:+ version_text version +:+ "; expected 0, 1, 2 or 3")) when
    negb ((0 <=? version) && (version <=? 3));;
  let? _ := check_schema version s in
  Ok (Some version).
Definition access_error (e : error) : error := InvalidConfig ("access database " +:+ path +:+ ": " +:+ display e).
Definition access_version (p : access_at) : Result (option Z) :=
  match p with
  | NoFile => Ok None
  | NotRegular => Err (InvalidConfig (path +:+ " must be a regular database file"))
  | NotSqlite => Err (access_error (ConfigDatabase OtherSqlite "file is not a database"))
  | Database s => map_err access_error (inspect s)
  end.

(** ** Initialization *)
Definition CAPABILITY : list string := ["lib_name"; "capability_id"; "title"].
Definition OPERATION : list string := ["lib_name"; "capability_id"; "method"; "path"].
(** A row under other column names, by position. *)
Definition positional (from to : list string) (r : values) : values :=
  list_to_map (omap (fun c => (fun v => (c.2, v)) <$> r !! c.1) (zip from to)).
Definition text (r : values) (c : string) : string := match r !! c with Some (Text s) => s | Some (Integer z) => show_Z z | None => "" end.
Definition filled (cs : list string) (r : values) : bool := forallb (fun c => bool_decide (is_Some (r !! c))) cs.
Definition capability_ok (r : values) : bool :=
  filled CAPABILITY r && negb (String.eqb (text r "capability_id") "") && negb (all_bytes (Ascii.eqb " ") (text r "title")).
Definition operation_ok (r : values) : bool :=
  filled OPERATION r && negb (String.eqb (text r "method") "") && String.eqb (text r "method") (to_ascii_uppercase (text r "method"))
  && starts_with "/" (text r "path") && negb (String.eqb (text r "path") "/").
Definition keys_of (cs : list string) (rs : list values) : list (list string) := map (fun r => map (text r) cs) rs.
Definition distinct (cs : list string) (rs : list values) : bool := bool_decide (NoDup (keys_of cs rs)).
(** [INSERT INTO main.t SELECT * FROM pending.t] *)
Definition insert_all (t : string) (ok : list values -> bool) (pending s : sqlite) : result sql_error sqlite :=
  match tables pending !! t, tables s !! t with
  | Some from, Some to =>
      throw (OtherSqlite, "table " +:+ t +:+ " has another number of columns") when negb (Z.of_nat (length (columns from)) =? Z.of_nat (length (columns to)));;
      let rs := records to ++ map (positional (columns from) (columns to)) (records from) in
      throw (ConstraintViolation, "constraint failed: " +:+ t) when negb (ok rs);;
      Ok (Sqlite (<[t := SqlTable (columns to) rs]> (tables s)) (indexes s) (user_version s))
  | _, _ => sql_fails ("no such table: " +:+ t)
  end.
Definition create_if_missing (t : string) (cs : list string) (s : sqlite) : sqlite :=
  if named t s then s else Sqlite (<[t := SqlTable cs []]> (tables s)) (indexes s) (user_version s).
Definition capabilities_ok (rs : list values) : bool := forallb capability_ok rs && distinct ["lib_name"; "capability_id"] rs.
Definition operations_ok (s : sqlite) (rs : list values) : bool :=
  forallb operation_ok rs && distinct ["method"; "path"] rs
  && forallb (fun k => mem k (keys_of ["lib_name"; "capability_id"] (table_rows "lib_capability" s))) (keys_of ["lib_name"; "capability_id"] rs).
Definition copy_capabilities (pending s : sqlite) : result sql_error sqlite :=
  let s := create_if_missing "lib_capability_operation" OPERATION (create_if_missing "lib_capability" CAPABILITY s) in
  let? s := insert_all "lib_capability" capabilities_ok pending s in
  insert_all "lib_capability_operation" (operations_ok s) pending s.

(** The access service: loading a database (what it leaves in the file, and
    whether it works), and setting a policy. *)
Variable load_from_db : sqlite -> sqlite * Result unit.
Inductive effect := Allow | Deny.
Inductive grantee := Named | All.
Variable set_policy : string * string * effect * grantee -> sqlite -> Result sqlite.
Definition DEFAULT_POLICIES : list (string * string * effect * grantee) :=
  [("POST", "/std/contact", Allow, Named); ("GET", "/std/contact", Allow, Named); ("GET", "/std/acl/status", Allow, Named);
   ("GET", "/std/contact/list", Deny, All); ("GET", "/std/acl/permissions", Allow, All)].
Definition load (p : access_at) : access_at * Result unit :=
  match p with
  | Database s => let '(s, r) := load_from_db s in (Database s, map_err access_error r)
  | p => (p, Err (access_error (ConfigDatabase OtherSqlite "unable to open database file")))
  end.
Definition seeded : Result sqlite :=
  let '(s, r) := load_from_db (Sqlite ∅ ∅ 0) in
  let? _ := r in
  try_fold (fun s policy => set_policy policy s) s DEFAULT_POLICIES.
(** The declarations that a capability-only database at the path holds. *)
Definition with_pending (p : access_at) (s : sqlite) : Result sqlite :=
  match p with
  | NoFile => Ok s
  | Database pending =>
      if named "lib_capability" pending then sql_checked (copy_capabilities pending s) else Ok s
  | _ => database_error "unable to open database file"
  end.
Definition snapshot (s : sqlite) : Result unit :=
  throw (InvalidConfig ("database snapshot failed: " +:+ quick_check s)) when negb (String.eqb (quick_check s) "ok");; Ok tt.
(** What other processes do to the path: before the declarations are read,
    before the version is checked again, and before the file is linked. *)
Record others := Others { before_read : access_at -> access_at; before_check : access_at -> access_at; before_link : access_at -> access_at }.
Definition option_z_eqb (a b : option Z) : bool := bool_decide (a = b).
Definition publish (o : others) (ready : sqlite) (version : option Z) (p : access_at) : access_at * Result unit :=
  match access_version p with
  | Err e => (p, Err e)
  | Ok now =>
      if negb (option_z_eqb now version) then load p else
      match p with
      | NoFile => match before_link o p with NoFile => load (Database ready) | p => load p end
      | _ => load (Database ready)
      end
  end.
Definition load_access (o : others) (p : access_at) : access_at * Result unit :=
  match access_version p with
  | Err e => (p, Err e)
  | Ok (Some _) => load p
  | Ok None =>
      let p := before_read o p in
      match (let? s := seeded in let? s := with_pending p s in let? _ := snapshot s in
             let? version := access_version (Database s) in
             throw (InvalidConfig "initialized access database failed version validation") when negb (option_z_eqb version (Some 3));;
             Ok s) with
      | Err e => (p, Err e)
      | Ok ready => publish o ready None (before_check o p)
      end
  end.
End access.

(** ** Whatever is recognized is never replaced *)
Section access_facts.
Variable quick_check : sqlite -> string.
Variable path : string.
Variable load_from_db : sqlite -> sqlite * Result unit.
Variable set_policy : string * string * effect * grantee -> sqlite -> Result sqlite.
Local Abbreviation version := (access_version quick_check path).
Local Abbreviation load := (load path load_from_db).
Local Abbreviation load_access := (load_access quick_check path load_from_db set_policy).
(** A database of the right version, with the default policies and the
    declarations that were at the path. *)
Definition initialized (p : access_at) (s : sqlite) : Prop :=
  version (Database s) = Ok (Some 3) /\ exists s0, seeded load_from_db set_policy = Ok s0 /\ with_pending p s0 = Ok s.
(** What was found stays, or is what the access service makes of it. *)
Definition kept (found p' : access_at) : Prop :=
  p' = found \/ exists s, found = Database s /\ p' = Database (fst (load_from_db s)).
Lemma load_keeps p : kept p (fst (load p)).
Proof.
  unfold AccessDb.load, kept. destruct p as [| | |s]; try (by left). right. exists s. split; [done|].
  by destruct (load_from_db s) as [s' r].
Qed.
Lemma load_ready s : fst (load (Database s)) = Database (fst (load_from_db s)).
Proof. unfold AccessDb.load. by destruct (load_from_db s) as [s' r]. Qed.
Lemma option_z_eqb_eq a b : option_z_eqb a b = true <-> a = b.
Proof. unfold option_z_eqb. apply bool_decide_eq_true. Qed.
(** The prepared database takes the place of what the last look finds open: a
    file whose version was checked just before, or no file at the link. *)
Definition placed_last (o : others) (ready : sqlite) (p p' : access_at) : Prop :=
  match p with
  | NoFile => match before_link o NoFile with
              | NoFile => p' = Database (fst (load_from_db ready))
              | found => kept found p'
              end
  | _ => (version p = Ok None -> p' = Database (fst (load_from_db ready))) /\ (version p <> Ok None -> kept p p')
  end.
Lemma publish_places o ready p : placed_last o ready p (fst (publish quick_check path load_from_db o ready None p)).
Proof.
  assert (Hfile : p <> NoFile -> (version p = Ok None -> fst (publish quick_check path load_from_db o ready None p) = Database (fst (load_from_db ready)))
    /\ (version p <> Ok None -> kept p (fst (publish quick_check path load_from_db o ready None p)))).
  { intros Hp. unfold publish. split; intros Hv.
    - rewrite Hv. change (option_z_eqb None None) with true. cbn [negb]. rewrite <- load_ready. by destruct p.
    - destruct (version p) as [[v|]|e]; [|done|by left]. change (option_z_eqb (Some v) None) with false. apply load_keeps. }
  unfold placed_last. destruct p as [| | |s]; [|by apply Hfile..]. unfold publish.
  change (version NoFile) with (Ok None : Result (option Z)). change (option_z_eqb None None) with true. cbn [negb].
  destruct (before_link o NoFile) as [| | |s]; [apply load_ready|apply load_keeps..].
Qed.
(** The preparation succeeds exactly when there is such a database. *)
Lemma prepared_iff p s :
  (let? s := seeded load_from_db set_policy in let? s := with_pending p s in let? _ := snapshot quick_check s in
   let? version := version (Database s) in
   throw (InvalidConfig "initialized access database failed version validation") when negb (option_z_eqb version (Some 3));;
   Ok s) = Ok s <-> initialized p s.
Proof.
  unfold initialized. split.
  - intros Hready. simplify_ok.
    match goal with Hs : seeded _ _ = Ok ?s0, Hw : with_pending _ ?s0 = Ok _ |- _ => rename Hs into Hseed, Hw into Hpend end.
    split; [|eauto]. simplify_bool. match goal with Hn : option_z_eqb _ _ = true |- _ => apply option_z_eqb_eq in Hn; subst end. done.
  - intros (Hv & s0 & -> & ->). cbn beta iota. rewrite Hv.
    assert (Hq : quick_check s = "ok").
    { cbn in Hv. unfold inspect in Hv. destruct (String.eqb_spec (quick_check s) "ok"); [done|]. done. }
    unfold snapshot. by rewrite Hq.
Qed.

(** C28: Whatever other processes do to the path of the authorization database meanwhile: a start that
    finds a database that is recognized, or something it does not understand, leaves it as it is or as
    the access service loads it. Where it found nothing, an empty database or mere declarations, it
    prepares a database of version 3 with the default policies and the declarations it then reads; when
    none can be prepared it fails and leaves the path alone; otherwise the prepared database takes the
    place exactly when the last look finds the place still open (no file at the link, or a file whose
    version, read again just before the copy, is still none), and whatever else the last look finds
    there is kept (nobody else writing between that look and the copy over a file that exists). *)
Theorem load_access_preserves o p :
  let p1 := before_read o p in
  let p' := fst (load_access o p) in
  (version p <> Ok None -> kept p p') /\
  (version p = Ok None -> (forall ready, ~ initialized p1 ready) -> p' = p1 /\ is_ok (snd (load_access o p)) = false) /\
  (version p = Ok None -> forall ready, initialized p1 ready -> placed_last o ready (before_check o p1) p').
Proof.
  cbn zeta. unfold AccessDb.load_access. destruct (version p) as [[v|]|e].
  - split; [intros _; apply load_keeps|done].
  - split; [done|]. destruct (let? s := seeded _ _ in _) as [ready|e] eqn:Hready.
    + apply prepared_iff in Hready. split; [intros _ Hno; by apply Hno in Hready|].
      intros _ ready' Hi%prepared_iff. apply prepared_iff in Hready. rewrite Hready in Hi. injection Hi as <-. apply publish_places.
    + split; [done|]. intros _ ready Hi%prepared_iff. by rewrite Hready in Hi.
  - split; [intros _; by left|done].
Qed.
(** A first start leaves the initialized database. *)
Theorem load_access_first s s' r :
  seeded load_from_db set_policy = Ok s -> version (Database s) = Ok (Some 3) -> load_from_db s = (s', r) ->
  load_access (Others id id id) NoFile = (Database s', map_err (access_error path) r).
Proof.
  intros Hs Hv Hl. unfold AccessDb.load_access. change (version NoFile) with (Ok None : Result (option Z)). cbn [before_read before_check id]. rewrite Hs. cbn [with_pending].
  assert (Hq : quick_check s = "ok").
  { cbn in Hv. unfold inspect in Hv. destruct (String.eqb_spec (quick_check s) "ok"); [done|]. done. }
  unfold snapshot. rewrite Hq. cbn [String.eqb Ascii.eqb Bool.eqb negb]. rewrite Hv.
  change (option_z_eqb (Some 3) (Some 3)) with true. cbn [negb]. unfold publish. change (version NoFile) with (Ok None : Result (option Z)).
  change (option_z_eqb None None) with true. cbn [negb id before_link AccessDb.load]. by rewrite Hl.
Qed.
End access_facts.
