(* ===== verification/Contact.v ===== *)
(** * Names, parameters, permissions and reviews of contacts ([src/contact.rs],
      [src/contact/capabilities.rs], [src/contact/delivery.rs])

    The functions that check and convert what a contact request names: the
    identity, the expiry, the operations asked for and offered, the state of a
    review at the peer. *)
From S2P Require Import Prelude RustStr Decimal Json Crates Errors ContactStore.

(** ** Names *)
Definition SUFFIX : string := ".dhttp.net".
Definition label_char (c : ascii) : bool := is_ascii_lowercase c || is_ascii_digit c || Ascii.eqb c "-".
Definition label_ok (label : string) : bool :=
  negb (String.eqb label "") && (slen label <=? 63)
  && negb (starts_with "-" label) && negb (ends_with "-" label) && all_bytes label_char label.
Definition expand (raw : string) : string :=
  if ends_with "~" raw then trim_end_matches "." (trim_end_matches "~" raw) +:+ SUFFIX
  else if ends_with SUFFIX raw then raw else raw +:+ SUFFIX.
Definition name (raw : string) : ContactResult string :=
  let expanded := expand (to_ascii_lowercase (trim raw)) in
  throw (fail 400 "invalid identity name") when
    (slen expanded >? 253) || String.eqb (trim_end_str SUFFIX expanded) "" || negb (forallb label_ok (split_on "." expanded));;
  Ok expanded.

(** ** Query parameters *)
Section parameters.
Context `{UrlCrates}.
Definition query_pairs (target : string) : list (string * string) :=
  form_parse (match split_once "?" target with Some (_, q) => q | None => "" end).
Definition parameter_step (key : string) (result : option string) (kv : string * string) : ContactResult (option string) :=
  if String.eqb (fst kv) key
  then (throw (fail 400 "duplicate parameter") when bool_decide (is_Some result);; Ok (Some (snd kv)))
  else Ok result.
Definition parameter (target key : string) : ContactResult (option string) :=
  try_fold (parameter_step key) None (query_pairs target).
Definition integer (target key : string) (default : Z) : ContactResult Z :=
  let? value := parameter target key in
  match value with
  | Some v => ok_or (fail 400 "invalid number") (parse_i64 v)
  | None => Ok default
  end.
Definition page (target : string) : ContactResult (Z * Z) :=
  let? p := integer target "page" 1 in
  let? size := integer target "page_size" 20 in
  throw (fail 400 "invalid pagination") when (p <? 1) || negb ((1 <=? size) && (size <=? 100));;
  Ok (p, size).
End parameters.

(** ** Expiry *)
Definition WEEK : Z := 7 * 86400.
Definition request_expiry (time : Z) (body : json) : ContactResult Z :=
  let? valid_before :=
    match get "expires_after" body, get "valid_before" body with
    | Some _, Some _ => Err (fail 400 "use expires_after or valid_before")
    | Some seconds, None =>
        let? seconds := ok_or (fail 400 "invalid expires_after")
          (match as_i64 seconds with Some s => if 0 <? s then Some s else None | None => None end) in
        ok_or (fail 400 "expiry overflow") (checked_add_i64 time seconds)
    | None, Some value => ok_or (fail 400 "invalid valid_before") (as_i64 value)
    | None, None => Ok (time + WEEK)
    end in
  throw (fail 400 "valid_before must be in the future") when valid_before <=? time;;
  Ok valid_before.

(** ** A contact with its newest request *)
Definition i64_or_0 (v : json) : Z := default 0 (as_i64 v).
Definition drafted_contact (d : json) : json :=
  jobj [("id", JNull); ("name", d.["target_name"]); ("subject_id", JNull); ("alias", JNull); ("class", JStr "Human");
        ("description", d.["description"]); ("status", JStr "pending"); ("incoming", JBool false);
        ("created_at", d.["created_at"]); ("updated_at", d.["updated_at"]); ("valid_before", d.["valid_before"]);
        ("requested_access", jobj []); ("granted_access", jobj []); ("offers", jobj [])].
Definition project_contact (contact d : json) : json :=
  if negb (is_null contact)
     && (negb (json_eqb d.["_contact_id"] contact.["id"]) || negb (json_eqb d.["_contact_subject"] contact.["subject_id"]))
  then contact
  else
    let contact := if is_null contact then drafted_contact d else contact in
    let contact := set_key "updated_at" (JInt (Z.max (i64_or_0 contact.["updated_at"]) (i64_or_0 d.["updated_at"]))) contact in
    let contact := set_key "delivery_status" d.["status"] contact in
    set_key "delivery_error" d.["error_message"] contact.

(** ** Operations of permissions *)
(** A selected permission: its name and the method and path of each operation. *)
Record capability := Capability { cap_id : string; cap_endpoints : list (string * string) }.
Definition add_operation (access : list (string * json)) (operation : string * string) : list (string * json) :=
  let '(method, path) := operation in
  let methods := default [] (assoc path access ≫= as_array) in
  if existsb (json_eqb (JStr method)) methods then access else obj_insert path (JArr (methods ++ [JStr method])) access.
Definition requested (selected : list capability) : json :=
  JObj (fold_left add_operation (flat_map cap_endpoints selected) []).
Definition offered (selected : list capability) : json :=
  match requested selected with
  | JObj access => JObj (map (fun e => (fst e, jobj [("allow", snd e); ("review", JArr []); ("deny", JArr [])])) access)
  | other => other
  end.

Section selected.
Context `{UrlCrates}.
(** [Method::from_bytes] *)
Variable http_method : string -> bool.

Definition permission_path (path : string) : bool :=
  starts_with "/" path && negb (slen path =? 1) && negb (starts_with "//" path)
  && negb (contains_any ["?"; "#"; "%"; "\"]%char path)
  && negb (existsb (fun part => mem part ["."; ".."]) (split_on "/" path))
  && bool_decide (is_Some (uri_parse path)).
Definition permission_method (path : string) (method : json) : ContactResult (string * string) :=
  let? method := ok_or (fail 502 "invalid permission method") (as_str method) in
  throw (fail 502 "invalid permission method") when
    negb (String.eqb method (to_ascii_uppercase method)) || negb (http_method method);;
  Ok (method, path).
Definition permission_operations (entry : string * json) : ContactResult (list (string * string)) :=
  let '(path, methods) := entry in
  throw (fail 502 "invalid permission path") when negb (permission_path path);;
  let? methods := ok_or (fail 502 "invalid permission methods") (as_array methods) in
  try_map (permission_method path) methods.
(** The entry of a name, or of the only package's permission of that title. *)
Definition titled (title : string) (entry : string * json) : bool :=
  match split_once_str " · " (fst entry) with Some (_, t) => String.eqb t title | None => false end.
Definition catalog_entry (catalog : list (string * json)) (id : string) : ContactResult (string * json) :=
  match assoc id catalog with
  | Some paths => Ok (id, paths)
  | None => match filter (fun e => titled id e = true) catalog with
            | [] => Err (fail 409 "selected capability unavailable")
            | [entry] => Ok entry
            | _ => Err (fail 409 "selected capability is ambiguous; refresh the catalog")
            end
  end.
Definition select_one (catalog : list (string * json)) (result : list capability) (id : json) : ContactResult (list capability) :=
  let? id := ok_or (fail 400 "invalid permission name") (as_str id) in
  let? (id, paths) := catalog_entry catalog id in
  throw (fail 400 "duplicate capability") when existsb (fun c => String.eqb (cap_id c) id) result;;
  let? paths := ok_or (fail 502 "invalid permission paths") (as_object paths) in
  let? operations := try_map permission_operations paths in
  Ok (result ++ [Capability id (concat operations)]).
(** [selected], from the names and the catalogue of the target. *)
Definition select (catalog : json) (ids : list json) : ContactResult (list capability) :=
  let? catalog := ok_or (fail 502 "invalid permission catalog") (as_object catalog) in
  try_fold (select_one catalog) [] ids.
End selected.

(** ** Reviews at the peer *)
Definition pending_review_of (code : Z) (body : json) : ContactResult (option Z) :=
  if negb ((code =? 202) && is_str body.["status"] "pending_review" || (code =? 400) && is_str body.["error"] "need_review")
  then Ok None
  else
    let? id := ok_or (fail 400 "review protocol upgrade required")
      (match as_i64 body.["review_id"] with Some id => if 0 <? id then Some id else None | None => None end) in
    Ok (Some id).
Definition review_progress (code : Z) (body : json) : ContactResult bool :=
  throw (fail 410 "review_expired") when code =? 404;;
  throw (fail (if (code =? 202) || (code =? 400) then 409 else code) "review status unavailable") when negb (code =? 200);;
  match as_str body.["status"] with
  | Some "pending" => Ok false
  | Some "allowed" | Some "consumed" => Ok true
  | Some "denied" => Err (fail 409 "review_denied")
  | Some "expired" => Err (fail 410 "review_expired")
  | _ => Err (fail 502 "invalid review status")
  end.

(** The operations a stored request carries. *)
Definition operation_snapshot `{SerdeJson} (snapshot : option string) (capabilities : string) : ContactResult json :=
  match snapshot with
  | Some snapshot =>
      let? value := ok_or (fail 500 "invalid stored operation snapshot") (from_slice snapshot) in
      throw (fail 500 "invalid stored operation snapshot") when negb (bool_decide (is_Some (as_object value)));;
      Ok value
  | None =>
      let? groups := ok_or (fail 500 "invalid stored capabilities") (from_slice capabilities ≫= as_array) in
      throw (fail 500 "invalid stored capabilities") when negb (forallb is_string groups);;
      throw (fail 400 "legacy contact request has no operation snapshot; submit a new request") when negb (bool_decide (groups = []));;
      Ok (jobj [])
  end.

(** ** Properties *)
Lemma all_bytes_spec p s : all_bytes p s = true <-> Forall (fun a => p a = true) (bytes_of s).
Proof. unfold all_bytes. by rewrite forallb_forall, Forall_forall; setoid_rewrite list_elem_of_In. Qed.
Definition plain_char (c : ascii) : bool := label_char c || Ascii.eqb c ".".
(** Nothing is trimmed from or changed in a string of label characters. *)
Lemma plain_char_cases c : plain_char c = true -> (code c <? 128) = true /\ is_whitespace (code c) = false /\ to_lower c = c /\ c <> "~"%char.
Proof. destruct c as [[] [] [] [] [] [] [] []]; intros Hc; first [discriminate Hc|vm_compute; repeat split; discriminate]. Qed.
Lemma char_indices_plain s :
  all_bytes plain_char s = true -> char_indices s = map (fun a => (code a, String a "")) (bytes_of s).
Proof.
  intros Hs%all_bytes_spec. induction s as [|a s IH]; [done|]. cbn in Hs. apply Forall_cons in Hs as [Ha Hs].
  apply plain_char_cases in Ha as [Ha _]. cbn. by rewrite Ha, (IH Hs).
Qed.
Lemma drop_ws_plain l : Forall (fun c : schar => is_whitespace (fst c) = false) l -> drop_ws l = l.
Proof. destruct 1 as [|[c b] l Hc _]; [done|]. cbn in *. by rewrite Hc. Qed.
Lemma concat_chars l : String.concat "" (map (fun a => String a "") l) = of_bytes l.
Proof. induction l as [|a [|b l] IH]; [done|done|]. cbn in *. by rewrite IH. Qed.
Lemma trim_plain s : all_bytes plain_char s = true -> trim s = s.
Proof.
  intros Hs. unfold trim. rewrite char_indices_plain by done. apply all_bytes_spec in Hs.
  set (l := map _ (bytes_of s)).
  assert (Forall (fun c : schar => is_whitespace (fst c) = false) l) as Hl.
  { unfold l. apply Forall_fmap. eapply Forall_impl; [exact Hs|]. cbn. intros a Ha. by apply plain_char_cases. }
  rewrite (drop_ws_plain l) by done. rewrite drop_ws_plain by by apply Forall_rev. rewrite rev_involutive. unfold l.
  rewrite map_map. cbn. by rewrite concat_chars, of_bytes_of.
Qed.
Lemma lowercase_plain s : all_bytes plain_char s = true -> to_ascii_lowercase s = s.
Proof.
  intros Hs%all_bytes_spec. unfold to_ascii_lowercase, string_map. rewrite <- (of_bytes_of s) at 2. f_equal.
  induction Hs as [|a l Ha _ IH]; [done|]. cbn. rewrite IH. f_equal. by apply plain_char_cases.
Qed.
Lemma ends_tilde_plain s : all_bytes plain_char s = true -> ends_with "~" s = false.
Proof.
  intros Hs. destruct (ends_with "~" s) eqn:He; [|done]. apply ends_with_iff in He as [r ->].
  by rewrite all_bytes_app, andb_comm in Hs.
Qed.
(** Labels joined by dots are plain. *)
Lemma labels_plain s : forallb label_ok (split_on "." s) = true -> all_bytes plain_char s = true.
Proof.
  intros Hl. rewrite <- (join_split "." s). rewrite forallb_forall in Hl.
  assert (Forall (fun x => all_bytes plain_char x = true) (split_on "." s)) as Hall.
  { apply Forall_forall. intros x Hx%list_elem_of_In%Hl. unfold label_ok in Hx. simplify_bool.
    match goal with Ha : all_bytes _ _ = true |- _ => apply all_bytes_spec in Ha; apply all_bytes_spec end.
    eapply Forall_impl; [eassumption|]. cbn. intros a Ha. unfold plain_char. by rewrite Ha. }
  clear Hl. induction (split_on "." s) as [|x l IH]; [done|]. apply Forall_cons in Hall as [Hx Hall]. destruct l as [|y l]; [done|].
  change (join "." (x :: y :: l)) with (x +:+ "." +:+ join "." (y :: l)). rewrite !all_bytes_app, Hx, (IH Hall). done.
Qed.
Lemma expand_suffix raw : ends_with SUFFIX (expand raw) = true.
Proof.
  unfold expand. destruct (ends_with "~" raw); [|destruct (ends_with SUFFIX raw) eqn:He; [done|]];
    apply ends_with_iff; eauto.
Qed.

(** A contact name is its canonical form: labels of at most 63 letters, digits
    and inner hyphens below dhttp.net; naming the result again gives it back. *)
Theorem name_canonical raw n :
  name raw = Ok n ->
  ends_with SUFFIX n = true /\ slen n <= 253 /\ Forall (fun label => label_ok label = true) (split_on "." n) /\
  trim_end_str SUFFIX n <> "" /\ name n = Ok n.
Proof.
  intros Hn. pose proof Hn as Hn'. unfold name in Hn. simplify_ok. simplify_bool.
  set (n := expand _) in *. pose proof (expand_suffix (to_ascii_lowercase (trim raw)) : ends_with SUFFIX n = true) as Hsuf.
  match goal with Hl : forallb _ _ = true |- _ => rename Hl into Hlabels end. pose proof (labels_plain n Hlabels) as Hplain.
  split_and!; [done|lia| |done|].
  - apply Forall_forall. intros x Hx%list_elem_of_In. rewrite forallb_forall in Hlabels. by apply Hlabels.
  - assert (expand (to_ascii_lowercase (trim n)) = n) as He.
    { rewrite trim_plain, lowercase_plain by done. unfold expand. by rewrite ends_tilde_plain, Hsuf by done. }
    unfold name. rewrite He, Hlabels, (proj2 (String.eqb_neq _ _)) by done.
    destruct (slen n >? 253) eqn:Hlen; [rewrite Z.gtb_ltb in Hlen; simplify_bool; lia|done].
Qed.

(** *** Operations asked for *)
Definition operation_in (access : list (string * json)) (method path : string) : Prop :=
  exists ms, assoc path access = Some (JArr ms) /\ JStr method ∈ ms.
Definition access_ok (access : list (string * json)) : Prop :=
  forall path v, assoc path access = Some v -> exists methods, v = JArr (map JStr methods) /\ NoDup methods.
Lemma add_operation_spec access method path :
  access_ok access ->
  access_ok (add_operation access (method, path)) /\
  forall m p, operation_in (add_operation access (method, path)) m p <-> operation_in access m p \/ (m, p) = (method, path).
Proof.
  intros Hok. unfold add_operation. set (methods := default [] (assoc path access ≫= as_array)).
  assert (exists texts, methods = map JStr texts /\ NoDup texts /\ forall m, operation_in access m path <-> m ∈ texts) as (texts & -> & Hnd & Hin).
  { unfold methods. destruct (assoc path access) as [v|] eqn:Ha.
    - destruct (Hok path v Ha) as (texts & -> & Hnd). exists texts. split_and!; [done..|]. intros m. split.
      + intros (ms & Hms & Hm). rewrite Ha in Hms. injection Hms as <-. by apply list_elem_of_fmap in Hm as (x & [= ->] & Hx).
      + intros Hm. exists (map JStr texts). split; [done|]. by apply list_elem_of_fmap_2.
    - exists []. split_and!; [done|constructor|]. intros m. split; [|by intros ?%not_elem_of_nil]. intros (ms & Hms & _). congruence. }
  destruct (existsb _ _) eqn:He.
  - split; [done|]. intros m p. split; [by left|]. intros [?|[= -> ->]]; [done|]. apply Hin.
    apply existsb_exists in He as (v & Hv & Heq%json_eqb_eq). apply list_elem_of_In, list_elem_of_fmap in Hv as (x & -> & Hx).
    by injection Heq as ->.
  - assert (method ∉ texts) as Hnot.
    { intros Hm. rewrite negb_existsb, Forall_forall in He. specialize (He (JStr method) ltac:(by apply list_elem_of_fmap_2)).
      by rewrite (proj2 (json_eqb_eq _ _) eq_refl) in He. }
    split.
    + intros p v Hp. destruct (decide (p = path)) as [->|Hne].
      * rewrite assoc_obj_insert in Hp. injection Hp as <-. exists (texts ++ [method]). rewrite map_app. split; [done|].
        apply NoDup_app. split_and!; [done| |apply NoDup_singleton]. intros x Hx ->%list_elem_of_singleton. done.
      * rewrite assoc_obj_insert_ne in Hp by done. by eapply Hok.
    + intros m p. unfold operation_in. destruct (decide (p = path)) as [->|Hne].
      * rewrite assoc_obj_insert. fold (operation_in access m path). rewrite Hin. split.
        -- intros (ms & [= <-] & [(x & [= ->] & Hx)%list_elem_of_fmap|[= ->]%list_elem_of_singleton]%elem_of_app); [by left|by right].
        -- intros Hm. eexists. split; [done|]. rewrite elem_of_app. destruct Hm as [Hm|[= ->]]; [left; by apply list_elem_of_fmap_2|right].
           by apply list_elem_of_singleton.
      * rewrite assoc_obj_insert_ne by done. split; [by left|]. intros [?|[= _ ->]]; [done|congruence].
Qed.
(** What is asked of a peer are the operations of the selected permissions,
    each method of a path once. *)
Theorem requested_operations selected :
  exists access, requested selected = JObj access /\ access_ok access /\
    forall m p, operation_in access m p <-> exists c, c ∈ selected /\ (m, p) ∈ cap_endpoints c.
Proof.
  unfold requested. eexists. split; [done|].
  assert (forall ops access, access_ok access ->
    access_ok (fold_left add_operation ops access) /\
    forall m p, operation_in (fold_left add_operation ops access) m p <-> operation_in access m p \/ (m, p) ∈ ops) as Hgen.
  { induction ops as [|[m0 p0] ops IH]; intros access Hok; cbn.
    - split; [done|]. intros m p. split; [by left|]. intros [?|?%not_elem_of_nil]; done.
    - destruct (add_operation_spec access m0 p0 Hok) as [Hok' Hspec]. destruct (IH _ Hok') as [Hok2 Hspec2]. split; [done|].
      intros m p. rewrite Hspec2, Hspec, elem_of_cons. tauto. }
  destruct (Hgen (flat_map cap_endpoints selected) []) as [Hok Hspec]; [intros p v Hp; discriminate Hp|]. split; [done|].
  intros m p. rewrite Hspec, list_elem_of_In, in_flat_map. setoid_rewrite <- list_elem_of_In. split; [|by right].
  intros [(ms & Hms & _)|?]; [discriminate Hms|done].
Qed.

(** *** Selected permissions *)
Section select_facts.
Context `{UrlCrates}.
Variable http_method : string -> bool.
Local Abbreviation select := (select http_method).
Local Abbreviation select_one := (select_one http_method).
(** An operation the catalogue offers under a path, in its canonical form. *)
Definition offered_by (paths : json) (operation : string * string) : Prop :=
  exists methods, get (snd operation) paths = Some (JArr methods) /\ JStr (fst operation) ∈ methods.
Definition capability_ok (catalog : list (string * json)) (c : capability) : Prop :=
  exists paths, (cap_id c, paths) ∈ catalog /\
    forall m p, (m, p) ∈ cap_endpoints c ->
      permission_path p = true /\ to_ascii_uppercase m = m /\ http_method m = true /\
      exists methods o, paths = JObj o /\ (p, JArr methods) ∈ o /\ JStr m ∈ methods.
Lemma catalog_entry_In catalog id e : catalog_entry catalog id = Ok e -> e ∈ catalog /\ (e.1 = id \/ titled id e = true /\ id ∉ map fst catalog).
Proof.
  unfold catalog_entry. destruct (assoc id catalog) as [paths|] eqn:Ha.
  - intros [= <-]. split; [by apply assoc_In|by left].
  - apply assoc_None in Ha. destruct (filter _ catalog) as [|x [|y l]] eqn:Hf; intros [= <-].
    assert (x ∈ filter (fun e => titled id e = true) catalog) as [Ht Hin]%list_elem_of_filter by (rewrite Hf; left). split; [done|by right].
Qed.
Lemma select_one_ok catalog result id result' :
  select_one catalog result id = Ok result' -> exists c, result' = result ++ [c] /\ cap_id c ∉ map cap_id result /\ capability_ok catalog c.
Proof.
  unfold Contact.select_one. intros Hs.
  destruct (as_str id) as [text|]; [|done]. cbn in Hs. destruct (catalog_entry catalog text) as [[cid paths]|] eqn:He; [|done].
  apply catalog_entry_In in He as [Hin _]. destruct (existsb _ result) eqn:Hd; [done|]. rewrite negb_existsb, Forall_forall in Hd.
  destruct (as_object paths) as [o|] eqn:Ho; [|done]. cbn in Hs. destruct (try_map _ o) as [ops|] eqn:Hm; [|done]. injection Hs as <-.
  eexists. split; [done|]. split.
  - intros (c & Hc & Hin')%list_elem_of_fmap. specialize (Hd c Hin'). cbn in Hc. subst cid. by rewrite String.eqb_refl in Hd.
  - exists paths. split; [done|]. cbn. intros m p Hmp. apply list_elem_of_In, in_concat in Hmp as (l & Hl & Hmp).
    apply list_elem_of_In in Hl, Hmp. destruct (try_map_elem _ _ _ _ Hm Hl) as ([p' methods] & Hp' & Hop).
    unfold permission_operations in Hop. destruct (permission_path p') eqn:Hpath; [|done]. cbn in Hop.
    destruct (as_array methods) as [ms|] eqn:Hms; [|done]. cbn in Hop.
    destruct (try_map_elem _ _ _ _ Hop Hmp) as (v & Hv & Hmethod). unfold permission_method in Hmethod.
    destruct (as_str v) as [text'|] eqn:Hstr; [|done]. cbn in Hmethod. destruct (_ || _) eqn:Hbad; [done|]. injection Hmethod as -> ->.
    simplify_bool. split_and!; [done|done|done|]. destruct methods; try done. injection Hms as ->. destruct v; try done. injection Hstr as ->.
    destruct paths; try done. injection Ho as ->. by exists ms, o.
Qed.
(** Selected permissions are distinct and of the catalogue; what they allow are
    safe paths and canonical methods that the catalogue lists for them. *)
Theorem select_sound catalog ids selected :
  select catalog ids = Ok selected ->
  NoDup (map cap_id selected) /\ length selected = length ids /\
  exists o, catalog = JObj o /\ Forall (capability_ok o) selected.
Proof.
  unfold Contact.select. destruct (as_object catalog) as [o|] eqn:Ho; [|done]. cbn. intros Hs.
  refine (try_fold_ind (select_one o) (fun done l => NoDup (map cap_id l) /\ length l = length done /\ exists o, catalog = JObj o /\ Forall (capability_ok o) l)
    [] _ _ ids selected Hs).
  - split_and!; [constructor|done|]. exists o. split; [destruct catalog; try done; by injection Ho as ->|constructor].
  - intros pre id l l' (Hnd & Hlen & o' & Hcat & Hall) H1. apply select_one_ok in H1 as (c & -> & Hc & Hcok). split_and!.
    + rewrite map_app. apply NoDup_app. split_and!; [done| |apply NoDup_singleton]. intros x Hx ->%list_elem_of_singleton. done.
    + rewrite !length_app. cbn. lia.
    + exists o'. split; [done|]. apply Forall_app. split; [done|]. apply Forall_singleton.
      rewrite Hcat in Ho. by injection Ho as ->.
Qed.
End select_facts.

(** *** Expiry *)
Theorem request_expiry_future time body valid_before :
  in_i64 (time + WEEK) = true -> request_expiry time body = Ok valid_before ->
  time < valid_before /\ in_i64 valid_before = true.
Proof.
  intros Hw. unfold request_expiry. intros Hr. simplify_ok. simplify_bool. split; [done|].
  destruct (get "expires_after" body), (get "valid_before" body); simplify_ok; try done.
  - unfold checked_add_i64 in *. by simplify_ok.
  - match goal with Hi : as_i64 ?v = Some _ |- _ => destruct v; try done; cbn in Hi end. by simplify_ok.
Qed.
