(* ===== verification/Delivery.v ===== *)
(** * Delivery of contact requests ([src/contact/delivery.rs],
      [src/contact/access.rs])

    A due request is taken under a lease, sent to the authenticated peer, and
    the answer recorded; the local contact is created, bound and activated in
    the access manager, which is a library.  The interleaving of several
    deliveries and deletions is the subject of [ContactStore]; here one delivery
    runs alone. *)
From S2P Require Import Prelude RustStr Decimal Json Crates Errors Capabilities ContactStore Contact.

(** ** State and failures
    The table, the world outside (access manager, peers, clock), and the review
    the delivery waits for. *)
Section monad.
Context {S : Type}.
Definition M (A : Type) : Type := S -> S * ContactResult A.
Definition lift {A} (r : ContactResult A) : M A := fun s => (s, r).
Definition mbind_ {A B} (m : M A) (k : A -> M B) : M B :=
  fun s => match m s with (s, Ok a) => k a s | (s, Err e) => (s, Err e) end.
Lemma mbind_Ok {A B} (m : M A) (k : A -> M B) s s' b :
  mbind_ m k s = (s', Ok b) -> exists s1 a, m s = (s1, Ok a) /\ k a s1 = (s', Ok b).
Proof. unfold mbind_. destruct (m s) as [s1 [a|e]]; [eauto|done]. Qed.
Lemma lift_Ok {A} (r : ContactResult A) s s' a : lift r s = (s', Ok a) -> s' = s /\ r = Ok a.
Proof. by intros [= <- ->]. Qed.
End monad.
Arguments M S A : clear implicits.
Notation "'do?' x ':=' m 'in' k" := (mbind_ m (fun x => k)) (at level 10, x pattern, m at level 100, k at level 200) : rust_scope.
Notation "'need' b 'else' e ';;' k" := (if b then k else lift (Err e))
  (at level 10, b at level 99, e at level 99, k at level 200) : rust_scope.

(** ** The libraries' side *)
Inductive auth_result := AuthAllowed | AuthDenied | AuthPending.
Record manager_request := ManagerRq { mr_method : string; mr_uri : string; mr_body : string; mr_visitor : option visitor }.
Record new_contact := NewContact {
  nc_name : string; nc_subject : string; nc_requested : json; nc_offers : json; nc_created : Z; nc_updated : Z; nc_expired_after : Z }.
Inductive record_error := NotUpdated (text : string) | TypeError (text : string) | OtherDb (text : string).
(** A request to a peer, with the owner hash the transport must find. *)
Record peer_request := PeerRq { pr_target : string; pr_method : string; pr_path : string; pr_body : option json; pr_expected : option string }.
(** The answer within the deadline: its authority, status and body frames. *)
Inductive peer_frame := FrameData (bytes : string) | FrameTrailers | FrameError (e : string).
Inductive peer_answer :=
| PeerTimeout
| PeerError (e : string)
| PeerAnswer (authority : option authority_) (status : Z) (body : list peer_frame).

Section delivery.
Context `{DhttpHome, SerdeJson, UrlCrates, AccessControl}.
Variable constraint_text column_text : string.
Variable certificate_error : list string -> string.
Variable utf8_lossy : string -> string.
(** [serde_json::from_value] into the operations of an access library. *)
Variable access_value : json -> result string unit.
Variable W : Type.
Variable clock : W -> W * Z.
Variable auth : string -> string -> list (string * string) -> visitor -> W -> W * result string auth_result.
Variable manage : manager_request -> W -> W * result string (Z * string).
Variable record_contact : new_contact -> W -> W * result record_error unit.
Variable exchange : peer_request -> W -> W * peer_answer.

Record state := State { st_table : table; st_world : W; st_review : option pending_review }.
Abbreviation D := (M state).
Definition world {A} (f : W -> W * A) : D A :=
  fun s => let '(w, a) := f (st_world s) in (State (st_table s) w (st_review s), Ok a).
Definition now : D Z := world clock.
Definition set_next_review (review : option pending_review) : D unit := fun s => (State (st_table s) (st_world s) review, Ok tt).

(** ** [access.rs] *)
Definition owner (ep : endpoint) : ContactResult visitor :=
  let? local := map_err (fail 500) (ep_local ep) in
  let? ski := ok_or (fail 500 (certificate_error (au_certificates local))) (extract_ski (au_certificates local)) in
  throw (fail 500 "invalid local subject identity") when negb (subject_ok (owner_hash ski));;
  Ok (Visitor (ep_name ep) (owner_hash ski)).
Definition manager_answer (parse_error : Failure) (answer : result string (Z * string)) (read_error : Z) : ContactResult json :=
  let? (status, bytes) := map_err (fail read_error) answer in
  throw (fail status (utf8_lossy bytes)) when negb ((200 <=? status) && (status <? 300));;
  if String.eqb bytes "" then Ok JNull else ok_or parse_error (from_slice bytes).
Definition JSON_HEADERS : list (string * string) := [("content-type", "application/json")].
Definition request_body (body : option json) : string := match body with Some v => to_json_string v | None => "" end.
Definition local_api (ep : endpoint) (method path : string) (body : option json) : D json :=
  do? visitor := lift (owner ep) in
  do? verdict := world (auth method path JSON_HEADERS visitor) in
  do? verdict := lift (map_err (fail 500) verdict) in
  match verdict with
  | AuthDenied => lift (Err (fail 403 "contact operation denied by ACL"))
  | AuthPending => lift (Err (fail 409 "contact operation awaits ACL approval"))
  | AuthAllowed =>
      do? answer := world (manage (ManagerRq method path (request_body body) (Some visitor))) in
      lift (manager_answer (fail 502 "invalid contact response") answer 502)
  end.
Definition contact_path (target : string) : string := "/std/contact?name=" +:+ form_encode target.
Definition contact (ep : endpoint) (target : string) : D json := local_api ep "GET" (contact_path target) None.
(** [match contact(..) { Ok => Some, Err((404, _)) => None, .. }] *)
Definition find_contact (ep : endpoint) (target : string) : D (option json) :=
  fun s => match contact ep target s with
           | (s, Ok c) => (s, Ok (Some c))
           | (s, Err e) => if fst e =? 404 then (s, Ok None) else (s, Err e)
           end.
Definition record_code (e : record_error) : Failure :=
  match e with NotUpdated text => fail 409 text | TypeError text => fail 400 text | OtherDb text => fail 500 text end.
Definition record_outbound (target subject : string) (requests offers : json) (valid_before started_at : Z) : D unit :=
  do? time := now in
  do? c := lift (throw (fail 502 "invalid peer subject") when negb (subject_ok subject);;
                 let? _ := map_err (fail 400) (access_value requests) in
                 let? _ := map_err (fail 400) (access_value offers) in
                 Ok (NewContact target subject requests offers started_at time valid_before)) in
  do? recorded := world (record_contact c) in
  lift (map_err record_code recorded).
Definition grant_operation (ep : endpoint) (target : string) (operation : string * string) : D unit :=
  do? _ := local_api ep "PATCH" ("/std/acl/allow?name=" +:+ form_encode target)
             (Some (jobj [("api", JStr (snd operation)); ("method", JStr (fst operation)); ("effect", JStr "allow")])) in
  lift (Ok tt).
Fixpoint grant_all (ep : endpoint) (target : string) (operations : list (string * string)) : D unit :=
  match operations with
  | [] => lift (Ok tt)
  | operation :: operations => do? _ := grant_operation ep target operation in grant_all ep target operations
  end.
Definition status_in (c : json) (statuses : list string) : bool :=
  match as_str c.["status"] with Some s => mem s statuses | None => false end.
Definition grant_offered (ep : endpoint) (target subject : string) (requests capabilities : list capability) (valid_before : Z) : D unit :=
  do? found := find_contact ep target in
  do? existing := match found with
                  | Some c => lift (Ok c)
                  | None =>
                      do? started_at := now in
                      do? _ := record_outbound target subject (requested requests) (offered capabilities) valid_before started_at in
                      contact ep target
                  end in
  need is_str existing.["subject_id"] subject && status_in existing ["pending"; "active"]
  else fail 409 "local contact blocks offered capabilities";;
  grant_all ep target (flat_map cap_endpoints capabilities).

(** ** [remote_response], [remote] *)
Definition take_frame (bytes : string) (f : peer_frame) : ContactResult string :=
  match f with
  | FrameError e => Err (fail 502 e)
  | FrameTrailers => Err (fail 502 "contact response trailers are unsupported")
  | FrameData data =>
      throw (fail 502 "contact response too large") when slen data >? 1024 * 1024 - slen bytes;;
      Ok (bytes +:+ data)
  end.
Definition accepted (status : Z) : bool := (status =? 200) || (status =? 201).
Definition peer_value (target : string) (answer : peer_answer) : ContactResult (Z * json * string) :=
  match answer with
  | PeerTimeout => Err (fail 504 "contact request timed out")
  | PeerError e => Err (fail 502 e)
  | PeerAnswer authority status body =>
      let? authority := ok_or (fail 502 "missing authenticated contact identity") authority in
      throw (fail 502 "contact authority mismatch") when negb (String.eqb (au_name authority) target);;
      let? ski := ok_or (fail 502 "invalid contact identity") (extract_ski (au_certificates authority)) in
      let? bytes := try_fold take_frame "" body in
      let? value := match from_slice bytes with
                    | Some value => Ok value
                    | None => if accepted status then Err (fail 502 "invalid remote JSON") else Ok JNull
                    end in
      Ok (status, value, owner_hash ski)
  end.
Definition remote_response (target method path : string) (body : option json) (expected : option string) : D (Z * json * string) :=
  do? _ := lift (ok_or (fail 400 "invalid contact URI") (uri_parse ("https://" +:+ target +:+ path))) in
  need (match expected with Some hash => owner_hash_ok hash | None => true end) else fail 409 "invalid contact identity";;
  do? answer := world (exchange (PeerRq target method path body expected)) in
  lift (peer_value target answer).
Definition remote (target method path : string) (body : option json) (expected : option string) : D (Z * json * string) :=
  do? response := remote_response target method path body expected in
  need accepted (fst (fst response)) else fail (fst (fst response)) "remote contact operation rejected";;
  lift (Ok response).

(** ** [deliver] *)
(** The request to the peer: the application itself, later its state. *)
Definition delivery_request (ep : endpoint) (o : outbound) (requests offers : json) : string * string * option json :=
  let d := ob_draft o in
  if String.eqb (ob_status o) "queued"
  then ("POST", "/std/contact",
        Some (jobj [("from", JStr (ep_name ep)); ("to", JStr (target_name d)); ("application_id", jopt JStr (application_id d));
                    ("description", JStr (description d)); ("class", JStr "Human"); ("requested_access", requests); ("offers", offers)]))
  else ("GET", contact_path (ep_name ep), None).
(** The local contact is the one the request was bound to. *)
Definition bound_to (o : outbound) (c : json) : bool :=
  match ob_contact_id o with
  | Some id => json_eqb c.["id"] (JInt id) && bool_decide (as_str c.["subject_id"] = ob_contact_subject o)
  | None => true
  end.
Definition binding_kept (o : outbound) (existing : option json) : bool :=
  match ob_contact_id o, existing with
  | None, _ => true
  | Some _, None => false
  | Some _, Some c => bound_to o c && negb (status_in c ["blocked"; "expired"])
  end.
(** A review in progress at the peer must have been decided. *)
Definition check_review (target method path : string) (expected : option string) : D (option string) :=
  fun s =>
    match st_review s with
    | None => (s, Ok None)
    | Some review =>
        (need String.eqb (review_method review) method && String.eqb (review_path review) path
              && match expected with Some sid => String.eqb sid (review_subject review) | None => true end
         else fail 409 "review target or operation changed";;
         do? (code, result, _) := remote_response target "GET" ("/std/acl/status?id=" +:+ show_Z (review_id review)) None (Some (review_subject review)) in
         do? decided := lift (review_progress code result) in
         need decided else fail 400 "need_review";;
         lift (Ok (Some (review_subject review)))) s
    end.
(** The receipt of a contact that exists at the peer, in the terms of the
    application. *)
Definition own_receipt (visitor : visitor) (target application sid : string) (receipt : json) : ContactResult json :=
  throw (fail 502 "remote contact state belongs to a different subject") when
    negb (is_str receipt.["name"] (v_name visitor)) || negb (is_str receipt.["subject_id"] (v_subject visitor));;
  let receipt := set_key "subject_id" (JStr sid) (set_key "name" (JStr target) (set_key "application_id" (JStr application) receipt)) in
  let receipt := if is_str receipt.["status"] "blocked" then set_key "status" (JStr "revoked") receipt else receipt in
  Ok (if is_str receipt.["status"] "transfered" then set_key "status" (JStr "pending") receipt else receipt).
Definition receipt_matches (target application sid : string) (receipt : json) : bool :=
  is_str receipt.["application_id"] application && is_str receipt.["name"] target && is_str receipt.["subject_id"] sid.

(** From the local contact to the peer's receipt and its subject. *)
Definition obtain_receipt (ep : endpoint) (o : outbound) (application : string) : D (json * string) :=
  let target := target o in
  do? (requests, offered) := lift (
    if String.eqb (ob_status o) "queued"
    then let? requests := operation_snapshot (requested_access (ob_draft o)) (requested_capabilities (ob_draft o)) in
         let? offered := operation_snapshot (offers (ob_draft o)) (offered_capabilities (ob_draft o)) in
         Ok (requests, offered)
    else Ok (jobj [], jobj [])) in
  do? existing := find_contact ep target in
  need binding_kept o existing else fail 410 "local contact was removed, replaced or blocked";;
  let expected := existing ≫= (fun c => as_str c.["subject_id"]) in
  let '(method, path, body) := delivery_request ep o requests offered in
  do? reviewed := check_review target method path expected in
  do? (code, receipt, sid) := remote_response target method path body (match reviewed with Some s => Some s | None => expected end) in
  do? pending := lift (pending_review_of code receipt) in
  do? _ := match pending with
           | Some id => do? _ := set_next_review (Some (PendingReview id sid method path)) in lift (Err (fail 400 "need_review"))
           | None => lift (Ok tt)
           end in
  need accepted code else fail code "remote contact operation rejected";;
  do? _ := set_next_review None in
  do? receipt := if String.eqb (ob_status o) "queued" then lift (Ok receipt)
                 else do? visitor := lift (owner ep) in lift (own_receipt visitor target application sid receipt) in
  need receipt_matches target application sid receipt
  else fail 502 "contact receipt identity does not match authenticated peer";;
  do? _ := if bool_decide (ob_contact_id o = None) && bool_decide (existing = None) && status_in receipt ["pending"; "active"]
           then do? time := now in
                do? later := now in
                let valid_before := match as_i64 receipt.["valid_before"] with
                                    | Some expiry => if time <? expiry then expiry else later + WEEK
                                    | None => later + WEEK
                                    end in
                record_outbound target sid requests offered valid_before (created_at (ob_draft o))
           else lift (Ok tt) in
  lift (Ok (receipt, sid)).
(** The local contact the request is bound to. *)
Definition local_binding (ep : endpoint) (o : outbound) : D (Z * string) :=
  do? current := contact ep (target o) in
  need bound_to o current else fail 410 "local contact changed during delivery";;
  do? id := lift (ok_or (fail 502 "missing contact ID") (as_i64 current.["id"])) in
  do? subject := lift (text_of current "subject_id") in
  lift (Ok (id, subject)).
Definition bind_local (id lease contact_id : Z) (subject : string) : D unit :=
  fun s => (State (bind_contact id lease contact_id subject (st_table s)) (st_world s) (st_review s), Ok tt).
(** An accepted application activates the local contact. *)
Definition activate (ep : endpoint) (target sid : string) : D unit :=
  do? found := find_contact ep target in
  do? c := lift (ok_or (fail 410 "local contact was removed") found) in
  need is_str c.["subject_id"] sid && negb (status_in c ["blocked"; "expired"]) else fail 409 "local contact blocks reconciliation";;
  if status_in c ["pending"; "transfered"]
  then do? _ := local_api ep "PATCH" (contact_path target) (Some (jobj [("status", JStr "active")])) in lift (Ok tt)
  else lift (Ok tt).
Definition settle_receipt (ep : endpoint) (target : string) (receipt : json) (sid : string) : D json :=
  do? _ := if is_str receipt.["status"] "active" then activate ep target sid else lift (Ok tt) in
  do? _ := if is_str receipt.["status"] "pending"
           then do? time := now in
                need (match as_i64 receipt.["valid_before"] with Some expires => time <? expires | None => false end)
                else fail 410 "remote contact request expired";; lift (Ok tt)
           else lift (Ok tt) in
  do? state := lift (text_of receipt "status") in
  need mem state ["pending"; "active"; "denied"; "expired"; "revoked"] else fail 502 "unknown contact status";;
  need bool_decide (is_Some (as_i64 receipt.["valid_before"])) else fail 502 "missing contact expiry";;
  lift (Ok receipt).
Definition attempt (ep : endpoint) (id : Z) (o : outbound) (lease : Z) (application : string) : D json :=
  do? (receipt, sid) := obtain_receipt ep o application in
  do? (local_id, local_subject) := local_binding ep o in
  do? _ := bind_local id lease local_id local_subject in
  settle_receipt ep (target o) receipt sid.

Definition take_job : D (option (Z * outbound) * Z) :=
  do? t1 := now in
  do? t2 := now in
  do? t3 := now in
  fun s => let '(t, claimed) := claim column_text t1 t2 t3 (st_table s) in (State t (st_world s) (st_review s), claimed).
Definition record_outcome (id lease : Z) (outcome : ContactResult json) : D unit :=
  do? t1 := now in
  do? t2 := now in
  let '(checked_at, next_from) := if is_ok outcome then (t1, t2) else (t2, t1) in
  fun s => let '(t, recorded) := finish constraint_text id lease (st_review s) outcome checked_at next_from (st_table s) in
           (State t (st_world s) (st_review s), recorded).
Definition deliver (ep : endpoint) : D unit :=
  do? (claimed, lease) := take_job in
  match claimed with
  | None => lift (Ok tt)
  | Some (id, o) =>
      do? _ := set_next_review (ob_review o) in
      fun s => let '(s, outcome) := attempt ep id o lease (default "" (application_id (ob_draft o))) s in
               record_outcome id lease outcome s
  end.
End delivery.

(** ** Properties *)
(** *** Computations that leave the table alone *)
Section frames.
Context {W : Type}.
Definition frames {A} (m : M (state W) A) : Prop := forall s, st_table W (fst (m s)) = st_table W s.
Lemma frames_lift {A} (r : ContactResult A) : frames (lift r).
Proof. by intros s. Qed.
Lemma frames_world {A} (f : W -> W * A) : frames (world W f).
Proof. intros s. unfold world. by destruct (f _). Qed.
Lemma frames_review r : frames (set_next_review W r).
Proof. by intros s. Qed.
Lemma frames_bind {A B} (m : M (state W) A) (k : A -> M (state W) B) : frames m -> (forall a, frames (k a)) -> frames (mbind_ m k).
Proof.
  intros Hm Hk s. specialize (Hm s). unfold mbind_. destruct (m s) as [s1 [a|e]]; cbn in *; [|done]. by rewrite Hk.
Qed.
(** A first step that leaves the table alone either ends the computation or is
    followed by the rest. *)
Lemma bind_frames {A B} (m : M (state W) A) (k : A -> M (state W) B) s s' r :
  mbind_ m k s = (s', r) -> frames m ->
  (st_table W s' = st_table W s /\ exists e, r = Err e) \/
  exists s1 a, m s = (s1, Ok a) /\ st_table W s1 = st_table W s /\ k a s1 = (s', r).
Proof.
  intros Hb Hm. specialize (Hm s). unfold mbind_ in Hb. destruct (m s) as [s1 [a|e]]; cbn in *; [right; eauto|].
  injection Hb as <- <-. eauto.
Qed.
Lemma frames_if {A} (b : bool) (m1 m2 : M (state W) A) : frames m1 -> frames m2 -> frames (if b then m1 else m2).
Proof. by destruct b. Qed.
End frames.
Create HintDb frames.
#[export] Hint Resolve frames_lift frames_world frames_review : frames.
Ltac frame :=
  repeat first
    [ solve [eauto with frames nocore]
    | apply frames_bind; [|intros ?]
    | apply frames_if
    | match goal with |- frames (match ?x with _ => _ end) => destruct x end
    | match goal with |- frames (let '_ := ?x in _) => destruct x end ].
(** [run H] takes the first step of a computation that succeeded. *)
Ltac run H :=
  match type of H with
  | mbind_ _ _ _ = (_, Ok _) =>
      let s1 := fresh "s" in let a := fresh "a" in let H1 := fresh "Hm" in
      apply mbind_Ok in H as (s1 & a & H1 & H); cbn beta in H
  | lift _ _ = (_, Ok _) => let H1 := fresh "Hs" in apply lift_Ok in H as [H1 H]
  | (if ?b then _ else _) _ = (_, Ok _) => let H1 := fresh "Hb" in destruct b eqn:H1
  end.

Section delivery_facts.
Context `{DhttpHome, SerdeJson, UrlCrates, AccessControl}.
Variable constraint_text column_text : string.
Variable certificate_error : list string -> string.
Variable utf8_lossy : string -> string.
Variable access_value : json -> result string unit.
Context {W : Type}.
Variable clock : W -> W * Z.
Variable auth : string -> string -> list (string * string) -> visitor -> W -> W * result string auth_result.
Variable manage : manager_request -> W -> W * result string (Z * string).
Variable record_contact : new_contact -> W -> W * result record_error unit.
Variable exchange : peer_request -> W -> W * peer_answer.
Abbreviation D := (M (state W)).
Local Abbreviation attempt := (attempt certificate_error utf8_lossy access_value W clock auth manage record_contact exchange).
Local Abbreviation deliver := (deliver constraint_text column_text certificate_error utf8_lossy access_value W clock auth manage record_contact exchange).

Lemma frames_local_api ep method path body : frames (local_api certificate_error utf8_lossy W auth manage ep method path body).
Proof. unfold local_api. frame. Qed.
Hint Resolve frames_local_api : frames.
Lemma frames_find_contact ep target : frames (find_contact certificate_error utf8_lossy W auth manage ep target).
Proof.
  intros s. pose proof (frames_local_api ep "GET" (contact_path target) None s) as Hf.
  unfold find_contact, contact. destruct (local_api _ _ _ _ _ _ _ _ _ s) as [s1 [c|e]]; [done|]. by destruct (_ =? _).
Qed.
Hint Resolve frames_find_contact : frames.
Lemma frames_record_outbound target subject requests offers vb at_ :
  frames (record_outbound access_value W clock record_contact target subject requests offers vb at_).
Proof. unfold record_outbound, now. frame. Qed.
Hint Resolve frames_record_outbound : frames.
Lemma frames_remote_response target method path body expected : frames (remote_response W exchange target method path body expected).
Proof. unfold remote_response. frame. Qed.
Hint Resolve frames_remote_response : frames.
Lemma frames_check_review target method path expected : frames (check_review W exchange target method path expected).
Proof.
  intros s. unfold check_review. destruct (st_review W s) as [review|]; [|done].
  match goal with |- st_table _ (?m s).1 = _ => assert (frames m) as Hf by frame; apply Hf end.
Qed.
Hint Resolve frames_check_review : frames.
Lemma frames_obtain_receipt ep o application :
  frames (obtain_receipt certificate_error utf8_lossy access_value W clock auth manage record_contact exchange ep o application).
Proof. unfold obtain_receipt, now. frame. Qed.
Lemma frames_local_binding ep o : frames (local_binding certificate_error utf8_lossy W auth manage ep o).
Proof. unfold local_binding, contact. frame. Qed.
Lemma frames_settle ep target receipt sid : frames (settle_receipt certificate_error utf8_lossy W clock auth manage ep target receipt sid).
Proof. unfold settle_receipt, activate, now. frame. Qed.

(** *** What a recorded receipt stands for *)
(** An accepted answer of a peer authenticated as the target, asked for under the
    bound subject: the receipt as it was sent (queued), or with the names filled
    in by [own_receipt] (a status query). *)
Definition acknowledged (ep : endpoint) (o : outbound) (status : string) : Prop :=
  exists request authority ski body w w' code value receipt,
    exchange request w = (w', PeerAnswer (Some authority) code body) /\ pr_target request = target o /\
    au_name authority = target o /\ extract_ski (au_certificates authority) = Some ski /\
    peer_value (target o) (PeerAnswer (Some authority) code body) = Ok (code, value, owner_hash ski) /\ accepted code = true /\
    (forall subject, is_Some (ob_contact_id o) -> ob_contact_subject o = Some subject -> pr_expected request = Some subject) /\
    (if String.eqb (ob_status o) "queued" then pr_method request = "POST" /\ receipt = value
     else pr_method request = "GET" /\ exists visitor application,
       owner certificate_error ep = Ok visitor /\ own_receipt visitor (target o) application (owner_hash ski) value = Ok receipt) /\
    receipt_matches (target o) (default "" (application_id (ob_draft o))) (owner_hash ski) receipt = true /\
    as_str receipt.["status"] = Some status.
Lemma peer_value_Ok target answer code value sid :
  peer_value target answer = Ok (code, value, sid) ->
  exists authority ski body, answer = PeerAnswer (Some authority) code body /\ au_name authority = target /\
    extract_ski (au_certificates authority) = Some ski /\ sid = owner_hash ski.
Proof.
  unfold peer_value. destruct answer as [|e|[authority|] status body]; try done. cbn. intros Hp. simplify_ok. simplify_bool. eauto 7.
Qed.

Lemma remote_response_Ok target method path body expected s s' r :
  remote_response W exchange target method path body expected s = (s', Ok r) ->
  exists answer w w', exchange (PeerRq target method path body expected) w = (w', answer) /\ peer_value target answer = Ok r.
Proof.
  unfold remote_response. intros Hr. run Hr. run Hr; [|done]. run Hr. apply lift_Ok in Hr as [_ Hr].
  match goal with Hw : world _ _ ?s1 = _ |- _ => unfold world in Hw; destruct (exchange _ (st_world W s1)) as [w' answer] eqn:He; injection Hw as _ <- end.
  eauto.
Qed.
Lemma check_review_Ok target method path expected s s' reviewed :
  check_review W exchange target method path expected s = (s', Ok reviewed) ->
  match reviewed with Some r => match expected with Some sid => sid = r | None => True end | None => True end.
Proof.
  unfold check_review. destruct (st_review W s) as [review|]; [|by intros [= _ <-]].
  intros Hc. run Hc; [|done]. run Hc. destruct a as [[code result] sid']. run Hc. run Hc; [|done]. apply lift_Ok in Hc as [_ [= <-]].
  apply andb_true_iff in Hb as [_ Hx]. destruct expected; [|done]. by apply String.eqb_eq.
Qed.
Lemma binding_kept_subject o existing subject :
  binding_kept o existing = true -> is_Some (ob_contact_id o) -> ob_contact_subject o = Some subject ->
  existing ≫= (fun c => as_str c.["subject_id"]) = Some subject.
Proof.
  unfold binding_kept. intros Hb [cid Hid] Hs. rewrite Hid in Hb. destruct existing as [c|]; [|done].
  unfold bound_to in Hb. rewrite Hid in Hb. simplify_bool. cbn. congruence.
Qed.
Lemma obtain_receipt_Ok ep o application s s' receipt sid :
  obtain_receipt certificate_error utf8_lossy access_value W clock auth manage record_contact exchange ep o application s = (s', Ok (receipt, sid)) ->
  application = default "" (application_id (ob_draft o)) ->
  forall status, as_str receipt.["status"] = Some status -> acknowledged ep o status.
Proof.
  unfold obtain_receipt. intros Hr Happ status Hst. run Hr. destruct a as [requests offered]. run Hr. rename a into existing.
  run Hr; [|done]. rename Hb into Hkept. destruct (delivery_request ep o requests offered) as [[method path] body] eqn:Hd.
  run Hr. rename a into reviewed. apply check_review_Ok in Hm1. run Hr. destruct a as [[code value] sid'].
  apply remote_response_Ok in Hm2 as (answer & w & w' & He & Hp). run Hr. run Hr. run Hr; [|done]. rename Hb into Hacc. run Hr.
  run Hr. run Hr; [|done]. rename Hb into Hmatch. match type of Hmatch with receipt_matches _ _ _ ?x = _ => rename x into receipt' end. run Hr. apply lift_Ok in Hr as [_ [= <- <-]].
  exists (PeerRq (target o) method path body (match reviewed with Some s => Some s | None => existing ≫= (fun c => as_str c.["subject_id"]) end)).
  apply peer_value_Ok in Hp as Hpeer. destruct Hpeer as (authority & ski & frames_ & -> & Hname & Hski & ->).
  exists authority, ski, frames_, w, w', code, value, receipt'. cbn [pr_target pr_expected pr_method]. split_and!; try done.
  - intros subject Hid Hsub. pose proof (binding_kept_subject o existing subject Hkept Hid Hsub) as Hx. rewrite Hx in *.
    destruct reviewed; congruence.
  - unfold delivery_request in Hd. destruct (String.eqb (ob_status o) "queued"); injection Hd as <- <- <-.
    + split; [done|]. by match goal with Hl : lift (Ok value) _ = (_, Ok receipt') |- _ => apply lift_Ok in Hl as [_ [= <-]] end.
    + split; [done|]. match goal with Hl : mbind_ (lift (owner _ _)) _ _ = (_, Ok receipt') |- _ => rename Hl into Howner end.
      run Howner. apply lift_Ok in Howner as [_ Hown]. match goal with Hl : lift (owner _ _) _ = _ |- _ => apply lift_Ok in Hl as [_ Hl] end.
      eauto.
  - by subst application.
Qed.
Lemma attempt_facts ep id o lease application s s' r :
  table_ok (st_table W s) -> attempt ep id o lease application s = (s', r) -> application = default "" (application_id (ob_draft o)) ->
  (st_table W s' = st_table W s \/ exists cid subject, st_table W s' = bind_contact id lease cid subject (st_table W s)) /\
  match r with
  | Ok receipt => forall status, as_str receipt.["status"] = Some status -> acknowledged ep o status
  | Err _ => True
  end.
Proof.
  intros Hok Ha Happ. unfold Delivery.attempt in Ha. unfold mbind_ at 1 in Ha.
  destruct (obtain_receipt _ _ _ _ _ _ _ _ _ _ _ _ s) as [s1 [[receipt sid]|e]] eqn:Ho;
    pose proof (frames_obtain_receipt ep o application s) as Hf1; rewrite Ho in Hf1; cbn in Hf1;
    [|injection Ha as <- <-; split; [by left|done]].
  pose proof (obtain_receipt_Ok ep o application s s1 receipt sid Ho Happ) as Hack.
  unfold mbind_ at 1 in Ha. destruct (local_binding _ _ _ _ _ _ _ s1) as [s2 [[cid subject]|e]] eqn:Hl;
    pose proof (frames_local_binding ep o s1) as Hf2; rewrite Hl in Hf2; cbn in Hf2;
    [|injection Ha as <- <-; split; [left; congruence|done]].
  unfold mbind_ at 1, bind_local in Ha. cbn beta iota in Ha.
  match type of Ha with settle_receipt _ _ _ _ _ _ _ _ _ _ ?s3 = _ => pose proof (frames_settle ep (target o) receipt sid s3) as Hf3 end.
  rewrite Ha in Hf3. cbn in Hf3. split; [right; exists cid, subject; congruence|].
  destruct r as [receipt'|e]; [|done]. unfold settle_receipt in Ha. run Ha. run Ha. run Ha. run Ha; [|done]. run Ha; [|done].
  apply lift_Ok in Ha as [_ [= <-]]. exact Hack.
Qed.

(** *** Rows across a delivery *)
Lemma take_job_table s s1 c :
  take_job column_text W clock s = (s1, c) -> exists t1 t2 t3, claim column_text t1 t2 t3 (st_table W s) = (st_table W s1, c).
Proof.
  unfold take_job, now, mbind_, world. destruct (clock (st_world W s)) as [w1 t1]. cbn. destruct (clock w1) as [w2 t2]. cbn.
  destruct (clock w2) as [w3 t3]. cbn. destruct (claim column_text t1 t2 t3 (st_table W s)) as [t c1] eqn:Hc. intros [= <- <-]. eauto.
Qed.
Lemma record_outcome_table id lease outcome s s' r :
  record_outcome constraint_text W clock id lease outcome s = (s', r) ->
  exists t1 t2 review, finish constraint_text id lease review outcome t1 t2 (st_table W s) = (st_table W s', r).
Proof.
  unfold record_outcome, now, mbind_, world. destruct (clock (st_world W s)) as [w1 t1]. cbn. destruct (clock w1) as [w2 t2]. cbn.
  destruct (is_ok outcome); cbn; match goal with |- context [finish ?a ?b ?c ?d ?e ?f ?g ?h] => destruct (finish a b c d e f g h) as [t r1] eqn:Hf end;
    intros [= <- <-]; eauto.
Qed.
Lemma expire_row_back now0 t id o' :
  rows (expire_requests now0 t) !! id = Some o' -> exists o, rows t !! id = Some o /\ same_draft o o' /\
    (o' = o \/ live_status (ob_status o') = false /\ (ob_status o' = "failed" \/ ob_status o' = "expired")).
Proof.
  cbn. intros (o & <- & Hl)%lookup_fmap_Some. exists o. split; [done|]. split; [apply expire_row_draft|].
  unfold expire_row. destruct (_ && _); [right|by left]. cbn. destruct (String.eqb _ _); auto.
Qed.
(** The claimed row, wherever it went, keeps its draft and its status until the
    outcome is recorded. *)
Lemma claimed_rows t o id lease t3 i o3 :
  t3 = Table (<[id := set_lease (Some lease) o]> (rows t)) (sequence t) \/
  (exists cid subject, t3 = bind_contact id lease cid subject (Table (<[id := set_lease (Some lease) o]> (rows t)) (sequence t))) ->
  rows t3 !! i = Some o3 ->
  if decide (i = id) then same_draft o o3 /\ ob_status o3 = ob_status o else rows t !! i = Some o3.
Proof.
  set (t1 := Table _ _). intros Ht Hi.
  assert (rows t1 !! i = Some o3 \/ i = id /\ same_draft o o3 /\ ob_status o3 = ob_status o) as [Hi1|(-> & Hd & Hs)].
  { destruct Ht as [->|(cid & subject & ->)]; [by left|]. unfold bind_contact in Hi.
    destruct (leased id lease t1) as [o1|] eqn:Hl; [|by left]. destruct (bool_decide _); [|by left]. cbn in Hi.
    destruct (decide (i = id)) as [->|Hne]; [|rewrite lookup_insert_ne in Hi by done; by left].
    rewrite lookup_insert_eq in Hi. injection Hi as <-. right. apply leased_Some in Hl as [Hl _]. cbn in Hl.
    rewrite lookup_insert_eq in Hl. by injection Hl as <-. }
  - cbn in Hi1. case_decide as Hid; [subst i; rewrite lookup_insert_eq in Hi1; by injection Hi1 as <-|by rewrite lookup_insert_ne in Hi1].
  - by rewrite decide_True.
Qed.

(** C31: A delivery keeps the constraints of the table and the content of every request, and each
    request keeps its status, fails, expires, or takes the status of a receipt that comes from an
    accepted answer of a peer the transport authenticated under the name of the target; where the
    request is bound to a contact, the transport was asked to expect that contact's owner hash (that it
    enforces this is the transport's part). For a queued request the receipt is the answer as the peer
    sent it, and names the application, the target and the owner hash of the certificates the peer
    answered with. For a later status query the answer names the own visitor as the contact, and the
    code itself fills in the application, the target and that owner hash and translates the statuses
    blocked and transfered. *)
Theorem deliver_evidence ep s s' r :
  table_ok (st_table W s) -> deliver ep s = (s', r) ->
  table_ok (st_table W s') /\
  forall id o', rows (st_table W s') !! id = Some o' -> exists o,
    rows (st_table W s) !! id = Some o /\ same_draft o o' /\
    (ob_status o' = ob_status o \/ ob_status o' = "failed" \/ ob_status o' = "expired" \/ acknowledged ep o (ob_status o')).
Proof.
  intros Hok Hd. unfold Delivery.deliver, mbind_ at 1 in Hd. destruct (take_job _ _ _ s) as [s1 c] eqn:Ht.
  apply take_job_table in Ht as (t1 & t2 & t3 & Hc). pose proof (claim_ok _ _ _ _ _ _ _ Hok Hc) as Hok1.
  assert (match c with Ok (Some _, _) => False | _ => True end -> s' = s1) as Hsame.
  { destruct c as [[[[id o]|] lease]|e]; [done| |]; intros _; by injection Hd. }
  destruct c as [[[[id o]|] lease]|e].
  2,3: rewrite Hsame by done; split; [done|]; intros id o' Hl;
    apply claim_other in Hc as [Hc|Hc]; [rewrite Hc in Hl; exists o'; split; [done|]; split; [done|by left]| |done];
    rewrite Hc in Hl; apply expire_row_back in Hl as (o & Hl & Hdr & [->|[_ Hs]]); exists o; (split; [done|]; split; [done|]); tauto.
  clear Hsame. apply claim_Some in Hc as (-> & Hl & Hdue & Ht1). apply expire_row_back in Hl as Hback.
  destruct Hback as (o0 & Hl0 & _ & [->|[Hdead _]]); [|apply due_live in Hdue; congruence]. rename o0 into o.
  unfold mbind_, set_next_review in Hd. cbn beta iota in Hd.
  match type of Hd with (let '(_, _) := ?a in _) = _ => destruct a as [s3 outcome] eqn:Ha end.
  apply attempt_facts in Ha as [Ht3 Hack]; [|done|done]. cbn in Ht3.
  apply record_outcome_table in Hd as (u1 & u2 & review & Hf).
  assert (table_ok (st_table W s3)) as Hok3.
  { destruct Ht3 as [->|(cid & subject & ->)]; [done|by apply bind_contact_facts]. }
  pose proof (finish_facts _ _ _ _ _ _ _ _ _ _ Hok3 Hf) as [Hok' _]. split; [done|].
  apply finish_status in Hf; [|done]. rewrite Ht1 in Ht3.
  change (sequence (st_table W s)) with (sequence (expire_requests t1 (st_table W s))) in Ht3.
  intros i o' Hi.
  assert (exists o3, rows (st_table W s3) !! i = Some o3 /\ (o' = o3 \/ i = id /\ same_draft o3 o' /\
    match outcome with Ok receipt => as_str receipt.["status"] = Some (ob_status o') | Err _ => ob_status o' = ob_status o3 \/ ob_status o' = "failed" end))
    as (o3 & Hl3 & Hcase).
  { destruct Hf as [Hf|(o3 & o4 & [Hl3 _]%leased_Some & Hdr & Hf & Hout)]; rewrite Hf in Hi; [by eauto|]. cbn in Hi.
    destruct (decide (i = id)) as [->|Hne]; [rewrite lookup_insert_eq in Hi; injection Hi as <-; eauto 8|].
    rewrite lookup_insert_ne in Hi by done. eauto. }
  pose proof (claimed_rows _ _ _ _ _ _ _ Ht3 Hl3) as Hrow. case_decide as Hid.
  - subst i. destruct Hrow as [Hd3 Hs3]. exists o. split; [done|]. unfold same_draft in *.
    destruct Hcase as [->|(_ & Hd4 & Hout)]; [by auto|]. split; [congruence|]. destruct outcome as [receipt|e]; [|rewrite Hs3 in Hout; tauto].
    right. right. right. by apply Hack.
  - destruct Hcase as [->|[? _]]; [|done]. apply expire_row_back in Hrow as (o2 & Hl2 & Hdr & [->|[_ Hs]]); exists o2; (split; [done|]; split; [done|]); tauto.
Qed.
End delivery_facts.
#[export] Hint Resolve frames_local_api frames_find_contact frames_record_outbound frames_remote_response : frames.
