(* ===== verification/Contacts.v ===== *)
(** * The contact interface ([src/contact.rs] [contact_router], [dispatch])

    [/std/contact] and [/std/contact/list]: reading contacts together with their
    outbound requests, deleting both, and submitting a request to a peer.
    Contacts themselves are kept by the access manager, a library; opening the
    database of the requests succeeds. *)
From S2P Require Import Prelude RustStr Decimal Json Crates Errors Capabilities ContactStore Contact Delivery.

(** A request; [cr_body] is [None] when it could not be read. *)
Record contact_rq := ContactRq {
  cr_visitor : option visitor;
  cr_method : string; cr_path : string; cr_query : option string;
  cr_cross_site : bool;                     (* sec-fetch-site: cross-site *)
  cr_body : option string }.
Definition path_query (rq : contact_rq) : string :=
  match cr_query rq with Some q => cr_path rq +:+ "?" +:+ q | None => cr_path rq end.
Inductive lookup_error := RecordNotFound | OtherLookup (text : string).

Section contacts.
Context `{DhttpHome, SerdeJson, UrlCrates, AccessControl}.
Variable constraint_text : string.
Variable certificate_error : list string -> string.
Variable utf8_lossy : string -> string.
Variable access_value : json -> result string unit.
Variable http_method : string -> bool.
(** [str::to_lowercase], [form_urlencoded::Serializer], the permissions of the
    installed Libs ([catalog]). *)
Variable to_lowercase : string -> string.
Variable form_serialize : list (string * string) -> string.
Variable local_catalog : ContactResult json.
Variable W : Type.
Variable clock : W -> W * Z.
Variable auth : string -> string -> list (string * string) -> visitor -> W -> W * result string auth_result.
Variable manage : manager_request -> W -> W * result string (Z * string).
Variable record_contact : new_contact -> W -> W * result record_error unit.
Variable exchange : peer_request -> W -> W * peer_answer.
Variable find_contact_by_name : string -> W -> W * result lookup_error unit.
Variable random_id : W -> W * ContactResult string.
Abbreviation D := (M (state W)).
Local Abbreviation world := (world W).
Local Abbreviation now := (now W clock).
Local Abbreviation remote := (remote W exchange).
Local Abbreviation find_contact := (find_contact certificate_error utf8_lossy W auth manage).
Local Abbreviation contact := (contact certificate_error utf8_lossy W auth manage).
Local Abbreviation grant_offered :=
  (grant_offered certificate_error utf8_lossy access_value W clock auth manage record_contact).

(** *** Calls of the access manager for the visitor *)
Definition native (rq : contact_rq) (method uri : string) (body : option json) : D (Z * json) :=
  do? answer := world (manage (ManagerRq method uri (request_body body) (cr_visitor rq))) in
  do? value := lift (manager_answer utf8_lossy (fail 500 "invalid contact response") answer 500) in
  lift (Ok (match answer with Ok (status, _) => status | Err _ => 200 end, value)).
(** Whether the access manager lets the visitor list contacts. *)
Definition is_manager (rq : contact_rq) : D bool :=
  match cr_visitor rq with
  | None => lift (Ok false)
  | Some visitor =>
      do? verdict := world (auth "GET" "/std/contact/list" [] visitor) in
      do? verdict := lift (map_err (fail 500) verdict) in
      lift (Ok (match verdict with AuthAllowed => true | _ => false end))
  end.
(** A read that keeps the failure for the caller. *)
Definition attempted {A} (m : D A) : D (ContactResult A) := fun s => let '(s, r) := m s in (s, Ok r).
Definition stored_drafts : D (list (string * json)) := fun s => (s, Ok (drafts (st_table W s))).

(** *** GET *)
(** A request without a contact is shown while it is queued or has failed. *)
Definition shown_alone (d : json) : bool :=
  is_null d.["_contact_id"] && (is_str d.["status"] "queued" || is_str d.["status"] "failed").
Definition get_contact (rq : contact_rq) (requests : list (string * json)) : D (Z * json) :=
  do? raw := lift (parameter (path_query rq) "name") in
  do? raw := lift (ok_or (fail 400 "name is required") raw) in
  do? name := lift (name raw) in
  do? response := attempted (native rq "GET" (path_query rq) None) in
  lift (match response, assoc name requests with
        | Ok (status, value), Some d => Ok (status, project_contact value d)
        | Err (code, message), Some d =>
            if (code =? 404) && shown_alone d then Ok (200, project_contact JNull d) else Err (code, message)
        | response, None => response
        end).
(** The pages of the manager's list, 100 contacts each; the answer that ends
    the list carries the deleted ones. *)
Definition list_uri (params : list (string * string)) (current : Z) : string :=
  "/std/contact/list?" +:+ form_serialize (params ++ [("page", show_Z current); ("page_size", "100")]).
Fixpoint list_pages (fuel : nat) (rq : contact_rq) (params : list (string * string)) (current : Z) (items : list json) :
    D (option (list json * json)) :=
  match fuel with
  | O => lift (Ok None)
  | S fuel =>
      do? (_, value) := native rq "GET" (list_uri params current) None in
      do? entries := lift (ok_or (fail 500 "invalid contact list") (as_array value.["items"])) in
      let items := items ++ entries in
      if bool_decide (entries = []) || (default 0 (as_i64 value.["total"]) <=? current * 100)
      then lift (Ok (Some (items, value.["deleted"])))
      else list_pages fuel rq params (current + 1) items
  end.
Fixpoint replace_named (name : string) (d : json) (items : list json) : option (list json) :=
  match items with
  | [] => None
  | c :: items =>
      if is_str c.["name"] name then Some (project_contact c d :: items)
      else match replace_named name d items with Some items => Some (c :: items) | None => None end
  end.
Definition contains (pattern text : string) : bool := contains_str pattern text.
Definition merge_draft (target : string) (items : list json) (entry : string * json) : ContactResult (list json) :=
  let '(name, d) := entry in
  match replace_named name d items with
  | Some items => Ok items
  | None =>
      if shown_alone d then
        let value := project_contact JNull d in
        let? search := parameter target "search" in
        let? since := integer target "modified_since" 0 in
        if contains (to_lowercase (default "" search)) (to_lowercase name) && (since <=? i64_or_0 value.["updated_at"])
        then Ok (items ++ [value]) else Ok items
      else Ok items
  end.
(** The order of the list: by the key, then by name. *)
Definition opt_Z_leb (a b : option Z) : bool :=
  match a, b with None, _ => true | Some _, None => false | Some a, Some b => a <=? b end.
Definition key_leb (key : string) (a b : json) : bool :=
  if mem key ["created_at"; "updated_at"] then opt_Z_leb (as_i64 a.[key]) (as_i64 b.[key])
  else String.leb (unwrap_str a.[key]) (unwrap_str b.[key]).
Definition item_leb (key : string) (a b : json) : bool :=
  if key_leb key a b then
    if key_leb key b a then opt_string_leb (as_str a.["name"]) (as_str b.["name"]) else true
  else false.
Definition ordered_items (key : string) (ascending : bool) (items : list json) : list json :=
  sort_by (fun a b => if ascending then item_leb key a b else item_leb key b a) items.
(** [((page - 1) * size) as usize]: an [i64] product that wraps around. *)
Definition page_offset (p size : Z) : Z := ((p - 1) * size) mod 2 ^ 64.
Definition page_items (p size : Z) (items : list json) : list json :=
  if Z.of_nat (length items) <=? page_offset p size then []
  else take (Z.to_nat size) (drop (Z.to_nat (page_offset p size)) items).
Definition list_contacts (fuel : nat) (rq : contact_rq) (requests : list (string * json)) : D (option (Z * json)) :=
  let target := path_query rq in
  do? (requested_page, size) := lift (page target) in
  let params := filter (fun kv => fst kv <> "page" /\ fst kv <> "page_size") (form_parse (default "" (cr_query rq))) in
  do? pages := list_pages fuel rq params 1 [] in
  match pages with
  | None => lift (Ok None)
  | Some (items, deleted) =>
      do? items := lift (try_fold (merge_draft target) items requests) in
      do? sort := lift (parameter target "sort") in
      let key := default "updated_at" sort in
      let key := if String.eqb key "names" then "name" else key in
      do? order := lift (parameter target "order") in
      let items := ordered_items key (bool_decide (order = Some "asc")) items in
      lift (Ok (Some (200, jobj [("items", JArr (page_items requested_page size items)); ("total", JInt (Z.of_nat (length items)));
                                 ("page", JInt requested_page); ("page_size", JInt size); ("deleted", deleted)])))
  end.

(** *** DELETE *)
Definition delete_names (rq : contact_rq) (bytes : string) : ContactResult (list string) :=
  let? value := parameter (path_query rq) "name" in
  match value with
  | Some raw =>
      throw (fail 400 "provide name or names, not both") when negb (String.eqb bytes "");;
      let? n := name raw in Ok [n]
  | None =>
      let? value := ok_or (fail 400 "names array is required") (from_slice bytes) in
      throw (fail 400 "only names is accepted") when
        match as_object value with Some o => negb (Nat.eqb (length o) 1) | None => true end;;
      let? names := ok_or (fail 400 "names must not be empty")
        (match as_array value.["names"] with Some [] | None => None | Some names => Some names end) in
      try_map (fun v => let? raw := ok_or (fail 400 "invalid contact name") (as_str v) in name raw) names
  end.
(** The names with a contact; the others have a request at least. *)
Fixpoint persisted_contacts (names : list string) : D (list string) :=
  match names with
  | [] => lift (Ok [])
  | n :: names =>
      do? found := world (find_contact_by_name n) in
      do? known := (fun s => match found with
                             | Ok _ => (s, Ok [n])
                             | Err RecordNotFound =>
                                 if existsb (fun e => String.eqb (target (snd e)) n) (by_id (st_table W s))
                                 then (s, Ok []) else (s, Err (fail 404 "contact not found"))
                             | Err (OtherLookup text) => (s, Err (fail 500 text))
                             end) in
      do? others := persisted_contacts names in
      lift (Ok (known ++ others))
  end.
Fixpoint stamped (names : list string) : D (list (string * Z * Z)) :=
  match names with
  | [] => lift (Ok [])
  | n :: names => do? checked := now in do? time := now in do? others := stamped names in lift (Ok ((n, checked, time) :: others))
  end.
Definition cancel_requests (items : list (string * Z * Z)) : D (list (Z * string * Z)) :=
  fun s => match cancel items (st_table W s) with
           | Ok (t, previous) => (State W t (st_world W s) (st_review W s), Ok previous)
           | Err e => (s, Err e)
           end.
Definition restore_requests (previous : list (Z * string * Z)) : D unit :=
  fun s => match restore constraint_text previous (st_table W s) with
           | Ok t => (State W t (st_world W s) (st_review W s), Ok tt)
           | Err e => (s, Err e)
           end.
Definition delete_contacts (rq : contact_rq) (bytes : string) : D (Z * json) :=
  do? names := lift (delete_names rq bytes) in
  do? persisted := persisted_contacts names in
  do? items := stamped names in
  do? previous := cancel_requests items in
  do? outcome := attempted
    (if bool_decide (persisted = []) then lift (Ok (204, JNull))
     else native rq "DELETE" "/std/contact" (Some (jobj [("names", JArr (map JStr persisted))]))) in
  do? _ := if is_err outcome then restore_requests previous else lift (Ok tt) in
  lift outcome.

(** *** POST *)
Definition REQUEST_FIELDS : list string :=
  ["from"; "to"; "description"; "requested_capabilities"; "offered_capabilities"; "expires_after"; "valid_before"].
(** [selected]: the permissions of the identity itself or of the peer. *)
Definition selected (ep : endpoint) (ids : json) (target : string) : D (list capability) :=
  do? ids := lift (ok_or (fail 400 "invalid capabilities") (as_array ids)) in
  if bool_decide (ids = []) then lift (Ok []) else
  do? catalog := if String.eqb target (ep_name ep) then lift local_catalog
                 else do? (_, catalog, _) := remote target "GET" "/std/acl/permissions" None None in lift (Ok catalog) in
  lift (select http_method catalog ids).
Definition valid_description (text : string) : bool :=
  Nat.leb (length (chars text)) 80 && negb (existsb is_control (chars text)).
(** The visitor as the verified owner. *)
Definition verified_owner (ep : endpoint) (rq : contact_rq) : ContactResult visitor :=
  let? owner := owner certificate_error ep in
  ok_or (fail 403 "verified owner required")
    (match cr_visitor rq with
     | Some v => if String.eqb (v_name v) (v_name owner) && String.eqb (v_subject v) (v_subject owner) then Some v else None
     | None => None
     end).
Definition may_offer (visitor : visitor) : D unit :=
  do? verdict := world (auth "PATCH" "/std/acl/allow" [] visitor) in
  do? verdict := lift (map_err (fail 500) verdict) in
  lift (match verdict with AuthAllowed => Ok tt | _ => Err (fail 403 "contact creation or offered capability denied by ACL") end).
(** The application as it is stored. *)
Definition application_doc (doc : json) (target : string) (valid_before : Z) (asked given : list capability) (pinned : option json) : json :=
  let doc := set_key "valid_before" (JInt valid_before) doc in
  let doc := set_key "_requested_access" (requested asked) doc in
  let doc := set_key "_offers" (offered given) doc in
  let doc := set_key "contact_id" (match pinned with Some c => c.["id"] | None => JNull end) doc in
  let doc := set_key "contact_subject" (match pinned with Some c => c.["subject_id"] | None => JNull end) doc in
  let doc := set_key "_contact" (default JNull pinned) doc in
  set_key "target_name" (JStr target) doc.
(** The checks of an application of the owner and the grant of what it offers. *)
Definition prepare_application (ep : endpoint) (rq : contact_rq) (doc : json) (target : string) : D json :=
  do? visitor := lift (verified_owner ep rq) in
  need (match as_object doc with Some o => forallb (fun key => mem key REQUEST_FIELDS) (keys o) | None => false end)
  else fail 400 "invalid contact request fields";;
  do? description := lift (text_of doc "description") in
  need valid_description description else fail 400 "invalid description";;
  do? asked := selected ep doc.["requested_capabilities"] target in
  do? time := now in
  do? valid_before := lift (request_expiry time doc) in
  do? given := selected ep doc.["offered_capabilities"] (ep_name ep) in
  do? existing := find_contact ep target in
  need negb (match existing with Some c => is_str c.["status"] "blocked" | None => false end) else fail 409 "local contact is blocked";;
  do? _ := if bool_decide (given = []) then lift (Ok tt) else may_offer visitor in
  do? pinned :=
    if bool_decide (given = []) then lift (Ok existing)
    else
      do? (_, _, subject) := remote target "GET" "/std/acl/permissions" None (existing ≫= (fun c => as_str c.["subject_id"])) in
      do? _ := grant_offered ep target subject asked given valid_before in
      do? c := contact ep target in lift (Ok (Some c)) in
  lift (Ok (application_doc doc target valid_before asked given pinned)).
Definition store_application (doc : json) : D (Z * json) :=
  do? expired_at := now in
  do? time := now in
  do? application := world random_id in
  fun s =>
    match submit constraint_text expired_at time doc application (st_table W s) with
    | (t, Ok id) =>
        let draft := match rows t !! id with Some o => outbound_request id o | None => JNull end in
        let draft := set_key "_contact_subject" doc.["contact_subject"] (set_key "_contact_id" doc.["contact_id"] draft) in
        (State W t (st_world W s) (st_review W s), Ok (202, project_contact doc.["_contact"] draft))
    | (t, Err e) => (State W t (st_world W s) (st_review W s), Err e)
    end.
Definition post_contact (ep : endpoint) (rq : contact_rq) (bytes : string) : D (Z * json) :=
  do? doc := lift (ok_or (fail 400 "invalid JSON") (from_slice bytes)) in
  do? from_ := lift (let? raw := text_of doc "from" in name raw) in
  do? to := lift (let? raw := text_of doc "to" in name raw) in
  need negb (String.eqb from_ to) else fail 400 "cannot contact yourself";;
  if negb (String.eqb from_ (ep_name ep)) then
    need String.eqb to (ep_name ep) else fail 400 "contact recipient does not match this identity";;
    native rq "POST" "/std/contact" (Some doc)
  else
    need negb (String.eqb to (ep_name ep)) else fail 400 "cannot contact yourself";;
    do? doc := prepare_application ep rq doc to in
    store_application doc.

(** *** [dispatch] *)
Definition body_limit (rq : contact_rq) : Z :=
  if mem (cr_method rq) ["POST"; "DELETE"] && String.eqb (cr_path rq) "/std/contact" then 65536 else 0.
(** [None] when the list of the manager does not end within the fuel. *)
Definition dispatch (fuel : nat) (ep : endpoint) (rq : contact_rq) : D (option (Z * json)) :=
  need negb (mem (cr_method rq) ["POST"; "PUT"; "DELETE"] && cr_cross_site rq) else fail 403 "cross-origin request denied";;
  do? bytes := lift (match cr_body rq with
                     | Some bytes => if slen bytes <=? body_limit rq then Ok bytes else Err (fail 400 "invalid request body")
                     | None => Err (fail 400 "invalid request body")
                     end) in
  do? manager := is_manager rq in
  if String.eqb (cr_method rq) "GET" then
    if negb manager then do? r := native rq "GET" (path_query rq) None in lift (Ok (Some r)) else
    do? requests := stored_drafts in
    if String.eqb (cr_path rq) "/std/contact" then do? r := get_contact rq requests in lift (Ok (Some r))
    else list_contacts fuel rq requests
  else if String.eqb (cr_method rq) "DELETE" then do? r := delete_contacts rq bytes in lift (Ok (Some r))
  else if String.eqb (cr_method rq) "POST" && String.eqb (cr_path rq) "/std/contact" then
    do? r := post_contact ep rq bytes in lift (Ok (Some r))
  else lift (Err (fail 405 "method not allowed")).
(** Which requests are dispatched here; the others go on to the manager. *)
Definition is_contact_request (rq : contact_rq) : bool :=
  String.eqb (cr_path rq) "/std/contact" && mem (cr_method rq) ["GET"; "POST"; "DELETE"]
  || String.eqb (cr_path rq) "/std/contact/list" && String.eqb (cr_method rq) "GET".
(** The answer: status and body, without a body for 204. *)
Definition contact_answer (r : ContactResult (Z * json)) : Z * option json :=
  match r with
  | Ok (status, value) => if status =? 204 then (204, None) else (status, Some value)
  | Err (status, message) => (if (100 <=? status) && (status <=? 999) then status else 500, Some (jobj [("error", JStr message)]))
  end.
End contacts.

(** ** Properties *)
(** *** Pages *)
(** The pages of a size are consecutive: together they are the list from its
    beginning, nothing twice and nothing left out. *)
Lemma page_items_slice p size items :
  1 <= p -> 0 < size -> (p - 1) * size < 2 ^ 64 ->
  page_items p size items = take (Z.to_nat size) (drop (Z.to_nat (p - 1) * Z.to_nat size) items).
Proof.
  intros Hp Hs Ho. unfold page_items, page_offset. rewrite Z.mod_small by nia.
  replace (Z.to_nat ((p - 1) * size)) with (Z.to_nat (p - 1) * Z.to_nat size)%nat by nia.
  destruct (_ <=? _) eqn:Hl; [|done]. apply Z.leb_le in Hl. rewrite drop_ge by nia. by rewrite take_nil.
Qed.
(** The pages of a size, in order, are the list from its beginning with nothing twice and nothing left
    out, and enough of them are the whole list (as long as the offset fits 64 bits). *)
Theorem pages_partition size items k :
  0 < size -> Z.of_nat k * size <= 2 ^ 64 ->
  concat (map (fun p => page_items (Z.of_nat p) size items) (seq 1 k)) = take (k * Z.to_nat size) items /\
  (Z.of_nat (length items) <= Z.of_nat k * size ->
   concat (map (fun p => page_items (Z.of_nat p) size items) (seq 1 k)) = items).
Proof.
  intros Hs Hk. assert (concat (map (fun p => page_items (Z.of_nat p) size items) (seq 1 k)) = take (k * Z.to_nat size) items) as Hc.
  { induction k as [|k IH]; [by rewrite take_0|]. rewrite seq_S, map_app, concat_app, IH by nia. cbn [map concat Nat.add].
    rewrite app_nil_r, page_items_slice by nia. replace (Z.to_nat (Z.of_nat (S k) - 1)) with k by lia.
    rewrite take_take_drop. f_equal. lia. }
  split; [done|]. intros Hl. rewrite Hc. apply take_ge. nia.
Qed.

(** *** Requests and the table *)
Section contacts_facts.
Context `{DhttpHome, SerdeJson, UrlCrates, AccessControl}.
Variable constraint_text : string.
Variable certificate_error : list string -> string.
Variable utf8_lossy : string -> string.
Variable access_value : json -> result string unit.
Variable http_method : string -> bool.
Variable to_lowercase : string -> string.
Variable form_serialize : list (string * string) -> string.
Variable local_catalog : ContactResult json.
Context {W : Type}.
Variable clock : W -> W * Z.
Variable auth : string -> string -> list (string * string) -> visitor -> W -> W * result string auth_result.
Variable manage : manager_request -> W -> W * result string (Z * string).
Variable record_contact : new_contact -> W -> W * result record_error unit.
Variable exchange : peer_request -> W -> W * peer_answer.
Variable find_contact_by_name : string -> W -> W * result lookup_error unit.
Variable random_id : W -> W * ContactResult string.
Abbreviation D := (M (state W)).
Local Abbreviation native := (native utf8_lossy W manage).
Local Abbreviation list_pages := (list_pages utf8_lossy form_serialize W manage).
Local Abbreviation delete_contacts := (delete_contacts constraint_text utf8_lossy W clock manage find_contact_by_name).
Local Abbreviation dispatch := (dispatch constraint_text certificate_error utf8_lossy access_value http_method to_lowercase form_serialize local_catalog
  W clock auth manage record_contact exchange find_contact_by_name random_id).

Lemma frames_attempted {A} (m : D A) : frames m -> frames (attempted W m).
Proof. intros Hm s. specialize (Hm s). unfold attempted. by destruct (m s). Qed.
Lemma frames_native rq method uri body : frames (native rq method uri body).
Proof. unfold Contacts.native. frame. Qed.
Hint Resolve frames_attempted frames_native : frames.
Lemma frames_is_manager rq : frames (is_manager W auth rq).
Proof. unfold is_manager. frame. Qed.
Lemma frames_get_contact rq requests : frames (get_contact utf8_lossy W manage rq requests).
Proof. unfold get_contact. frame. Qed.
Lemma frames_list_pages fuel rq params current items : frames (list_pages fuel rq params current items).
Proof. revert current items. induction fuel as [|fuel IH]; intros current items; cbn; frame. Qed.
Hint Resolve frames_list_pages : frames.
Lemma frames_list_contacts fuel rq requests : frames (list_contacts utf8_lossy to_lowercase form_serialize W manage fuel rq requests).
Proof. unfold list_contacts. frame. Qed.
Lemma frames_persisted names : frames (persisted_contacts W find_contact_by_name names).
Proof.
  induction names as [|n names IH]; cbn; [frame|]. apply frames_bind; [frame|]. intros found. apply frames_bind; [|intros known; frame].
  intros s. destruct found as [|[]]; [done| |done]. by destruct (existsb _ _).
Qed.
Lemma frames_stamped names : frames (stamped W clock names).
Proof. induction names; cbn; unfold now; frame. Qed.
Lemma stamped_names names s s' items : stamped W clock names s = (s', Ok items) -> map (fun i => i.1.1) items = names.
Proof.
  revert s s' items. induction names as [|n names IH]; cbn; intros s s' items Hs; [by apply lift_Ok in Hs as [_ [= <-]]|].
  run Hs. run Hs. run Hs. apply lift_Ok in Hs as [_ [= <-]]. cbn. f_equal. by eapply IH.
Qed.

(** A statement about what a request may do to the table: row by row, the draft
    is kept. *)
Definition rows_rel (R : Z -> outbound -> outbound -> Prop) (t t' : table) : Prop :=
  forall id, match rows t !! id, rows t' !! id with
    | Some o, Some o' => same_draft o o' /\ R id o o'
    | None, None => True
    | _, _ => False
    end.
Lemma rows_rel_same (R : Z -> outbound -> outbound -> Prop) t t' : t' = t -> (forall id o, R id o o) -> rows_rel R t t'.
Proof. intros -> HR id. by destruct (rows t !! id). Qed.
(** The named rows after a deletion: revoked when it succeeds, as they were when
    it does not. *)
Definition deleted_row (names : list string) (_ : Z) (o o' : outbound) : Prop :=
  if decide (target o ∈ names) then ob_status o' = "revoked" /\ ob_lease_until o' = None else o' = o.
Definition kept_status (_ : Z) (o o' : outbound) : Prop := ob_status o' = ob_status o.
Tactic Notation "framed" hyp(H) "into" ident(s1) ident(a) ident(Hm) ident(Ht) :=
  apply bind_frames in H as [[H [? ->]]|(s1 & a & Hm & Ht & H)]; [|..|frame].
Lemma delete_contacts_facts rq bytes s s' r :
  table_ok (st_table W s) -> delete_contacts rq bytes s = (s', r) ->
  table_ok (st_table W s') /\
  match r with
  | Ok _ => exists names, delete_names rq bytes = Ok names /\ rows_rel (deleted_row names) (st_table W s) (st_table W s')
  | Err _ => rows_rel kept_status (st_table W s) (st_table W s')
  end.
Proof.
  intros Hok Hd. unfold Contacts.delete_contacts in Hd.
  framed Hd into s1 names Hm1 Ht1; [by rewrite Hd; split; [|apply rows_rel_same]|].
  apply lift_Ok in Hm1 as [_ Hnames].
  framed Hd into s2 persisted Hm2 Ht2; [by rewrite Hd, Ht1; split; [|apply rows_rel_same]| |apply frames_persisted].
  framed Hd into s3 items Hm3 Ht3; [by rewrite Hd, Ht2, Ht1; split; [|apply rows_rel_same]| |apply frames_stamped].
  apply stamped_names in Hm3. rewrite Ht2, Ht1 in Ht3. unfold mbind_ at 1, cancel_requests in Hd. rewrite Ht3 in Hd.
  destruct (cancel items (st_table W s)) as [[t previous]|e] eqn:Hc.
  2: { injection Hd as <- <-. rewrite Ht3. split; [done|]. by apply rows_rel_same. }
  pose proof (cancel_ok _ _ _ _ Hok Hc) as Hok'. pose proof (cancel_names _ _ _ _ Hc) as Hrows. rewrite Hm3 in Hrows.
  unfold mbind_ at 1, attempted in Hd.
  match type of Hd with context [let '(_, _) := ?m ?s in (_, Ok _)] =>
    assert (frames m) as Hf by frame; specialize (Hf s); destruct (m s) as [s4 outcome] end.
  cbn [fst st_table] in Hf. unfold mbind_ in Hd. destruct outcome as [answer|e]; cbn in Hd.
  - injection Hd as <- <-. split; [congruence|]. exists names. split; [done|]. intros id. specialize (Hrows id). rewrite Hf.
    destruct (rows (st_table W s) !! id), (rows t !! id); try done. destruct Hrows as [Hd Hrow]. split; [done|].
    unfold deleted_row. case_decide; tauto.
  - destruct (restore_total constraint_text (st_table W s) previous t Hok) as (t' & Hr & Hrel & Hback).
    + intros id. specialize (Hrows id). destruct (rows (st_table W s) !! id), (rows t !! id); try done.
      destruct Hrows as [Hdr Hrow]. split; [done|]. case_decide; [tauto|]. left. congruence.
    + intros id st u Hin. destruct (cancel_kept _ _ _ _ Hc _ _ _ Hin) as (o & ? & ? & _). eauto.
    + unfold restore_requests in Hd. rewrite Hf, Hr in Hd. cbn in Hd. injection Hd as <- <-. cbn.
      split; [by eapply restore_facts|]. intros id. specialize (Hrel id). specialize (Hrows id). specialize (Hback id).
      destruct (rows (st_table W s) !! id) as [o|], (rows t' !! id) as [o'|]; try done. destruct Hrel as [Hdr _]. split; [done|].
      apply (Hback o o'); [done..|]. destruct (rows t !! id) as [o1|]; [|done]. destruct Hrows as [_ Hrow]. case_decide.
      * destruct Hrow as (Hs & _ & [Hrev|Hin]); [right; exists o1; split; [done|congruence]|left; eauto].
      * right. exists o1. split; [done|congruence].
Qed.

(** The checks of an application leave the table alone; what is stored is for
    the target. *)
Lemma frames_grant_all ep target ops : frames (grant_all certificate_error utf8_lossy W auth manage ep target ops).
Proof. induction ops; cbn; unfold grant_operation; frame. Qed.
Hint Resolve frames_grant_all : frames.
Lemma frames_prepare ep rq doc target :
  frames (prepare_application certificate_error utf8_lossy access_value http_method local_catalog W clock auth manage record_contact exchange ep rq doc target).
Proof.
  unfold prepare_application, selected, may_offer, remote, grant_offered, contact, now. frame.
Qed.
Lemma application_target doc target valid_before asked given pinned :
  is_Some (as_object doc) -> as_str (application_doc doc target valid_before asked given pinned).["target_name"] = Some target.
Proof. destruct doc; cbn; intros [x Hx]; try done. unfold index. cbn. by rewrite assoc_obj_insert. Qed.
Lemma prepare_Ok ep rq doc target s s' app :
  prepare_application certificate_error utf8_lossy access_value http_method local_catalog W clock auth manage record_contact exchange ep rq doc target s = (s', Ok app) ->
  (exists v, verified_owner certificate_error ep rq = Ok v) /\ as_str app.["target_name"] = Some target.
Proof.
  unfold prepare_application. intros Hp. run Hp. run Hp; [|done]. run Hp. run Hp; [|done].
  do 5 run Hp. run Hp; [|done]. do 2 run Hp. apply lift_Ok in Hp as [_ [= <-]]. split.
  - match goal with Hv : lift (verified_owner _ _ _) _ = _ |- _ => apply lift_Ok in Hv as [_ Hv]; eauto end.
  - apply application_target. destruct (as_object doc); [done|discriminate].
Qed.

(** What a request of the owner to a peer does: expiry, and at most one new
    request, queued for the peer it names. *)
Definition owner_submission (ep : endpoint) (rq : contact_rq) (bytes : string) (t t' : table) : Prop :=
  exists v doc target time,
    verified_owner certificate_error ep rq = Ok v /\ from_slice bytes = Some doc /\
    (let? raw := text_of doc "to" in name raw) = Ok target /\ target <> ep_name ep /\
    (t' = expire_requests time t \/
     exists o, rows t' = <[sequence t + 1 := o]> (rows (expire_requests time t)) /\ ob_status o = "queued" /\ ContactStore.target o = target).
Lemma post_contact_facts ep rq bytes s s' r :
  table_ok (st_table W s) ->
  post_contact constraint_text certificate_error utf8_lossy access_value http_method local_catalog W clock auth manage record_contact exchange random_id ep rq bytes s = (s', r) ->
  table_ok (st_table W s') /\ (st_table W s' = st_table W s \/ owner_submission ep rq bytes (st_table W s) (st_table W s')).
Proof.
  intros Hok Hp. unfold post_contact in Hp.
  framed Hp into s1 doc Hm1 Ht1; [by rewrite Hp; auto|].
  framed Hp into s2 from_ Hm2 Ht2; [by rewrite Hp, Ht1; auto|].
  framed Hp into s3 to Hm3 Ht3; [by rewrite Hp, Ht2, Ht1; auto|]. rewrite Ht2, Ht1 in Ht3.
  destruct (negb (String.eqb from_ to)); [|injection Hp as <- <-; rewrite Ht3; auto].
  destruct (negb (String.eqb from_ (ep_name ep))).
  { destruct (String.eqb to (ep_name ep)); [|injection Hp as <- <-; rewrite Ht3; auto].
    pose proof (frames_native rq "POST" "/std/contact" (Some doc) s3) as Hf. rewrite Hp in Hf. cbn in Hf. rewrite Hf, Ht3. auto. }
  destruct (negb (String.eqb to (ep_name ep))) eqn:Hto; [|injection Hp as <- <-; rewrite Ht3; auto].
  framed Hp into s4 app Hm4 Ht4; [by rewrite Hp, Ht3; auto|]. rewrite Ht3 in Ht4.
  apply prepare_Ok in Hm4 as [[v Hv] Happ]. simplify_bool. apply lift_Ok in Hm1 as [_ Hdoc], Hm3 as [_ Hname].
  unfold store_application, now in Hp.
  framed Hp into s5 t1 Hm5 Ht5; [by rewrite Hp, Ht4; auto|].
  framed Hp into s6 t2 Hm6 Ht6; [by rewrite Hp, Ht5, Ht4; auto|].
  framed Hp into s7 application Hm7 Ht7; [by rewrite Hp, Ht6, Ht5, Ht4; auto|]. rewrite Ht6, Ht5, Ht4 in Ht7.
  destruct (submit _ t1 t2 app application (st_table W s7)) as [t' [id|e]] eqn:Hs; injection Hp as <- <-; rewrite Ht7 in Hs; cbn.
  - pose proof (submit_facts _ _ _ _ _ _ _ _ Hok Hs) as [Hok' _]. split; [done|right].
    apply submit_added in Hs as (o & Hr & -> & Hst & Htarget). exists v, doc, to, t1. split_and!; try done.
    + destruct (from_slice bytes); [by injection Hdoc as ->|done].
    + right. exists o. split_and!; [done..|]. congruence.
  - pose proof (submit_facts _ _ _ _ _ _ _ _ Hok Hs) as [Hok' _]. split; [done|right].
    apply submit_added in Hs. exists v, doc, to, t1. split_and!; try done; [|by left].
    destruct (from_slice bytes); [by injection Hdoc as ->|done].
Qed.

(** C32: A contact request keeps the constraints of the table of outbound requests and changes it in two
    ways only, and never from another site: a POST of the verified owner lets overdue requests expire
    and adds at most one request, queued for the peer it names; a DELETE that succeeds revokes exactly
    the requests of the named targets, and one that fails leaves every request with the status it had. *)
Theorem dispatch_effect fuel ep rq s s' r :
  table_ok (st_table W s) -> dispatch fuel ep rq s = (s', r) ->
  table_ok (st_table W s') /\
  (st_table W s' = st_table W s \/
   cr_cross_site rq = false /\ exists bytes, cr_body rq = Some bytes /\
   (cr_method rq = "POST" /\ cr_path rq = "/std/contact" /\ slen bytes <= 65536 /\
      owner_submission ep rq bytes (st_table W s) (st_table W s') \/
    cr_method rq = "DELETE" /\
      match r with
      | Ok _ => exists names, delete_names rq bytes = Ok names /\ rows_rel (deleted_row names) (st_table W s) (st_table W s')
      | Err _ => rows_rel kept_status (st_table W s) (st_table W s')
      end)).
Proof.
  intros Hok Hd. unfold Contacts.dispatch in Hd.
  destruct (negb (_ && _)) eqn:Hcross; [|injection Hd as <- <-; auto].
  framed Hd into s1 bytes Hm1 Ht1; [by rewrite Hd; auto|]. apply lift_Ok in Hm1 as [_ Hbytes].
  assert (cr_body rq = Some bytes /\ slen bytes <= body_limit rq) as [Hbody Hlimit].
  { destruct (cr_body rq) as [b|]; [|done]. destruct (slen b <=? body_limit rq) eqn:Hle; [|done]. injection Hbytes as <-. by simplify_bool. }
  framed Hd into s2 manager Hm2 Ht2; [by rewrite Hd, Ht1; auto| |apply frames_is_manager]. rewrite Ht1 in Ht2.
  destruct (String.eqb_spec (cr_method rq) "GET") as [Hget|Hget].
  { assert (frames (if negb manager then do? r := native rq "GET" (path_query rq) None in lift (Ok (Some r)) else
      do? requests := stored_drafts W in
      if String.eqb (cr_path rq) "/std/contact" then do? r := get_contact utf8_lossy W manage rq requests in lift (Ok (Some r))
      else list_contacts utf8_lossy to_lowercase form_serialize W manage fuel rq requests)) as Hf.
    { pose proof frames_get_contact. pose proof frames_list_contacts. assert (frames (stored_drafts W)) by done. frame. }
    specialize (Hf s2). rewrite Hd in Hf. cbn in Hf. rewrite Hf, Ht2. auto. }
  destruct (String.eqb_spec (cr_method rq) "DELETE") as [Hdel|Hdel].
  { destruct (delete_contacts rq bytes s2) as [s3 r3] eqn:Hd3. pose proof Hd3 as Hd3'.
    apply delete_contacts_facts in Hd3' as [Hok' Hr3]; [|by rewrite Ht2]. rewrite Ht2 in Hr3. unfold mbind_ in Hd. rewrite Hd3 in Hd.
    rewrite Hdel in Hcross. cbn in Hcross. simplify_bool.
    destruct r3; injection Hd as <- <-; (split; [done|right]); split; eauto 8. }
  destruct (String.eqb_spec (cr_method rq) "POST") as [Hpost|]; cbn [andb] in Hd; [|injection Hd as <- <-; rewrite Ht2; auto].
  destruct (String.eqb_spec (cr_path rq) "/std/contact") as [Hpath|]; [|injection Hd as <- <-; rewrite Ht2; auto].
  unfold mbind_ in Hd. match type of Hd with match ?p with _ => _ end = _ => destruct p as [s3 r3] eqn:Hp end.
  apply post_contact_facts in Hp as [Hok' Hcase]; [|by rewrite Ht2]. rewrite Ht2 in Hcase.
  assert (s' = s3) as -> by (by destruct r3; injection Hd). split; [done|]. destruct Hcase as [->|Hsub]; [by left|right].
  rewrite Hpost in Hcross. cbn in Hcross. simplify_bool. split; [done|]. exists bytes. split; [done|left]. split_and!; try done.
  unfold body_limit in Hlimit. by rewrite Hpost, Hpath in Hlimit.
Qed.

(** *** The pages of the manager end *)
Lemma native_value rq method uri body s s' status value :
  native rq method uri body s = (s', Ok (status, value)) ->
  value = JNull \/ exists request w w' status' bytes, manage request w = (w', Ok (status', bytes)) /\ from_slice bytes = Some value.
Proof.
  unfold Contacts.native. intros Hn. run Hn. run Hn. apply lift_Ok in Hn as [_ [= _ ->]]. apply lift_Ok in Hm0 as [_ Hv].
  unfold world in Hm. destruct (manage _ _) as [w' answer] eqn:Hm'. injection Hm as _ ->.
  unfold manager_answer in Hv. destruct a as [[status' bytes]|e]; [|done]. cbn in Hv.
  destruct (negb _); [done|]. destruct (String.eqb bytes ""); [left; by injection Hv|right].
  destruct (from_slice bytes) as [v|] eqn:Hb; [|done]. injection Hv as ->. eauto 8.
Qed.
(** Reading the list of contacts from the access manager ends after one page per hundred contacts
    whenever the manager reports a bounded total: the fuel of the loop is not used up. *)
Theorem list_pages_end bound rq params items s s' :
  (forall request w w' status bytes value, manage request w = (w', Ok (status, bytes)) -> from_slice bytes = Some value ->
     default 0 (as_i64 value.["total"]) <= bound) ->
  list_pages (S (Z.to_nat (bound / 100))) rq params 1 items s <> (s', Ok None).
Proof.
  intros Htotal. assert (forall fuel current items s s', bound <= (current + Z.of_nat fuel) * 100 -> 0 < current ->
    list_pages (S fuel) rq params current items s <> (s', Ok None)) as Hgen.
  2: { apply Hgen; [|done]. destruct (Z.lt_ge_cases bound 0); [lia|]. rewrite Z2Nat.id by (apply Z.div_pos; lia).
       pose proof (Z.div_mod bound 100). pose proof (Z.mod_pos_bound bound 100). lia. }
  induction fuel as [|fuel IH]; intros current items0 s0 s0' Hb Hc Hl; cbn [Contacts.list_pages] in Hl;
    run Hl; destruct a as [status value]; run Hl; apply native_value in Hm as Hv;
    apply lift_Ok in Hm0 as [-> Hitems]; (destruct Hv as [->|(request & w & w' & status' & bytes & Hm' & Hv)]; [done|]);
    pose proof (Htotal _ _ _ _ _ _ Hm' Hv); destruct (bool_decide _ || _) eqn:Hend; simplify_bool; [done|lia|done|].
  eapply IH; [..|exact Hl]; lia.
Qed.
End contacts_facts.
