(* ===== verification/Permissions.v ===== *)
(** * The permission catalogue ([src/routes/capabilities.rs]
      [capabilities_router], [src/contact/capabilities.rs] [catalog])

    What the installed Libs declare, as one list of named permissions: read by
    the owner's tools over HTTP, and by the contact service when it asks for or
    offers permissions of the identity itself. *)
From S2P Require Import Prelude RustStr Decimal Json Crates Errors Ids Manifest Metadata Signing Registry Capabilities ContactStore Contact.

(** ** The query
    A capability with its Lib and one of its operations (method, path), if it
    has any. *)
Record permission_row := PermissionRow { pr_lib : row; pr_title : string; pr_operation : option (string * string) }.
Definition capability_operations (db : database) (key : string * string) : list (string * string) :=
  (filter (fun e => e.2 = key) (map_to_list (lib_capability_operation db))).*1.
Definition joined (db : database) (c : string * string * string) : list permission_row :=
  match package db !! c.1.1 with
  | Some r =>
      if has_lib r
      then match capability_operations db c.1 with
           | [] => [PermissionRow r c.2 None]
           | operations => map (fun o => PermissionRow r c.2 (Some o)) operations
           end
      else []
  | None => []
  end.
(** [ORDER BY c.title,o.path,o.method], NULL first *)
Definition operation_leb (a b : option (string * string)) : bool :=
  match a, b with
  | None, _ => true
  | Some _, None => false
  | Some a, Some b => pair_leb (a.2, a.1) (b.2, b.1)
  end.
Definition row_leb (a b : permission_row) : bool :=
  if String.eqb (pr_title a) (pr_title b) then operation_leb (pr_operation a) (pr_operation b)
  else String.leb (pr_title a) (pr_title b).
Definition permission_rows (db : database) : list permission_row :=
  sort_by row_leb (flat_map (joined db) (map_to_list (lib_capability db))).

(** *** The columns *)
Definition package_label (r : row) : string :=
  match row_author r with
  | Some author => if String.eqb author "" then row_name r else author +:+ "/" +:+ row_name r
  | None => row_name r
  end.
Definition standard (r : row) : bool :=
  match row_author r with Some author => mem author ["std.dhttp.net"; "dev.genmeta.tech.dhttp.net"] | None => false end.
(** [CASE WHEN .. substr(o.path,1,5)='/std/' THEN '/'||l.name||substr(o.path,5) ELSE o.path END] *)
Definition shown_path (r : row) (path : string) : string :=
  match strip_prefix "/std/" path with
  | Some rest => if standard r then path else "/" +:+ row_name r +:+ "/" +:+ rest
  | None => path
  end.

(** The paths of a permission and their methods. *)
Abbreviation endpoints := (gmap string (gset string)).

Section permissions.
Context `{SerdeJson, UrlCrates}.

Definition localized (title : string) : option json :=
  match from_slice title with
  | Some value => if is_string value.["en"] && is_string value.["zh-CN"] then Some value else None
  | None => None
  end.
Definition permission_label (title : string) : string :=
  match localized title with
  | Some value => unwrap_str value.["zh-CN"] +:+ " / " +:+ unwrap_str value.["en"]
  | None => title
  end.
Definition permission_id (r : permission_row) : string := package_label (pr_lib r) +:+ " · " +:+ permission_label (pr_title r).

(** ** The catalogue: permissions, their paths and their methods *)
Definition add_endpoint (r : permission_row) (paths : endpoints) : endpoints :=
  match pr_operation r with
  | Some (method, path) =>
      let path := shown_path (pr_lib r) path in
      <[path := {[method]} ∪ default ∅ (paths !! path)]> paths
  | None => paths
  end.
Definition add_permission (permissions : gmap string endpoints) (r : permission_row) : gmap string endpoints :=
  <[permission_id r := add_endpoint r (default ∅ (permissions !! permission_id r))]> permissions.
Definition permission_map (db : database) : gmap string endpoints := fold_left add_permission (permission_rows db) ∅.
(** The title a permission is shown under: of its first row. *)
Definition add_title (titles : gmap string json) (r : permission_row) : gmap string json :=
  match titles !! permission_id r with
  | Some _ => titles
  | None => <[permission_id r := default (JStr (pr_title r)) (localized (pr_title r))]> titles
  end.
Definition permission_titles (db : database) : gmap string json := fold_left add_title (permission_rows db) ∅.

(** *** As JSON, in the order of the maps *)
Definition map_json {A} (f : string -> A -> json) (m : gmap string A) : json :=
  JObj (map (fun e => (e.1, f e.1 e.2)) (sort_by (fun a b => String.leb a.1 b.1) (map_to_list m))).
Definition methods_json (methods : gset string) : json := JArr (map JStr (sort_by String.leb (elements methods))).
Definition endpoints_json (paths : endpoints) : json := map_json (fun _ => methods_json) paths.
(** [catalog] *)
Definition catalog (db : database) : json := map_json (fun _ => endpoints_json) (permission_map db).
(** The reading handler: [?details=1] adds the titles. *)
Definition detailed (titles : gmap string json) (id : string) (paths : endpoints) : Result json :=
  let? title := ok_or panicked (titles !! id) in
  Ok (jobj [("title", title); ("endpoints", endpoints_json paths)]).
Definition read_permissions (db : database) (query : option string) : Result json :=
  let details := existsb (fun kv => String.eqb kv.1 "details" && String.eqb kv.2 "1") (form_parse (default "" query)) in
  if details then
    let? entries := try_map (fun e => let? v := detailed (permission_titles db) e.1 e.2 in Ok (e.1, v))
      (sort_by (fun a b => String.leb a.1 b.1) (map_to_list (permission_map db))) in
    Ok (JObj entries)
  else Ok (catalog db).
End permissions.

(** ** What the catalogue holds *)
Section permission_facts.
Context `{SerdeJson, UrlCrates}.

Definition grants (permissions : gmap string endpoints) (id path method : string) : Prop :=
  exists paths methods, permissions !! id = Some paths /\ paths !! path = Some methods /\ method ∈ methods.
(** An operation that a Lib of the registry declares, as it is shown. *)
Definition offers (db : database) (lib id path method : string) : Prop :=
  exists r c title p, package db !! lib = Some r /\ has_lib r = true /\ lib_capability db !! (lib, c) = Some title /\
    lib_capability_operation db !! (method, p) = Some (lib, c) /\
    id = package_label r +:+ " · " +:+ permission_label title /\ path = shown_path r p.

Lemma grants_add permissions r id path method :
  grants (add_permission permissions r) id path method <->
  grants permissions id path method \/
  (permission_id r = id /\ exists p, pr_operation r = Some (method, p) /\ path = shown_path (pr_lib r) p).
Proof.
  unfold add_permission, grants. destruct (decide (permission_id r = id)) as [<-|Hne].
  2: { setoid_rewrite lookup_insert_ne; [|done]. naive_solver. }
  setoid_rewrite lookup_insert_eq. unfold add_endpoint.
  destruct (pr_operation r) as [[m p]|] eqn:Hop.
  2: { split.
       - intros (paths & methods & [= <-] & Hp & Hm). left. destruct (permissions !! permission_id r) as [q|]; cbn in Hp; [eauto|by rewrite lookup_empty in Hp].
       - intros [(paths & methods & -> & Hp & Hm)|(_ & p & ? & _)]; [|done]. cbn. eauto. }
  split.
  - intros (paths & methods & [= <-] & Hp & Hm). destruct (decide (path = shown_path (pr_lib r) p)) as [->|Hne].
    + rewrite lookup_insert_eq in Hp. injection Hp as <-. apply elem_of_union in Hm as [->%elem_of_singleton|Hm]; [right; eauto|left].
      destruct (permissions !! permission_id r) as [q|]; cbn in Hm; [|by rewrite lookup_empty in Hm].
      destruct (q !! shown_path (pr_lib r) p) as [ms|] eqn:Hq; cbn in Hm; [eauto|set_solver].
    + rewrite lookup_insert_ne in Hp by done. left.
      destruct (permissions !! permission_id r) as [q|]; cbn in Hp; [eauto|by rewrite lookup_empty in Hp].
  - intros [(paths & methods & -> & Hp & Hm)|(_ & p' & [= -> <-] & ->)].
    + cbn. destruct (decide (path = shown_path (pr_lib r) p)) as [->|Hne].
      * eexists _, _. rewrite lookup_insert_eq, Hp. cbn. split_and!; [done..|set_solver].
      * eexists _, _. rewrite lookup_insert_ne by done. eauto.
    + eexists _, _. rewrite lookup_insert_eq. split_and!; [done..|set_solver].
Qed.
Lemma grants_fold rows permissions id path method :
  grants (fold_left add_permission rows permissions) id path method <->
  grants permissions id path method \/
  exists r p, r ∈ rows /\ permission_id r = id /\ pr_operation r = Some (method, p) /\ path = shown_path (pr_lib r) p.
Proof.
  revert permissions. induction rows as [|r rows IH]; intros permissions; cbn; [set_solver|].
  rewrite IH, grants_add. setoid_rewrite elem_of_cons. naive_solver.
Qed.
Lemma capability_operations_elem db key o :
  o ∈ capability_operations db key <-> lib_capability_operation db !! o = Some key.
Proof.
  unfold capability_operations. rewrite list_elem_of_fmap. split.
  - intros ([o' k] & -> & [Hk Hin]%list_elem_of_filter). cbn in *. subst k. by apply elem_of_map_to_list.
  - intros Ho. exists (o, key). split; [done|]. apply list_elem_of_filter. split; [done|]. by apply elem_of_map_to_list.
Qed.
Lemma permission_rows_elem db r method p :
  (r ∈ permission_rows db /\ pr_operation r = Some (method, p)) <->
  exists lib c title, package db !! lib = Some (pr_lib r) /\ has_lib (pr_lib r) = true /\ lib_capability db !! (lib, c) = Some title /\
    lib_capability_operation db !! (method, p) = Some (lib, c) /\ r = PermissionRow (pr_lib r) title (Some (method, p)).
Proof.
  unfold permission_rows. rewrite elem_of_sort_by. split.
  - intros [Hr Hop]. apply list_elem_of_In, in_flat_map in Hr as ([[lib c] title] & Hc & Hin).
    apply list_elem_of_In, elem_of_map_to_list in Hc. apply list_elem_of_In in Hin. unfold joined in Hin. cbn in Hin. destruct (package db !! lib) as [row|] eqn:Hrow; [|by apply not_elem_of_nil in Hin].
    destruct (has_lib row) eqn:Hlib; [|by apply not_elem_of_nil in Hin].
    assert (exists o, r = PermissionRow row title o /\ (o = None \/ exists e, o = Some e /\ e ∈ capability_operations db (lib, c))) as (o & -> & Ho).
    { destruct (capability_operations db (lib, c)) as [|o os] eqn:Hos.
      - apply list_elem_of_singleton in Hin as ->. eauto.
      - change (r ∈ map (fun o => PermissionRow row title (Some o)) (o :: os)) in Hin.
        apply list_elem_of_fmap in Hin as (e & -> & He). eexists. split; [done|]. right. eauto. }
    cbn in Hop. subst o. destruct Ho as [|(e & [= <-] & He)]; [done|]. apply capability_operations_elem in He.
    exists lib, c, title. by split_and!.
  - intros (lib & c & title & Hrow & Hlib & Hc & Ho & ->). cbn in *. split; [|done].
    apply list_elem_of_In, in_flat_map. exists (lib, c, title). split; [by apply list_elem_of_In, elem_of_map_to_list|].
    apply list_elem_of_In. unfold joined. cbn. rewrite Hrow, Hlib. apply capability_operations_elem in Ho.
    apply (list_elem_of_fmap_2 (fun o => PermissionRow (pr_lib r) title (Some o))) in Ho.
    by destruct (capability_operations db (lib, c)) as [|o os]; [apply not_elem_of_nil in Ho|].
Qed.
Lemma permission_map_grants db id path method :
  grants (permission_map db) id path method <-> exists lib, offers db lib id path method.
Proof.
  unfold permission_map. rewrite grants_fold. split.
  - intros [(paths & methods & Hm & _)|(r & p & Hr & <- & Hop & ->)]; [by rewrite lookup_empty in Hm|].
    destruct (proj1 (permission_rows_elem db r method p) (conj Hr Hop)) as (lib & c & title & ? & ? & ? & ? & Heq).
    exists lib, (pr_lib r), c, title, p. split_and!; try done. unfold permission_id. by rewrite Heq.
  - intros (lib & r & c & title & p & Hrow & Hlib & Hc & Ho & -> & ->). right.
    destruct (proj2 (permission_rows_elem db (PermissionRow r title (Some (method, p))) method p)) as [Hin Hop].
    { exists lib, c, title. by split_and!. }
    exists (PermissionRow r title (Some (method, p))), p. by split_and!.
Qed.

(** *** The JSON answer *)
Definition json_grants (v : json) (id path method : string) : Prop :=
  exists o paths methods, v = JObj o /\ (id, JObj paths) ∈ o /\ (path, JArr methods) ∈ paths /\ JStr method ∈ methods.
Lemma map_json_elem {A} (f : string -> A -> json) m k v :
  (exists o, map_json f m = JObj o /\ (k, v) ∈ o) <-> exists a, m !! k = Some a /\ v = f k a.
Proof.
  unfold map_json. split.
  - intros (o & [= <-] & ([k' a] & [= -> ->] & Hin)%list_elem_of_fmap). rewrite elem_of_sort_by, elem_of_map_to_list in Hin. eauto.
  - intros (a & Ha & ->). eexists. split; [done|]. apply list_elem_of_fmap. exists (k, a). split; [done|].
    by rewrite elem_of_sort_by, elem_of_map_to_list.
Qed.
Lemma methods_json_elem methods m : (exists l, methods_json methods = JArr l /\ JStr m ∈ l) <-> m ∈ methods.
Proof.
  unfold methods_json. split.
  - intros (l & [= <-] & (m' & [= ->] & Hin)%list_elem_of_fmap). by rewrite elem_of_sort_by, elem_of_elements in Hin.
  - intros Hm. eexists. split; [done|]. apply list_elem_of_fmap_2. by rewrite elem_of_sort_by, elem_of_elements.
Qed.
Lemma json_grants_map permissions id path method :
  json_grants (map_json (fun _ => endpoints_json) permissions) id path method <-> grants permissions id path method.
Proof.
  unfold json_grants, grants. split.
  - intros (o & paths & methods & Ho & Hid & Hp & Hm).
    destruct (proj1 (map_json_elem (fun _ => endpoints_json) permissions id (JObj paths))) as (q & Hq & Heq); [eauto|].
    destruct (proj1 (map_json_elem (fun _ => methods_json) q path (JArr methods))) as (ms & Hms & Heq'); [eauto|].
    exists q, ms. split_and!; [done..|]. apply methods_json_elem. eauto.
  - intros (paths & methods & Hid & Hp & Hm).
    destruct (proj2 (methods_json_elem methods method) Hm) as (l & Hl & Hin).
    destruct (proj2 (map_json_elem (fun _ => methods_json) paths path (methods_json methods))) as (ps & Hps & Hin'); [eauto|].
    destruct (proj2 (map_json_elem (fun _ => endpoints_json) permissions id (endpoints_json paths))) as (o & Ho & Hin''); [eauto|].
    exists o, ps, l. unfold endpoints_json in Hin''. rewrite Hps in Hin''. rewrite Hl in Hin'. by split_and!.
Qed.
End permission_facts.

(** ** Reading back what was written *)
Section read_back.
Context `{DhttpHome, SerdeJson, UrlCrates, Sha2, Base64, Wasmparser, Oas3, X509, AccessControl}.

(** An endpoint a group of the request names. *)
Definition names_endpoint (group : json) (e : string * string) : Prop :=
  exists operations op, as_array group.["endpoints"] = Some operations /\ op ∈ operations /\
    as_str op.["method"] = Some e.1 /\ as_str op.["path"] = Some e.2.
Definition declared_under (rows : list Registry.capability) (title : string) (e : string * string) : Prop :=
  exists c endpoints, (c, title, endpoints) ∈ rows /\ e ∈ endpoints.

Lemma declare_endpoint_all available s0 ops s :
  try_fold (declare_endpoint available) s0 ops = Ok s ->
  forall e, e ∈ s.2 <-> e ∈ s0.2 \/ exists op, op ∈ ops /\ as_str op.["method"] = Some e.1 /\ as_str op.["path"] = Some e.2.
Proof.
  apply (try_fold_ind _ (fun pre (s : list (string * string) * list (string * string)) => forall e,
    e ∈ s.2 <-> e ∈ s0.2 \/ exists op, op ∈ pre /\ as_str op.["method"] = Some e.1 /\ as_str op.["path"] = Some e.2)).
  { intros e. split; [by left|]. by intros [?|(op & ?%not_elem_of_nil & _)]. }
  intros pre op [es ds] s' IH Hs [m p]. unfold declare_endpoint in Hs. simplify_ok. cbn in *.
  rewrite elem_of_app, list_elem_of_singleton, IH. setoid_rewrite elem_of_app. setoid_rewrite list_elem_of_singleton.
  split.
  - intros [[?|(o & Ho & Hm & Hp)]|[= -> ->]]; [by left|right; eauto|right; eauto].
  - intros [?|(o & [Ho| ->] & Hm & Hp)]; [auto|left; right; eauto|right; congruence].
Qed.
Lemma declare_rows available s0 groups s :
  try_fold (declare available) s0 groups = Ok s ->
  forall title e, declared_under (d_rows s) title e <-> declared_under (d_rows s0) title e \/
    exists g, g ∈ groups /\ text_or_json g.["title"] = title /\ names_endpoint g e.
Proof.
  apply (try_fold_ind _ (fun pre s => forall title e, declared_under (d_rows s) title e <-> declared_under (d_rows s0) title e \/
    exists g, g ∈ pre /\ text_or_json g.["title"] = title /\ names_endpoint g e)).
  { intros title e. split; [by left|]. by intros [?|(g & ?%not_elem_of_nil & _)]. }
  intros pre g d d' IH Hs title e. unfold declare in Hs. simplify_ok.
  match goal with Hf : try_fold (declare_endpoint _) _ _ = Ok ?p |- _ =>
    destruct p as [endpoints declared]; pose proof (declare_endpoint_all _ _ _ _ Hf e) as Hall end.
  assert (forall x : list json, match l with [] => None | o :: os => Some (o :: os) end = Some x -> as_array g.["endpoints"] = Some x) as Hops.
  { intros x Hx.
    match goal with E : as_object g = Some ?a, E2 : assoc "endpoints" ?a ≫= as_array = Some l |- _ =>
      destruct g as [| | | | | |o]; try done; injection E as ->; unfold index; cbn; destruct (assoc "endpoints" a); [|done] end.
    cbn in *. destruct l; [done|]. congruence. }
  match goal with Hx : match l with [] => None | _ => _ end = Some ?x |- _ => specialize (Hops x Hx) end.
  simplify_ok. cbn [d_rows snd] in *.
  transitivity (declared_under (d_rows d) title e \/ (text_or_json g.["title"] = title /\ e ∈ declared)).
  - unfold declared_under. setoid_rewrite elem_of_app. setoid_rewrite list_elem_of_singleton. naive_solver.
  - rewrite IH, Hall. setoid_rewrite elem_of_app. setoid_rewrite list_elem_of_singleton.
    assert (names_endpoint g e <-> exists op, op ∈ a2 /\ as_str op.["method"] = Some e.1 /\ as_str op.["path"] = Some e.2) as Hg.
    { unfold names_endpoint. setoid_rewrite Hops. naive_solver. }
    pose proof (not_elem_of_nil e). split.
    + intros [[?|(g' & ? & ? & ?)]|[? [?|?]]]; [by left|right; eauto|done|]. right. exists g. split_and!; [by right|done|by apply Hg].
    + intros [?|(g' & [?| ->] & ? & Hn)]; [by left; left|left; right; eauto|]. right. split; [done|]. right. by apply Hg.
Qed.

Lemma declared_titles available groups s name db db' :
  try_fold (declare available) (Declarations [] [] []) groups = Ok s -> permissions name (d_rows s) db = Ok db' ->
  forall title e, (exists c, lib_capability db' !! (name, c) = Some title /\ lib_capability_operation db' !! e = Some (name, c)) <->
    exists g, g ∈ groups /\ text_or_json g.["title"] = title /\ names_endpoint g e.
Proof.
  intros Hf Hp title e. pose proof (declare_rows _ _ _ _ Hf title e) as Hrows.
  apply permissions_inv in Hp as (_ & Hc & Ho).
  transitivity (declared_under (d_rows s) title e).
  - unfold declared_under. split.
    + intros (c & [[? _]|(_ & eps & Hin)]%Hc & [[? _]|(_ & t & eps' & Hin' & He)]%Ho); [done..|]. cbn in *.
      assert (Some t = Some title) as [= ->]; [|by eauto].
      rewrite <- (proj2 (Hc (name, c) t)), <- (proj2 (Hc (name, c) title)); [done|right; eauto..].
    + intros (c & eps & Hin & He). exists c. split.
      * apply Hc. right. eauto.
      * apply Ho. right. split; [done|]. exists title, eps. by split.
  - rewrite Hrows. split; [|by right]. intros [(c & eps & ?%not_elem_of_nil & _)|?]; done.
Qed.

(** What a write leaves behind. *)
Lemma write_declarations_shown component db name value db' :
  write_declarations component db name "PUT" value = Ok db' ->
  exists groups r, value = JArr groups /\ package db !! name = Some r /\ has_lib r = true /\
    forall id path method, (exists lib, offers db' lib id path method) <->
      (exists lib, lib <> name /\ offers db lib id path method) \/
      (exists g p, g ∈ groups /\ names_endpoint g (method, p) /\ path = shown_path r p /\
         id = package_label r +:+ " · " +:+ permission_label (text_or_json g.["title"])).
Proof.
  unfold write_declarations. intros Hw. cbn [String.eqb Ascii.eqb Bool.eqb andb] in Hw. simplify_ok. simplify_bool.
  match goal with Hi : is_Some _ |- _ => destruct Hi as [r Hr] end.
  destruct (package db !! name) as [r0|] eqn:Hp; [|done]. destruct (has_lib r0) eqn:Hlib; [|done].
  injection Hr as ->. match goal with Hg : as_array value = Some ?l |- _ => exists l, r; destruct value; try done; injection Hg as -> end.
  split_and!; [done..|]. intros id path method.
  match goal with Hf : try_fold _ _ _ = Ok _ |- _ => pose proof (declared_titles _ _ _ _ _ _ Hf Hw) as Htitles end.
  apply permissions_inv in Hw as ((Hpkg & _) & Hc & Ho). split.
  - intros (lib & r' & c & title & p & Hrow & Hlib' & Hcap & Hop & -> & ->). rewrite Hpkg in Hrow.
    destruct (decide (lib = name)) as [->|Hne].
    + right. assert (r' = r) as -> by congruence. destruct (proj1 (Htitles title (method, p))) as (g & Hg & <- & Hn); [eauto|].
      exists g, p. by split_and!.
    + left. exists lib. split; [done|]. apply Hc in Hcap as [[_ Hcap]|[? _]]; [|done]. apply Ho in Hop as [[_ Hop]|[? _]]; [|done].
      exists r', c, title, p. by split_and!.
  - intros [(lib & Hne & r' & c & title & p & Hrow & Hlib' & Hcap & Hop & -> & ->)|(g & p & Hg & Hn & -> & ->)].
    + exists lib, r', c, title, p. rewrite Hpkg. split_and!; [done|done|apply Hc|apply Ho|done|done]; left; by split.
    + destruct (proj2 (Htitles (text_or_json g.["title"]) (method, p))) as (c & Hcap & Hop); [by exists g|].
      exists name, r, c, (text_or_json g.["title"]), p. rewrite Hpkg. by split_and!.
Qed.

(** C20: Declarations that are written over HTTP are the ones that are shown: after a PUT that succeeds,
    the catalogue holds an endpoint under a permission exactly when another Lib declares it, or a group
    of the request names it, under the label of that Lib and the localised title of the group, with the
    path that visitors use. *)
Theorem permissions_read_back component db rq db' :
  write_request component db rq = Ok (db', 204) -> rq_method rq = "PUT" ->
  exists name groups r, form_parse (default "" (rq_query rq)) = [("name", name)] /\ from_slice (rq_body rq) = Some (JArr groups) /\
    package db !! name = Some r /\ has_lib r = true /\
    forall id path method, json_grants (catalog db') id path method <->
      (exists lib, lib <> name /\ offers db lib id path method) \/
      (exists g p, g ∈ groups /\ names_endpoint g (method, p) /\ path = shown_path r p /\
         id = package_label r +:+ " · " +:+ permission_label (text_or_json g.["title"])).
Proof.
  unfold write_request. intros Hw Hput. rewrite Hput in Hw. cbn [String.eqb Ascii.eqb Bool.eqb andb] in Hw. simplify_ok.
  destruct (negb (content_type_json _)); [by simplify_ok|]. simplify_ok.
  match goal with Hd : write_declarations _ _ ?n _ _ = Ok _ |- _ =>
    apply write_declarations_shown in Hd as (groups & r & -> & Hp & Hlib & Hall); exists n, groups, r end.
  split_and!; [|done..|].
  - destruct (form_parse _) as [|[k v] [|]]; try done. destruct (String.eqb_spec k "name") as [->|]; [|done].
    cbn in *. destruct (contains_char "/" v); [done|]. cbn in *. congruence.
  - intros id path method. unfold catalog. rewrite json_grants_map, permission_map_grants. apply Hall.
Qed.

(** The details are the catalogue with a title for every permission, and
    reading never panics. *)
Lemma titles_cover rows titles permissions :
  (forall id, is_Some (permissions !! id : option endpoints) -> is_Some (titles !! id : option json)) ->
  forall id, is_Some (fold_left add_permission rows permissions !! id) -> is_Some (fold_left add_title rows titles !! id).
Proof.
  revert titles permissions. induction rows as [|r rows IH]; intros titles permissions Hc; [done|]. cbn. apply IH.
  intros id. unfold add_permission, add_title. destruct (decide (permission_id r = id)) as [<-|Hne].
  - intros _. destruct (titles !! permission_id r) eqn:Ht; [by eexists|]. by rewrite lookup_insert_eq.
  - rewrite lookup_insert_ne by done. intros Hs%Hc. destruct (titles !! permission_id r); [done|]. by rewrite lookup_insert_ne.
Qed.
Lemma try_map_all {A B} (f : A -> Result B) l : (forall x, x ∈ l -> exists y, f x = Ok y) -> exists r, try_map f l = Ok r.
Proof.
  induction l as [|x l IH]; intros Hf; [by eexists|]. destruct (Hf x ltac:(left)) as [y Hy]. destruct IH as [r Hr]; [intros; apply Hf; by right|].
  exists (y :: r). cbn. by rewrite Hy, Hr.
Qed.
Theorem read_permissions_total db query : exists v, read_permissions db query = Ok v.
Proof.
  unfold read_permissions. destruct (existsb _ _); [|by eexists].
  destruct (try_map_all (fun e => let? v := detailed (permission_titles db) e.1 e.2 in Ok (e.1, v))
    (sort_by (fun a b => String.leb a.1 b.1) (map_to_list (permission_map db)))) as [entries ->]; [|by eexists].
  intros [id paths] Hin. rewrite elem_of_sort_by, elem_of_map_to_list in Hin. cbn.
  destruct (titles_cover (permission_rows db) ∅ ∅) with (id := id) as [title Ht]; [|by exists paths|].
  - intros i. by rewrite lookup_empty.
  - unfold detailed. unfold permission_titles. rewrite Ht. cbn. by eexists.
Qed.
End read_back.

(** ** What the contact service selects of it *)
Section own_permissions.
Context `{SerdeJson, UrlCrates}.
(** The operations of permissions that the identity asks itself for, or offers,
    are operations its Libs declare. *)
Theorem own_permissions_registered http_method db ids selected :
  select http_method (catalog db) ids = Ok selected ->
  forall c m p, c ∈ selected -> (m, p) ∈ cap_endpoints c -> exists lib, offers db lib (cap_id c) p m.
Proof.
  intros (_ & _ & o & Ho & Hall)%select_sound c m p Hc Hmp. rewrite Forall_forall in Hall.
  destruct (Hall c Hc) as (paths & Hin & Hops). destruct (Hops m p Hmp) as (_ & _ & _ & methods & q & -> & Hp & Hm).
  apply permission_map_grants, json_grants_map. exists o, q, methods. by split_and!.
Qed.
End own_permissions.
