(* ===== verification/Ownership.v ===== *)
(** * Who owns the files of an identity ([src/server/files.rs]
      [repair_identity_ownership], [inherit_identity_owner],
      [src/sandbox/runtime.rs] [repair_guest_directory],
      [src/package/files.rs] [inherit_owner], [database_owner],
      [src/setup.rs] [inherit_config_files])

    The service may run as root on behalf of the account an identity belongs to,
    so what it creates must be handed to that account, and nothing else may
    change hands: not a file with a second link, which may lie outside the
    identity, nor another file system mounted below it.  A file system is a map
    of inodes; an entry of a directory names an inode, so hard links and cycles
    can be expressed. *)
From S2P Require Import Prelude RustStr Json Crates Errors.

(** ** Inodes *)
Inductive inode_kind :=
| Directory (entries : list (string * Z))
| Regular (nlink : Z)
| Special.                                (* a symbolic link, a socket, .. *)
Record inode := Inode { in_dev : Z; in_uid : Z; in_gid : Z; in_mode : Z; in_kind : inode_kind }.
Abbreviation filesystem := (gmap Z inode).
Definition is_dir (n : inode) : bool := match in_kind n with Directory _ => true | _ => false end.
Definition is_special (n : inode) : bool := match in_kind n with Special => true | _ => false end.
Definition linked (n : inode) : bool := match in_kind n with Regular nlink => negb (nlink =? 1) | _ => false end.
Definition entries_of (fs : filesystem) (d : Z) : list (string * Z) :=
  match fs !! d with Some (Inode _ _ _ _ (Directory entries)) => entries | _ => [] end.

Section ownership.
(** What a system call on an inode fails with; the mode [fchown] leaves. *)
Variable open_error : Z -> option error.
Variable chown_error : Z -> option error.
Variable chmod_error : Z -> option error.
Variable cleared : Z -> Z.

Definition give (owner : Z * Z) (mode : Z) (n : inode) : inode := Inode (in_dev n) (fst owner) (snd owner) mode (in_kind n).
Definition owned (owner : Z * Z) (n : inode) : bool := (in_uid n =? fst owner) && (in_gid n =? snd owner).
(** [fchown], and the permissions of before put back. *)
Definition hand_over (owner : Z * Z) (i : Z) (n : inode) (fs : filesystem) : filesystem * Result unit :=
  if owned owner n then (fs, Ok tt) else
  match chown_error i with
  | Some e => (fs, Err e)
  | None =>
      match chmod_error i with
      | Some e => (<[i := give owner (cleared (in_mode n)) n]> fs, Err e)
      | None => (<[i := give owner (in_mode n) n]> fs, Ok tt)
      end
  end.
(** The inode an entry names, opened. *)
Definition open_inode (fs : filesystem) (i : Z) : Result inode :=
  match open_error i, fs !! i with
  | Some e, _ => Err e
  | None, Some n => Ok n
  | None, None => Err (Io NotFound "No such file or directory (os error 2)")
  end.

(** ** Walking a directory
    [enter] when a directory is taken from the stack, [visit] for each of its
    entries, with the answer whether to descend. *)
Section walk.
Variable enter : filesystem -> Z -> filesystem * Result unit.
Variable visit : filesystem -> Z -> filesystem * Result bool.
Fixpoint visit_all (fs : filesystem) (stack : list Z) (entries : list (string * Z)) : filesystem * Result (list Z) :=
  match entries with
  | [] => (fs, Ok stack)
  | (_, i) :: entries =>
      match visit fs i with
      | (fs, Err e) => (fs, Err e)
      | (fs, Ok descend) => visit_all fs (if descend then i :: stack else stack) entries
      end
  end.
(** [None] when the fuel is used up. *)
Fixpoint walk (fuel : nat) (fs : filesystem) (stack : list Z) : option (filesystem * Result unit) :=
  match stack with
  | [] => Some (fs, Ok tt)
  | d :: stack =>
      match fuel with
      | O => None
      | S fuel =>
          match enter fs d with
          | (fs, Err e) => Some (fs, Err e)
          | (fs, Ok _) =>
              match visit_all fs stack (entries_of fs d) with
              | (fs, Err e) => Some (fs, Err e)
              | (fs, Ok stack) => walk fuel fs stack
              end
          end
      end
  end.
End walk.
Definition no_entry (fs : filesystem) (d : Z) : filesystem * Result unit := (fs, Ok tt).

(** [repair_identity_ownership]: a directory or single-link file of the same
    device. *)
Definition repair_visit (device : Z) (owner : Z * Z) (fs : filesystem) (i : Z) : filesystem * Result bool :=
  match fs !! i with
  | Some n =>
      if is_special n then (fs, Ok false) else
      match open_inode fs i with
      | Err e => (fs, Err e)
      | Ok n =>
          if negb (in_dev n =? device) || (negb (is_dir n) && linked n) then (fs, Ok false) else
          match hand_over owner i n fs with
          | (fs, Err e) => (fs, Err e)
          | (fs, Ok _) => (fs, Ok (is_dir n))
          end
      end
  | None => (fs, Err (Io NotFound "No such file or directory (os error 2)"))
  end.
Definition repair_identity_ownership (fuel : nat) (fs : filesystem) (directory : Z) (owner : Z * Z) : option (filesystem * Result unit) :=
  match fs !! directory with
  | Some n => walk no_entry (repair_visit (in_dev n) owner) fuel fs [directory]
  | None => Some (fs, Ok tt)
  end.
(** [repair_guest_directory] takes the owner of the directory itself. *)
Definition repair_guest_directory (fuel : nat) (fs : filesystem) (directory : Z) : option (filesystem * Result unit) :=
  match fs !! directory with
  | Some n => walk no_entry (repair_visit (in_dev n) (in_uid n, in_gid n)) fuel fs [directory]
  | None => Some (fs, Ok tt)
  end.
Definition repair_guest_ownership (root : bool) (fuel : nat) (fs : filesystem) (preopened : list Z) : option (filesystem * Result unit) :=
  if negb root then Some (fs, Ok tt) else
  (fix loop fs preopened := match preopened with
   | [] => Some (fs, Ok tt)
   | d :: preopened => match repair_guest_directory fuel fs d with
                       | Some (fs, Ok _) => loop fs preopened
                       | other => other
                       end
   end) fs preopened.

(** [inherit_owner]: a resource takes the owner of its parent on one device. *)
Definition inherit_owner (root : bool) (fs : filesystem) (i parent : Z) : filesystem * Result unit :=
  match root, fs !! i, fs !! parent with
  | true, Some n, Some p =>
      if negb (in_dev n =? in_dev p) then (fs, Ok tt) else hand_over (in_uid p, in_gid p) i n fs
  | _, _, _ => (fs, Ok tt)
  end.
(** [inherit_identity_owner]: of the profile's directory, unless linked. *)
Definition inherit_identity_owner (root : bool) (fs : filesystem) (i profile : Z) : filesystem * Result unit :=
  match root, fs !! i, fs !! profile with
  | true, Some n, Some p =>
      if negb (is_dir p) || (negb (is_dir n) && (is_special n || linked n))
      then (fs, Err (InvalidConfig "identity resource must be an owned directory or single-link regular file"))
      else hand_over (in_uid p, in_gid p) i n fs
  | _, _, _ => (fs, Ok tt)
  end.
(** [inherit_config_files]: the database directories, whatever their owner, and
    the database files in them. *)
Definition CONFIG_FILES : list string := ["database"; "database-wal"; "database-shm"; "database-journal"].
Definition chown_inode (owner : Z * Z) (mode : Z) (i : Z) (n : inode) (fs : filesystem) : filesystem * Result unit :=
  match chown_error i with
  | Some e => (fs, Err e)
  | None => (<[i := give owner mode n]> fs, Ok tt)
  end.
Definition inherit_config_file (owner : Z * Z) (directory : Z) (fs : filesystem) (file : string) : filesystem * Result unit :=
  match assoc file (entries_of fs directory) with
  | None => (fs, Ok tt)
  | Some i =>
      match open_inode fs i with
      | Err e => (fs, Err e)
      | Ok n =>
          if is_dir n || is_special n || linked n
          then (fs, Err (InvalidConfig "database files must be single-link regular files"))
          else match chown_inode owner (cleared (in_mode n)) i n fs with
               | (fs, Err e) => (fs, Err e)
               | (fs, Ok _) => match chmod_error i with
                               | Some e => (fs, Err e)
                               | None => (<[i := give owner (in_mode n) n]> fs, Ok tt)
                               end
               end
      end
  end.
Fixpoint for_each {A} (f : filesystem -> A -> filesystem * Result unit) (fs : filesystem) (l : list A) : filesystem * Result unit :=
  match l with
  | [] => (fs, Ok tt)
  | x :: l => match f fs x with (fs, Ok _) => for_each f fs l | (fs, Err e) => (fs, Err e) end
  end.
(** [directory name]: the directory [.volume/sys/{name}], opened. *)
Definition inherit_config_directory (directory : string -> Result Z) (owner : Z * Z) (fs : filesystem) (name : string) : filesystem * Result unit :=
  match directory name with
  | Err e => (fs, Err e)
  | Ok d =>
      match fs !! d with
      | None => (fs, Ok tt)
      | Some n =>
          match chown_inode owner (cleared (in_mode n)) d n fs with
          | (fs, Err e) => (fs, Err e)
          | (fs, Ok _) => for_each (inherit_config_file owner d) fs CONFIG_FILES
          end
      end
  end.
Definition inherit_config_files (root : bool) (directory : string -> Result Z) (fs : filesystem) (profile : Z) : filesystem * Result unit :=
  match root, fs !! profile with
  | true, Some p => for_each (inherit_config_directory directory (in_uid p, in_gid p)) fs ["setting"; "pkg"; "access"]
  | _, _ => (fs, Ok tt)
  end.
(** [database_owner]: everything below [.volume]; a linked file is refused. *)
Definition database_visit (identity : Z) (fs : filesystem) (i : Z) : filesystem * Result bool :=
  match fs !! i with
  | Some n =>
      if is_special n then (fs, Ok false) else
      match open_inode fs i with
      | Err e => (fs, Err e)
      | Ok n =>
          if is_dir n then (fs, Ok true) else
          if linked n then (fs, Err (InvalidComponent "invalid or modified expanded package")) else
          match inherit_owner true fs i identity with
          | (fs, Err e) => (fs, Err e)
          | (fs, Ok _) => (fs, Ok false)
          end
      end
  | None => (fs, Err (Io NotFound "No such file or directory (os error 2)"))
  end.
Definition database_owner (root : bool) (fuel : nat) (fs : filesystem) (identity volume : Z) : option (filesystem * Result unit) :=
  if negb root then Some (fs, Ok tt) else
  walk (fun fs d => inherit_owner true fs d identity) (database_visit identity) fuel fs [volume].
End ownership.

(** ** What a repair changes *)
Section repair_facts.
Variable open_error chown_error chmod_error : Z -> option error.
Variable cleared : Z -> Z.
Local Abbreviation repair_visit := (repair_visit open_error chown_error chmod_error cleared).
Local Abbreviation hand_over := (hand_over chown_error chmod_error cleared).

Variable fs0 : filesystem.
Variable root device : Z.
Variable owner : Z * Z.

(** The directories of the device below the root, and what an entry of one of
    them names: another directory, or a file with a single link. *)
Inductive reached : Z -> Prop :=
| reached_root : reached root
| reached_entry d name i n :
    reached d -> (name, i) ∈ entries_of fs0 d -> fs0 !! i = Some n -> is_dir n = true -> in_dev n = device -> reached i.
Definition subject (i : Z) (n : inode) : Prop :=
  exists d name, reached d /\ (name, i) ∈ entries_of fs0 d /\ fs0 !! i = Some n /\
    in_dev n = device /\ is_special n = false /\ linked n = false.
Definition handed (i : Z) (n : inode) : inode := give owner (in_mode n) n.

(** Nothing but subjects changed, and those as they should; or one of them was
    left between the two system calls. *)
Definition touched (fs : filesystem) : Prop :=
  forall i, fs !! i = fs0 !! i \/ exists n, subject i n /\ fs !! i = Some (handed i n).
Definition at_most_touched (fs : filesystem) : Prop :=
  forall i, fs !! i = fs0 !! i \/ exists n mode, subject i n /\ fs !! i = Some (give owner mode n).
Definition settled (fs : filesystem) (i : Z) : Prop := forall n, subject i n -> fs !! i = Some (handed i n).

Lemma subject_lookup i n : subject i n -> fs0 !! i = Some n.
Proof. by intros (? & ? & _ & _ & ? & _). Qed.
Lemma touched_weaken fs : touched fs -> at_most_touched fs.
Proof. intros Ht i. destruct (Ht i) as [?|(n & Hn & Hi)]; [by left|right; eauto]. Qed.
Lemma touched_lookup fs i n : touched fs -> fs !! i = Some n ->
  exists n0, fs0 !! i = Some n0 /\ in_dev n = in_dev n0 /\ in_kind n = in_kind n0 /\ in_mode n = in_mode n0.
Proof.
  intros Ht Hi. destruct (Ht i) as [Heq|(n0 & Hn%subject_lookup & Heq)]; rewrite Hi in Heq; [by exists n|].
  injection Heq as ->. by exists n0.
Qed.
Lemma touched_entries fs d : touched fs -> entries_of fs d = entries_of fs0 d.
Proof.
  intros Ht. unfold entries_of. destruct (Ht d) as [->|(n & Hn%subject_lookup & ->)]; [done|]. rewrite Hn. by destruct n.
Qed.
Lemma owned_handed n n0 mode :
  in_dev n = in_dev n0 -> in_kind n = in_kind n0 -> in_mode n = mode -> owned owner n = true -> n = give owner mode n0.
Proof.
  intros Hd Hk Hm [Hu%Z.eqb_eq Hg%Z.eqb_eq]%andb_true_iff. destruct n, n0, owner. cbn in *. unfold give. cbn. congruence.
Qed.

(** One system call pair on a subject. *)
Lemma hand_over_touched fs i n n0 fs' r :
  touched fs -> subject i n0 -> fs !! i = Some n -> hand_over owner i n fs = (fs', r) ->
  match r with
  | Ok _ => touched fs' /\ fs' !! i = Some (handed i n0) /\ forall j, j <> i -> fs' !! j = fs !! j
  | Err _ => at_most_touched fs'
  end.
Proof.
  intros Ht Hs Hn. destruct (touched_lookup _ _ _ Ht Hn) as (n1 & Hn1 & Hd & Hk & Hm).
  rewrite (subject_lookup _ _ Hs) in Hn1. injection Hn1 as <-.
  assert (forall mode, give owner mode n = give owner mode n0) as Hgive by (intros; unfold give; by rewrite Hd, Hk).
  unfold Ownership.hand_over. destruct (owned owner n) eqn:Ho.
  { intros [= <- <-]. split_and!; [done| |done]. rewrite Hn. f_equal. by apply owned_handed. }
  destruct (chown_error i); [intros [= <- <-]; by apply touched_weaken|].
  destruct (chmod_error i); intros [= <- <-].
  - intros j. destruct (decide (j = i)) as [->|Hne]; [|rewrite lookup_insert_ne by done; by apply touched_weaken].
    right. exists n0, (cleared (in_mode n)). rewrite lookup_insert_eq. by rewrite Hgive.
  - rewrite lookup_insert_eq, Hgive, Hm. split_and!; [|done|].
    + intros j. destruct (decide (j = i)) as [->|Hne]; [|rewrite lookup_insert_ne by done; by apply Ht].
      right. exists n0. by rewrite lookup_insert_eq.
    + intros j Hne. by rewrite lookup_insert_ne.
Qed.

(** One entry. *)
Definition down (i : Z) : Prop := exists n, fs0 !! i = Some n /\ is_dir n = true /\ in_dev n = device.
Lemma repair_visit_touched fs d name i fs' r :
  touched fs -> reached d -> (name, i) ∈ entries_of fs0 d -> repair_visit device owner fs i = (fs', r) ->
  match r with
  | Ok descend => touched fs' /\ settled fs' i /\ (forall j, settled fs j -> settled fs' j) /\
      (descend = true <-> down i)
  | Err _ => at_most_touched fs'
  end.
Proof.
  intros Ht Hr He. unfold Ownership.repair_visit, open_inode.
  destruct (fs !! i) as [n|] eqn:Hn; [|intros [= <- <-]; by apply touched_weaken].
  destruct (touched_lookup _ _ _ Ht Hn) as (n0 & Hn0 & Hd & Hk & Hm).
  assert (is_special n = is_special n0 /\ is_dir n = is_dir n0 /\ linked n = linked n0) as (Hsp & Hdir & Hlk)
    by (unfold is_special, is_dir, linked; by rewrite Hk).
  assert (forall m, subject i m -> m = n0) as Huniq by (intros m Hs%subject_lookup; congruence).
  assert (forall b, (is_special n0 = true \/ in_dev n0 <> device \/ linked n0 = true) -> b = false ->
    settled fs i /\ (b = true <-> down i)) as Hskip.
  { intros b Hbad ->. split.
    - intros m Hs. pose proof (Huniq m Hs) as ->. destruct Hs as (? & ? & _ & _ & _ & ? & ? & ?). destruct Hbad as [?|[?|?]]; congruence.
    - split; [done|]. intros (m & Hm' & Hdm & Hdev). assert (m = n0) as -> by congruence.
      destruct Hbad as [Hb|[?|Hb]]; [|done|]; unfold is_special, linked, is_dir in *; by destruct (in_kind n0). }
  rewrite Hsp. destruct (is_special n0) eqn:Es; [intros [= <- <-]; destruct (Hskip false) as [? ?]; auto|].
  destruct (open_error i); [intros [= <- <-]; by apply touched_weaken|]. rewrite Hd, Hdir, Hlk.
  destruct (negb _ || _) eqn:Eb.
  { intros [= <- <-]. destruct (Hskip false) as [? ?]; [right|done|auto]. 
    apply orb_true_iff in Eb as [Eb|[_ Eb]%andb_true_iff]; [left; by simplify_bool|by right]. }
  apply orb_false_iff in Eb as [Edev Elk]. apply negb_false_iff, Z.eqb_eq in Edev.
  assert (linked n0 = false) as Hl.
  { destruct (is_dir n0) eqn:E; [|done]. unfold linked, is_dir in *. by destruct (in_kind n0). }
  assert (subject i n0) as Hsub by (exists d, name; by split_and!).
  destruct (hand_over owner i n fs) as [fs1 [u|e]] eqn:Hh; intros [= <- <-];
    pose proof (hand_over_touched _ _ _ _ _ _ Ht Hsub Hn Hh) as Hx; [|done].
  destruct Hx as (Ht' & Hi & Hother). split_and!; [done| | |].
  - intros m Hs. by rewrite (Huniq m Hs).
  - intros j Hj m Hs. destruct (decide (j = i)) as [->|Hne]; [by rewrite (Huniq m Hs)|]. rewrite Hother by done. by apply Hj.
  - split; [|intros (m & Hm' & Hdm & _); congruence]. intros Hdir'. exists n0. by split_and!.
Qed.
Lemma visit_all_touched fs d stack entries fs' r :
  touched fs -> reached d -> (forall e, e ∈ entries -> e ∈ entries_of fs0 d) ->
  visit_all (repair_visit device owner) fs stack entries = (fs', r) ->
  match r with
  | Ok stack' => touched fs' /\ (forall j, settled fs j -> settled fs' j) /\
      (forall name i, (name, i) ∈ entries -> settled fs' i /\ (down i -> i ∈ stack')) /\
      (forall i, i ∈ stack -> i ∈ stack') /\ (forall i, i ∈ stack' -> i ∈ stack \/ reached i)
  | Err _ => at_most_touched fs'
  end.
Proof.
  revert fs stack. induction entries as [|[name i] entries IH]; intros fs stack Ht Hr Hin; cbn.
  { intros [= <- <-]. split_and!; [done..|by intros ? ? ?%not_elem_of_nil|done|auto]. }
  destruct (repair_visit device owner fs i) as [fs1 [descend|e]] eqn:Hv;
    pose proof (repair_visit_touched _ _ _ _ _ _ Ht Hr (Hin _ ltac:(left)) Hv) as Hx; [|by intros [= <- <-]].
  destruct Hx as (Ht1 & Hs1 & Hmono & Hdown). intros Hrest.
  apply IH in Hrest; [|done|done|intros e He; apply Hin; by right].
  destruct r as [stack'|]; [|done]. destruct Hrest as (Ht' & Hmono' & Hall & Hkeep & Hback).
  split_and!; [done|auto| | |].
  - intros name' i' [[= -> ->]|Hi]%elem_of_cons; [|by eapply Hall]. split; [by apply Hmono'|]. intros Hd%Hdown. apply Hkeep. rewrite Hd. left.
  - intros j Hj. apply Hkeep. destruct descend; [by right|done].
  - intros j Hj. destruct (Hback j Hj) as [Hin'|?]; [|by right]. destruct descend; [|by left].
    apply elem_of_cons in Hin' as [->|?]; [|by left]. right. destruct (proj1 Hdown eq_refl) as (n & Hn & Hdn & Hdev).
    apply (reached_entry d name i n); [done|apply Hin; left|done..].
Qed.
(** The stack and what is done cover the directories. *)
Lemma walk_touched fuel fs stack (done_ : Z -> Prop) fs' r :
  touched fs -> (forall d, d ∈ stack -> reached d) ->
  (forall d name i, done_ d -> (name, i) ∈ entries_of fs0 d -> settled fs i /\ (down i -> done_ i \/ i ∈ stack)) ->
  (done_ root \/ root ∈ stack) ->
  walk no_entry (repair_visit device owner) fuel fs stack = Some (fs', r) ->
  match r with Ok _ => touched fs' /\ (forall i n, subject i n -> fs' !! i = Some (handed i n)) | Err _ => at_most_touched fs' end.
Proof.
  revert fs stack done_. induction fuel as [|fuel IH]; intros fs [|d stack] done_ Ht Hst Hdone Hroot; cbn [walk]; [|done| |].
  1,2: intros [= <- <-]; split; [done|]; intros i n Hs;
    assert (forall d, reached d -> done_ d) as Hall
      by (induction 1 as [|d name j m _ IHd He Hj Hdm Hdev]; [destruct Hroot as [?|?%not_elem_of_nil]; done|];
          destruct (proj2 (Hdone d name j IHd He)) as [?|?%not_elem_of_nil]; [by exists m|done|done]);
    destruct Hs as (d & name & Hd & He & Hrest); apply (proj1 (Hdone d name i (Hall d Hd) He)); by exists d, name.
  unfold no_entry. rewrite touched_entries by done.
  destruct (visit_all _ fs stack (entries_of fs0 d)) as [fs1 [stack'|e]] eqn:Hv;
    pose proof (visit_all_touched _ d _ _ _ _ Ht (Hst d ltac:(left)) ltac:(done) Hv) as Hx; [|by intros [= <- <-]].
  destruct Hx as (Ht1 & Hmono & Hall & Hkeep & Hback).
  apply (IH fs1 stack' (fun j => done_ j \/ j = d)); [done| | |].
  - intros j Hj. destruct (Hback j Hj) as [?|?]; [apply Hst; by right|done].
  - intros j name i [Hj| ->] He.
    + destruct (Hdone j name i Hj He) as [Hs Hd]. split; [by apply Hmono|]. intros Hdn. destruct (Hd Hdn) as [?|[->|?]%elem_of_cons]; auto.
    + destruct (Hall name i He) as [Hs Hd]. split; [done|auto].
  - destruct Hroot as [?|[->|?]%elem_of_cons]; auto.
Qed.
End repair_facts.

(** *** The walk ends
    Directories have no cycles: a rank falls from each to the ones in it. *)
Definition ranked (fs : filesystem) : Prop :=
  exists rank : Z -> nat, forall d name i n, (name, i) ∈ entries_of fs d -> fs !! i = Some n -> is_dir n = true -> (rank i < rank d)%nat.

Section termination.
Variable open_error chown_error chmod_error : Z -> option error.
Variable cleared : Z -> Z.
Variable fs0 : filesystem.
Variable device : Z.
Variable owner : Z * Z.
Local Abbreviation visit := (repair_visit open_error chown_error chmod_error cleared device owner).

Definition alike (fs : filesystem) : Prop := forall i, in_kind <$> fs !! i = in_kind <$> fs0 !! i.
Lemma alike_entries fs d : alike fs -> entries_of fs d = entries_of fs0 d.
Proof.
  intros Ha. specialize (Ha d). unfold entries_of. destruct (fs !! d) as [[]|], (fs0 !! d) as [[]|]; cbn in Ha; simplify_eq; done.
Qed.
Lemma hand_over_alike fs i n fs' r :
  alike fs -> fs !! i = Some n -> hand_over chown_error chmod_error cleared owner i n fs = (fs', r) -> alike fs'.
Proof.
  intros Ha Hn. unfold hand_over. destruct (owned owner n), (chown_error i), (chmod_error i); intros [= <- _]; try done.
  all: intros j; destruct (decide (j = i)) as [->|Hne]; [|by rewrite lookup_insert_ne]; by rewrite lookup_insert_eq, <- Ha, Hn.
Qed.
Lemma visit_alike fs i fs' r :
  alike fs -> visit fs i = (fs', r) -> alike fs' /\ (r = Ok true -> exists n, fs0 !! i = Some n /\ is_dir n = true).
Proof.
  intros Ha. unfold repair_visit, open_inode. destruct (fs !! i) as [n|] eqn:Hn; [|by intros [= <- <-]].
  destruct (is_special n); [by intros [= <- <-]|]. destruct (open_error i); [by intros [= <- <-]|].
  destruct (_ || _); [by intros [= <- <-]|].
  destruct (hand_over _ _ _ owner i n fs) as [fs1 [u|e]] eqn:Hh; intros [= <- <-]; (split; [by eapply hand_over_alike|]); [|done].
  intros [= Hd]. specialize (Ha i). rewrite Hn in Ha. destruct (fs0 !! i) as [n0|]; cbn in Ha; [|done]. exists n0. split; [done|].
  unfold is_dir in *. injection Ha as <-. done.
Qed.
Lemma visit_all_alike fs stack entries fs' r :
  alike fs -> visit_all visit fs stack entries = (fs', r) ->
  alike fs' /\ forall stack', r = Ok stack' -> exists l, stack' = l ++ stack /\
    forall i, i ∈ l -> exists name n, (name, i) ∈ entries /\ fs0 !! i = Some n /\ is_dir n = true.
Proof.
  revert fs stack. induction entries as [|[name i] entries IH]; intros fs stack Ha; cbn.
  { intros [= <- <-]. split; [done|]. intros stack' [= <-]. exists []. split; [done|]. by intros i ?%not_elem_of_nil. }
  destruct (visit fs i) as [fs1 [descend|e]] eqn:Hv; destruct (visit_alike _ _ _ _ Ha Hv) as [Ha1 Hd]; [|by intros [= <- <-]].
  intros Hr. destruct (IH _ _ Ha1 Hr) as [Ha' Hl]. split; [done|]. intros stack' Hs. destruct (Hl stack' Hs) as (l & -> & Hin).
  destruct descend.
  - destruct (Hd eq_refl) as (n & Hn & Hdn). exists (l ++ [i]). split; [by rewrite <- app_assoc|].
    intros j [Hj|Hj%list_elem_of_singleton]%elem_of_app.
    + destruct (Hin j Hj) as (nm & m & ? & ?). exists nm, m. split; [by right|done].
    + subst j. exists name, n. split; [left|done].
  - exists l. split; [done|]. intros j Hj. destruct (Hin j Hj) as (nm & m & ? & ?). exists nm, m. split; [by right|done].
Qed.
Definition ends (stack : list Z) : Prop := forall fs, alike fs -> exists fuel x, walk no_entry visit fuel fs stack = Some x.
Lemma walk_ends (rank : Z -> nat) :
  (forall d name i n, (name, i) ∈ entries_of fs0 d -> fs0 !! i = Some n -> is_dir n = true -> (rank i < rank d)%nat) ->
  forall n d stack, (rank d < n)%nat -> ends stack -> ends (d :: stack).
Proof.
  intros Hrank n. induction n as [|n IH]; intros d stack Hlt Hends; [lia|]. intros fs Ha.
  destruct (visit_all visit fs stack (entries_of fs d)) as [fs1 r] eqn:Hv.
  destruct (visit_all_alike _ _ _ _ _ Ha Hv) as [Ha1 Hl]. destruct r as [stack'|e].
  2: { exists 1%nat, (fs1, Err e). cbn. by rewrite Hv. }
  destruct (Hl stack' eq_refl) as (l & -> & Hin).
  assert (ends (l ++ stack)) as Hnew.
  { clear Hv Hl. induction l as [|i l IHl]; [done|]. cbn. apply IH; [|apply IHl; intros; apply Hin; by right].
    destruct (Hin i ltac:(left)) as (name & m & He & Hm & Hd). rewrite alike_entries in He by done.
    specialize (Hrank d name i m He Hm Hd). lia. }
  destruct (Hnew fs1 Ha1) as (fuel & x & Hw). exists (S fuel), x. cbn. by rewrite Hv.
Qed.
Lemma walk_more fuel fuel' fs stack x :
  (fuel <= fuel')%nat -> walk no_entry visit fuel fs stack = Some x -> walk no_entry visit fuel' fs stack = Some x.
Proof.
  revert fuel' fs stack. induction fuel as [|fuel IH]; intros fuel' fs [|d stack] Hle; try by destruct fuel'.
  destruct fuel' as [|fuel']; [lia|]. cbn. destruct (visit_all _ fs stack _) as [fs1 [stack'|e]]; [|done]. apply IH. lia.
Qed.
End termination.

(** *** The repair of a directory *)
Section repair.
Variable open_error chown_error chmod_error : Z -> option error.
Variable cleared : Z -> Z.
Local Abbreviation repair := (repair_identity_ownership open_error chown_error chmod_error cleared).

(** C26: Handing an identity's files to its owner ends for every tree of directories, and whatever fails
    touches nothing but the directories of the same device reached without links and the single-link
    files in them; when it succeeds each of these has the owner, with the permissions it had, and every
    other inode is unchanged. *)
Theorem repair_ownership_exact fs directory n owner :
  ranked fs -> fs !! directory = Some n ->
  exists fuel0 fs' r, (forall fuel, (fuel0 <= fuel)%nat -> repair fuel fs directory owner = Some (fs', r)) /\
    at_most_touched fs directory (in_dev n) owner fs' /\
    (r = Ok tt -> forall i, (forall m, subject fs directory (in_dev n) i m -> fs' !! i = Some (give owner (in_mode m) m)) /\
       ((forall m, ~ subject fs directory (in_dev n) i m) -> fs' !! i = fs !! i)).
Proof.
  intros [rank Hrank] Hn. unfold repair_identity_ownership. rewrite Hn.
  destruct (walk_ends open_error chown_error chmod_error cleared fs (in_dev n) owner rank Hrank (S (rank directory)) directory [])
    with (fs := fs) as (fuel & [fs' r] & Hw); [lia|intros f _; by exists 0%nat, (f, Ok tt)|done|].
  exists fuel, fs', r. split; [intros fuel' Hle; by eapply walk_more|].
  pose proof (walk_touched open_error chown_error chmod_error cleared fs directory (in_dev n) owner fuel fs [directory] (fun _ => False) fs' r) as Ht.
  specialize (Ht ltac:(by left) ltac:(intros d ->%list_elem_of_singleton; constructor) ltac:(done) ltac:(right; left) Hw).
  destruct r as [u|e]; [|split; [exact Ht|done]]. destruct Ht as [Ht Hs]. split; [by apply touched_weaken|].
  intros _ i. split; [intros m; apply Hs|]. intros Hnot. destruct (Ht i) as [?|(m & Hm & _)]; [done|by apply Hnot in Hm].
Qed.
(** The directory of a Lib is repaired as the identity's, to its own owner. *)
Lemma repair_guest_is fuel fs directory n :
  fs !! directory = Some n ->
  repair_guest_directory open_error chown_error chmod_error cleared fuel fs directory = repair fuel fs directory (in_uid n, in_gid n).
Proof. intros Hn. unfold repair_guest_directory, repair_identity_ownership. by rewrite Hn. Qed.
End repair.

(** *** What the databases' repair spares *)
Lemma walk_invariant enter visit (I : filesystem -> Prop) (Q : Z -> Prop) :
  (forall fs d, I fs -> Q d -> I (fst (enter fs d))) ->
  (forall fs i fs' r, I fs -> visit fs i = (fs', r) -> I fs' /\ (r = Ok true -> Q i)) ->
  forall fuel fs stack fs' r, I fs -> (forall d, d ∈ stack -> Q d) -> walk enter visit fuel fs stack = Some (fs', r) -> I fs'.
Proof.
  intros Henter Hvisit.
  assert (forall entries fs stack fs' r, I fs -> (forall d, d ∈ stack -> Q d) -> visit_all visit fs stack entries = (fs', r) ->
    I fs' /\ forall stack', r = Ok stack' -> forall d, d ∈ stack' -> Q d) as Hall.
  { induction entries as [|[name i] entries IH]; intros fs stack fs' r Hi Hq; cbn; [intros [= <- <-]; split; [done|by intros ? [= <-]]|].
    destruct (visit fs i) as [fs1 [descend|e]] eqn:Hv; destruct (Hvisit _ _ _ _ Hi Hv) as [Hi1 Hd]; [|by intros [= <- <-]].
    apply IH; [done|]. intros d Hin. destruct descend; [|by apply Hq]. apply elem_of_cons in Hin as [->|?]; [by apply Hd|by apply Hq]. }
  induction fuel as [|fuel IH]; intros fs [|d stack] fs' r Hi Hq; cbn [walk]; [by intros [= <- _]|done|by intros [= <- _]|].
  pose proof (Henter fs d Hi (Hq d ltac:(left))) as Hi1. destruct (enter fs d) as [fs1 [u|e]]; [|by intros [= <- _]].
  destruct (visit_all visit fs1 stack _) as [fs2 r2] eqn:Hv.
  destruct (Hall _ _ stack fs2 r2 Hi1 ltac:(intros; apply Hq; by right) Hv) as [Hi2 Hq2].
  destruct r2 as [stack'|e]; [|by intros [= <- _]]. by apply IH, Hq2.
Qed.
Section databases.
Variable open_error chown_error chmod_error : Z -> option error.
Variable cleared : Z -> Z.
Variable fs0 : filesystem.
Variable device : Z.
(** Only directories and single-link files of the device changed hands. *)
Definition spared (fs : filesystem) : Prop :=
  forall i, fs !! i = fs0 !! i \/ exists n owner mode, fs0 !! i = Some n /\ is_special n = false /\ linked n = false /\
    in_dev n = device /\ fs !! i = Some (give owner mode n).
Lemma spared_lookup fs i n : spared fs -> fs !! i = Some n -> exists n0, fs0 !! i = Some n0 /\ in_dev n = in_dev n0 /\ in_kind n = in_kind n0.
Proof.
  intros Hs Hi. destruct (Hs i) as [Heq|(n0 & o & m & Hn0 & _ & _ & _ & Heq)]; rewrite Hi in Heq; [by exists n|].
  injection Heq as ->. by exists n0.
Qed.
Lemma inherit_spared fs i parent fs' r p :
  spared fs -> fs !! parent = Some p -> in_dev p = device ->
  (forall n, fs0 !! i = Some n -> is_special n = false /\ linked n = false) ->
  inherit_owner chown_error chmod_error cleared true fs i parent = (fs', r) -> spared fs'.
Proof.
  intros Hs Hp Hdev Hi. unfold inherit_owner. rewrite Hp. destruct (fs !! i) as [n|] eqn:Hn; [|by intros [= <- _]].
  destruct (spared_lookup _ _ _ Hs Hn) as (n0 & Hn0 & Hd & Hk). destruct (Hi n0 Hn0) as [Hsp Hlk].
  destruct (Z.eqb_spec (in_dev n) (in_dev p)) as [Heq|]; [|by intros [= <- _]]. cbn [negb].
  unfold hand_over. destruct (owned _ n), (chown_error i), (chmod_error i); intros [= <- _]; try done.
  all: intros j; destruct (decide (j = i)) as [->|Hne]; [|rewrite lookup_insert_ne by done; apply Hs].
  all: right; exists n0; rewrite lookup_insert_eq; unfold give; rewrite Hd, Hk; do 2 eexists; split_and!; try done; congruence.
Qed.
(** Handing the databases to the identity's owner never changes a file with a
    second link (it fails instead) nor anything on another device. *)
Lemma database_owner_spares fuel identity volume p v fs' r :
  fs0 !! identity = Some p -> in_dev p = device -> fs0 !! volume = Some v -> is_dir v = true ->
  database_owner open_error chown_error chmod_error cleared true fuel fs0 identity volume = Some (fs', r) -> spared fs'.
Proof.
  intros Hp Hdev Hv Hdir. unfold database_owner. cbn [negb].
  assert (forall n, is_dir n = true -> is_special n = false /\ linked n = false) as Hplain
    by (intros n; unfold is_dir, is_special, linked; by destruct (in_kind n)).
  assert (forall fs, spared fs -> exists q, fs !! identity = Some q /\ in_dev q = device) as Hid.
  { intros fs Hs. destruct (Hs identity) as [->|(n & o & m & Hn & _ & _ & ? & ->)]; [eauto|]. eexists. by split. }
  apply (walk_invariant _ _ spared (fun d => exists n, fs0 !! d = Some n /\ is_dir n = true)).
  - intros fs d Hs (n & Hn & Hd). destruct (Hid fs Hs) as (q & Hq & Hqd).
    destruct (inherit_owner _ _ _ true fs d identity) as [fs1 r1] eqn:He. cbn. eapply inherit_spared; [done..| |done].
    intros m Hm. apply Hplain. congruence.
  - intros fs i fs1 r1 Hs. unfold database_visit, open_inode. destruct (fs !! i) as [n|] eqn:Hn; [|by intros [= <- <-]].
    destruct (spared_lookup _ _ _ Hs Hn) as (n0 & Hn0 & Hd & Hk).
    assert (is_special n = is_special n0 /\ is_dir n = is_dir n0 /\ linked n = linked n0) as (Hsp & Hdn & Hlk)
      by (unfold is_special, is_dir, linked; by rewrite Hk).
    rewrite Hsp. destruct (is_special n0) eqn:Esp; [by intros [= <- <-]|]. destruct (open_error i); [by intros [= <- <-]|].
    rewrite Hdn, Hlk. destruct (is_dir n0) eqn:Edir; [intros [= <- <-]; split; [done|eauto]|]. destruct (linked n0) eqn:Elk; [by intros [= <- <-]|].
    destruct (Hid fs Hs) as (q & Hq & Hqd).
    destruct (inherit_owner _ _ _ true fs i identity) as [fs2 [u|e]] eqn:He; intros [= <- <-]; (split; [|done]);
      (eapply inherit_spared; [exact Hs|exact Hq|done| |exact He]); intros m Hm; split; congruence.
  - intros i. by left.
  - intros d ->%list_elem_of_singleton. eauto.
Qed.
End databases.
