(* ===== verification/Layout.v ===== *)
(** * The directories of an identity and the data of a Lib
      ([src/server/files.rs] [initialize_directories],
       [src/sandbox/runtime.rs] [Lib::load])

    Starting a server moves the directories of older versions to their present
    names, creates the missing ones and copies the old databases; loading a Lib
    moves its data into its volume.  The files are a function of the path, a
    list of components; system calls that fail for reasons other than what is
    there are not part of it. *)
From S2P Require Import Prelude RustStr Json Crates Errors Ids.

(** ** Files by path *)
Abbreviation path := (list string).
(** A link names a directory, something else, or nothing. *)
Inductive entry := RealDir | PlainFile (bytes : string) | Link (to_dir : option bool) | Socket.
Abbreviation files := (path -> option entry).
Definition not_there : error := Io NotFound "No such file or directory (os error 2)".
Definition set_entry (p : path) (e : entry) (s : files) : files := fun q => if decide (q = p) then Some e else s q.
(** The rest of a path below a prefix. *)
Fixpoint below_path (p q : path) : option path :=
  match p, q with
  | [], _ => Some q
  | x :: p, y :: q => if String.eqb x y then below_path p q else None
  | _ :: _, [] => None
  end.
(** [try_exists] follows a link. *)
Definition try_exists (s : files) (p : path) : bool :=
  match s p with Some (Link None) => false | Some _ => true | None => false end.
Definition is_real_dir (s : files) (p : path) : bool := match s p with Some RealDir => true | _ => false end.
(** [rename] of a directory to a path where nothing is. *)
Definition renamed (source target : path) (s : files) : files := fun p =>
  match below_path target p with
  | Some rest => s (source ++ rest)
  | None => match below_path source p with Some _ => None | None => s p end
  end.
Definition rename (source target : path) (s : files) : files * Result unit :=
  match s target with
  | None => (renamed source target s, Ok tt)
  | Some _ => (s, Err (Io OtherIo "Not a directory (os error 20)"))
  end.
(** One step after the other, until one fails. *)
Fixpoint steps {A} (f : files -> A -> files * Result unit) (s : files) (l : list A) : files * Result unit :=
  match l with
  | [] => (s, Ok tt)
  | x :: l => match f s x with (s, Ok _) => steps f s l | (s, Err e) => (s, Err e) end
  end.

(** ** [initialize_directories], on the paths below the profile *)
Definition LEGACY_ROOTS : list (string * string) := [("libs", "lib"); ("apps", "app"); ("logs", "log")].
Definition LAYOUT : list path :=
  [[".volume"]; [".volume"; "sys"]; [".volume"; "sys"; "access"]; [".volume"; "sys"; "contact"];
   [".volume"; "sys"; "setting"]; [".volume"; "sys"; "pkg"]; [".volume"; "std"];
   ["lib"]; ["lib"; "std"]; ["app"]; ["log"]; ["repo"]].
Definition LEGACY_DATABASES : list (path * path) :=
  [(["db"; "access.db"], [".volume"; "sys"; "access"; "database"]);
   (["db"; "contact.db"], [".volume"; "sys"; "contact"; "database"])].

Definition move_legacy_root (s : files) (names : string * string) : files * Result unit :=
  let '(old, new) := names in
  if negb (try_exists s [old]) then (s, Ok tt) else
  if negb (is_real_dir s [old]) then (s, Err (InvalidConfig "legacy runtime root must be a real directory")) else
  if try_exists s [new]
  then (s, Err (InvalidConfig ("both " +:+ old +:+ " and " +:+ new +:+ " exist; reconcile them before migration")))
  else rename [old] [new] s.
Definition create_layout_directory (s : files) (directory : path) : files * Result unit :=
  match s directory with
  | None =>
      if bool_decide (removelast directory = []) || is_real_dir s (removelast directory)
      then (set_entry directory RealDir s, Ok tt) else (s, Err not_there)
  | Some RealDir => (s, Ok tt)
  | Some _ => (s, Err (InvalidConfig "identity layout must contain real directories"))
  end.

Section initialize.
(** The contents of a consistent copy of a database. *)
Variable backup : string -> Result string.
(** The recovery of interrupted installations ([Commit]). *)
Variable recover : files -> files * Result unit.

Definition copy_legacy_database (s : files) (paths : path * path) : files * Result unit :=
  let '(source, target) := paths in
  if try_exists s target || negb (try_exists s source) then (s, Ok tt) else
  match s source with
  | Some (PlainFile bytes) =>
      match backup bytes, s target with
      | Err e, _ => (s, Err e)
      | Ok copy, None => (set_entry target (PlainFile copy) s, Ok tt)
      | Ok _, Some _ => (s, Err (Io AlreadyExists "File exists (os error 17)"))
      end
  | _ => (s, Err (InvalidConfig "legacy database must be a regular file"))
  end.
Definition initialize_layout (s : files) : files * Result unit :=
  match steps move_legacy_root s LEGACY_ROOTS with
  | (s, Ok _) =>
      match steps create_layout_directory s LAYOUT with
      | (s, Ok _) => steps copy_legacy_database s LEGACY_DATABASES
      | (s, Err e) => (s, Err e)
      end
  | (s, Err e) => (s, Err e)
  end.
Definition initialize_directories (s : files) : files * Result unit :=
  match initialize_layout s with
  | (s, Ok _) => recover s
  | (s, Err e) => (s, Err e)
  end.
End initialize.

(** ** The data directory of a Lib ([Lib::load]) *)
(** The path above the nearest [.volume]. *)
Fixpoint volume_parent (reversed : path) : option path :=
  match reversed with
  | [] => None
  | x :: above => if String.eqb x ".volume" then Some (rev above) else volume_parent above
  end.
Definition legacy_data (identity : path) (id : string) : list path :=
  (identity ++ ["db"; short_name id])
  :: match split_once "/" id with Some (author, _) => [identity ++ ["db"; author; short_name id]] | None => [] end.
(** [create_dir_all] *)
Definition create_missing (s : files) (p : path) : files * Result unit :=
  match s p with
  | None => (set_entry p RealDir s, Ok tt)
  | Some RealDir | Some (Link (Some true)) => (s, Ok tt)
  | Some _ => (s, Err (Io AlreadyExists "File exists (os error 17)"))
  end.
Definition prefixes (p : path) : list path := map (fun n => take n p) (seq 1 (length p)).
Definition create_dir_all (s : files) (p : path) : files * Result unit := steps create_missing s (prefixes p).
Definition adopt_legacy_data (s : files) (data_dir : path) (id : string) : files * Result unit :=
  match volume_parent (rev data_dir) with
  | None => (s, Ok tt)
  | Some identity =>
      if try_exists s data_dir then (s, Ok tt) else
      match filter (fun p => try_exists s p = true) (legacy_data identity id) with
      | _ :: _ :: _ => (s, Err (InvalidConfig "multiple legacy Lib data directories require reconciliation"))
      | existing =>
          match create_dir_all s (removelast data_dir), existing with
          | (s, Err e), _ => (s, Err e)
          | (s, Ok _), source :: _ =>
              if is_real_dir s source then rename source data_dir s
              else (s, Err (InvalidConfig "legacy Lib data must be a real directory"))
          | (s, Ok _), [] => (s, Ok tt)
          end
      end
  end.
Definition real_or_absent (s : files) (p : path) : bool := match s p with None | Some RealDir => true | Some _ => false end.
Definition data_error : error := InvalidComponent "Lib data must be a real directory".
(** [compile]: the component engine. *)
Definition open_data (compile : Result unit) (s : files) (data_dir : path) : files * Result unit :=
  let parent := removelast data_dir in
  if negb (real_or_absent s parent && real_or_absent s data_dir) then (s, Err data_error) else
  match compile with
  | Err e => (s, Err e)
  | Ok _ =>
      match s parent with
      | None => (s, Err not_there)
      | Some RealDir =>
          match s data_dir with
          | Some RealDir => (s, Ok tt)
          | Some _ => (s, Err data_error)
          | None => (set_entry data_dir RealDir s, Ok tt)
          end
      | Some _ => (s, Err (InvalidComponent "Lib database root must be a real directory"))
      end
  end.
Definition load_data (compile : Result unit) (s : files) (data_dir : path) (id : string) : files * Result unit :=
  if bool_decide (data_dir = []) then (s, Err (InvalidComponent "Lib data has no parent")) else
  match adopt_legacy_data s data_dir id with
  | (s, Err e) => (s, Err e)
  | (s, Ok _) => open_data compile s data_dir
  end.
(** [.volume/std/{short}], [.volume/{short}] below the profile *)
Definition data_directory (id : string) : path :=
  if is_standard_author (first_segment "/" id) then [".volume"; "std"; short_name id] else [".volume"; short_name id].

(** ** Paths *)
Lemma below_path_Some p q rest : below_path p q = Some rest <-> q = p ++ rest.
Proof.
  revert q. induction p as [|x p IH]; intros [|y q]; cbn; [naive_solver..|].
  destruct (String.eqb_spec x y) as [->|Hne]; rewrite ?IH; naive_solver.
Qed.
Lemma below_path_app p rest : below_path p (p ++ rest) = Some rest.
Proof. by apply below_path_Some. Qed.
Lemma below_path_None p q : below_path p q = None <-> forall rest, q <> p ++ rest.
Proof.
  destruct (below_path p q) as [rest|] eqn:Hb.
  - apply below_path_Some in Hb as ->. split; [done|]. intros Hn. by destruct (Hn rest).
  - split; [|done]. intros _ rest ->. by rewrite below_path_app in Hb.
Qed.
(** Nothing is below what is not there. *)
Definition prefix_closed (s : files) : Prop := forall p rest e, s (p ++ rest) = Some e -> is_Some (s p).

(** ** Nothing is lost
    Every entry stays where it is, or is where its directory was moved to. *)
Definition relocated (source target : path) (s s' : files) : Prop :=
  forall p e, s p = Some e -> s' p = Some e \/ exists rest, p = source ++ rest /\ s' (target ++ rest) = Some e.
Definition extended (s s' : files) : Prop := forall p e, s p = Some e -> s' p = Some e.
Lemma renamed_relocated source target s :
  (forall rest, s (target ++ rest) = None) -> relocated source target s (renamed source target s).
Proof.
  intros Hnone p e Hp. unfold renamed. destruct (below_path target p) as [rest|] eqn:Ht.
  { apply below_path_Some in Ht as ->. by rewrite Hnone in Hp. }
  destruct (below_path source p) as [rest|] eqn:Hs; [|by left].
  apply below_path_Some in Hs as ->. right. exists rest. split; [done|]. by rewrite below_path_app.
Qed.
Lemma closed_below s p : prefix_closed s -> s p = None -> forall rest, s (p ++ rest) = None.
Proof. intros Hclosed Hp rest. destruct (s (p ++ rest)) eqn:Hr; [|done]. apply Hclosed in Hr as [x Hx]. congruence. Qed.
Lemma rename_Ok source target s s' : rename source target s = (s', Ok tt) -> s target = None /\ s' = renamed source target s.
Proof. unfold rename. destruct (s target); [done|]. by intros [= <-]. Qed.
Lemma set_entry_extended p e s : s p = None -> extended s (set_entry p e s).
Proof. intros Hp q x Hq. unfold set_entry. case_decide; [congruence|done]. Qed.
Lemma extended_refl s : extended s s.
Proof. by intros p e. Qed.
Lemma extended_trans s1 s2 s3 : extended s1 s2 -> extended s2 s3 -> extended s1 s3.
Proof. intros H12 H23 p e Hp. by apply H23, H12. Qed.
Lemma steps_extended {A} (f : files -> A -> files * Result unit) :
  (forall s x, extended s (fst (f s x))) -> forall l s, extended s (fst (steps f s l)).
Proof.
  intros Hf l. induction l as [|x l IH]; intros s; [by intros p e|]. cbn. pose proof (Hf s x) as Hx.
  destruct (f s x) as [s1 [u|e]]; [|done]. by eapply extended_trans, IH.
Qed.
(** Of two prefixes of a path one is a prefix of the other. *)
Lemma comparable p q r rest : p ++ rest = q ++ r -> below_path q p = None -> exists k, q = p ++ k /\ k <> [].
Proof.
  intros Heq Hn. apply app_eq_inv in Heq as [(k & -> & _)|(k & -> & _)]; [by rewrite below_path_app in Hn|].
  exists k. split; [done|]. intros ->. pose proof (below_path_app p []) as Hb. rewrite app_nil_r in Hb, Hn. congruence.
Qed.
Lemma renamed_closed source target s :
  prefix_closed s -> is_Some (s (removelast target)) -> below_path source target = None ->
  prefix_closed (renamed source target s).
Proof.
  intros Hclosed Hparent Hapart p rest e. unfold renamed.
  destruct (below_path target p) as [r1|] eqn:Htp.
  { apply below_path_Some in Htp as ->. rewrite <- app_assoc, below_path_app, app_assoc. apply Hclosed. }
  destruct (below_path target (p ++ rest)) as [r|] eqn:Ht.
  - apply below_path_Some in Ht. destruct (comparable _ _ _ _ Ht Htp) as (k & -> & Hk). intros Hs.
    destruct (below_path source p) as [r2|] eqn:Hsp.
    + apply below_path_Some in Hsp as ->. by rewrite <- app_assoc, below_path_app in Hapart.
    + rewrite removelast_app in Hparent by done. destruct Hparent as [x Hx]. by apply Hclosed in Hx.
  - destruct (below_path source p) as [r2|] eqn:Hsp.
    + apply below_path_Some in Hsp as ->. by rewrite <- app_assoc, below_path_app.
    + destruct (below_path source (p ++ rest)); [done|]. apply Hclosed.
Qed.

(** ** [initialize_directories] keeps everything *)
Lemma move_legacy_root_cases s o n :
  move_legacy_root s (o, n) = (renamed [o] [n] s, Ok tt) /\ is_real_dir s [o] = true /\ s [n] = None
  \/ fst (move_legacy_root s (o, n)) = s
     /\ (snd (move_legacy_root s (o, n)) = Ok tt -> try_exists s [o] = false).
Proof.
  unfold move_legacy_root. destruct (try_exists s [o]); [|by right]. cbn.
  destruct (is_real_dir s [o]); [|by right]. cbn. destruct (try_exists s [n]); [by right|].
  unfold rename. destruct (s [n]); [by right|by left].
Qed.
(** What moving the directories [l] does with the files. *)
Definition moved_by (l : list (string * string)) (s s' : files) : Prop :=
  forall p e, s p = Some e ->
    s' p = Some e \/ exists o n rest, (o, n) ∈ l /\ p = o :: rest /\ s' (n :: rest) = Some e.
Definition apart (l : list (string * string)) : Prop := forall o n, (o, n) ∈ l -> n ∉ map fst l.
Lemma moves_keep l : apart l -> forall s, prefix_closed s -> moved_by l s (fst (steps move_legacy_root s l)).
Proof.
  induction l as [|[o n] l IH]; intros Hapart s Hclosed; [by left|]. cbn [steps].
  assert (Hl : apart l) by (intros o' n' Hin Hn; apply (Hapart o' n'); set_solver).
  destruct (move_legacy_root_cases s o n) as [(-> & Hdir & Hn)|[Hs _]].
  - assert (Hon : o <> n) by (intros ->; apply (Hapart n n); set_solver).
    assert (Hc1 : prefix_closed (renamed [o] [n] s)).
    { apply renamed_closed; [done| |cbn; by destruct (String.eqb_spec o n)].
      unfold is_real_dir in Hdir. destruct (s [o]) eqn:Ho; [|done]. by apply (Hclosed [] [o] e). }
    intros p e Hp. destruct (renamed_relocated [o] [n] s (closed_below _ _ Hclosed Hn) p e Hp) as [H1|(rest & -> & H1)].
    + destruct (IH Hl _ Hc1 p e H1) as [?|(o' & n' & r & Hin & ? & ?)]; [by left|]. right. exists o', n', r. set_solver.
    + destruct (IH Hl _ Hc1 _ e H1) as [?|(o' & n' & r & Hin & [= -> ->] & ?)].
      * right. exists o, n, rest. set_solver.
      * exfalso. apply (Hapart o o'); [set_solver|]. cbn. apply elem_of_cons. right.
        change o' with (fst (o', n')). by apply list_elem_of_fmap_2.
  - destruct (move_legacy_root s (o, n)) as [s1 [[]|e1]]; cbn in Hs; subst s1; [|by left].
    intros p e Hp. destruct (IH Hl s Hclosed p e Hp) as [?|(o' & n' & r & Hin & ? & ?)]; [by left|].
    right. exists o', n', r. set_solver.
Qed.
Lemma create_extended s d : extended s (fst (create_layout_directory s d)).
Proof.
  unfold create_layout_directory. destruct (s d) as [[]|] eqn:Hd; try apply extended_refl.
  case_match; [by apply set_entry_extended|apply extended_refl].
Qed.
Lemma copy_extended backup s x : extended s (fst (copy_legacy_database backup s x)).
Proof.
  destruct x as [a b]. unfold copy_legacy_database. case_match; [apply extended_refl|].
  destruct (s a) as [[| | |]|]; try apply extended_refl. destruct (backup _); [|apply extended_refl].
  destruct (s b) eqn:Hb; [apply extended_refl|by apply set_entry_extended].
Qed.
Lemma layout_extended backup s :
  extended (fst (steps move_legacy_root s LEGACY_ROOTS)) (fst (initialize_layout backup s)).
Proof.
  unfold initialize_layout.
  destruct (steps move_legacy_root s LEGACY_ROOTS) as [s1 [[]|e]]; [|apply extended_refl]. cbn [fst].
  pose proof (steps_extended _ create_extended LAYOUT s1) as H1.
  destruct (steps create_layout_directory s1 LAYOUT) as [s2 [[]|e]]; [|done]. cbn [fst] in H1.
  eapply extended_trans; [exact H1|]. apply steps_extended, copy_extended.
Qed.
Lemma legacy_roots_apart : apart LEGACY_ROOTS.
Proof. intros o n Hin. unfold LEGACY_ROOTS in *. set_solver. Qed.

Lemma initialize_layout_moves backup s :
  prefix_closed s -> moved_by LEGACY_ROOTS s (fst (initialize_layout backup s)).
Proof.
  intros Hclosed p e Hp. pose proof (layout_extended backup s) as Hext.
  destruct (moves_keep _ legacy_roots_apart s Hclosed p e Hp) as [H1|(o & n & rest & Hin & -> & H1)].
  - left. by apply Hext.
  - right. exists o, n, rest. split; [done|]. split; [done|]. by apply Hext.
Qed.

(** ** A second start finds everything in place *)
Lemma steps_stay {A} (f : files -> A -> files * Result unit) l s :
  (forall x, x ∈ l -> f s x = (s, Ok tt)) -> steps f s l = (s, Ok tt).
Proof. induction l as [|x l IH]; intros Hf; [done|]. cbn. rewrite Hf by set_solver. apply IH. set_solver. Qed.
(** What every step establishes and no other step undoes holds of the result for every element. *)
Lemma steps_establish {A} (f : files -> A -> files * Result unit) (P : A -> files -> Prop) l :
  (forall x s s', x ∈ l -> f s x = (s', Ok tt) -> P x s' /\ forall y, y ∈ l -> P y s -> P y s') ->
  forall s s', steps f s l = (s', Ok tt) -> (forall x, x ∈ l -> P x s') /\ forall (Q : files -> Prop),
    (forall x s s', x ∈ l -> f s x = (s', Ok tt) -> Q s -> Q s') -> Q s -> Q s'.
Proof.
  intros Hf. assert (Hgen : forall k, (forall x, x ∈ k -> x ∈ l) -> forall s s', steps f s k = (s', Ok tt) ->
    (forall x, x ∈ k -> P x s') /\ forall (Q : files -> Prop),
      (forall x s s', x ∈ l -> f s x = (s', Ok tt) -> Q s -> Q s') -> Q s -> Q s').
  { induction k as [|x k IH]; intros Hk s s'; cbn; [intros [= <-]; set_solver|].
    destruct (f s x) as [s1 [[]|e]] eqn:Hx; [|done]. intros Hs.
    destruct (IH (fun y Hy => Hk y (list_elem_of_further _ _ _ Hy)) _ _ Hs) as [IH1 IH2].
    assert (Hxl : x ∈ l) by (apply Hk; set_solver). destruct (Hf _ _ _ Hxl Hx) as [Hpx _]. split.
    - intros y [->|Hy]%elem_of_cons; [|by apply IH1].
      apply (IH2 (P x)); [|done]. intros z t t' Hz Ht. by apply (Hf z t t' Hz Ht).
    - intros Q HQ Hs0. apply IH2; [done|]. by eapply HQ. }
  intros s s'. by apply Hgen.
Qed.
Definition copied (x : path * path) (s : files) : Prop := try_exists s (snd x) || negb (try_exists s (fst x)) = true.
(** What a start leaves behind. *)
Definition settled (s : files) : Prop :=
  (forall x, x ∈ LEGACY_ROOTS -> try_exists s [fst x] = false)
  /\ (forall d, d ∈ LAYOUT -> s d = Some RealDir)
  /\ (forall x, x ∈ LEGACY_DATABASES -> copied x s).
Lemma try_exists_ext s s' p : s' p = s p -> try_exists s' p = try_exists s p.
Proof. unfold try_exists. by intros ->. Qed.
Lemma set_entry_ne p e s q : q <> p -> set_entry p e s q = s q.
Proof. unfold set_entry. by case_decide. Qed.
Lemma set_entry_eq p e s : set_entry p e s p = Some e.
Proof. unfold set_entry. by case_decide. Qed.
Lemma create_Ok s d s' : create_layout_directory s d = (s', Ok tt) ->
  s' d = Some RealDir /\ forall q, q <> d -> s' q = s q.
Proof.
  unfold create_layout_directory. destruct (s d) as [[]|] eqn:Hd; [|done..|]; [by intros [= <-]|].
  case_match; [|done]. intros [= <-]. split; [by rewrite set_entry_eq|]. intros. by rewrite set_entry_ne.
Qed.
Lemma copy_Ok backup s a b s' : copy_legacy_database backup s (a, b) = (s', Ok tt) ->
  s' = s /\ copied (a, b) s \/ s b = None /\ exists bytes, s' = set_entry b (PlainFile bytes) s.
Proof.
  unfold copy_legacy_database, copied. cbn. case_match eqn:Hc; [intros [= <-]; by left|].
  destruct (s a) as [[| | |]|]; try done. destruct (backup _); [|done].
  destruct (s b) eqn:Hb; [done|]. intros [= <-]. right. eauto.
Qed.
Lemma moves_settle s s' : steps move_legacy_root s LEGACY_ROOTS = (s', Ok tt) ->
  forall x, x ∈ LEGACY_ROOTS -> try_exists s' [fst x] = false.
Proof.
  apply (steps_establish move_legacy_root (fun x s => try_exists s [fst x] = false)).
  intros [o n] s1 s2 Hin Hm. destruct (move_legacy_root_cases s1 o n) as [(Heq & _ & _)|[Hs Hno]]; rewrite Hm in *.
  - injection Heq as ->. assert (Ht : forall o', o' <> n -> renamed [o] [n] s1 [o'] = if String.eqb o o' then None else s1 [o']).
    { intros o' Ho. unfold renamed. cbn. destruct (String.eqb_spec n o'); [congruence|]. by destruct (String.eqb o o'). }
    split; cbn.
    + unfold try_exists. rewrite Ht, String.eqb_refl; [done|]. intros ->. apply (legacy_roots_apart n n Hin). unfold LEGACY_ROOTS in *. set_solver.
    + intros [o' n'] Hy Hk. cbn in *. unfold try_exists. rewrite Ht; [by destruct (String.eqb o o')|].
      intros ->. apply (legacy_roots_apart o n Hin). change n with (fst (n, n')). by apply list_elem_of_fmap_2.
  - cbn in Hs. subst s2. auto.
Qed.
Lemma creates_settle s s' : steps create_layout_directory s LAYOUT = (s', Ok tt) ->
  (forall d, d ∈ LAYOUT -> s' d = Some RealDir) /\ forall q, q ∉ LAYOUT -> s' q = s q.
Proof.
  intros Hs. destruct (steps_establish create_layout_directory (fun d s => s d = Some RealDir) LAYOUT) with (s := s) (s' := s') as [H1 H2]; [|done|].
  - intros d t t' _ Hd. apply create_Ok in Hd as [Hd Hq]. split; [done|]. intros e _ He.
    destruct (decide (e = d)) as [->|Hne]; [done|]. by rewrite Hq.
  - split; [done|]. intros q Hq. apply (H2 (fun t => t q = s q)); [|done].
    intros d t t' Hin Hd Ht. apply create_Ok in Hd as [_ Hd]. rewrite Hd; [done|]. by intros ->.
Qed.
Lemma copies_settle backup s s' : steps (copy_legacy_database backup) s LEGACY_DATABASES = (s', Ok tt) ->
  (forall x, x ∈ LEGACY_DATABASES -> copied x s') /\ forall q, q ∉ map snd LEGACY_DATABASES -> s' q = s q.
Proof.
  intros Hs. destruct (steps_establish (copy_legacy_database backup) copied LEGACY_DATABASES) with (s := s) (s' := s') as [H1 H2]; [|done|].
  - intros [a b] t t' Hin Hd. apply copy_Ok in Hd as [[-> Hc]|[Hb [bytes ->]]]; [by split|]. split.
    { unfold copied, try_exists. cbn. by rewrite set_entry_eq. }
    intros [a' b'] Hin' [He|Ha]%orb_true_iff; unfold copied; cbn in *; apply orb_true_iff.
    + left. unfold try_exists in *. destruct (decide (b' = b)) as [->|]; [by rewrite set_entry_eq|by rewrite set_entry_ne].
    + right. rewrite (try_exists_ext t); [done|]. apply set_entry_ne. intros ->. unfold LEGACY_DATABASES in *. set_solver.
  - split; [done|]. intros q Hq. apply (H2 (fun t => t q = s q)); [|done].
    intros [a b] t t' Hin Hd Ht. apply copy_Ok in Hd as [[-> _]|[_ [bytes ->]]]; [done|].
    rewrite set_entry_ne; [done|]. intros ->. apply Hq. change b with (snd (a, b)). by apply list_elem_of_fmap_2.
Qed.
Lemma settled_stays backup s : settled s -> initialize_layout backup s = (s, Ok tt).
Proof.
  intros (Hm & Hc & Hd). unfold initialize_layout.
  rewrite steps_stay; [|intros [o n] Hin; unfold move_legacy_root; specialize (Hm _ Hin); cbn in Hm; by rewrite Hm].
  rewrite steps_stay; [|intros d Hin; unfold create_layout_directory; by rewrite (Hc d Hin)].
  apply steps_stay. intros [a b] Hin. unfold copy_legacy_database. specialize (Hd _ Hin). unfold copied in Hd. cbn in Hd. by rewrite Hd.
Qed.
Lemma initialize_layout_settled backup s s' : initialize_layout backup s = (s', Ok tt) -> settled s'.
Proof.
  unfold initialize_layout. destruct (steps move_legacy_root s _) as [s1 [[]|]] eqn:Hm; [|done].
  destruct (steps create_layout_directory s1 _) as [s2 [[]|]] eqn:Hc; [|done]. intros Hd.
  pose proof (moves_settle _ _ Hm) as Hm'. apply creates_settle in Hc as [Hc Hc']. apply copies_settle in Hd as [Hd Hd'].
  split; [|split; [|done]].
  - intros x Hin. rewrite <- (Hm' x Hin). apply try_exists_ext.
    rewrite Hd', Hc'; [done|..]; unfold LEGACY_ROOTS, LAYOUT, LEGACY_DATABASES in *; set_solver.
  - intros d Hin. rewrite Hd'; [by apply Hc|]. unfold LAYOUT, LEGACY_DATABASES in *. set_solver.
Qed.

(** Starting the server of an identity loses nothing, whatever goes wrong on the way: every directory,
    file and link stays where it is or is at the same place below the new name of its moved root. When
    it succeeds, the old roots are gone, all directories of the layout exist as real directories, old
    databases are copied, and a second start changes nothing. *)
Theorem initialize_layout_keeps backup s s' r :
  prefix_closed s -> initialize_layout backup s = (s', r) ->
  moved_by LEGACY_ROOTS s s' /\ (r = Ok tt -> settled s' /\ initialize_layout backup s' = (s', Ok tt)).
Proof.
  intros Hclosed Hs. pose proof (initialize_layout_moves backup s Hclosed) as Hm. rewrite Hs in Hm. split; [done|].
  intros ->. apply initialize_layout_settled in Hs. split; [done|]. by apply settled_stays.
Qed.

(** ** Loading a Lib keeps its data *)
Lemma create_missing_extended s p : extended s (fst (create_missing s p)).
Proof.
  unfold create_missing. destruct (s p) as [[| |[[]|]|]|] eqn:Hp; try apply extended_refl. by apply set_entry_extended.
Qed.
Lemma create_missing_other l s q : q ∉ l -> fst (steps create_missing s l) q = s q.
Proof.
  revert s. induction l as [|p l IH]; intros s Hq; [done|]. cbn.
  assert (Hp : fst (create_missing s p) q = s q).
  { unfold create_missing. destruct (s p) as [[| |[[]|]|]|]; try done. cbn. apply set_entry_ne. set_solver. }
  destruct (create_missing s p) as [s1 [[]|e]]; [|done]. cbn in Hp. rewrite <- Hp. apply IH. set_solver.
Qed.
Lemma prefixes_length p q : q ∈ prefixes p -> (length q <= length p)%nat.
Proof. unfold prefixes. intros (n & -> & _)%list_elem_of_fmap. rewrite length_take. lia. Qed.
(** Every entry stays, or was below an older data directory and is now at the same place below the new one. *)
Definition data_kept (data_dir : path) (id : string) (s s' : files) : Prop :=
  forall p e, s p = Some e ->
    s' p = Some e \/ exists identity source rest, volume_parent (rev data_dir) = Some identity
      /\ source ∈ legacy_data identity id /\ p = source ++ rest /\ s' (data_dir ++ rest) = Some e.
Lemma data_kept_refl d id s : data_kept d id s s.
Proof. by left. Qed.
Lemma data_kept_extended d id s s1 s2 : data_kept d id s s1 -> extended s1 s2 -> data_kept d id s s2.
Proof.
  intros Hk Hext p e Hp. destruct (Hk p e Hp) as [H1|(i & src & rest & ? & ? & ? & H1)]; [left; by apply Hext|].
  right. exists i, src, rest. by repeat (split; [done|]); apply Hext.
Qed.
Lemma adopt_keeps s d id : prefix_closed s -> d <> [] -> data_kept d id s (fst (adopt_legacy_data s d id)).
Proof.
  intros Hclosed Hne. unfold adopt_legacy_data. destruct (volume_parent (rev d)) as [identity|] eqn:Hv; [|apply data_kept_refl].
  destruct (try_exists s d) eqn:Hd; [apply data_kept_refl|].
  destruct (filter _ _) as [|source [|]] eqn:Hf; [| |apply data_kept_refl]; unfold create_dir_all;
    pose proof (steps_extended _ create_missing_extended (prefixes (removelast d)) s) as Hext;
    pose proof (create_missing_other (prefixes (removelast d)) s) as Hother.
  - destruct (steps _ _ _) as [s1 [[]|e]]; eapply data_kept_extended; eauto using data_kept_refl.
  - destruct (steps _ _ _) as [s1 [[]|e]]; cbn [fst] in *; [|eapply data_kept_extended; eauto using data_kept_refl].
    destruct (is_real_dir s1 source); [|eapply data_kept_extended; eauto using data_kept_refl].
    assert (Hbelow : forall rest, s1 (d ++ rest) = s (d ++ rest)).
    { intros rest. apply Hother. intros Hin%prefixes_length. rewrite length_app in Hin.
      destruct (exists_last Hne) as (d' & x & ->). rewrite removelast_last, length_app in Hin. cbn in Hin. lia. }
    unfold rename. destruct (s1 d) as [x|] eqn:Hd1; [eapply data_kept_extended; eauto using data_kept_refl|]. cbn.
    intros p e Hp. destruct (renamed_relocated source d s1) with (p := p) (e := e) as [?|(rest & -> & ?)]; [|by apply Hext|by left|].
    + intros rest. rewrite Hbelow. apply closed_below; [done|]. rewrite <- Hd1. pose proof (Hbelow []) as Hb. by rewrite app_nil_r in Hb.
    + right. exists identity, source, rest. repeat (split; [done|]). split; [|done].
      assert (Hin : source ∈ filter (fun p => try_exists s p = true) (legacy_data identity id)) by (rewrite Hf; set_solver).
      by apply list_elem_of_filter in Hin as [_ Hin].
Qed.
Lemma open_data_cases compile s d :
  extended s (fst (open_data compile s d))
  /\ (snd (open_data compile s d) = Ok tt ->
        fst (open_data compile s d) d = Some RealDir
        /\ open_data (Ok tt) (fst (open_data compile s d)) d = (fst (open_data compile s d), Ok tt)).
Proof.
  unfold open_data. destruct (real_or_absent s (removelast d)) eqn:Hp; [|split; [apply extended_refl|done]]. cbn [andb negb].
  destruct (real_or_absent s d) eqn:Hd; [|split; [apply extended_refl|done]]. cbn [andb negb].
  destruct compile; [|split; [apply extended_refl|done]].
  destruct (s (removelast d)) as [[| | |]|] eqn:Hp'; try (split; [apply extended_refl|done]).
  destruct (s d) as [[| | |]|] eqn:Hd'; try (split; [apply extended_refl|done]).
  - split; [apply extended_refl|]. intros _. split; [done|]. cbn. by rewrite Hp, Hd, Hp', Hd'.
  - split; [by apply set_entry_extended|]. intros _. cbn. rewrite set_entry_eq. split; [done|].
    unfold real_or_absent. rewrite set_entry_eq, set_entry_ne, Hp' by congruence. done.
Qed.
Lemma adopt_again s d id : s d = Some RealDir -> adopt_legacy_data s d id = (s, Ok tt).
Proof. intros Hd. unfold adopt_legacy_data, try_exists. rewrite Hd. by destruct (volume_parent _). Qed.

(** Loading a Lib loses nothing of its data: whatever goes wrong, every entry stays or, when it was
    below the one older data directory of that Lib, is at the same place in the new directory. When it
    succeeds the data directory is a real directory and loading again changes nothing. *)
Theorem load_data_keeps compile s d id s' r :
  prefix_closed s -> load_data compile s d id = (s', r) ->
  data_kept d id s s' /\ (r = Ok tt -> s' d = Some RealDir /\ load_data (Ok tt) s' d id = (s', Ok tt)).
Proof.
  intros Hclosed. unfold load_data. case_bool_decide as Hne; [intros [= <- <-]; split; [apply data_kept_refl|done]|].
  pose proof (adopt_keeps s d id Hclosed Hne) as Hk. destruct (adopt_legacy_data s d id) as [s1 [[]|e]]; cbn [fst] in Hk;
    [|intros [= <- <-]; by split].
  pose proof (open_data_cases compile s1 d) as [Hext Hok]. intros Ho. rewrite Ho in *. cbn [fst snd] in *.
  split; [by eapply data_kept_extended|]. intros Hr. destruct (Hok Hr) as [Hd Hagain]. split; [done|].
  by rewrite adopt_again.
Qed.
(** Two older data directories are left alone. *)
Theorem load_data_ambiguous compile s d id identity a b :
  volume_parent (rev d) = Some identity -> try_exists s d = false ->
  legacy_data identity id = [a; b] -> try_exists s a = true -> try_exists s b = true ->
  load_data compile s d id = (s, Err (InvalidConfig "multiple legacy Lib data directories require reconciliation")).
Proof.
  intros Hv Hd Hl Ha Hb. unfold load_data. case_bool_decide as Hne; [by subst|].
  unfold adopt_legacy_data. rewrite Hv, Hd, Hl. cbn. by rewrite !decide_True.
Qed.

(** ** Files from a list *)
Fixpoint tree (l : list (path * entry)) : files :=
  match l with
  | [] => fun _ => None
  | (p, e) :: l => set_entry p e (tree l)
  end.
Definition closed_list (l : list (path * entry)) : bool :=
  forallb (fun x => forallb (fun n => bool_decide (is_Some (tree l (take n (fst x))))) (seq 0 (length (fst x)))) l.
Lemma tree_Some l p e : tree l p = Some e -> exists x, x ∈ l /\ fst x = p.
Proof.
  induction l as [|[q f] l IH]; [done|]. cbn. unfold set_entry. case_decide as Hp; [intros _; exists (q, f); set_solver|].
  intros (x & Hx & <-)%IH. exists x. set_solver.
Qed.
Lemma tree_closed l : closed_list l = true -> prefix_closed (tree l).
Proof.
  intros Hl p rest e Hp. destruct rest as [|y rest]; [rewrite app_nil_r in Hp; eauto|].
  destruct (tree_Some _ _ _ Hp) as (x & Hx & Heq). unfold closed_list in Hl. rewrite forallb_forall in Hl.
  apply list_elem_of_In in Hx. specialize (Hl x Hx). rewrite forallb_forall in Hl.
  specialize (Hl (length p)). rewrite Heq, take_app_length in Hl. change (is_Some (tree l p)). eapply bool_decide_eq_true, Hl.
  apply in_seq. rewrite length_app. cbn. lia.
Qed.
