(* ===== verification/AppFiles.v ===== *)
(** * Static files ([src/package/files.rs] [app_file], [src/sandbox.rs]
      [app_response], [src/routes.rs] [static_file])

    The pages of an installed App, opened one path component at a time below
    its directory, and the identity's own files.  The directory of an App is a
    tree; the identity's file directory is what [cap_std] answers. *)
From S2P Require Import Prelude RustStr Crates Errors.

(** ** Opening a file of an App *)
(** A real directory or regular file with its device; anything else (a
    symbolic link, a socket) cannot be opened. *)
Inductive node :=
| Folder (device : Z) (children : list (string * node))
| RegularFile (device : Z) (bytes : string)
| Unopenable.
Fixpoint child (name : string) (children : list (string * node)) : option node :=
  match children with
  | [] => None
  | (n, c) :: children => if String.eqb name n then Some c else child name children
  end.
Definition nul : string := String "000" "".
(** A component that may not be part of a path. *)
Definition bad_part (part : string) : bool :=
  String.eqb part "" || mem part ["."; ".."; ".transaction.json"; ".previous"]
  || contains_any ["\"; "000"]%char part.
Fixpoint open_parts (device : Z) (directory : node) (parts : list string) : Result string :=
  match parts with
  | [] => Err RouteNotFound
  | part :: rest =>
      throw RouteNotFound when bad_part part;;
      let entry := match directory with Folder _ children => child part children | _ => None end in
      match rest, entry with
      | [], Some (RegularFile d bytes) => if d =? device then Ok bytes else Err RouteNotFound
      | _ :: _, Some (Folder d children) =>
          if d =? device then open_parts device (Folder d children) rest else Err RouteNotFound
      | _, _ => Err RouteNotFound
      end
  end.
Definition app_file (root : node) (path : string) : Result string :=
  match root with
  | Folder device _ => open_parts device root (split_on "/" path)
  | _ => Err RouteNotFound
  end.

(** ** Answers *)
Record page_rq := PageRq {
  pg_method : string; pg_path : string; pg_query : option string;
  pg_fetch_dest : option string             (* sec-fetch-dest, if it is text *)
}.
(** A page names the file its content type is guessed from; a HEAD has its
    length and no body. *)
Inductive page :=
| PageMethods (allow : string)              (* 405 *)
| PageRedirect (location : string)          (* 307 *)
| Page (file : string) (length : Z) (body : option string).

Section app_response.
Context `{UrlCrates}.

(** What is shown for a path that is not a file: the App itself, unless an
    asset was asked for. *)
Definition asset_path (suffix : string) (fetch_dest : option string) : bool :=
  starts_with "/assets/" suffix || starts_with "/static/" suffix || mem suffix ["/assets"; "/static"]
  || contains_char "." (last_segment "/" (trim_end_matches "/" suffix))
  || match fetch_dest with Some value => negb (mem value ["document"; "iframe"; "empty"]) | None => false end.
Definition decoded_suffix (suffix : string) : Result string :=
  let? suffix := ok_or RouteNotFound (percent_decode_utf8 suffix) in
  throw RouteNotFound when
    contains_any ["\"; "000"; "%"]%char suffix
    || existsb (fun part => mem part ["."; ".."]) (split_on "/" suffix)
    || existsb is_control (chars suffix);;
  Ok suffix.
Definition page_file (suffix : string) : string :=
  if String.eqb suffix "/" then "index.html" else trim_start_matches "/" suffix.
Definition app_response (root : node) (suffix : string) (rq : page_rq) : Result page :=
  if negb (mem (pg_method rq) ["GET"; "HEAD"]) then Ok (PageMethods "GET, HEAD") else
  if String.eqb suffix "" then
    Ok (PageRedirect (match pg_query rq with
                      | Some query => pg_path rq +:+ "/?" +:+ query
                      | None => pg_path rq +:+ "/"
                      end)) else
  let? suffix := decoded_suffix suffix in
  let file := page_file suffix in
  let? (file, bytes) :=
    match app_file root file with
    | Ok bytes => Ok (file, bytes)
    | Err _ =>
        throw RouteNotFound when asset_path suffix (pg_fetch_dest rq);;
        let? bytes := app_file root "index.html" in
        Ok ("index.html", bytes)
    end in
  Ok (Page file (slen bytes) (if String.eqb (pg_method rq) "HEAD" then None else Some bytes)).

(** ** [static_file] *)
(** The directory of the identity: opening it, whether a path is a directory,
    and opening a path: a regular file or something else. *)
Variable open_root : bool.
Variable is_directory : string -> bool.
Variable open_path : string -> option (option string).
(** [PathBuf::push("index.html")] *)
Definition push_index (path : string) : string :=
  if String.eqb path "" then "index.html"
  else if ends_with "/" path then path +:+ "index.html" else path +:+ "/index.html".
Definition static_file (rq : page_rq) : Result page :=
  throw MethodNotAllowed when negb (mem (pg_method rq) ["GET"; "HEAD"]);;
  let? path := ok_or RouteNotFound (strip_prefix "/std/file/" (pg_path rq)) in
  throw RouteNotFound when String.eqb path "";;
  let? decoded := ok_or (BadRequest "invalid path encoding") (percent_decode_utf8 path) in
  throw RouteNotFound when
    contains_any ["\"; "000"]%char decoded || existsb (fun p => mem p [".."; "."]) (split_on "/" decoded);;
  let path := trim_start_matches "/" decoded in
  throw RouteNotFound when negb open_root;;
  let path := if String.eqb path "" || is_directory path then push_index path else path in
  let? opened := ok_or RouteNotFound (open_path path) in
  let? bytes := ok_or RouteNotFound opened in
  Ok (Page path (slen bytes) (if String.eqb (pg_method rq) "HEAD" then None else Some bytes)).
End app_response.

(** ** Properties *)
(** A file of the tree under its components, all on one device. *)
Inductive file_at (device : Z) : node -> list string -> string -> Prop :=
| file_here children name bytes :
    child name children = Some (RegularFile device bytes) -> file_at device (Folder device children) [name] bytes
| file_below children name children' path bytes :
    child name children = Some (Folder device children') -> file_at device (Folder device children') path bytes ->
    file_at device (Folder device children) (name :: path) bytes.

Lemma open_parts_Ok device children parts bytes :
  open_parts device (Folder device children) parts = Ok bytes ->
  file_at device (Folder device children) parts bytes /\ Forall (fun part => bad_part part = false) parts.
Proof.
  revert children. induction parts as [|part rest IH]; intros children Ho; cbn [open_parts] in Ho; [done|].
  destruct (bad_part part) eqn:Hb; [done|]. destruct rest as [|next rest].
  - destruct (child part children) as [[| d b|]|] eqn:Hc; try done. destruct (Z.eqb_spec d device) as [->|]; [|done].
    injection Ho as ->. split; [by constructor|by repeat constructor].
  - destruct (child part children) as [[d c| |]|] eqn:Hc; try done. destruct (Z.eqb_spec d device) as [->|]; [|done].
    apply IH in Ho as [Hf Hp]. split; [by eapply file_below|by constructor].
Qed.
(** Exactly the files below the directory can be opened, by paths of plain
    components. *)
Lemma open_parts_complete device root parts bytes :
  file_at device root parts bytes -> Forall (fun part => bad_part part = false) parts ->
  open_parts device root parts = Ok bytes.
Proof.
  induction 1 as [children name b Hc|children name children' path b Hc Hf IH]; intros Hp;
    apply Forall_cons in Hp as [Hn Hp]; cbn [open_parts]; rewrite Hn, Hc.
  - by rewrite Z.eqb_refl.
  - destruct path as [|next rest]; [inversion Hf|]. rewrite Z.eqb_refl. by apply IH.
Qed.
Lemma app_file_iff device children path bytes :
  app_file (Folder device children) path = Ok bytes <->
  file_at device (Folder device children) (split_on "/" path) bytes /\
  Forall (fun part => bad_part part = false) (split_on "/" path).
Proof.
  split; [apply open_parts_Ok|]. intros [Hf Hp]. by apply open_parts_complete.
Qed.

Lemma trim_start_segments c s x : x ∈ split_on c (trim_start_matches c s) -> x ∈ split_on c s.
Proof.
  induction s as [|a s IH]; cbn [trim_start_matches]; [done|].
  destruct (Ascii.eqb_spec c a) as [->|Hne]; [|done]. intros Hx. rewrite split_on_cons_sep. right. by apply IH.
Qed.
Lemma push_index_segments path x :
  x ∈ split_on "/" (push_index path) -> x ∈ split_on "/" path \/ x = "index.html".
Proof.
  unfold push_index. destruct (String.eqb_spec path "") as [->|Hne].
  { intros Hx. right. by apply list_elem_of_singleton in Hx. }
  destruct (ends_with "/" path) eqn:He.
  - apply ends_with_iff in He as (r & ->). rewrite app_assoc_str. change ("/" +:+ "index.html") with (String "/" "index.html").
    rewrite split_on_join, (split_on_join "/" r ""). rewrite !elem_of_app. intros [?|?%list_elem_of_singleton]; [left; by left|by right].
  - change (path +:+ "/index.html") with (path +:+ String "/" "index.html"). rewrite split_on_join, elem_of_app.
    intros [?|?%list_elem_of_singleton]; [by left|by right].
Qed.

Lemma push_index_relative path : starts_with "/" path = false -> starts_with "/" (push_index path) = false.
Proof.
  unfold push_index. destruct path as [|a path]; [done|]. cbn [String.eqb]. intros Hs.
  destruct (ends_with "/" (String a path)); unfold starts_with in *; cbn [strip_prefix String.append] in *;
    destruct ("/" =? a)%char; done.
Qed.
Lemma get_or_head method : mem method ["GET"; "HEAD"] = true -> method = "GET" \/ method = "HEAD".
Proof. intros [?|?%list_elem_of_singleton]%mem_true%elem_of_cons; auto. Qed.

Section page_facts.
Context `{UrlCrates}.

(** C22: A page of an App is a regular file reached through real directories of one device below the
    App's directory, never through a dot, hidden transaction or back-slash component, and is the file
    asked for or the index page when no asset was asked for; its length and body are the file's. *)
Theorem app_response_contained device children suffix rq file length body :
  app_response (Folder device children) suffix rq = Ok (Page file length body) ->
  (pg_method rq = "GET" \/ pg_method rq = "HEAD") /\
  (exists bytes, file_at device (Folder device children) (split_on "/" file) bytes /\
     Forall (fun part => bad_part part = false) (split_on "/" file) /\ length = slen bytes /\
     body = (if String.eqb (pg_method rq) "HEAD" then None else Some bytes)) /\
  exists decoded, percent_decode_utf8 suffix = Some decoded /\
    (file = page_file decoded \/
     (file = "index.html" /\ is_ok (app_file (Folder device children) (page_file decoded)) = false /\
      asset_path decoded (pg_fetch_dest rq) = false)).
Proof.
  unfold app_response. destruct (mem (pg_method rq) _) eqn:Hm; cbn [negb]; [|done].
  destruct (String.eqb suffix ""); [done|]. intros Ha. simplify_ok.
  match goal with Hd : decoded_suffix _ = Ok ?d |- _ => rename d into decoded; unfold decoded_suffix in Hd end.
  simplify_ok. split.
  { by apply get_or_head. }
  destruct (app_file (Folder device children) (page_file decoded)) as [b|e] eqn:Hf; simplify_ok.
  - split; [exists b; by apply app_file_iff in Hf as [? ?]|]. eexists. split; [done|]. by left.
  - match goal with Hi : app_file _ "index.html" = Ok ?b |- _ => split; [exists b; by apply app_file_iff in Hi as [? ?]|] end.
    eexists. split; [done|]. right. by rewrite Hf.
Qed.

(** A file of the identity is answered only for GET and HEAD below /std/file/, relative to its directory
    and without dot components, and is the one the directory opens under that path. *)
Theorem static_file_contained open_root is_directory open_path rq file length body :
  static_file open_root is_directory open_path rq = Ok (Page file length body) ->
  (pg_method rq = "GET" \/ pg_method rq = "HEAD") /\ starts_with "/std/file/" (pg_path rq) = true /\
  starts_with "/" file = false /\
  Forall (fun part => part <> "." /\ part <> "..") (split_on "/" file) /\
  exists bytes, open_path file = Some (Some bytes) /\ length = slen bytes /\
    body = (if String.eqb (pg_method rq) "HEAD" then None else Some bytes).
Proof.
  unfold static_file. intros Hs. simplify_ok. simplify_bool.
  match goal with Hd : percent_decode_utf8 _ = Some ?d |- _ => rename d into decoded end.
  match goal with He : existsb _ (split_on "/" decoded) = false |- _ => rename He into Hparts end.
  set (path := trim_start_matches "/" decoded) in *.
  assert (Forall (fun part => part <> "." /\ part <> "..") (split_on "/" path)) as Hclean.
  { apply Forall_forall. intros x Hx%trim_start_segments. apply negb_existsb in Hparts.
    rewrite Forall_forall in Hparts. specialize (Hparts x Hx). apply mem_false in Hparts. split; intros ->; apply Hparts; [right; left|left]. }
  assert (starts_with "/" path = false) as Hrel by apply trim_start_clean.
  split; [by apply get_or_head|]. split; [|split; [|split]].
  - apply starts_with_iff. eexists. by apply strip_prefix_Some.
  - destruct (_ || _); [by apply push_index_relative|done].
  - destruct (_ || _); [|done]. apply Forall_forall. intros x [Hx| ->]%push_index_segments; [|done].
    rewrite Forall_forall in Hclean. by apply Hclean.
  - eauto.
Qed.
End page_facts.
