(* ===== verification/Routing.v ===== *)
(** * Which handler serves a request ([src/server.rs] [native_router],
      [current_router], [src/sandbox.rs] [api_router], [src/development.rs])

    Routes are matched by path: the native services, the loaded Libs and Apps,
    the proxy locations, and before them the owner's local projects.  A route
    with a wildcard needs at least one character in its place. *)
From S2P Require Import Prelude RustStr Decimal Json Crates Errors Ids Manifest Metadata Registry Commit Install.
From S2P Require Import Capabilities Setup Proxy Outbound AppFiles.

(** ** Native services, Libs and Apps *)
Inductive destination :=
| ToNative
| ToLib (id path : string)          (* the Lib and the path it is called with *)
| ToApp (id suffix : string)
| ToProxy
| NoRoute.                          (* [Error::RouteNotFound] *)

Definition below (prefix path : string) : bool :=
  match strip_prefix prefix path with Some tail => negb (String.eqb tail "") | None => false end.
(** The paths of [native_router]; those of the access manager are a library's. *)
Definition native_path (access_routes : string -> bool) (path : string) : bool :=
  mem path ["/std/sys/pkg"; "/std/sys/pkg/list"; "/std/sys/pkg/install"; "/std/sys/listen"; "/std/sys/mount";
            "/std/acl/permissions"; "/std/file"]
  || below "/std/file/" path || below DHTTP_PREFIX path || access_routes path.

(** The first Lib (in the order of the map) with the short name, of the standard
    authors or of the others. *)
Definition lib_named (standard : bool) (name id : string) : bool :=
  Bool.eqb (is_standard_author (id_author id)) standard && String.eqb (short_name id) name.
Definition find_id {A} (p : string -> bool) (m : gmap string A) : option string := find p (map_to_list m).*1.
Definition api_dispatch (libs : gmap string openapi) (path : string) : destination :=
  let '(standard, tail) := match strip_prefix "/std/" path with
                           | Some tail => (true, tail)
                           | None => (false, default path (strip_prefix "/" path))
                           end in
  let name := first_segment "/" tail in
  match find_id (lib_named standard name) libs with
  | Some id =>
      ToLib id (if standard then "/" +:+ tail
                else match strip_prefix name tail with Some EmptyString | None => "/" | Some suffix => suffix end)
  | None => NoRoute
  end.
Definition frontend_dispatch (sb : sandbox) (path : string) : destination :=
  match strip_prefix "/app/" path with
  | Some tail =>
      let name := first_segment "/" tail in
      match find_id (fun id => String.eqb (short_name id) name) (apps sb) with
      | Some id => ToApp id (default "" (strip_prefix name tail))
      | None => NoRoute
      end
  | None => api_dispatch (libs sb) path
  end.
(** The complete router of the Libs and Apps. *)
Definition sandbox_dispatch (sb : sandbox) (path : string) : destination :=
  if String.eqb path "/std" then NoRoute
  else if below "/std/" path then api_dispatch (libs sb) path else frontend_dispatch sb path.

Definition installed (sb : sandbox) (path : string) : bool :=
  match strip_prefix "/app/" path with
  | Some tail => existsb (fun id => String.eqb (short_name id) (first_segment "/" tail)) (map_to_list (apps sb)).*1
  | None => false
  end
  || existsb (lib_named false (first_segment "/" (trim_start_matches "/" path))) (map_to_list (libs sb)).*1.
Definition current_dispatch (access_routes : string -> bool) (sb : sandbox) (path : string) : destination :=
  if native_path access_routes path then ToNative
  else if String.eqb path "/std" then NoRoute
  else if below "/std/" path then api_dispatch (libs sb) path
  else if installed sb path then sandbox_dispatch sb path else ToProxy.

(** ** Requests of Libs and of the identity itself ([native_router]) *)
Inductive local_call :=
| CallNative
| CallMissing                       (* 404 *)
| CallLoopback (path_and_query : string)   (* [forward_dhttp] to the identity itself *)
| CallServer                        (* the identity's own router *)
| CallUnavailable.                  (* the server is gone *)
Definition call_name (path : string) : string :=
  first_segment "/" (default (trim_start_matches "/" path) (strip_prefix "/app/" path)).
(** [path] is [/{name}] or below it. *)
Definition lib_covers (path id : string) : bool :=
  negb (is_standard_author (id_author id))
  && match strip_prefix ("/" +:+ short_name id) path with
     | Some tail => String.eqb tail "" || starts_with "/" tail
     | None => false
     end.
Definition local_call_of `{DhttpHome} (access_routes : string -> bool) (project_exists : string -> bool)
    (libs : gmap string openapi) (ep : endpoint) (handshake local server_alive : bool) (path path_query : string) : local_call :=
  if native_path access_routes path then CallNative else
  let name := call_name path in
  let project := is_ok (valid_id name) && project_exists name in
  if negb project && negb (starts_with "/std/" path) && negb (existsb (lib_covers path) (map_to_list libs).*1) then CallMissing
  else if negb handshake && local then CallLoopback (DHTTP_PREFIX +:+ ep_name ep +:+ path_query)
  else if server_alive then CallServer else CallUnavailable.

(** ** Properties *)
Lemma find_id_Some {A} p (m : gmap string A) id : find_id p m = Some id -> is_Some (m !! id) /\ p id = true.
Proof.
  unfold find_id. intros [Hin Hp]%find_some. split; [|done].
  apply list_elem_of_In, list_elem_of_fmap in Hin as ([n a] & -> & Hin%elem_of_map_to_list). by exists a.
Qed.
Lemma find_id_None {A} p (m : gmap string A) id : find_id p m = None -> is_Some (m !! id) -> p id = false.
Proof.
  unfold find_id. intros Hn [a Ha]. eapply find_none; [exact Hn|]. apply list_elem_of_In, list_elem_of_fmap.
  exists (id, a). split; [done|]. by apply elem_of_map_to_list.
Qed.
Lemma existsb_id {A} p (m : gmap string A) :
  existsb p (map_to_list m).*1 = true <-> exists id, is_Some (m !! id) /\ p id = true.
Proof.
  rewrite existsb_exists. split.
  - intros (id & Hin & Hp). apply list_elem_of_In, list_elem_of_fmap in Hin as ([n a] & -> & Hin%elem_of_map_to_list).
    exists n. split; [by exists a|done].
  - intros (id & [a Ha] & Hp). exists id. split; [|done]. apply list_elem_of_In, list_elem_of_fmap.
    exists (id, a). split; [done|]. by apply elem_of_map_to_list.
Qed.
Lemma below_spec prefix path : below prefix path = true <-> exists tail, path = prefix +:+ tail /\ tail <> "".
Proof.
  unfold below. split.
  - destruct (strip_prefix prefix path) as [tail|] eqn:Hs; [|done]. apply strip_prefix_Some in Hs as ->.
    intros Hb. simplify_bool. eauto.
  - intros (tail & -> & Hne). rewrite strip_prefix_app. by destruct (String.eqb_spec tail "").
Qed.
Lemma lib_named_spec standard name id :
  lib_named standard name id = true <-> is_standard_author (id_author id) = standard /\ short_name id = name.
Proof. unfold lib_named. rewrite andb_true_iff, Bool.eqb_true_iff, String.eqb_eq. done. Qed.
(** What follows a first segment. *)
Lemma first_segment_rest tail rest :
  strip_prefix (first_segment "/" tail) tail = Some rest -> rest = "" \/ starts_with "/" rest = true.
Proof.
  intros Hs%strip_prefix_Some. destruct (proj1 (first_segment_spec "/" tail _) eq_refl) as (_ & r & Hr & Hcase).
  rewrite Hr in Hs at 1. apply app_inv_head_str in Hs as ->. destruct Hcase as [->|(t & ->)]; [by left|right].
  apply starts_with_iff. by exists t.
Qed.
Lemma first_segment_strip tail : exists rest, strip_prefix (first_segment "/" tail) tail = Some rest.
Proof.
  destruct (proj1 (first_segment_spec "/" tail _) eq_refl) as (_ & r & Hr & _). exists r. by apply strip_prefix_Some.
Qed.

(** How a Lib or an App is reached. *)
Definition reached (sb : sandbox) (path : string) (d : destination) : Prop :=
  match d with
  | ToLib id guest =>
      is_Some (libs sb !! id) /\
      if is_standard_author (id_author id)
      then path = "/std" +:+ guest /\ first_segment "/" (default "" (strip_prefix "/" guest)) = short_name id
      else starts_with "/std/" path = false /\
           exists rest, path = "/" +:+ short_name id +:+ rest /\ (rest = "" \/ starts_with "/" rest = true) /\ guest = (if String.eqb rest "" then "/" else rest)
  | ToApp id suffix =>
      is_Some (apps sb !! id) /\ path = "/app/" +:+ short_name id +:+ suffix /\ (suffix = "" \/ starts_with "/" suffix = true)
  | ToNative | ToProxy | NoRoute => True
  end.
Lemma api_dispatch_reached sb path : starts_with "/" path = true -> reached sb path (api_dispatch (libs sb) path).
Proof.
  intros (root & Hroot)%starts_with_iff. unfold api_dispatch. destruct (strip_prefix "/std/" path) as [tail|] eqn:Hs.
  - apply strip_prefix_Some in Hs. destruct (find_id _ _) as [id|] eqn:Hf; [|done].
    apply find_id_Some in Hf as [Hl [Hstd Hn]%lib_named_spec]. split; [done|]. rewrite Hstd. split; [done|].
    change ("/" +:+ tail) with (String "/" tail). cbn. by rewrite Hn.
  - destruct (find_id _ _) as [id|] eqn:Hf; [|done].
    assert (strip_prefix "/" path = Some root) as Hstrip by by apply strip_prefix_Some.
    rewrite Hstrip in *. change (default path (Some root)) with root in *.
    apply find_id_Some in Hf as [Hl [Hstd Hn]%lib_named_spec]. split; [done|]. rewrite Hstd.
    split; [unfold starts_with; by rewrite Hs|]. destruct (first_segment_strip root) as [rest Hrest]. rewrite Hrest.
    pose proof (first_segment_rest _ _ Hrest) as Hcase. apply strip_prefix_Some in Hrest.
    exists rest. split_and!; [by rewrite Hn, <- Hrest|done|by destruct rest].
Qed.
Lemma frontend_dispatch_reached sb path : starts_with "/" path = true -> reached sb path (frontend_dispatch sb path).
Proof.
  intros Hp. unfold frontend_dispatch. destruct (strip_prefix "/app/" path) as [tail|] eqn:Hs; [|by apply api_dispatch_reached].
  apply strip_prefix_Some in Hs as ->. destruct (find_id _ _) as [id|] eqn:Hf; [|done].
  apply find_id_Some in Hf as [Hl Hn]. apply String.eqb_eq in Hn. split; [done|].
  destruct (first_segment_strip tail) as [rest Hrest]. rewrite Hrest. change (default "" (Some rest)) with rest.
  pose proof (first_segment_rest _ _ Hrest) as Hcase. apply strip_prefix_Some in Hrest. split; [|done].
  by rewrite Hn, <- Hrest.
Qed.
Lemma sandbox_dispatch_reached sb path : starts_with "/" path = true -> reached sb path (sandbox_dispatch sb path).
Proof.
  intros Hp. unfold sandbox_dispatch. destruct (String.eqb path "/std"); [done|].
  destruct (below "/std/" path); [by apply api_dispatch_reached|by apply frontend_dispatch_reached].
Qed.

(** [path] is [/app/{name}] or below it. *)
Definition app_covers (path id : string) : bool :=
  match strip_prefix ("/app/" +:+ short_name id) path with
  | Some tail => String.eqb tail "" || starts_with "/" tail
  | None => false
  end.
Lemma covered_segment tail name :
  contains_char "/" name = false ->
  match strip_prefix name tail with Some rest => String.eqb rest "" || starts_with "/" rest | None => false end = true ->
  first_segment "/" tail = name.
Proof.
  intros Hn. destruct (strip_prefix name tail) as [rest|] eqn:Hs; [|done]. apply strip_prefix_Some in Hs as ->.
  intros Hr. apply first_segment_spec. split; [done|]. exists rest. split; [done|].
  apply orb_true_iff in Hr as [->%String.eqb_eq|(t & ->)%starts_with_iff]; [by left|right; by exists t].
Qed.
Lemma strip_prefix_more a b s : strip_prefix (a +:+ b) s = match strip_prefix a s with Some r => strip_prefix b r | None => None end.
Proof.
  revert s. induction a as [|x a IH]; intros s; cbn; [done|]. destruct s as [|y s]; [done|].
  destruct (Ascii.eqb x y); [apply IH|done].
Qed.
(** No installed package covers a path that is not [installed]. *)
Lemma installed_covers sb path id :
  short_name id <> "" ->
  (is_Some (libs sb !! id) /\ lib_covers path id = true \/ is_Some (apps sb !! id) /\ app_covers path id = true) ->
  installed sb path = true.
Proof.
  unfold installed. intros Hne [[Hl Hc]|[Hl Hc]]; apply orb_true_iff; [right|left].
  - apply existsb_id. exists id. split; [done|]. unfold lib_covers in Hc. apply andb_true_iff in Hc as [Ha Hc].
    apply lib_named_spec. split; [by apply negb_true_iff|]. rewrite strip_prefix_more in Hc.
    destruct path as [|c path]; [done|]. cbn [strip_prefix] in Hc. destruct (Ascii.eqb_spec "/" c) as [<-|]; [|done].
    cbn [trim_start_matches]. change (Ascii.eqb "/" "/") with true. cbn iota.
    assert (trim_start_matches "/" path = path) as ->; [|symmetry; by apply covered_segment; [apply short_name_clean|]].
    destruct (short_name id) as [|x n] eqn:Hn; [done|]. destruct path as [|y path]; [done|]. cbn in Hc.
    destruct (Ascii.eqb_spec x y) as [->|]; [|done]. cbn [trim_start_matches].
    destruct (Ascii.eqb_spec "/" y) as [<-|]; [|done]. pose proof (short_name_clean id) as Hclean. by rewrite Hn in Hclean.
  - unfold app_covers in Hc. rewrite strip_prefix_more in Hc. destruct (strip_prefix "/app/" path) as [tail|]; [|done].
    apply existsb_id. exists id. split; [done|]. apply String.eqb_eq. symmetry. by apply covered_segment; [apply short_name_clean|].
Qed.

(** C21: A request is dispatched to a Lib or App only under its own short name (standard Libs below
    /std), with exactly the rest of the path, and reaches the proxy locations only when no native
    service, loaded Lib or App covers its path. *)
Theorem current_dispatch_reached access_routes sb path :
  starts_with "/" path = true ->
  reached sb path (current_dispatch access_routes sb path) /\
  (current_dispatch access_routes sb path = ToProxy ->
     native_path access_routes path = false /\ below "/std/" path = false /\ path <> "/std" /\
     forall id, short_name id <> "" ->
       (is_Some (libs sb !! id) -> lib_covers path id = false) /\ (is_Some (apps sb !! id) -> app_covers path id = false)).
Proof.
  intros Hp. unfold current_dispatch. destruct (native_path access_routes path); [done|].
  destruct (String.eqb_spec path "/std") as [Hstd|Hstd]; [done|]. destruct (below "/std/" path) eqn:Hb.
  - split; [by apply api_dispatch_reached|]. unfold api_dispatch. repeat case_match; done.
  - destruct (installed sb path) eqn:Hi.
    + split; [by apply sandbox_dispatch_reached|]. unfold sandbox_dispatch, frontend_dispatch, api_dispatch.
      destruct (String.eqb path "/std"), (below "/std/" path), (strip_prefix "/app/" path), (strip_prefix "/std/" path); repeat case_match; done.
    + split; [done|]. intros _. split_and!; [done..|]. intros id Hne. split; intros Hl.
      * apply not_true_is_false. intros Hc. rewrite (installed_covers sb path id) in Hi; [done|done|by left].
      * apply not_true_is_false. intros Hc. rewrite (installed_covers sb path id) in Hi; [done|done|by right].
Qed.

(** *** A call of the identity to itself *)
Section loopback.
Context `{DhttpHome, UrlCrates}.

Lemma split_once_app c h t :
  contains_char c h = false ->
  split_once c (h +:+ t) = match split_once c t with Some (a, b) => Some (h +:+ a, b) | None => None end.
Proof.
  unfold contains_char, any_byte. induction h as [|a h IH]; cbn; [by destruct (split_once c t) as [[]|]|].
  intros [Ha Hh]%orb_false_iff. rewrite Ha, IH by done. by destruct (split_once c t) as [[]|].
Qed.
Lemma first_segment_prefix c h t : contains_char c h = false -> first_segment c (h +:+ t) = h +:+ first_segment c t.
Proof.
  intros Hh. destruct (proj1 (first_segment_spec c t _) eq_refl) as (Hc & rest & Ht & Hcase).
  apply first_segment_spec. split.
  - unfold contains_char in *. rewrite any_byte_app. by rewrite Hh, Hc.
  - exists rest. by rewrite app_assoc_str, <- Ht.
Qed.
(** The path and the query of a text, put together again. *)
Lemma path_query_split tail :
  match split_once "?" tail with
  | Some (_, query) => first_segment "?" tail +:+ "?" +:+ query = tail
  | None => first_segment "?" tail = tail
  end.
Proof.
  destruct (split_once "?" tail) as [[h t]|] eqn:Hs.
  - apply split_once_Some in Hs as [-> Hh]. by rewrite first_segment_app.
  - apply split_once_None in Hs. by apply first_segment_no_sep.
Qed.
Definition plain_name (name : string) : Prop :=
  normalize_name name = Some name /\ contains_char "/" name = false /\ contains_char ":" name = false /\ contains_char "?" name = false.

(** The loopback address of a native call names the identity itself and keeps the path and query. *)
Theorem loopback_target name sch au tail uri :
  plain_name name -> uri_parse ("https://" +:+ name +:+ "/" +:+ tail) = Some uri ->
  outbound_uri (UriParts sch au (Some (DHTTP_PREFIX +:+ name +:+ "/" +:+ tail))) = Ok (uri, name).
Proof.
  intros (Hn & Hslash & Hcolon & Hq) Huri. unfold outbound_uri, u_path, u_query. cbn [path_and_query].
  set (whole := DHTTP_PREFIX +:+ name +:+ "/" +:+ tail).
  assert (whole = (DHTTP_PREFIX +:+ name +:+ "/") +:+ tail) as Hwhole by (unfold whole; by rewrite !app_assoc_str).
  assert (contains_char "?" (DHTTP_PREFIX +:+ name +:+ "/") = false) as Hpre.
  { unfold contains_char in *. rewrite !any_byte_app, Hq. done. }
  assert (uri_path whole = DHTTP_PREFIX +:+ name +:+ "/" +:+ first_segment "?" tail) as ->.
  { unfold uri_path. rewrite Hwhole, first_segment_prefix, !app_assoc_str by done. done. }
  assert (Some whole ≫= uri_query = match split_once "?" tail with Some (_, q) => Some q | None => None end) as ->.
  { change (uri_query whole = match split_once "?" tail with Some (_, q) => Some q | None => None end). unfold uri_query. rewrite Hwhole, split_once_app by done. by destruct (split_once "?" tail) as [[]|]. }
  rewrite strip_prefix_app. cbn [ok_or].
  rewrite (proj2 (split_once_Some "/" _ name (first_segment "?" tail))) by done. cbn [default from_option Datatypes.id].
  rewrite (proj2 (split_once_None ":" name)) by done. rewrite Hn. cbn [ok_or].
  pose proof (path_query_split tail) as Htail.
  destruct (split_once "?" tail) as [[h t]|]; rewrite Htail, Huri; done.
Qed.
End loopback.
