(* ===== verification/Development.v ===== *)
(** * Local projects of the owner ([src/development.rs])

    [dev/{name}] of the identity's directory is served to its owner before the
    installed packages: pages from [app], and [lib.wasm] compiled again whenever
    the file is another one.  What [stat] says of a file and what [Lib::load]
    makes of its bytes are given. *)
From S2P Require Import Prelude RustStr Decimal Json Crates Errors Ids Manifest.
From S2P Require Import Capabilities Setup AppFiles.

(** ** Files *)
Inductive kind := Dir_ | Reg | Special.
#[export] Instance kind_eq_dec : EqDecision kind.
Proof. solve_decision. Defined.
(** Owner, device, permission bits and kind of an opened file. *)
Record stat := Stat { st_uid : Z; st_dev : Z; st_mode : Z; st_kind : kind }.
Definition shared_write (s : stat) : bool := negb (Z.land (st_mode s) 18 =? 0).    (* 0o022 *)
(** What makes two openings the same file ([same_file]). *)
Record file_id := FileId {
  fi_dev : Z; fi_ino : Z; fi_len : Z; fi_mtime : Z; fi_mtime_nsec : Z; fi_ctime : Z; fi_ctime_nsec : Z }.
#[export] Instance file_id_eq_dec : EqDecision file_id.
Proof. solve_decision. Defined.
Definition same_file (a b : file_id) : bool :=
  (fi_dev a =? fi_dev b) && (fi_ino a =? fi_ino b) && (fi_len a =? fi_len b)
  && (fi_mtime a =? fi_mtime b) && (fi_mtime_nsec a =? fi_mtime_nsec b)
  && (fi_ctime a =? fi_ctime b) && (fi_ctime_nsec a =? fi_ctime_nsec b).

(** [root] and [child]: an opened file must belong to the owner. *)
Definition root_checked (owner : stat) (opened : option stat) : Result stat :=
  let? metadata := ok_or RouteNotFound opened in
  throw Denied when negb (st_uid metadata =? st_uid owner) || shared_write metadata;;
  Ok metadata.
Definition child_checked (parent : stat) (directory : bool) (opened : option stat) : Result stat :=
  let? metadata := ok_or RouteNotFound opened in
  throw Denied when
    negb (st_uid metadata =? st_uid parent) || negb (st_dev metadata =? st_dev parent) || shared_write metadata
    || negb (bool_decide (st_kind metadata = if directory then Dir_ else Reg));;
  Ok metadata.

(** ** A project as it is on disk *)
Record project := Project {
  pj_owner : stat;                                       (* the identity's directory *)
  pj_root : option stat;                                 (* dev *)
  pj_directory : option stat;                            (* dev/{name} *)
  pj_manifest : option (stat * string);
  pj_app : option (stat * node);
  pj_lib : option (stat * (file_id * string * file_id))  (* before, bytes, after reading *)
}.
Definition project_directory (pj : project) : Result stat :=
  let? root := root_checked (pj_owner pj) (pj_root pj) in
  child_checked root true (pj_directory pj).

Section development.
Context `{DhttpHome, SerdeJson, UrlCrates, AccessControl}.

Definition author_from_directory (directory : stat) (pj : project) (name : string) : Result string :=
  let? _ := child_checked directory false (fst <$> pj_manifest pj) in
  let? bytes := ok_or RouteNotFound (snd <$> pj_manifest pj) in
  throw Denied when slen bytes >? 1024 * 1024;;
  let? manifest := ok_or Denied (from_slice bytes) in
  let? author := ok_or Denied (as_str manifest.["package"].["author"]) in
  throw Denied when
    negb (is_str manifest.["package"].["name"] name) || negb (bool_decide (normalize_name author = Some author));;
  Ok author.
Definition author (pj : project) (name : string) : Result string :=
  let? directory := project_directory pj in
  author_from_directory directory pj name.

(** ** Compiled projects *)
(** [dev_libs]: the Lib of each id with the file it was compiled from. *)
Record dev_state := DevState { dev_closed : bool; dev_libs : gmap string (file_id * openapi) }.
(** [dev_libs.retain]: every project of this name goes. *)
Definition forget (name : string) (st : dev_state) : dev_state :=
  DevState (dev_closed st) (filter (fun e => short_name e.1 <> name) (dev_libs st)).

Section load.
(** [Lib::load] of an id and its bytes, with what it does to the data
    directory. *)
Variable load_lib : string -> string -> Result openapi.

Definition open_lib (pj : project) (expected name : string) : Result ((file_id * string * file_id) * string) :=
  let? directory := project_directory pj in
  let? _ := child_checked directory false (fst <$> pj_lib pj) in
  let? file := ok_or RouteNotFound (snd <$> pj_lib pj) in
  let? author := author_from_directory directory pj name in
  throw RouteNotFound when negb (String.eqb author expected);;
  Ok (file, author).
(** The compilation of a file that is not the cached one; [data] is the
    identity's volume, created if need be. *)
Definition data_checked (owner : stat) (data : Result stat) : Result unit :=
  let? data := data in
  throw Denied when negb (st_uid data =? st_uid owner) || shared_write data;;
  Ok tt.
Definition reload (owner : stat) (data : Result stat) (id name : string) (file : file_id * string * file_id) (st : dev_state) :
    dev_state * Result openapi :=
  let '(metadata, bytes, after) := file in
  let st := forget name st in
  match (throw (InvalidComponent "development file changed while reading") when negb (same_file metadata after);;
         let? _ := data_checked owner data in
         load_lib id bytes) with
  | Ok lib => (DevState (dev_closed st) (<[id := (metadata, lib)]> (dev_libs st)), Ok lib)
  | Err e => (st, Err e)
  end.
Definition load (pj : project) (data : Result stat) (expected name : string) (st : dev_state) : dev_state * Result openapi :=
  match open_lib pj expected name with
  | Err e => (forget name st, Err e)
  | Ok (file, author) =>
      let id := author +:+ "/" +:+ name in
      if dev_closed st then (st, Err Denied) else
      match dev_libs st !! id with
      | Some (previous, lib) =>
          if same_file previous file.1.1 then (st, Ok lib) else reload (pj_owner pj) data id name file st
      | None => reload (pj_owner pj) data id name file st
      end
  end.
End load.

(** ** The route *)
(** Where a request goes: on to the installed packages, to a project's pages or
    to its Lib with the path it is called with. *)
Inductive dev_route :=
| Onward
| DevPages (pages : node) (suffix : string)
| DevLib (author name path : string).
Definition dev_target (path : string) : bool * bool * string :=
  match strip_prefix "/app/" path with
  | Some tail => (true, false, tail)
  | None => match strip_prefix "/std/" path with
            | Some tail => (false, true, tail)
            | None => (false, false, trim_start_matches "/" path)
            end
  end.
Definition native_name (name : string) : bool := mem name ["sys"; "acl"; "contact"; "dhttp"; "file"].
(** [projects]: what [dev/{name}] is, if it exists. *)
Definition dev_dispatch (projects : string -> Result (option project)) (ep : endpoint) (v : option visitor)
    (path : string) (st : dev_state) : dev_state * Result dev_route :=
  let '(frontend, standard, tail) := dev_target path in
  let '(name, rest) := match split_once "/" tail with
                       | Some (name, rest) => (name, "/" +:+ rest)
                       | None => (tail, "")
                       end in
  match (if is_ok (valid_id name) then projects name else Ok None) with
  | Err e => (st, Err e)
  | Ok found =>
      let st := match found with Some _ => st | None => forget name st end in
      (st,
       match found with
       | None => Ok Onward
       | Some pj =>
           if negb frontend && (String.eqb name "app" || standard && native_name name) then Ok Onward else
           let? author := author pj name in
           if negb frontend && negb (Bool.eqb (is_standard_author author) standard) then Ok Onward else
           let? _ := require_owner ep v in
           if frontend then
             let? directory := project_directory pj in
             let? _ := child_checked directory true (fst <$> pj_app pj) in
             let? pages := ok_or RouteNotFound (snd <$> pj_app pj) in
             Ok (DevPages pages rest)
           else Ok (DevLib author name
                      (if standard then "/" +:+ tail else if String.eqb rest "" then "/" else rest))
       end)
  end.
End development.

(** ** Properties *)
Section development_facts.
Context `{DhttpHome, SerdeJson, UrlCrates, AccessControl}.

Lemma same_file_eq a b : same_file a b = true <-> a = b.
Proof.
  unfold same_file. destruct a, b. cbn. rewrite !andb_true_iff, !Z.eqb_eq. split; [|by intros [= -> -> -> -> -> -> ->]].
  intros ((((((-> & ->) & ->) & ->) & ->) & ->) & ->). done.
Qed.

(** A file of the owner, on the device of its directory, that nobody else may
    write. *)
Definition owned (owner s : stat) : Prop := st_uid s = st_uid owner /\ shared_write s = false.
Lemma root_checked_Ok owner opened s : root_checked owner opened = Ok s -> opened = Some s /\ owned owner s.
Proof. unfold root_checked. intros Hr. simplify_ok. simplify_bool. by repeat split. Qed.
Lemma child_checked_Ok parent directory opened s :
  child_checked parent directory opened = Ok s -> opened = Some s /\ owned parent s /\ st_dev s = st_dev parent.
Proof. unfold child_checked. intros Hc. simplify_ok. simplify_bool. by repeat split. Qed.
Lemma owned_trans a b c : owned a b -> owned b c -> owned a c.
Proof. intros [Hab _] [Hbc Hw]. split; [congruence|done]. Qed.
Lemma project_directory_Ok pj s : project_directory pj = Ok s -> owned (pj_owner pj) s.
Proof.
  unfold project_directory. intros Hp. simplify_ok.
  repeat match goal with
  | Hr : root_checked _ _ = Ok _ |- _ => apply root_checked_Ok in Hr as [_ Hr]
  | Hc : child_checked _ _ _ = Ok _ |- _ => apply child_checked_Ok in Hc as (_ & Hc & _)
  end. by eapply owned_trans.
Qed.
Lemma author_normalized pj name a : author pj name = Ok a -> normalize_name a = Some a.
Proof. unfold author, author_from_directory. intros Ha. simplify_ok. by simplify_bool. Qed.

Lemma split_rest tail name rest :
  match split_once "/" tail with Some (name, rest) => (name, "/" +:+ rest) | None => (tail, "") end = (name, rest) ->
  tail = name +:+ rest.
Proof.
  destruct (split_once "/" tail) as [[n r]|] eqn:Hs; intros [= <- <-]; [|by rewrite app_nil_r_str].
  by apply split_once_Some in Hs as [-> _].
Qed.

(** A local project is served only to the verified owner, under a valid name, by files that belong to
    the owner and that others cannot write; a Lib is reached under /std exactly when its declared author
    is a standard one. *)
Theorem dev_dispatch_owner projects ep v path st st' r :
  dev_dispatch projects ep v path st = (st', Ok r) -> r <> Onward ->
  require_owner ep v = Ok tt /\
  exists name pj, valid_id name = Ok tt /\ projects name = Ok (Some pj) /\
    match r with
    | DevPages pages suffix =>
        path = "/app/" +:+ name +:+ suffix /\
        exists s, pj_app pj = Some (s, pages) /\ owned (pj_owner pj) s
    | DevLib a n guest =>
        n = name /\ author pj name = Ok a /\
        (starts_with "/std/" path = true -> native_name name = false /\ is_standard_author a = true /\ path = "/std" +:+ guest) /\
        (starts_with "/std/" path = false -> is_standard_author a = false)
    | Onward => False
    end.
Proof.
  unfold dev_dispatch. destruct (dev_target path) as [[frontend standard] tail] eqn:Ht.
  destruct (match split_once "/" tail with Some _ => _ | None => _ end) as [name rest] eqn:Hs.
  destruct (if is_ok (valid_id name) then projects name else Ok None) as [[pj|]|e] eqn:Hp; intros [= _ Hr] Hne; [|by subst].
  destruct (valid_id name) as [u|] eqn:Hv; cbn in Hp; [|done]. destruct u.
  destruct (negb frontend && (_ || _)) eqn:Hnative; [by simplify_ok|]. simplify_ok.
  match goal with Ha : author pj name = Ok ?a |- _ => rename Ha into Hauthor, a into au end.
  destruct (negb frontend && negb (Bool.eqb _ _)) eqn:Hstd; [by simplify_ok|]. simplify_ok.
  split; [match goal with Hu : require_owner _ _ = Ok ?u |- _ => by destruct u end|].
  exists name, pj. split; [done|]. split; [done|].
  assert (tail = name +:+ rest) as Htail by by apply split_rest.
  unfold dev_target in Ht. destruct (strip_prefix "/app/" path) as [t|] eqn:Happ; [|destruct (strip_prefix "/std/" path) as [t|] eqn:Hstrip];
    injection Ht as <- <- <-; cbn [negb andb] in *; simplify_ok.
  - apply strip_prefix_Some in Happ as ->. split; [done|].
    repeat match goal with
    | Hc : child_checked _ _ _ = Ok _ |- _ => apply child_checked_Ok in Hc as (Hc & ? & _)
    | Hd : project_directory _ = Ok _ |- _ => apply project_directory_Ok in Hd
    end.
    destruct (pj_app pj) as [[s0 pages]|]; cbn in *; [|done]. simplify_eq. eexists. split; [done|]. by eapply owned_trans.
  - split; [done|]. split; [done|]. split; [intros _|unfold starts_with; by rewrite Hstrip].
    apply strip_prefix_Some in Hstrip as ->. apply orb_false_iff in Hnative as [_ Hnative].
    apply negb_false_iff, Bool.eqb_prop in Hstd. done.
  - split; [done|]. split; [done|]. split; [unfold starts_with; by rewrite Hstrip|].
    intros _. by apply negb_false_iff, Bool.eqb_prop in Hstd.
Qed.


(** *** The compiled Lib is the one on disk *)
Section cache.
Variable load_lib : string -> string -> Result openapi.
(** What is read (at most 64 MiB and one byte) of every state of a file. *)
Variable contents : file_id -> string.
Definition cache_ok (st : dev_state) : Prop :=
  forall id metadata lib, dev_libs st !! id = Some (metadata, lib) -> load_lib id (contents metadata) = Ok lib.
(** What was read of a file that did not change meanwhile is its contents. *)
Definition stable (pj : project) : Prop :=
  forall s metadata bytes after, pj_lib pj = Some (s, (metadata, bytes, after)) -> metadata = after -> bytes = contents metadata.

Lemma forget_ok name st : cache_ok st -> cache_ok (forget name st).
Proof. intros Hok id metadata lib [Hl _]%map_lookup_filter_Some. by eapply Hok. Qed.
Lemma forget_gone name st id : short_name id = name -> dev_libs (forget name st) !! id = None.
Proof. intros Hn. apply map_lookup_filter_None. right. by intros x _ []. Qed.

Lemma open_lib_Ok pj expected name file au :
  open_lib pj expected name = Ok (file, au) ->
  au = expected /\ author pj name = Ok expected /\ exists s, pj_lib pj = Some (s, file) /\ owned (pj_owner pj) s.
Proof.
  unfold open_lib, author. intros Ho.
  destruct (project_directory pj) as [d|] eqn:Hd; [|done]. cbn in *. apply project_directory_Ok in Hd.
  destruct (child_checked d false (fst <$> pj_lib pj)) as [s|] eqn:Hc; [|done]. cbn in *.
  apply child_checked_Ok in Hc as (Hc & Howned & _).
  destruct (pj_lib pj) as [[s0 f]|]; [|done]. cbn in *.
  destruct (author_from_directory d pj name) as [a|]; [|done]. cbn in *.
  destruct (String.eqb a expected) eqn:He; [|done]. apply String.eqb_eq in He. subst a. cbn in Ho. simplify_eq.
  do 2 (split; [done|]). exists s. split; [done|]. by eapply owned_trans.
Qed.
Lemma reload_current owner data id name metadata bytes after st st' r :
  cache_ok st -> (metadata = after -> bytes = contents metadata) ->
  reload load_lib owner data id name (metadata, bytes, after) st = (st', r) ->
  cache_ok st' /\
  match r with
  | Ok lib => load_lib id (contents metadata) = Ok lib
  | Err _ => forall id', short_name id' = name -> dev_libs st' !! id' = None
  end.
Proof.
  intros Hok Hst. apply (forget_ok name) in Hok. unfold reload.
  match goal with |- context [match ?e with Ok _ => _ | Err _ => _ end] => destruct e as [lib|e'] eqn:Hl end; intros [= <- <-].
  - simplify_ok. simplify_bool. match goal with Hs : same_file _ _ = true |- _ => apply same_file_eq in Hs end.
    rewrite (Hst ltac:(done)) in *. split; [|done]. intros id' metadata' lib'. cbn.
    destruct (decide (id' = id)) as [->|Hne]; [rewrite lookup_insert_eq; by intros [= <- <-]|].
    rewrite lookup_insert_ne by done. apply Hok.
  - split; [done|]. intros id' Hid. by apply forget_gone.
Qed.

(** A Lib of a local project is always the one compiled from the bytes the file has now; a project that
    cannot be opened or compiled loses its compiled Lib, and no other one is served in its place. *)
Theorem load_current pj data expected name st st' r :
  cache_ok st -> stable pj -> load load_lib pj data expected name st = (st', r) ->
  cache_ok st' /\
  match r with
  | Ok lib => exists s metadata bytes after, pj_lib pj = Some (s, (metadata, bytes, after)) /\
      load_lib (expected +:+ "/" +:+ name) (contents metadata) = Ok lib /\ dev_closed st = false /\
      author pj name = Ok expected /\ owned (pj_owner pj) s
  | Err _ => dev_closed st = false -> forall id, short_name id = name -> dev_libs st' !! id = None
  end.
Proof.
  intros Hok Hst. unfold load. destruct (open_lib pj expected name) as [[[[metadata bytes] after] au]|e] eqn:Ho.
  2: { intros [= <- <-]. split; [by apply forget_ok|]. intros _ id Hid. by apply forget_gone. }
  apply open_lib_Ok in Ho as (-> & Hau & s & Hlib & Howned). destruct (dev_closed st); [by intros [= <- <-]|].
  assert (forall st1 r1, reload load_lib (pj_owner pj) data (expected +:+ "/" +:+ name) name (metadata, bytes, after) st = (st1, r1) ->
    cache_ok st1 /\ match r1 with
      | Ok lib => load_lib (expected +:+ "/" +:+ name) (contents metadata) = Ok lib
      | Err _ => forall id, short_name id = name -> dev_libs st1 !! id = None end) as Hreload.
  { intros st1 r1. apply reload_current; [done|]. by eapply Hst. }
  destruct (dev_libs st !! _) as [[previous lib]|] eqn:Hl.
  - destruct (same_file previous _) eqn:Hs.
    + intros [= <- <-]. split; [done|]. apply same_file_eq in Hs. cbn in Hs. subst previous.
      exists s, metadata, bytes, after. split_and!; [done| |done..]. by apply (Hok _ _ _ Hl).
    + intros Hr. apply Hreload in Hr as [Hok' Hr]. split; [done|]. destruct r; [|done]. by exists s, metadata, bytes, after.
  - intros Hr. apply Hreload in Hr as [Hok' Hr]. split; [done|]. destruct r; [|done]. by exists s, metadata, bytes, after.
Qed.
End cache.
End development_facts.
