(* ===== verification/Calls.v ===== *)
(** * A request and the Libs it runs ([src/server.rs], [src/sandbox.rs],
      [src/development.rs], [src/sandbox/host/http.rs])

    The path of one request through the components: [Access] decides,
    [Development] and [Routing] choose a Lib, [Guest] makes its invocation, and
    the Lib may send requests of its own to the identity, which take the same
    path again.  What a Lib does is an argument; a Lib is [running] for a
    request when it was entered for it, directly or through other Libs. *)
From S2P Require Import Prelude RustStr Decimal Json Crates Errors Ids Manifest Install Capabilities Setup Proxy Outbound.
From S2P Require Import Access Guest AppFiles Routing Development.

Section calls.
Context `{DhttpHome, SerdeJson, UrlCrates, AccessControl, HeaderMap, UriValid}.
(** The endpoint, the paths of the access manager, [Lib::load], and the answers
    [axum] makes of a status and a text. *)
Variable ep : endpoint.
Variable access_routes : string -> bool.
Variable load_lib : string -> string -> Result openapi.
Variable canonical_reason : Z -> option string.
Variable into_response : Z * string -> http_response.

(** What the server has when a request arrives: the rules, the packages, the
    projects and what opening one finds. *)
Record moment := Moment {
  mo_auth : asked -> option string -> option string -> result access_error verdict;
  mo_sandbox : Install.sandbox;
  mo_dev : dev_state;
  mo_projects : string -> Result (option project);
  mo_opened : string -> project;
  mo_data : Result stat;
  mo_alive : bool          (* the server's router is still there *)
}.

(** ** The Lib of a request *)
(** Its id, the path it is called with, and what is said of one that cannot be. *)
Record called := Called { cl_id : string; cl_path : string; cl_bad_path : string; cl_bad_uri : string }.
Definition find_lib (now : moment) (rq : incoming) : Result (option called) :=
  let path := u_path (in_uri rq) in
  match dev_dispatch (mo_projects now) ep (in_visitor rq) path (mo_dev now) with
  | (_, Err e) => Err e
  | (_, Ok (DevPages _ _)) => Ok None
  | (st, Ok (DevLib author name guest)) =>
      let? _ := snd (Development.load load_lib (mo_opened now name) (mo_data now) author name st) in
      Ok (Some (Called (author +:+ "/" +:+ name) guest "invalid development path" "invalid development URI"))
  | (_, Ok Onward) =>
      match current_dispatch access_routes (mo_sandbox now) path with
      | ToLib id guest => Ok (Some (Called id guest "invalid API path" "invalid request URI"))
      | ToNative | ToApp _ _ | ToProxy | NoRoute => Ok None
      end
  end.
(** The request as the Lib sees it. *)
Definition guest_uri (c : called) (u : uri_parts) : Result uri_parts :=
  let? pq := ok_or (BadRequest (cl_bad_path c))
    (path_and_query_parse match u_query u with Some query => cl_path c +:+ "?" +:+ query | None => cl_path c end) in
  ok_or (BadRequest (cl_bad_uri c)) (uri_from_parts (UriParts (scheme u) (authority u) (Some pq))).
Definition set_uri (u : uri_parts) (rq : incoming) : incoming :=
  Incoming (in_handshake rq) (in_local rq) (in_visitor rq) (in_method rq) u (in_headers rq) (in_body rq).
Definition enter (c : called) (rq : incoming) : Result (invocation * incoming) :=
  let? hs := ok_or MissingHandshake (in_handshake rq) in
  let? iv := new_invocation ep hs (Granted ep (fun e => e)) in
  let? uri := guest_uri c (in_uri rq) in
  Ok (iv, set_uri uri rq).

(** ** The answer *)
Definition reject_api (e : error) : http_response :=
  into_response (status e, default "request failed" (canonical_reason (status e))).
Section answers.
(** What a Lib sets as its response, how its task ends, and the handlers of the
    requests that reach no Lib. *)
Variable guest : string -> invocation -> incoming -> option (result string http_response) * result string (Result unit).
Variable elsewhere : moment -> incoming -> http_response.
Definition api_response (c : called) (rq : incoming) : http_response :=
  match (let? (iv, rq) := enter c rq in
         let '(set, task) := guest (cl_id c) iv rq in execute set task) with
  | Ok rs => rs
  | Err e => reject_api e
  end.
Definition handle (now : moment) (rq : incoming) : http_response :=
  match find_lib now rq with
  | Err e => reject_api e
  | Ok None => elsewhere now rq
  | Ok (Some c) => api_response c rq
  end.
Definition respond (now : moment) (rq : incoming) : reply := authorize (mo_auth now) (handle now) rq.
End answers.

(** ** The Libs of a request *)
(** The visitor [authorize] lets through. *)
Definition allows (r : result access_error verdict) : bool :=
  match r with Ok Allowed | Ok (Waiting (Decided true)) => true | _ => false end.
Definition passed (now : moment) (rq : incoming) : option (option visitor) :=
  match identify rq with
  | Ok v => if allows (mo_auth now (auth_request rq) (v_name <$> v) (v_subject <$> v)) then Some v else None
  | Err _ => None
  end.
Definition entered (now : moment) (rq : incoming) : option (called * invocation * incoming) :=
  match passed now rq with
  | Some v =>
      match find_lib now (set_visitor v rq) with
      | Ok (Some c) =>
          match enter c (set_visitor v rq) with Ok (iv, rq') => Some (c, iv, rq') | Err _ => None end
      | _ => None
      end
  | None => None
  end.
(** A request of a Lib to the identity: the outgoing router authorizes it, and
    hands what it does not serve itself to the server's router, which
    authorizes it again. *)
Definition incoming_of (s : sent) : incoming :=
  Incoming (ex_handshake (sn_extensions s)) (ex_local (sn_extensions s)) (ex_visitor (sn_extensions s))
    (sn_method s) (sn_uri s) (sn_headers s) (String.concat "" (sn_body s).1).
Definition nested (now later : moment) (s : sent) : option (called * invocation * incoming) :=
  match passed now (incoming_of s) with
  | Some v =>
      let rq := set_visitor v (incoming_of s) in
      let exists_ name := match mo_projects now name with Ok (Some _) => true | _ => false end in
      match local_call_of access_routes exists_ (libs (mo_sandbox now)) ep (bool_decide (is_Some (in_handshake rq)))
              (bool_decide (is_Some (in_local rq))) (mo_alive now) (u_path (in_uri rq)) (default "/" (path_and_query (in_uri rq))) with
      | CallServer => entered later rq
      | CallNative | CallMissing | CallLoopback _ | CallUnavailable => None
      end
  | None => None
  end.

Section running.
Variable authority_host : string -> string.
Variable authority_port : string -> option string.
Variable authority_parse : string -> option string.
Variable dhttp_suffix : string.
Variable find_contact_by_name : string -> contact_found.
(** A Lib with its invocation, running for a request; whatever it asks for,
    under whatever rules and packages there are by then. *)
Inductive running (rq : incoming) : string -> invocation -> Prop :=
| run_request now c iv rq' :
    entered now rq = Some (c, iv, rq') -> running rq (cl_id c) iv
| run_nested id iv api connect answer opts t sending g s r now later c iv' rq' :
    running rq id iv ->
    send_request authority_host authority_port authority_parse dhttp_suffix api find_contact_by_name connect answer
      (iv_outgoing iv) opts t sending g = (Some s, r) ->
    sn_to_self s = true ->
    nested now later s = Some (c, iv', rq') ->
    running rq (cl_id c) iv'.
End running.
End calls.

(** ** Properties *)
Section call_facts.
Context `{DhttpHome, SerdeJson, UrlCrates, AccessControl, HeaderMap, UriValid, !HeaderLaws}.
Variable ep : endpoint.
Variable access_routes : string -> bool.
Variable load_lib : string -> string -> Result openapi.
Local Abbreviation find_lib := (find_lib ep access_routes load_lib).
Local Abbreviation entered := (entered ep access_routes load_lib).

(** *** The answer *)
(** [authorize] runs the handler for exactly the visitor that [passed]. *)
Lemma authorize_passed now next rq :
  match passed now rq with
  | Some v => authorize (mo_auth now) next rq = serve next v rq
  | None => forall next', authorize (mo_auth now) next rq = authorize (mo_auth now) next' rq
  end.
Proof.
  unfold passed, authorize. destruct (identify rq) as [v|]; [|done].
  by destruct (mo_auth now _ _ _) as [[| | |[[]| |]]|[]].
Qed.
Lemma passed_Some now rq v :
  passed now rq = Some v ->
  identify rq = Ok v /\
  (mo_auth now (auth_request rq) (v_name <$> v) (v_subject <$> v) = Ok Allowed \/
   mo_auth now (auth_request rq) (v_name <$> v) (v_subject <$> v) = Ok (Waiting (Decided true))).
Proof.
  unfold passed. destruct (identify rq) as [w|]; [|done]. destruct (allows _) eqn:Ha; [|done]. intros [= ->]. split; [done|].
  unfold allows in Ha. repeat case_match; auto; done.
Qed.
Lemma entered_Some now rq c iv rq' :
  entered now rq = Some (c, iv, rq') <->
  exists v, passed now rq = Some v /\ find_lib now (set_visitor v rq) = Ok (Some c) /\
    enter ep c (set_visitor v rq) = Ok (iv, rq').
Proof.
  unfold Calls.entered. split.
  - destruct (passed now rq) as [v|]; [|done]. destruct (find_lib now _) as [[d|]|] eqn:Hf; [|done..].
    destruct (enter ep d _) as [[i r]|] eqn:He; [|done]. intros [= <- <- <-]. eauto.
  - intros (v & -> & -> & ->). done.
Qed.

(** A request that enters a Lib is answered by what the Lib sets for exactly that invocation and
    request, or by the status of its failure. *)
Theorem respond_entered canonical_reason into_response guest elsewhere now rq c iv rq' :
  entered now rq = Some (c, iv, rq') -> app_head rq = false ->
  respond ep access_routes load_lib canonical_reason into_response guest elsewhere now rq =
  Served (let '(set, task) := guest (cl_id c) iv rq' in
          match execute set task with Ok rs => rs | Err e => reject_api canonical_reason into_response e end).
Proof.
  intros (v & Hp & Hf & He)%entered_Some Hh. unfold respond.
  pose proof (authorize_passed now (handle ep access_routes load_lib canonical_reason into_response guest elsewhere now) rq) as Ha.
  rewrite Hp in Ha. rewrite Ha. unfold serve. rewrite Hh. unfold handle. rewrite Hf. unfold api_response. rewrite He. cbn.
  by destruct (guest (cl_id c) iv rq').
Qed.
(** No Lib has a part in the answer but the one that was entered: Libs that agree on it give the same
    answer. *)
Theorem respond_only_entered canonical_reason into_response guest guest' elsewhere now rq :
  (forall c iv rq', entered now rq = Some (c, iv, rq') -> guest (cl_id c) iv rq' = guest' (cl_id c) iv rq') ->
  respond ep access_routes load_lib canonical_reason into_response guest elsewhere now rq =
  respond ep access_routes load_lib canonical_reason into_response guest' elsewhere now rq.
Proof.
  intros Hg. unfold respond. pose proof (authorize_passed now) as Ha.
  destruct (passed now rq) as [v|] eqn:Hp.
  - assert (forall next, authorize (mo_auth now) next rq = serve next v rq) as -> by (intros next; specialize (Ha next rq); by rewrite Hp in Ha).
    assert (forall next, authorize (mo_auth now) next rq = serve next v rq) as -> by (intros next; specialize (Ha next rq); by rewrite Hp in Ha).
    unfold serve.
    replace (handle ep access_routes load_lib canonical_reason into_response guest' elsewhere now (set_visitor v rq))
      with (handle ep access_routes load_lib canonical_reason into_response guest elsewhere now (set_visitor v rq)); [done|].
    unfold handle. destruct (find_lib now (set_visitor v rq)) as [[c|]|] eqn:Hf; [|done..].
    unfold api_response. destruct (enter ep c (set_visitor v rq)) as [[iv rq']|] eqn:He; [|done]. cbn.
    rewrite (Hg c iv rq'); [done|]. apply entered_Some. eauto.
  - specialize (Ha (handle ep access_routes load_lib canonical_reason into_response guest elsewhere now) rq). rewrite Hp in Ha. apply Ha.
Qed.

(** *** The Lib that is chosen *)
(** An installed Lib is chosen under its own name, a project's for the owner. *)
Lemma find_lib_Some now rq c :
  find_lib now rq = Ok (Some c) ->
  (starts_with "/" (u_path (in_uri rq)) = true -> reached (mo_sandbox now) (u_path (in_uri rq)) (ToLib (cl_id c) (cl_path c))) \/
  require_owner ep (in_visitor rq) = Ok tt.
Proof.
  unfold Calls.find_lib. destruct (dev_dispatch _ _ _ _ _) as [st [[|pages suffix|a name guest]|]] eqn:Hd; [|done| |done]; intros Hf.
  - left. intros Hp. unfold current_dispatch in Hf. set (path := u_path (in_uri rq)) in *.
    pose proof (api_dispatch_reached (mo_sandbox now) path Hp). pose proof (sandbox_dispatch_reached (mo_sandbox now) path Hp).
    destruct (native_path access_routes path); [done|]. destruct (String.eqb path "/std"); [done|].
    destruct (below "/std/" path).
    + destruct (api_dispatch (libs (mo_sandbox now)) path) eqn:Ha; simplify_eq. done.
    + destruct (Routing.installed (mo_sandbox now) path); [|done].
      destruct (sandbox_dispatch (mo_sandbox now) path) eqn:Ha; simplify_eq. done.
  - right. by apply dev_dispatch_owner in Hd as [Ho _].
Qed.

(** *** The invocation *)
Lemma new_invocation_Ok hs iv :
  new_invocation ep hs (Granted ep (fun e => e)) = Ok iv ->
  exists local, hs_local hs = Some local /\ au_name local = ep_name ep /\
    iv = Invocation local (hs_remote hs) (Granted ep (as_handshake hs)).
Proof.
  unfold new_invocation. intros Hi. simplify_ok. simplify_bool. eauto.
Qed.
Lemma enter_Ok c rq iv rq' :
  enter ep c rq = Ok (iv, rq') ->
  exists hs local, in_handshake rq = Some hs /\ hs_local hs = Some local /\ au_name local = ep_name ep /\
    iv = Invocation local (hs_remote hs) (Granted ep (as_handshake hs)).
Proof.
  unfold enter. intros He. destruct (in_handshake rq) as [hs|]; [|done]. cbn in He.
  destruct (new_invocation ep hs _) as [i|] eqn:Hi; [|done]. cbn in He. simplify_ok.
  apply new_invocation_Ok in Hi as (local & ? & ? & ?). eauto 6.
Qed.
(** The caller a Lib sees is the visitor that was let through. *)
Lemma caller_visitor ski_error local remote o v :
  v = (remote ≫= visitor_of) -> (is_Some remote -> is_Some v) ->
  caller ski_error (data_of (Invocation local remote o)) = Ok ((fun v => (v_name v, v_subject v)) <$> v).
Proof.
  intros -> Hs. unfold caller. cbn. destruct remote as [a|]; [|done]. cbn in *. destruct (Hs ltac:(done)) as [w Hw].
  rewrite Hw. apply visitor_of_Some in Hw as (ski & Hk & _ & ->). unfold identity_of. by rewrite Hk.
Qed.
(** *** Every Lib that runs *)
Section chains.
Variable ski_error : list string -> string.
Variable authority_host : string -> string.
Variable authority_port : string -> option string.
Variable authority_parse : string -> option string.
Variable dhttp_suffix : string.
Variable find_contact_by_name : string -> contact_found.
Local Abbreviation running :=
  (running ep access_routes load_lib authority_host authority_port authority_parse dhttp_suffix find_contact_by_name).

(** A request under this handshake was let through to this Lib. *)
Definition let_through (hs : handshake) (id : string) (iv : invocation) : Prop :=
  exists now r c v local,
    in_handshake r = Some hs /\ hs_local hs = Some local /\ au_name local = ep_name ep /\
    v = (hs_remote hs ≫= visitor_of) /\ (is_Some (hs_remote hs) -> is_Some v) /\
    (mo_auth now (auth_request r) (v_name <$> v) (v_subject <$> v) = Ok Allowed \/
     mo_auth now (auth_request r) (v_name <$> v) (v_subject <$> v) = Ok (Waiting (Decided true))) /\
    cl_id c = id /\ find_lib now (set_visitor v r) = Ok (Some c) /\
    ((starts_with "/" (u_path (in_uri r)) = true -> reached (mo_sandbox now) (u_path (in_uri r)) (ToLib id (cl_path c))) \/
     require_owner ep v = Ok tt) /\
    iv = Invocation local (hs_remote hs) (Granted ep (as_handshake hs)) /\
    caller ski_error (data_of iv) = Ok ((fun v => (v_name v, v_subject v)) <$> v).
Lemma entered_let_through now rq hs c iv rq' :
  in_handshake rq = Some hs -> entered now rq = Some (c, iv, rq') -> let_through hs (cl_id c) iv.
Proof.
  intros Hhs (v & Hp & Hf & He)%entered_Some. apply passed_Some in Hp as [Hi Ha].
  apply identify_Ok in Hi as [Hi _]. rewrite Hhs in Hi. destruct Hi as (_ & Hv & Hs).
  apply enter_Ok in He as (hs' & local & Hhs' & Hl & Hn & ->). cbn in Hhs'. assert (hs' = hs) as -> by congruence.
  exists now, rq, c, v, local. split_and!; try done.
  - by apply find_lib_Some in Hf.
  - by apply caller_visitor.
Qed.
Lemma entered_handshake now rq c iv rq' : entered now rq = Some (c, iv, rq') -> is_Some (in_handshake rq).
Proof. intros (v & _ & _ & He)%entered_Some. apply enter_Ok in He as (hs & local & He & _). by exists hs. Qed.
(** A request of a Lib to the identity itself has the handshake the Lib runs under. *)
Lemma self_request_handshake local remote hs api connect answer opts t sending g s r :
  send_request authority_host authority_port authority_parse dhttp_suffix api find_contact_by_name connect answer
    (iv_outgoing (Invocation local remote (Granted ep (as_handshake hs)))) opts t sending g = (Some s, r) ->
  sn_to_self s = true -> in_handshake (incoming_of s) = Some hs.
Proof.
  cbn [iv_outgoing]. intros Hs Hself. apply send_request_sent in Hs as (target & canonical & rq' & _ & _ & _ & _ & Hcase).
  destruct (String.eqb target (ep_name ep)).
  - destruct Hcase as (_ & _ & He & _). unfold incoming_of. by rewrite He.
  - destruct Hcase as [Hne _]. congruence.
Qed.
Lemma nested_entered now later s c iv rq :
  nested ep access_routes load_lib now later s = Some (c, iv, rq) ->
  exists v, entered later (set_visitor v (incoming_of s)) = Some (c, iv, rq).
Proof. unfold nested. destruct (passed now (incoming_of s)) as [v|]; [|done]. case_match; try done. eauto. Qed.

(** C6: No Lib runs on behalf of a visitor who may not call it: a Lib that runs for a request, directly
    or because other Libs called it through the identity, however long the chain and whatever the rules,
    packages and projects are at each step, runs under the handshake of that first request, was let
    through by the access service for the visitor of that handshake and for a path that names this very
    Lib (or for the owner's local project), and sees exactly this visitor as its caller. *)
Theorem running_let_through rq id iv :
  running rq id iv -> exists hs, in_handshake rq = Some hs /\ let_through hs id iv.
Proof.
  induction 1 as [now c iv rq' He|id iv api connect answer opts t sending g s r now later c iv' rq' _ IH Hsend Hself Hn].
  - destruct (entered_handshake _ _ _ _ _ He) as [hs Hhs]. exists hs. split; [done|]. by eapply entered_let_through.
  - destruct IH as (hs & Hhs & (? & ? & ? & ? & local & _ & _ & _ & _ & _ & _ & _ & _ & _ & -> & _)).
    exists hs. split; [done|]. apply nested_entered in Hn as [v Hn]. eapply entered_let_through; [|exact Hn].
    by eapply self_request_handshake in Hsend.
Qed.
End chains.
End call_facts.
