(* ===== verification/Cli.v ===== *)
(** * The command line ([src/main.rs])

    What the program does with its arguments before it serves anything: the
    offline configuration of one profile, the signal that reloads a running
    service, and the log file of a service that starts. *)
From S2P Require Import Prelude RustStr Decimal Json Crates Errors Setup Profiles Supervisor Layout.

Definition i32_max : Z := 2147483647.
(** What a command does to the world besides the settings. *)
Inductive effect := Stdout (line : string) | Stderr (line : string) | Signal (pid : Z).
Definition CONFIGURE_USAGE : string :=
  "usage: pishoo configure --profile PATH [--init | --listen internal|external|all|off]".
Definition MODES : list string := ["internal"; "external"; "all"; "off"].

(** ** [logging], on the files of the account home *)
Definition move_log_root (s : files) : files * Result unit :=
  if negb (try_exists s ["log"]) && try_exists s ["logs"] then
    if negb (is_real_dir s ["logs"]) then (s, Err (Io InvalidInput "legacy log root must be a real directory"))
    else rename ["logs"] ["log"] s
  else (s, Ok tt).
(** Opening [error.log] to append, creating it; a link to a file is followed. *)
Definition open_log (s : files) : files * Result unit :=
  match s ["log"; "error.log"] with
  | None => (set_entry ["log"; "error.log"] (PlainFile "") s, Ok tt)
  | Some (PlainFile _) | Some (Link (Some false)) => (s, Ok tt)
  | Some _ => (s, Err (Io OtherIo "error.log"))
  end.
Definition logging (s : files) : files * Result unit :=
  match move_log_root s with
  | (s, Ok _) =>
      match create_dir_all s ["log"] with
      | (s, Ok _) => open_log s
      | (s, Err e) => (s, Err e)
      end
  | (s, Err e) => (s, Err e)
  end.

Section cli.
Context `{DhttpHome, UrlCrates, AccessControl, SerdeJson}.
(** [IdentityProfile::try_from] a path; [to_string_lossy]; the text of the help
    and the version of the build. *)
Variable profile_at : string -> result string profile.
Variable lossy : string -> string.
Variables (help_text version : string).
(** The platform the program is built for, and the user it runs as.
    [systemctl show] and [launchctl print]: whether they succeed, and their
    output; [kill -HUP]: whether it succeeds, and the text of its status. *)
Inductive platform := Linux | MacOs | OtherOs.
Variable target_os : platform.
Variable uid : Z.
Variable systemctl : Result (bool * string).
Variable launchctl : string -> Result (bool * string).
Variable kill : Z -> Result (bool * string).
(** The error of handing the database files to their owner. *)
Variable inherit : option error.
(** The settings of the profiles, by the path of their database. *)
Abbreviation all_settings := (string -> settings).
Definition stored (path : string) (own : settings) (s : all_settings) : all_settings :=
  fun q => if decide (q = path) then own else s q.

(** ** [reload] *)
Definition service_domain : string := if uid =? 0 then "system" else "gui/" +:+ show_Z uid.
Definition launchctl_pid (output : string) : option string :=
  head (omap (fun line => strip_prefix "pid = " (trim line)) (split_on "010" output)).
Definition service_pid : Result string :=
  match target_os with
  | Linux =>
      let? shown := systemctl in
      throw (BadRequest "cannot query pishoo.service; use reload --pid PID for a foreground process") when negb shown.1;;
      Ok (trim (lossy shown.2))
  | MacOs =>
      let? shown := launchctl (service_domain +:+ "/homebrew.mxcl.pishoo") in
      throw (BadRequest "cannot query Homebrew pishoo service; use reload --pid PID for a foreground process") when negb shown.1;;
      ok_or (BadRequest "Pishoo service is not running") (launchctl_pid (lossy shown.2))
  | OtherOs => Err (BadRequest "reload requires a Unix process with SIGHUP support")
  end.
Definition reload_pid (args : list string) : Result string :=
  match args with
  | [flag; pid] =>
      throw (BadRequest "usage: pishoo reload [--pid PID]") when negb (String.eqb flag "--pid");;
      Ok (lossy pid)
  | [] => service_pid
  | _ => Err (BadRequest "usage: pishoo reload [--pid PID]")
  end.
Definition valid_pid (text : string) : option Z :=
  match parse_u32 text with Some pid => if (1 <? pid) && (pid <=? i32_max) then Some pid else None | None => None end.
Definition reload_text (pid : Z) : string :=
  "Reload requested for PID " +:+ show_Z pid +:+ "; check the Pishoo log for configuration errors.".
Definition reload (args : list string) : list effect * Result unit :=
  match (let? pid := reload_pid args in ok_or (BadRequest "Pishoo is not running or PID is invalid") (valid_pid pid)) with
  | Err e => ([], Err e)
  | Ok pid =>
      match kill pid with
      | Err e => ([], Err e)
      | Ok (success, status) =>
          if negb success then ([Signal pid], Err (Io OtherIo ("reload signal failed (" +:+ status +:+ ")")))
          else ([Signal pid; Stderr (reload_text pid)], Ok tt)
      end
  end.

(** ** [run_command] *)
(** The path, the listen mode and whether to initialize. *)
Definition configure_args (args : list string) : Result (string * option string * bool) :=
  match args with
  | [flag; path] =>
      throw (BadRequest CONFIGURE_USAGE) when negb (String.eqb flag "--profile");;
      Ok (path, None, false)
  | [flag; path; init] =>
      throw (BadRequest CONFIGURE_USAGE) when negb (String.eqb flag "--profile" && String.eqb init "--init");;
      Ok (path, None, true)
  | [flag; path; listen; mode] =>
      throw (BadRequest CONFIGURE_USAGE) when negb (String.eqb flag "--profile" && String.eqb listen "--listen");;
      throw (BadRequest "invalid listen mode") when negb (mem mode MODES);;
      Ok (path, Some mode, false)
  | _ => Err (BadRequest CONFIGURE_USAGE)
  end.
Definition configure_profile (args : list string) : Result (profile * option string * bool) :=
  let? parsed := configure_args args in
  throw (BadRequest "profile path must be absolute") when negb (starts_with "/" parsed.1.1);;
  let? profile := map_err (fun e => BadRequest ("invalid profile: " +:+ e)) (profile_at parsed.1.1) in
  Ok (profile, parsed.1.2, parsed.2).
Definition run_configure (args : list string) (s : all_settings) : all_settings * list effect * Result unit :=
  match configure_profile args with
  | Err e => (s, [], Err e)
  | Ok (profile, mode, initialize) =>
      let path := database_path profile in
      let '(own, shown) := configure inherit path mode initialize (s path) in
      match shown with
      | Ok value => (stored path own s, [Stdout (to_json_string value)], Ok tt)
      | Err e => (stored path own s, [], Err e)
      end
  end.
Definition run_command (args : list string) (s : all_settings) : all_settings * list effect * Result unit :=
  match args with
  | [] => (s, [], Err (BadRequest "Pishoo management commands have moved to genmeta; use pishoo --help"))
  | command :: rest =>
      if String.eqb command "configure" then run_configure rest s
      else if String.eqb command "reload" then let '(effects, result) := reload rest in (s, effects, result)
      else if bool_decide (rest = []) && mem command ["--help"; "-h"; "help"] then (s, [Stdout help_text], Ok tt)
      else if bool_decide (rest = []) && mem command ["--version"; "-V"] then (s, [Stdout ("pishoo " +:+ version)], Ok tt)
      else (s, [], Err (BadRequest "Pishoo management commands have moved to genmeta; use pishoo --help"))
  end.

(** ** [main]: the effects and the exit status *)
Definition exit_code (e : error) : Z := match e with BadRequest _ | InvalidComponent _ => 2 | _ => 1 end.
(** [home]: loading the account home; [run]: how serving ends. *)
Definition main (args : list string) (home : Result unit) (run : Result unit) (fs : files) (s : all_settings) :
    files * all_settings * list effect * Z :=
  match args with
  | _ :: _ =>
      match run_command args s with
      | (s, effects, Ok _) => (fs, s, effects, 0)
      | (s, effects, Err e) => (fs, s, effects ++ [Stderr ("pishoo: error: " +:+ display e)], exit_code e)
      end
  | [] =>
      match (match home with Ok _ => logging fs | Err e => (fs, Err e) end) with
      | (fs, Err e) => (fs, s, [Stderr ("pishoo: cannot initialize error.log: " +:+ display e)], 1)
      | (fs, Ok _) => match run with Ok _ => (fs, s, [], 0) | Err e => (fs, s, [], 1) end
      end
  end.

(** ** Properties *)
Lemma valid_pid_Some text pid : valid_pid text = Some pid -> parse_u32 text = Some pid /\ 1 < pid <= i32_max.
Proof. unfold valid_pid. destruct (parse_u32 text); [|done]. destruct (_ && _) eqn:Hb; [|done]. intros [= <-]. apply andb_true_iff in Hb as [?%Z.ltb_lt ?%Z.leb_le]. done. Qed.
(** A number that fits is accepted as it is printed. *)
Lemma valid_pid_show pid : 1 < pid <= i32_max -> valid_pid (show_Z pid) = Some pid.
Proof.
  intros Hp. unfold valid_pid, parse_u32. rewrite parse_show by (unfold i32_max, u32_max in *; lia).
  destruct Hp as [Hl Hu]. apply Z.ltb_lt in Hl as ->. by apply Z.leb_le in Hu as ->.
Qed.
Lemma reload_signals args effects result pid :
  reload args = (effects, result) -> Signal pid ∈ effects ->
  exists text, reload_pid args = Ok text /\ parse_u32 text = Some pid /\ 1 < pid <= i32_max /\
    exists status, kill pid = Ok status /\ (is_ok result = status.1).
Proof.
  unfold reload. destruct (reload_pid args) as [text|]; [|intros [= <- <-] []%not_elem_of_nil]. cbn.
  destruct (valid_pid text) as [p|] eqn:Hp; [|intros [= <- <-] []%not_elem_of_nil]. cbn.
  apply valid_pid_Some in Hp as [Hparse Hb]. destruct (kill p) as [[success status]|] eqn:Hk; [|intros [= <- <-] []%not_elem_of_nil].
  destruct success; cbn; intros [= <- <-] Hin; exists text; (split; [done|]).
  - apply elem_of_cons in Hin as [[= ->]|Hin]; [by eauto 6|]. by apply list_elem_of_singleton in Hin.
  - apply list_elem_of_singleton in Hin as [= ->]. by eauto 6.
Qed.
(** A command changes at most the settings of the one profile it names by an
    absolute path, and only [configure] does. *)
Theorem run_command_confined args s s' effects result :
  run_command args s = (s', effects, result) ->
  s' = s \/ exists rest path p mode initialize,
    args = "configure" :: rest /\ configure_args rest = Ok (path, mode, initialize) /\ starts_with "/" path = true /\
    profile_at path = Ok p /\ s' = stored (database_path p) (configure inherit (database_path p) mode initialize (s (database_path p))).1 s.
Proof.
  unfold run_command. destruct args as [|command rest]; [intros [= <- <- <-]; by left|].
  destruct (String.eqb command "configure") eqn:Hc.
  - apply String.eqb_eq in Hc as ->. unfold run_configure, configure_profile.
    destruct (configure_args rest) as [parsed|e] eqn:Ha; [destruct parsed as [[path mode] initialize]|cbn; intros [= <- <- <-]; by left]. cbn.
    destruct (starts_with "/" path) eqn:Hp; [|cbn; intros [= <- <- <-]; by left]. cbn.
    destruct (profile_at path) as [p|] eqn:Hprofile; [|cbn; intros [= <- <- <-]; by left]. cbn.
    destruct (configure inherit (database_path p) mode initialize (s (database_path p))) as [own shown] eqn:Hconf.
    intros Heq. right. exists rest, path, p, mode, initialize. rewrite Hconf. split_and!; try done.
    by destruct shown; injection Heq as <- <- <-.
  - destruct (String.eqb command "reload"); [destruct (reload rest); intros [= <- <- <-]; by left|].
    destruct (_ && _); [intros [= <- <- <-]; by left|]. destruct (_ && _); intros [= <- <- <-]; by left.
Qed.
Lemma create_log fs fs' : create_dir_all fs ["log"] = (fs', Ok tt) ->
  (fs' ["log"] = Some RealDir \/ fs' ["log"] = Some (Link (Some true))) /\ extended fs fs' /\ create_dir_all fs' ["log"] = (fs', Ok tt).
Proof.
  unfold create_dir_all. cbn. unfold create_missing. destruct (fs ["log"]) as [[| |[[]|]|]|] eqn:Hl; try done.
  - intros [= <-]. rewrite Hl. split; [by left|]. split; [apply extended_refl|done].
  - intros [= <-]. rewrite Hl. split; [by right|]. split; [apply extended_refl|done].
  - intros [= <-]. unfold set_entry at 1 2 4. rewrite decide_True by done. split; [by left|]. split; [by apply set_entry_extended|done].
Qed.
Lemma open_log_extended fs fs' result : open_log fs = (fs', result) -> extended fs fs'.
Proof.
  unfold open_log. destruct (fs ["log"; "error.log"]) as [[| |[[]|]|]|] eqn:Hl; intros [= <- <-]; try apply extended_refl.
  by apply set_entry_extended.
Qed.
Lemma open_log_again fs fs' : open_log fs = (fs', Ok tt) -> open_log fs' = (fs', Ok tt) /\ fs' ["log"] = fs ["log"].
Proof.
  unfold open_log. destruct (fs ["log"; "error.log"]) as [[| |[[]|]|]|] eqn:Hl; intros [= <-]; rewrite ?Hl; try done.
Qed.
Lemma move_log_root_relocated fs fs' result : prefix_closed fs -> move_log_root fs = (fs', result) -> relocated ["logs"] ["log"] fs fs'.
Proof.
  intros Hc. unfold move_log_root. intros Hm.
  assert (Hsame : relocated ["logs"] ["log"] fs fs) by (intros p e; by left).
  destruct (negb (try_exists fs ["log"]) && _); [|by injection Hm as <- _]. destruct (negb _); [by injection Hm as <- _|].
  unfold rename in Hm. destruct (fs ["log"]) eqn:Hl; injection Hm as <- _; [done|]. apply renamed_relocated, closed_below; done.
Qed.
(** Opening the log loses no file, whatever fails, and a service that could open
    it finds everything in place the next time. *)
Theorem logging_keeps fs fs' result : prefix_closed fs -> logging fs = (fs', result) ->
  relocated ["logs"] ["log"] fs fs' /\ (result = Ok tt -> logging fs' = (fs', Ok tt)).
Proof.
  intros Hc. unfold logging at 1. destruct (move_log_root fs) as [fs1 [[]|e]] eqn:Hm; apply move_log_root_relocated in Hm; [|done| |done].
  2: { intros [= <- <-]. done. }
  assert (Hthen : forall fs2, extended fs1 fs2 -> relocated ["logs"] ["log"] fs fs2).
  { intros fs2 He p x Hp. destruct (Hm _ _ Hp) as [?|(rest & -> & ?)]; [left; by apply He|]. right. exists rest. split; [done|]. by apply He. }
  destruct (create_dir_all fs1 ["log"]) as [fs2 [[]|e]] eqn:Hd.
  - apply create_log in Hd as (Hl & Hext & Hagain). intros Ho.
    assert (Hext2 := open_log_extended _ _ _ Ho). split; [apply Hthen; by eapply extended_trans|]. intros ->.
    apply open_log_again in Ho as [Ho Hsame]. unfold logging, move_log_root.
    assert (Hexists : try_exists fs' ["log"] = true) by (unfold try_exists; rewrite Hsame; by destruct Hl as [-> | ->]).
    rewrite Hexists. cbn [negb andb].
    assert (create_dir_all fs' ["log"] = (fs', Ok tt)) as ->.
    { unfold create_dir_all. cbn. unfold create_missing. rewrite Hsame. by destruct Hl as [-> | ->]. }
    exact Ho.
  - intros [= <- <-]. split; [|done]. apply Hthen. unfold create_dir_all in Hd. cbn in Hd. unfold create_missing in Hd.
    destruct (fs1 ["log"]) as [[| |[[]|]|]|]; try discriminate; injection Hd as <- _; apply extended_refl.
Qed.
End cli.
