(* ===== verification/AccessLog.v ===== *)
(** * The access log ([open_access_log] and [serve_request] of [src/server.rs])

    One line per request, whatever the request: the path is written with [Debug],
    so its characters cannot end the line. *)
From S2P Require Import Prelude RustStr Decimal Json Crates Errors Layout Guest.

(** ** [Debug] of a [str] *)
(** [\u{..}]: the number in hexadecimal, without leading zeros. *)
Definition hex_places : list Z := [16 ^ 5; 16 ^ 4; 16 ^ 3; 16 ^ 2; 16; 1].
Fixpoint drop_zeros (l : list Z) : list Z := 
  match l with
  | z :: ((_ :: _) as l') => if z =? 0 then drop_zeros l' else l
  | _ => l
  end.
Definition unicode_escape (c : Z) : string :=
  "\u{" +:+ of_bytes (map hex_digit (drop_zeros (map (fun place => c / place mod 16) hex_places))) +:+ "}".

Section log.
(** The Unicode tables of the standard library, beyond the ASCII characters. *)
Variables (unprintable grapheme_extended : Z -> bool).
Definition is_printable (c : Z) : bool := if c <? 32 then false else if c <? 127 then true else negb (unprintable c).
Definition debug_char (x : schar) : string :=
  let '(c, bytes) := x in
  if c =? 0 then "\0" else if c =? 9 then "\t" else if c =? 13 then "\r" else if c =? 10 then "\n"
  else if c =? 34 then "\" +:+ String "034" "" else if c =? 92 then "\\"
  else if (767 <? c) && grapheme_extended c then unicode_escape c
  else if is_printable c then bytes
  else unicode_escape c.
Definition debug_str (s : string) : string :=
  String "034" "" +:+ String.concat "" (map debug_char (char_indices s)) +:+ String "034" "".

(** ** [serve_request] *)
Record logged := Logged { lg_method : string; lg_path : string; lg_version : string; lg_peer : option string }.
Definition log_entry (now name : string) (r : logged) (status : Z) : string :=
  now +:+ " request server=" +:+ name +:+ " peer=" +:+ default "anonymous" (lg_peer r) +:+ " version=" +:+ lg_version r
  +:+ " method=" +:+ lg_method r +:+ " path=" +:+ debug_str (lg_path r) +:+ " status=" +:+ show_Z status.
Definition log_line (now name : string) (r : logged) (status : Z) : string := log_entry now name r status +:+ String "010" "".
(** [write_all] appends the whole line, or fails after a part of it. *)
Definition write_all (failed_after : option nat) (line log : string) : string :=
  log +:+ match failed_after with None => line | Some n => substring 0 n line end.
Context {request response : Type}.
Variable facts_of : request -> logged.
Variable status_of : response -> Z.
Definition serve_request (router : request -> response) (now name : string) (failed_after : option nat) (rq : request) (log : string) :
    string * response :=
  let answer := router rq in
  (write_all failed_after (log_line now name (facts_of rq) (status_of answer)) log, answer).

(** ** [open_access_log] *)
(** [O_NOFOLLOW]: a link is refused; [owner]: [inherit_identity_owner]. *)
Definition open_access_log (owner : Result unit) (s : files) : files * Result unit :=
  match s ["log"; "access.log"] with
  | None =>
      if bool_decide (is_Some (s ["log"])) then (set_entry ["log"; "access.log"] (PlainFile "") s, owner)
      else (s, Err not_there)
  | Some (PlainFile _) => (s, owner)
  | Some _ => (s, Err (Io OtherIo "log/access.log"))
  end.

(** ** Properties *)
Definition newline : ascii := "010".
(** The characters of a valid [str]: ASCII ones are their byte, the bytes of the
    others are not ASCII. *)
Definition well_decoded (x : schar) : Prop :=
  (exists a, x = (code a, String a "") /\ code a < 128) \/ Forall (fun a => 128 <= code a) (bytes_of x.2).
Lemma cont_high c : cont_byte c = true -> 128 <= c.
Proof. unfold cont_byte. intros [H _]%andb_true_iff. lia. Qed.
Lemma second_high a b : second_byte_ok a b = true -> 128 <= b.
Proof. unfold second_byte_ok, cont_byte. repeat case_match; intros [H' _]%andb_true_iff; lia. Qed.
Lemma char_indices_decoded n s : (String.length s <= n)%nat -> utf8_valid (map code (bytes_of s)) = true ->
  Forall well_decoded (char_indices s).
Proof.
  revert s. induction n as [|n IH]; intros [|a s] Hlen Hv; cbn in Hlen; [constructor|lia|constructor|].
  cbn [bytes_of map utf8_valid] in Hv. cbn [char_indices].
  destruct (code a <=? 127) eqn:Ha.
  { assert (Hlt : code a <? 128 = true) by lia. rewrite Hlt. constructor; [left; exists a; split; [done|lia]|].
    apply IH; [lia|done]. }
  assert (code a <? 128 = false) as -> by lia. destruct s as [|b s]; [done|]. cbn [bytes_of map] in Hv. cbn in Hlen.
  destruct ((194 <=? code a) && (code a <=? 223)) eqn:H2b.
  { apply andb_true_iff in H2b as [? ?], Hv as [Hb%cont_high Hv]. assert (code a <? 224 = true) as -> by lia.
    constructor; [right; cbn; repeat constructor; lia|]. apply IH; [lia|done]. }
  destruct s as [|c s]; [done|]. cbn [bytes_of map] in Hv. cbn in Hlen.
  destruct ((224 <=? code a) && (code a <=? 239)) eqn:H3b.
  { apply andb_true_iff in H3b as [? ?], Hv as [[Hb%second_high Hc%cont_high]%andb_true_iff Hv].
    assert (code a <? 224 = false) as -> by lia. assert (code a <? 240 = true) as -> by lia.
    constructor; [right; cbn; repeat constructor; lia|]. apply IH; [lia|done]. }
  destruct s as [|d s]; [done|]. cbn [bytes_of map] in Hv. cbn in Hlen.
  repeat match type of Hv with _ && _ = true => let H := fresh "Hg" in apply andb_true_iff in Hv as [Hv H] end.
  assert (code a <? 224 = false) as -> by lia. assert (code a <? 240 = false) as -> by lia.
  apply second_high in Hg2. apply cont_high in Hg1, Hg0.
  constructor; [right; cbn; repeat constructor; lia|]. apply IH; [lia|done].
Qed.
Definition one_line (s : string) : Prop := contains_char newline s = false.
Lemma one_line_app a b : one_line a -> one_line b -> one_line (a +:+ b).
Proof. unfold one_line, contains_char. intros Ha Hb. by rewrite any_byte_app, Ha, Hb. Qed.
Lemma one_line_concat l : Forall one_line l -> one_line (String.concat "" l).
Proof.
  induction 1 as [|x l Hx Hl IH]; [done|]. destruct l as [|y l]; [done|].
  change (String.concat "" (x :: y :: l)) with (x +:+ ("" +:+ String.concat "" (y :: l))). by apply one_line_app.
Qed.
Lemma one_line_bytes l : Forall (fun a => a <> newline) l -> one_line (of_bytes l).
Proof.
  unfold one_line, contains_char, any_byte, of_bytes. induction 1 as [|a l Ha Hl IH]; [done|]. cbn [string_of_list_ascii bytes_of existsb].
  destruct (Ascii.eqb_spec newline a) as [Heq|_]; [congruence|exact IH].
Qed.
Lemma drop_zeros_Forall (P : Z -> Prop) l : Forall P l -> Forall P (drop_zeros l).
Proof.
  induction 1 as [|z l Hz Hl IH]; [constructor|]. cbn. destruct l as [|y l]; [by constructor|].
  destruct (z =? 0); [done|by constructor].
Qed.
Lemma hex_digit_line z : 0 <= z < 16 -> hex_digit z <> newline.
Proof.
  intros Hz. assert (Hin : z ∈ map Z.of_nat (seq 0 16)).
  { apply list_elem_of_fmap. exists (Z.to_nat z). split; [lia|]. apply elem_of_seq. lia. }
  revert Hin. apply (Forall_forall (fun z => hex_digit z <> newline)). cbn. repeat constructor; by vm_compute.
Qed.
Lemma unicode_escape_line c : one_line (unicode_escape c).
Proof.
  unfold unicode_escape. apply one_line_app; [done|]. apply one_line_app; [|done].
  apply one_line_bytes, Forall_map, drop_zeros_Forall, Forall_map, Forall_true. intros place. cbn.
  apply hex_digit_line. by apply Z.mod_pos_bound.
Qed.
Lemma code_newline a : code a <> 10 -> a <> newline.
Proof. intros Hc ->. by apply Hc. Qed.
Lemma debug_char_line x : well_decoded x -> one_line (debug_char x).
Proof.
  destruct x as [c bytes]. unfold debug_char. intros Hd.
  destruct (c =? 0); [done|]. destruct (c =? 9); [done|]. destruct (c =? 13); [done|].
  destruct (c =? 10) eqn:Hc; [done|]. destruct (c =? 34); [done|]. destruct (c =? 92); [done|].
  destruct (_ && _); [apply unicode_escape_line|]. destruct (is_printable c); [|apply unicode_escape_line].
  destruct Hd as [(a & [= -> ->] & _)|Hd].
  - apply (one_line_bytes [a]). repeat constructor. apply code_newline. lia.
  - cbn in Hd. unfold one_line, contains_char, any_byte. induction Hd as [|a l Ha Hl IH]; [done|]. cbn [existsb].
    destruct (Ascii.eqb_spec newline a) as [<-|_]; [by vm_compute in Ha|exact IH].
Qed.
Lemma debug_str_line s : utf8_valid (map code (bytes_of s)) = true -> one_line (debug_str s).
Proof.
  intros Hv. unfold debug_str. apply one_line_app; [done|]. apply one_line_app; [|done].
  apply one_line_concat, Forall_map. eapply Forall_impl; [by eapply (char_indices_decoded (String.length s))|].
  intros x Hx. by apply debug_char_line.
Qed.
Lemma show_Z_line z : 0 <= z -> one_line (show_Z z).
Proof.
  intros Hz. destruct (show_Z_canonical z Hz) as (_ & Hall & _). eapply all_any_byte; [|exact Hall].
  intros a Ha. destruct (Ascii.eqb_spec newline a) as [<-|]; [done|reflexivity].
Qed.
(** What the HTTP library and the names of identities guarantee: a method, a
    version and a name are one line, a path is UTF-8. *)
Definition proper (r : logged) : Prop :=
  one_line (lg_method r) /\ one_line (lg_version r) /\ one_line (default "" (lg_peer r)) /\
  utf8_valid (map code (bytes_of (lg_path r))) = true.
Lemma log_entry_line now name r status : one_line now -> one_line name -> proper r -> 0 <= status -> one_line (log_entry now name r status).
Proof.
  intros Hnow Hname (Hm & Hv & Hp & Hpath) Hs. unfold log_entry.
  assert (Hpeer : one_line (default "anonymous" (lg_peer r))) by (by destruct (lg_peer r)).
  repeat (apply one_line_app; [done || by apply debug_str_line|]). by apply show_Z_line.
Qed.

(** A series of requests, each with the time it is logged at. *)
Fixpoint serve_all (router : request -> response) (name : string) (rqs : list (string * request)) (log : string) : string * list response :=
  match rqs with
  | [] => (log, [])
  | (now, rq) :: rqs =>
      let '(log, answer) := serve_request router now name None rq log in
      let '(log, answers) := serve_all router name rqs log in (log, answer :: answers)
  end.
Lemma log_extends router name rqs log :
  serve_all router name rqs log =
    (log +:+ String.concat "" (map (fun e => log_line e.1 name (facts_of e.2) (status_of (router e.2))) rqs), map (fun e => router e.2) rqs).
Proof.
  revert log. induction rqs as [|[now rq] rqs IH]; intros log; [cbn; by rewrite app_nil_r_str|].
  cbn [serve_all serve_request]. unfold serve_request, write_all. rewrite IH. cbn [map fst snd]. f_equal.
  rewrite app_assoc_str. f_equal. destruct rqs; cbn [map]; [cbn; by rewrite app_nil_r_str|done].
Qed.
(** Whatever paths are asked for, the log gets exactly one line per request, in
    order, with the peer, the path and the status of that request, and the
    answers are the router's. *)
Theorem access_log_lines router name rqs log answers :
  one_line name -> Forall (fun e => one_line e.1 /\ proper (facts_of e.2) /\ 0 <= status_of (router e.2)) rqs ->
  serve_all router name rqs "" = (log, answers) ->
  split_on newline log = map (fun e => log_entry e.1 name (facts_of e.2) (status_of (router e.2))) rqs ++ [""] /\
  answers = map (fun e => router e.2) rqs.
Proof.
  intros Hname Hall. rewrite log_extends. intros [= <- <-]. split; [|done].
  change ("" +:+ String.concat "" (map (fun e => log_line e.1 name (facts_of e.2) (status_of (router e.2))) rqs))
    with (String.concat "" (map (fun e => log_line e.1 name (facts_of e.2) (status_of (router e.2))) rqs)).
  induction Hall as [|[now rq] rqs (Hnow & Hp & Hs) Hall IH]; [done|]. cbn [map fst snd] in *.
  assert (Hcat : forall x l, String.concat "" (x :: l) = x +:+ String.concat "" l).
  { intros x [|y l]; [cbn; by rewrite app_nil_r_str|done]. }
  rewrite Hcat. unfold log_line at 1. rewrite app_assoc_str. cbn [String.append].
  pose proof (split_on_app newline) as Happ. cbv delta [newline] in Happ |- *. rewrite Happ by by apply log_entry_line.
  cbv delta [newline] in IH. by rewrite IH.
Qed.
End log.
