(* ===== verification/Examples.v ===== *)
(** * The theorems at concrete inputs

    The crates are those of [Fixtures]; the package store serves the two
    packages [a/b] and [a/c] of that file.  Each lemma applies one theorem of
    the development to inputs that its hypotheses hold of. *)
From S2P Require Import Prelude RustStr Decimal Json Crates Errors Fixtures Ids Manifest Waz Metadata Signing Store.
From S2P Require Import Registry Commit Install Capabilities NetAddr Setup Proxy Outbound Access.

#[local] Existing Instances json_codec toy_sha2 toy_sha1 toy_base64 toy_home toy_access toy_webpki toy_x509 toy_zip
  toy_urls toy_valid toy_wasm toy_oas toy_headers.

(** The endpoint of the store. *)
Definition answer_json (j : json) : option Store.response :=
  Some (Store.Response (Some ("store.dhttp.net", ["store"])) 200 (Some "application/json") [DataFrame (encode j)]).
Definition answer_zip (bytes : string) : option Store.response :=
  Some (Store.Response (Some ("store.dhttp.net", ["store"])) 200 (Some "application/zip") [DataFrame bytes]).
Definition store_path (name : string) : string :=
  "https://store.dhttp.net/store/v1/packages/a/" +:+ name +:+ "/versions/1.0.0".
Definition toy_store : StoreEndpoint :=
  {| endpoint_get uri accept :=
       if String.eqb uri (store_path "b") then answer_json metadata_b
       else if String.eqb uri (store_path "c") then answer_json metadata_c
       else if String.eqb uri (store_path "b" +:+ "/package.waz") then answer_zip waz_b
       else if String.eqb uri (store_path "c" +:+ "/package.waz") then answer_zip waz_c
       else None |}.
#[local] Existing Instance toy_store.

Definition resource_b : resource := ("a/b", waz_b, metadata_b).
Definition resource_c : resource := ("a/c", waz_c, metadata_c).
Definition empty_db : database := Database ∅ ∅ ∅ ∅ [].

(** ** The package store *)
Lemma download_release_authentic_witness :
  exists bytes metadata, download_release "root" 20 "a" "c" "1.0.0" = Ok (bytes, metadata) /\ 0 < slen bytes <= 64 * mib.
Proof.
  exists waz_c, metadata_c. assert (download_release "root" 20 "a" "c" "1.0.0" = Ok (waz_c, metadata_c)) as Hd by (vm_compute; reflexivity).
  split; [exact Hd|]. exact (proj1 (download_release_authentic _ _ _ _ _ _ _ Hd)).
Defined.

Lemma resolve_closed_witness :
  satisfies [resource_c; resource_b] ("a", "c", "1.0.0").
Proof.
  assert (resolve "root" 20 resolve_fuel [] [("a", "c", "1.0.0")] [] = Some (Ok [resource_c; resource_b])) as Hr
    by (vm_compute; reflexivity).
  exact (proj1 (proj2 (proj2 (proj2 (proj2 (resolve_closed _ _ _ _ _ Hr)))))).
Defined.

Lemma order_packages_sound_witness :
  topological "root" [] [resource_b; resource_c].
Proof.
  assert (order_packages "root" [resource_c; resource_b] = Ok [resource_b; resource_c]) as Ho by (vm_compute; reflexivity).
  exact (proj2 (order_packages_sound _ _ _ Ho)).
Defined.

Lemma order_packages_complete_witness :
  exists l, l ≡ₚ [resource_c; resource_b] /\ topological "root" [] l.
Proof.
  apply (order_packages_complete "root" [resource_c; resource_b]).
  - repeat constructor; set_solver.
  - repeat constructor; eexists; vm_compute; reflexivity.
  - exists [resource_b; resource_c]. vm_compute. reflexivity.
Defined.

(** ** Signing *)
Definition chain_ab : list string := ["leaf"; "issuer"].
Definition crl_file : string := Eval vm_compute in crl_path "issuer".
Definition one_crl (bytes : string) : gmap string string := {[crl_file := bytes]}.
Lemma certificates_b : certificates files_b = Ok chain_ab.
Proof. vm_compute. reflexivity. Defined.
Lemma authentic_crl1 : authentic "crl1" chain_ab (toy_crl 1 []) toy_leaf 1.
Proof.
  split; [vm_compute; discriminate|]. split; [|split; [reflexivity|vm_compute; discriminate]].
  exists "leaf", "issuer", "", "", toy_issuer. split_and!; vm_compute; reflexivity.
Defined.

Lemma verify_chain_sound_witness : 0 <= 10 /\ @normalize_name toy_home "a" = Some "a".
Proof.
  assert (verify_chain "root" chain_ab "a" 10 = Ok tt) as Hv by (vm_compute; reflexivity).
  destruct (verify_chain_sound _ _ _ _ Hv) as (H1 & H2 & _). split; assumption.
Defined.

(** A list that revokes nothing is imported and accepted. *)
Lemma check_revocations_enforced_witness :
  exists list leaf n, authentic "crl1" chain_ab list leaf n /\ last_update list <= 10.
Proof.
  assert (check_revocations no_faults files_b ∅ (JStr "crl1") 10 = (one_crl "crl1", Ok tt)) as Hc by (vm_compute; reflexivity).
  pose proof (check_revocations_enforced _ _ _ _ _ _ _ "issuer" Hc certificates_b eq_refl) as Hw.
  change (one_crl "crl1" !! crl_path "issuer") with (Some "crl1") in Hw.
  destruct Hw as (list & leaf & n & Ha & _ & Hl & _). exists list, leaf, n. split; assumption.
Defined.

(** The list that revokes the leaf replaces the older one. *)
Lemma check_revocations_monotonic_witness :
  exists bytes list leaf n, one_crl "crl2" !! crl_path "issuer" = Some bytes /\ authentic bytes chain_ab list leaf n /\ (1 <= n)%N.
Proof.
  assert (check_revocations no_faults files_b (one_crl "crl1") (JStr "crl2") 10 = (one_crl "crl2", Err revoked_error)) as Hc
    by (vm_compute; reflexivity).
  assert (one_crl "crl1" !! crl_path "issuer" = Some "crl1") as Hl by (vm_compute; reflexivity).
  destruct (check_revocations_monotonic _ _ _ _ _ _ _ _ "issuer" _ _ _ _ Hc certificates_b eq_refl Hl authentic_crl1)
    as (_ & bytes & list & leaf & n & Hb & Ha & Hn).
  exists bytes, list, leaf, n. split_and!; assumption.
Defined.

(** ** The archive *)
Lemma waz_b_reads : waz_read waz_b = Ok files_b.
Proof. vm_compute. reflexivity. Defined.
Lemma waz_read_tiles_witness : exists archive entries, zip_open waz_b = Ok archive /\ zip_entries archive = Ok <$> entries.
Proof.
  destruct (waz_read_tiles waz_b files_b waz_b_reads) as (archive & entries & _ & H1 & H2 & _). exists archive, entries. split; assumption.
Defined.
Lemma waz_read_paths_witness : NoDup files_b.*1 /\ exists manifest, ("manifest.json", manifest) ∈ files_b.
Proof. destruct (waz_read_paths waz_b files_b waz_b_reads) as (H1 & _ & _ & H2). split; assumption. Defined.
Lemma waz_read_budget_witness : total_size files_b <= WAZ_LIMIT.
Proof. exact (proj1 (waz_read_budget waz_b files_b waz_b_reads)). Defined.
Lemma waz_payload_input_inj_witness :
  map signed_facts (waz_signed_files files_b) = map signed_facts (waz_signed_files (filter (fun f => f.1 <> "signature.json") files_b)).
Proof.
  apply waz_payload_input_inj; [exact toy_sha2_length| | |vm_compute; reflexivity].
  - repeat constructor; vm_compute; reflexivity.
  - repeat constructor; vm_compute; reflexivity.
Defined.

(** ** Metadata, declarations and contents *)
Lemma package_metadata_sound_witness :
  exists value, package_metadata files_c = Ok value /\ str_at value "publisher" = Some "a" /\
    is_true value.["has_lib"] || is_true value.["has_app"] = true.
Proof.
  destruct (package_metadata files_c) as [value|] eqn:Hm; [|vm_compute in Hm; discriminate].
  exists value. split; [reflexivity|]. split; [vm_compute in Hm; injection Hm as <-; reflexivity|].
  destruct (package_metadata_sound files_c value Hm) as (? & ? & ? & _ & _ & _ & _ & _ & _ & _ & _ & _ & _ & _ & _ & _ & Hb & _).
  exact Hb.
Defined.

(** One operation, in one group. *)
Definition api_document (group : string) : json :=
  jobj [("openapi", JStr "3.1.0"); ("info", jobj [("title", JStr "t"); ("version", JStr "1.0.0")]);
        ("x-access-groups", jobj [("readers", jobj [("title", JStr "Readers"); ("operations", JArr [JStr "list"])])]);
        ("paths", jobj [("/items", jobj [("get", jobj [("operationId", JStr "list"); ("summary", JStr "s");
                                                       ("x-access-group", JStr group)])])])].
Lemma validate_declarations_agree_witness :
  exists paths, as_object (api_document "readers").["paths"] = Some paths /\
    NoDup (omap (fun op => str_at op "operationId") (document_operations paths)).
Proof.
  assert (validate_declarations (api_document "readers") = Ok tt) as Hv by (vm_compute; reflexivity).
  destruct (validate_declarations_agree _ Hv) as (paths & H1 & H2 & _). exists paths. split; assumption.
Defined.

(** The same package with a backend. *)
Definition backend_b : string := Eval vm_compute in make_wasm (encode (api_document "readers")).
Definition backend_files : list (string * string) := Eval vm_compute in
  [("backend.wasm", backend_b);
   ("manifest.json", encode (toy_manifest "b" [] [("backend", JStr "backend.wasm")])); ("public/index.html", "hi")].
Lemma validate_contents_backend_witness :
  starts_with component_magic backend_b = true /\ exists raw, package_openapi backend_files = Ok raw.
Proof.
  destruct (validate_contents backend_files) as [metadata|] eqn:Hv; [|vm_compute in Hv; discriminate].
  destruct (validate_contents_backend backend_files metadata backend_b Hv eq_refl) as (H1 & raw & _ & _ & H2 & _).
  split; [exact H1|]. exists raw. exact H2.
Defined.

Lemma validate_lib_sound_witness : slen backend_b <= 64 * mib.
Proof.
  destruct (validate_lib backend_b) as [api|] eqn:Hv; [|vm_compute in Hv; discriminate].
  exact (proj1 (validate_lib_sound backend_b api Hv)).
Defined.

(** ** The registry *)
Lemma db_ok_empty : db_ok empty_db.
Proof.
  constructor; cbn; try (intros *; rewrite lookup_empty; discriminate).
  intros n Hn. inversion Hn as [? ? [v Hv]|? ? ? [v Hv]]; subst; cbn in Hv; rewrite lookup_empty in Hv; discriminate.
Defined.
(** The metadata installation stores for [a/b]. *)
Definition stored_b : json :=
  jobj [("version", JStr "1.0.0"); ("title", JStr "t"); ("has_lib", JBool true); ("has_app", JBool true);
        ("author_owner_hash", JStr "owner"); ("dependencies", JArr [])].
Definition row_b : row := Row "b" (Some "a") "1.0.0" (Some "t") None None None (Some 5) None true true (Some "owner") None None.
Definition db_b : database :=
  Database {["b" := row_b]} ∅ {[("b", "readers") := "Readers"]} {[("GET", "/b/items") := ("b", "readers")]} [].
Lemma saved_b : save_registration 5 "a/b" stored_b backend_files empty_db = Ok db_b.
Proof. vm_compute. reflexivity. Defined.
Lemma db_ok_b : db_ok db_b.
Proof. exact (proj1 (save_registration_facts 5 "a/b" stored_b backend_files empty_db db_b db_ok_empty saved_b)). Defined.

Lemma save_registration_ok_witness :
  db_ok db_b /\ package db_b = <["b" := new_row 5 "a/b" stored_b None]> ∅.
Proof.
  destruct (save_registration_ok 5 "a/b" stored_b backend_files empty_db db_b db_ok_empty saved_b) as (H1 & H2 & _).
  split; assumption.
Defined.
Lemma unregister_ok_witness : exists db', unregister "a/b" db_b = Ok db' /\ db_ok db'.
Proof.
  pose proof (unregister_ok "a/b" db_b db_ok_b) as Hu.
  change (referenced (short_name "a/b") db_b) with false in Hu.
  destruct Hu as (db' & H1 & H2 & _). exists db'. split; assumption.
Defined.
Lemma permissions_replace_witness :
  same_registrations empty_db (set_acl {[("b", "readers") := "Readers"]} {[("GET", "/b/items") := ("b", "readers")]} empty_db).
Proof.
  assert (permissions "b" [("readers", "Readers", [("GET", "/b/items")])] empty_db
          = Ok (set_acl {[("b", "readers") := "Readers"]} {[("GET", "/b/items") := ("b", "readers")]} empty_db)) as Hp
    by (vm_compute; reflexivity).
  exact (proj1 (permissions_replace "b" _ _ _ Hp)).
Defined.

(** ** The file transaction: installing [a/b] over nothing *)
Definition member_b : member :=
  Member "a/b" "b" (staged None (Some [("b.wasm", "wasm")])) (staged None (Some [("index.html", "hi")])).
Definition world_b : world := World [member_b] None true empty_db.
Lemma members_ok_b : members_ok (w_members world_b).
Proof.
  split; [cbn; lia|]. split; [repeat constructor|].
  split; [apply NoDup_singleton|]. repeat constructor.
Defined.
Lemma staged_world_b : staged_world world_b.
Proof. repeat constructor; eexists _, _; reflexivity. Defined.
Lemma journal_small_b : slen (to_json_string (journal_json db_b (w_members world_b))) <= 2 * 1024 * 1024.
Proof. vm_compute. discriminate. Defined.
Lemma facts_differ_b :
  exists m, m ∈ w_members world_b /\
    registration_facts true db_b (short_name (m_id m)) <> registration_facts true (w_db world_b) (short_name (m_id m)).
Proof. exists member_b. split; [left|vm_compute; discriminate]. Defined.

(** A crash after one rename, with recoveries that stop while they remove the
    target and after the first resource; and a crash after the commit. *)
Lemma commit_crash_atomic_witness :
  (exists w1 w', recoveries [InFiles 0 (Removing None); InFiles 1 Untouched]
       (execute (take 1 (commit_steps world_b db_b ++ cleanup_steps)) (journalled world_b db_b)) = Ok w1 /\
     recover_package_files w1 = Ok w' /\ targets w' = targets world_b /\ w_db w' = empty_db) /\
  (exists w1 w', recoveries [InCleanup 0]
       (execute (take 3 (commit_steps world_b db_b ++ cleanup_steps)) (journalled world_b db_b)) = Ok w1 /\
     recover_package_files w1 = Ok w' /\ targets w' = candidates world_b /\ w_db w' = db_b).
Proof.
  split.
  - destruct (commit_crash_atomic json_codec_roundtrip world_b db_b 1 [InFiles 0 (Removing None); InFiles 1 Untouched]
      members_ok_b staged_world_b journal_small_b facts_differ_b)
      as (w1 & w' & H1 & H2 & _ & H3 & H4). exists w1, w'. split_and!; assumption.
  - destruct (commit_crash_atomic json_codec_roundtrip world_b db_b 3 [InCleanup 0]
      members_ok_b staged_world_b journal_small_b facts_differ_b)
      as (w1 & w' & H1 & H2 & _ & H3 & H4). exists w1, w'. split_and!; assumption.
Defined.
(** The same release of [a/b] saved a second time at second 9 leaves the facts of
    the first time, and a crash after the first rename loses its Lib. *)
Definition again_b (db : database) : database := default empty_db (ok (save_registration 9 "a/b" stored_b backend_files db)).
Definition installed_b : world :=
  World [Member "a/b" "b" (staged (Some [("b.wasm", "wasm")]) (Some [("b.wasm", "wasm")])) (staged None None)] None true (again_b db_b).
Lemma recovery_equal_facts_witness :
  again_b (again_b db_b) = again_b db_b /\ targets installed_b = [(Some [("b.wasm", "wasm")], None)] /\
  exists w2, recover_package_files (execute (take 1 (switch_steps (w_members installed_b)))
      (journalled installed_b (again_b (again_b db_b)))) = Ok w2 /\ targets w2 = [(None, None)].
Proof.
  assert (again_b (again_b db_b) = again_b db_b) as Hsame by (vm_compute; reflexivity).
  split; [exact Hsame|]. split; [reflexivity|]. rewrite Hsame.
  destruct (recovery_equal_facts json_codec_roundtrip installed_b (again_b db_b) 1) as (w2 & H1 & H2 & _).
  - split; [cbn; lia|]. split; [repeat constructor|]. split; [apply NoDup_singleton|]. repeat constructor.
  - vm_compute. discriminate.
  - reflexivity.
  - exists w2. split; [exact H1|]. rewrite H2. reflexivity.
Defined.
(** The second rename fails, and so does the rollback. *)
Definition failure_b : failure := Failure None (Some (1%nat, Denied)) (Some (0%nat, Removing None)) 2.
Lemma commit_failure_restores_witness :
  exists w1 w2 w3, commit_packages_files failure_b world_b db_b = (w1, Err Denied) /\
    recoveries [] w1 = Ok w2 /\ recover_package_files w2 = Ok w3 /\ targets w3 = targets world_b.
Proof.
  destruct (commit_packages_files failure_b world_b db_b) as [w1 [u|e]] eqn:Hc;
    [apply (f_equal snd) in Hc; vm_compute in Hc; discriminate|].
  assert (e = Denied) as -> by (apply (f_equal snd) in Hc; vm_compute in Hc; injection Hc as <-; reflexivity).
  destruct (commit_failure_restores json_codec_roundtrip world_b db_b failure_b [] w1 Denied members_ok_b staged_world_b
              eq_refl facts_differ_b Hc) as (_ & _ & w2 & w3 & H1 & H2 & H3 & _).
  exists w1, w2, w3. split_and!; [reflexivity|assumption..].
Defined.
Lemma commit_success_witness :
  exists w', commit_packages_files no_failure world_b db_b = (w', Ok tt) /\ targets w' = candidates world_b.
Proof.
  destruct (commit_success world_b db_b no_failure members_ok_b staged_world_b journal_small_b eq_refl eq_refl) as (w' & H1 & H2 & _).
  exists w'. split; assumption.
Defined.
Lemma journal_roundtrip_witness :
  read_journal (to_json_string (journal_json db_b [member_b])) = Ok [recovered_of db_b member_b].
Proof. exact (journal_roundtrip json_codec_roundtrip db_b [member_b] members_ok_b journal_small_b). Defined.

(** ** Installation *)
Definition state_0 : state := State empty_db ∅ ∅ (Sandbox false ∅ ∅) [].
Definition no_lib (id wasm : string) : Result openapi := Err Denied.
Definition install := install_packages "root" 20 no_lib.

(** Both packages are installed; the second depends on the first. *)
Lemma install_packages_registry_witness :
  exists s', install (no_io no_failure) state_0 [resource_b; resource_c] = (s', Ok tt) /\ db_ok (st_db s').
Proof.
  destruct (install (no_io no_failure) state_0 [resource_b; resource_c]) as [s' r] eqn:Hi.
  assert (r = Ok tt) as Hr.
  { change r with (s', r).2. rewrite <- Hi. vm_compute. reflexivity. }
  subst r. exists s'. split; [reflexivity|].
  exact (proj1 (install_packages_registry "root" 20 no_lib (no_io no_failure) state_0 [resource_b; resource_c] s' db_ok_empty Hi)).
Defined.
(** A rename fails after the first step. *)
Definition failure_i : failure := Failure None (Some (1%nat, Denied)) None 0.
Lemma install_packages_error_unchanged_witness :
  exists s' e, install_opened "root" 20 no_lib (no_io failure_i) state_0 [resource_b; resource_c] = (s', Err e) /\
    st_db s' = empty_db /\ st_disk s' = ∅.
Proof.
  destruct (install_opened "root" 20 no_lib (no_io failure_i) state_0 [resource_b; resource_c]) as [s' r] eqn:Hi.
  assert (r = Err Denied) as Hr.
  { change r with (s', r).2. rewrite <- Hi. vm_compute. reflexivity. }
  subst r. exists s', Denied. split; [reflexivity|].
  destruct (install_packages_error_unchanged "root" 20 no_lib _ state_0 [resource_b; resource_c] s' Denied Hi eq_refl)
    as (H1 & H2 & _). split; assumption.
Defined.

(** ** Permission declarations *)
Definition api_lib : string := Eval vm_compute in make_wasm (encode (api_document "readers")).
Lemma write_declarations_sound_witness :
  exists db', write_declarations (fun _ _ => Ok api_lib) db_b "b" "PUT"
      (JArr [jobj [("id", JStr "all"); ("title", JStr "All");
                   ("endpoints", JArr [jobj [("method", JStr "GET"); ("path", JStr "/b/items")]])]]) = Ok db' /\
    same_registrations db_b db'.
Proof.
  destruct (write_declarations _ _ _ _ _) as [db'|] eqn:Hw; [|vm_compute in Hw; discriminate].
  exists db'. split; [reflexivity|].
  destruct (write_declarations_sound _ _ _ _ _ Hw) as (r & _ & _ & Hs & _). exact Hs.
Defined.

(** ** Configuration *)
Definition settings_b : settings := Settings 3 true true ∅ db_b [].
Definition mount_json : json := jobj [("location", JStr "/x/"); ("proxy_pass", JStr "http://127.0.0.1:80/y/")].
Definition settings_mounted : settings :=
  Settings 3 true true ∅ (set_locations [("/x/", "http://127.0.0.1:80/y/")] db_b) [].
Lemma mounted_b :
  config_database None "PATCH" "/std/sys/mount" None (Some mount_json) settings_b
    = (settings_mounted, Ok (JArr [mount_json])).
Proof. vm_compute. reflexivity. Defined.
Lemma config_mount_effect_witness :
  assoc "/x/" (proxy_location (registry settings_mounted)) = Some "http://127.0.0.1:80/y/".
Proof.
  destruct (config_mount_effect None mount_json settings_b settings_mounted _ mounted_b)
    as (s0 & rule & config & _ & Hone & _ & _ & Hl & _).
  vm_compute in Hone. injection Hone as <-. exact (Hl "/x/").
Defined.
Lemma config_database_sound_witness :
  exists config, read_server_config settings_mounted = Ok config /\ Forall local_proxy (proxy_locations config).
Proof.
  destruct (config_database_sound _ _ _ _ _ _ _ _ mounted_b) as (_ & config & _ & (_ & H1 & H2 & _) & _).
  exists config. split; assumption.
Defined.
Lemma config_unmount_effect_witness :
  exists s', config_database None "DELETE" "/std/sys/mount" (Some "location=/x/&proxy_pass=http://127.0.0.1:80/y/") None settings_mounted
    = (s', Ok JNull) /\ setting s' = ∅.
Proof.
  destruct (config_database _ _ _ _ _ _) as [s' r] eqn:Hd.
  assert (r = Ok JNull) as Hr. { change r with (s', r).2. rewrite <- Hd. vm_compute. reflexivity. }
  subst r. exists s'. split; [reflexivity|].
  destruct (config_unmount_effect _ _ _ _ _ Hd) as (s0 & rule & current & Hi & _ & _ & _ & _ & _ & Hset).
  vm_compute in Hi. injection Hi as <-. exact Hset.
Defined.
(** A mount that occupies the place of the installed App is refused. *)
Lemma config_database_no_panic_witness :
  exists s' e, config_database None "PATCH" "/std/sys/mount" None
      (Some (jobj [("location", JStr "/app/b/x"); ("proxy_pass", JStr "127.0.0.1:80")])) settings_b = (s', Err e) /\ e <> panicked.
Proof.
  destruct (config_database _ _ _ _ _ _) as [s' [v|e]] eqn:Hd;
    [apply (f_equal snd) in Hd; vm_compute in Hd; discriminate|].
  exists s', e. split; [reflexivity|]. exact (config_database_no_panic None _ _ _ _ _ _ _ ltac:(discriminate) Hd).
Defined.
Definition settings_old : settings := Settings 1 true false {["listen" := "all"]} empty_db [].
Lemma initialize_config_preserves_witness :
  exists s', initialize_config settings_old = Ok s' /\ user_version s' = 3 /\ complete s' = true.
Proof.
  destruct (initialize_config settings_old) as [s'|] eqn:Hi; [|vm_compute in Hi; discriminate].
  exists s'. split; [reflexivity|]. destruct (initialize_config_preserves _ _ Hi) as (H1 & H2 & _). split; assumption.
Defined.

(** ** The proxy *)
Definition proxies_x : list ProxyLocation :=
  [{| location := "/x/"; proxy_pass := UriParts (Some "http") (Some "127.0.0.1:80") (Some "/y/") |}].
Lemma local_proxies_x : Forall local_proxy proxies_x.
Proof.
  repeat constructor. exists "127.0.0.1:80", (V4 [127; 0; 0; 1] 80).
  split_and!; try (vm_compute; reflexivity). discriminate.
Defined.
Definition uri_x : uri_parts := UriParts None None (Some "/x/z?q=1").
Lemma select_route_sound_witness :
  exists p, select_route proxies_x "/x/z" None = Ok (Forward p) /\ p ∈ proxies_x.
Proof.
  destruct (select_route proxies_x "/x/z" None) as [[l|p]|] eqn:Hs; [vm_compute in Hs; discriminate| |vm_compute in Hs; discriminate].
  exists p. split; [reflexivity|].
  exact (proj1 (proj2 (select_route_sound proxies_x "/x/z" None (Forward p) local_proxies_x eq_refl Hs))).
Defined.
Lemma proxy_uri_selected_witness :
  exists p, select_route proxies_x (u_path uri_x) (u_query uri_x) = Ok (Forward p) /\
    proxy_uri p uri_x = Ok (UriParts (Some "http") (Some "127.0.0.1:80") (Some "/y/z?q=1")).
Proof.
  destruct (select_route proxies_x (u_path uri_x) (u_query uri_x)) as [[l|p]|] eqn:Hs;
    [vm_compute in Hs; discriminate| |vm_compute in Hs; discriminate].
  exists p. split; [reflexivity|].
  destruct (proxy_uri_selected proxies_x p uri_x local_proxies_x eq_refl Hs) as (path & Hu & Hp). rewrite Hu.
  vm_compute in Hs. injection Hs as <-. destruct Hp as (suffix & -> & [[Hl _]|Hl]); vm_compute in Hl; [discriminate|].
  injection Hl as <-. reflexivity.
Defined.
Definition no_headers : headers := ([] : list (string * string)).
Definition hop_b : headers := ([("connection", "x-token"); ("x-token", "1"); ("accept", "a")] : list (string * string)).
Lemma clean_hop_headers_spec_witness :
  get_all "x-token" (clean_hop_headers hop_b) = [] /\ get_all "accept" (clean_hop_headers hop_b) = ["a"].
Proof.
  split.
  - rewrite (proj1 (clean_hop_headers_spec "x-token" hop_b)). vm_compute. reflexivity.
  - rewrite (proj1 (clean_hop_headers_spec "accept" hop_b)). vm_compute. reflexivity.
Defined.
Definition upgrade_answer : http_response :=
  HttpResponse 101 ([("connection", "upgrade"); ("upgrade", "websocket"); ("sec-websocket-accept", accept_key "k")] : list (string * string)) (Plain "").
Lemma websocket_upgrade_sound_witness :
  exists rs, finish (Some ("k", no_headers, "up")) (Ok tt) upgrade_answer = Ok rs /\ rs_body rs = Duplex "up".
Proof.
  destruct (finish (Some ("k", no_headers, "up")) (Ok tt) upgrade_answer) as [rs|] eqn:Hf; [|vm_compute in Hf; discriminate].
  exists rs. split; [reflexivity|].
  assert (rs_status rs = 200) as Hs by (vm_compute in Hf; injection Hf as <-; reflexivity).
  exact (proj1 (proj2 (proj2 (websocket_upgrade_sound _ _ _ _ _ _ Hf Hs)))).
Defined.

(** ** Outbound requests *)
Definition self : endpoint := Endpoint "a" (Ok (Authority "a" ["leaf"; "issuer"])).
Definition self_request : forwarded :=
  Forwarded (Some (Handshake (Some (Authority "a" ["leaf"])) (Some (Authority "A" ["leaf"])))) None
    (UriParts None None (Some "/std/dhttp/other:1/x")) no_headers "".
Lemma forward_dhttp_self_witness :
  exists rs, forward_dhttp (fun _ h _ => Ok (HttpResponse 200 h (Plain "ok"))) self self_request = Ok rs /\
    get_all "trailer" (fw_headers self_request) = [].
Proof.
  destruct (forward_dhttp _ self self_request) as [rs|] eqn:Hf; [|vm_compute in Hf; discriminate].
  exists rs. split; [reflexivity|].
  destruct (forward_dhttp_self _ _ _ _ Hf) as (? & ? & ? & ? & _ & _ & _ & _ & Ht). exact Ht.
Defined.

(** ** Authorization: a deep link into the App [b] asks for its root, and a HEAD
    answers with the visitor's name. *)
Definition visit : incoming :=
  Incoming (Some (Handshake (Some (Authority "a" ["leaf"])) (Some (Authority "g" ["leaf"])))) None None "HEAD"
    (UriParts None None (Some "/app/b/item?q=1")) no_headers "".
Definition readers (q : asked) (name subject : option string) : result access_error verdict :=
  if String.eqb (ask_method q) "GET" && String.eqb (ask_path q) "/app/b" && bool_decide (name = Some "g")
  then Ok Allowed else Ok Refused.
Definition page (rq : incoming) : http_response := HttpResponse 200 (in_headers rq) (Plain "").
Lemma authorize_served_witness :
  exists rs, authorize readers page visit = Served rs /\ get_all "pishoo-viewer-name" (rs_headers rs) = ["g"].
Proof.
  destruct (authorize readers page visit) as [| | | | |rs] eqn:Ha; try (vm_compute in Ha; discriminate).
  exists rs. split; [reflexivity|].
  destruct (authorize_served readers page visit rs Ha) as (v & (_ & Hv & _) & _ & _ & _ & _ & name & Hn & Hg & _).
  rewrite Hg. subst v. vm_compute in Hn. injection Hn as <-. reflexivity.
Defined.
