(* ===== verification/Scenarios.v ===== *)
(** * More theorems at concrete inputs: whole requests, scans and runs

    Like [Examples], for the components that compose others: an installation
    from the store and the management interface around it, a scan of the
    profiles on disk and the loop around it, pages and routes, a local
    project. *)
From S2P Require Import Prelude RustStr Decimal Json Crates Errors Fixtures Ids Manifest Waz Metadata Signing Store.
From S2P Require Import Registry Commit Opening Install Legacy Deploy Capabilities NetAddr Setup Packages Startup Profiles Supervisor EventLoop.
From S2P Require Import Proxy Outbound Access AppFiles Routing Development Examples.

#[local] Existing Instances json_codec toy_sha2 toy_sha1 toy_base64 toy_home toy_access toy_webpki toy_x509 toy_zip
  toy_urls toy_valid toy_wasm toy_oas toy_headers toy_store.


(** ** The management interface *)
Definition owner_visit : visitor := Visitor "a" "owner".
Definition rq_install : pkg_rq :=
  PkgRq (Some owner_visit) [Some "v1"] "POST" "/std/sys/pkg/install" None None (Some "application/json") false
    (Received (encode (jobj [("author", JStr "a"); ("name", JStr "c"); ("version", JStr "1.0.0")]))).
Definition rq_remove (name : string) : pkg_rq :=
  PkgRq (Some owner_visit) [] "DELETE" "/std/sys/pkg" (Some ("name=" +:+ name)) None None false (Received "").
(** [a/b] cannot be removed before [a/c]. *)
Definition session : list (io_faults * pkg_rq) :=
  map (pair (no_io no_failure)) [rq_install; rq_remove "b"; rq_remove "c"; rq_remove "b"].
Lemma package_requests_refine_witness :
  exists s', pkg_requests "root" 20 no_lib self state_0 session
      = (s', [(InstallOf "a" "c" "1.0.0", true); (RemoveOf "b" None, false); (RemoveOf "c" None, true); (RemoveOf "b" None, true)]) /\
    coherent (view (st_db s')).
Proof.
  destruct (pkg_requests "root" 20 no_lib self state_0 session) as [s' trace] eqn:Hr.
  assert (trace = [(InstallOf "a" "c" "1.0.0", true); (RemoveOf "b" None, false); (RemoveOf "c" None, true); (RemoveOf "b" None, true)]) as Ht.
  { change trace with (s', trace).2. rewrite <- Hr. vm_compute. reflexivity. }
  exists s'. split; [by rewrite Ht|].
  exact (proj1 (proj2 (package_requests_refine "root" 20 no_lib self state_0 session s' trace db_ok_empty Hr))).
Defined.

(** ** Starting up again *)
Lemma synced_0 : synced no_lib state_0.
Proof. split; cbn; [intros n r Hr; by rewrite lookup_empty in Hr|intros id [[x Hx]|[x Hx]]; by rewrite lookup_empty in Hx]. Qed.
Definition env_0 : start_env :=
  StartEnv (RuntimeFiles 1 (fun _ => Err RouteNotFound) (fun _ => Err RouteNotFound)) 1 no_open_faults.
Lemma restart_reloads_witness :
  exists s' trace, pkg_requests "root" 20 no_lib self state_0 (take 2 session) = (s', trace) /\
    restart env_0 no_lib s' = (s', Ok tt) /\
    (map_to_list (apps (st_sandbox s'))).*1 = ["a/c"; "a/b"].
Proof.
  destruct (pkg_requests "root" 20 no_lib self state_0 (take 2 session)) as [s' trace] eqn:Hr.
  exists s', trace. split; [reflexivity|]. split.
  - exact (proj2 (restart_reloads "root" 20 no_lib env_0 self state_0 (take 2 session) s' trace
      db_ok_empty synced_0 eq_refl eq_refl ltac:(repeat constructor; discriminate) Hr)).
  - change s' with (s', trace).1. rewrite <- Hr. vm_compute. reflexivity.
Defined.
(** The journal of an installation stays because its cleanup fails; the same
    release is installed again; the next start removes the files of both
    packages, which the registry names, and fails. *)
Definition stale_session : list (io_faults * pkg_rq) :=
  [(no_io (Failure None None None 0), rq_install); (no_io no_failure, rq_install)].
Example stale_journal_breaks_start :
  let '(s, trace) := pkg_requests "root" 20 no_lib self state_0 stale_session in
  let '(s', result) := restart env_0 no_lib s in
  trace = [(InstallOf "a" "c" "1.0.0", true); (InstallOf "a" "c" "1.0.0", true)] /\
  bool_decide (is_Some (package (st_db s') !! "c")) = true /\ (map_to_list (st_disk s')).*1 = [] /\
  result = Err missing_file.
Proof. vm_compute. repeat split. Qed.
(** The process dies after the first rename, and again while the first
    resource is put back. *)
Definition plan_bc := plan_packages "root" 20 no_lib (no_io no_failure) state_0 [resource_b; resource_c].
Definition differs (tx : database) (m : member) : bool :=
  negb (json_eqb (registration_facts true tx (short_name (m_id m))) (registration_facts true empty_db (short_name (m_id m)))).
Lemma crash_restart_reloads_witness :
  exists crls tx ps w1, plan_bc = (crls, Ok (tx, ps)) /\
    recoveries [InFiles 1 (Removing None)] (execute (take 1 (commit_steps (staged_packages state_0 ps) tx ++ cleanup_steps))
      (journalled (staged_packages state_0 ps) tx)) = Ok w1 /\
    restart env_0 no_lib (after_commit w1 (set_crls crls state_0)) = (set_crls crls state_0, Ok tt).
Proof.
  assert (match plan_bc with
          | (_, Ok (tx, p :: ps)) =>
              (slen (to_json_string (journal_json tx (w_members (staged_packages state_0 (p :: ps))))) <=? 2 * 1024 * 1024)
              && differs tx (p_member p) && (1 <=? length (switch_steps (w_members (staged_packages state_0 (p :: ps)))))%nat
          | _ => false end = true) as Hb by (vm_compute; reflexivity).
  destruct plan_bc as [crls [[tx [|p ps]]|e]] eqn:Hp; [discriminate Hb| |discriminate Hb].
  apply andb_true_iff in Hb as [[Hsize%Z.leb_le Hd]%andb_true_iff Hn].
  assert (open_registry (no_io no_failure) state_0 = (state_0, Ok tt)) as Hopen by (vm_compute; reflexivity).
  destruct (crash_restart_reloads "root" 20 no_lib env_0 json_codec_roundtrip (no_io no_failure) state_0 state_0 [resource_b; resource_c]
    crls tx (p :: ps) 1 [InFiles 1 (Removing None)] db_ok_empty synced_0 eq_refl eq_refl Hopen eq_refl Hp Hsize) as (w1 & H1 & H2).
  { exists (p_member p). split; [left|]. intros Heq. unfold differs in Hd. cbn [st_db state_0] in Heq. rewrite Heq, (proj2 (json_eqb_eq _ _) eq_refl) in Hd. discriminate Hd. }
  exists crls, tx, (p :: ps), w1. split_and!; [reflexivity|assumption|].
  rewrite Hn in H2. exact H2.
Defined.

Lemma pkg_request_owner_only_witness :
  exists s' r, pkg_management_request "root" 20 no_lib (no_io no_failure) self state_0 rq_install = (s', r) /\ s' <> state_0 /\
    exists v local, pq_visitor rq_install = Some v /\ ep_local self = Ok local /\ is_owner (ep_name self) v local = Ok tt.
Proof.
  destruct (pkg_management_request "root" 20 no_lib (no_io no_failure) self state_0 rq_install) as [s' r] eqn:Hi.
  assert (s' <> state_0) as Hne.
  { intros He. assert (bool_decide (package (st_db s') !! "c" = None) = true) as Hc by (rewrite He; reflexivity).
    change s' with (s', r).1 in Hc. rewrite <- Hi in Hc. vm_compute in Hc. discriminate Hc. }
  exists s', r. split; [reflexivity|]. split; [exact Hne|].
  exact (proj1 (pkg_request_owner_only "root" 20 no_lib (no_io no_failure) self state_0 rq_install s' r Hi Hne)).
Defined.

(** ** Profiles and servers *)
Definition homes_of (path : string) : path_state := if mem path ["/h/u"; "/h/u/.dhttp"; "/etc/dhttp"] then Directory else Missing.
Definition profiles_in (path : string) : Result (list profile) :=
  Ok (if String.eqb path "/h/u/.dhttp" then [Profile "a" "/h/u/.dhttp/a"] else []).
Lemma discover_profiles_all_witness :
  NoDup (map pf_name [Profile "a" "/h/u/.dhttp/a"]).
Proof.
  refine (proj1 (discover_profiles_all homes_of profiles_in (fun h => h +:+ "/.dhttp") "/etc/dhttp" ["/h/u"; "/h/v"] _ _)).
  vm_compute. reflexivity.
Defined.
Definition text_of (certs : list string) : string := "certificate".
Definition any_ocsp (response : string) (certs : list string) : bool := true.
Definition any_resolver (ep : endpoint) : result string unit := Ok tt.
Definition profile_a : profile := Profile "a" "/h/u/.dhttp/a".
Definition listening : listen_io := ListenIo (Ok tt) (Ok tt).
Definition loading : load_io :=
  LoadIo (Ok true) (Ok true) (Ok tt) (Ok ["leaf"; "issuer"]) (Some "fresh") (Err Deadline) (Ok tt) (Ok self) (Ok tt) (Ok tt) (Ok tt) (Ok tt).
Definition io_a (n : string) : identity_io := IdentityIo loading listening listening true.
(** The identity [a] is to listen everywhere; nothing runs yet. *)
Definition settings_all : settings := Settings 3 true true {["listen" := "all"]} empty_db [].
Definition idle : supervisor := Supervisor ∅ ∅ {[components (pf_path profile_a) := settings_all]}.
Definition scan := Supervisor.reconcile_profiles text_of any_ocsp any_resolver.
Lemma idle_ok : sup_ok idle.
Proof. split; [by intros n sv|by intros n Hn]. Qed.
Lemma named_a : named io_a [profile_a].
Proof. intros p e ->%list_elem_of_singleton [= <-]. reflexivity. Qed.
Lemma reconcile_profiles_keeps_witness :
  exists s', scan (Ok [profile_a]) io_a idle = (s', Ok true) /\ sup_ok s'.
Proof.
  destruct (scan (Ok [profile_a]) io_a idle) as [s' r] eqn:Hs.
  assert (r = Ok true) as Hr.
  { change r with (s', r).2. rewrite <- Hs. vm_compute. reflexivity. }
  subst r. exists s'. split; [reflexivity|].
  refine (proj1 (reconcile_profiles_keeps text_of any_ocsp any_resolver (Ok [profile_a]) io_a idle s' (Ok true) idle_ok _ Hs)).
  intros profiles [= <-]. exact named_a.
Defined.
Lemma reconcile_profiles_converges_witness :
  exists s' changed, scan (Ok [profile_a]) io_a idle = (s', Ok changed) /\
    converged profile_a settings_all (servers s' !! "a").
Proof.
  destruct (reconcile_profiles_converges text_of any_ocsp any_resolver [profile_a] io_a idle idle_ok) as (s' & changed & Hs & Hc & _).
  - apply NoDup_singleton.
  - intros p ->%list_elem_of_singleton. split.
    + split; [reflexivity|]. split; [split; reflexivity|]. do 3 eexists.
      split; [reflexivity|]. split; [reflexivity|]. split; [exists "fresh"; split; reflexivity|].
      split; [reflexivity|]. split; [reflexivity|]. split; [eexists; split; reflexivity|].
      repeat (split; [reflexivity|]). reflexivity.
    + split; [reflexivity|]. split; [reflexivity|]. eexists. reflexivity.
  - intros n sv Hn. cbn in Hn. rewrite lookup_empty in Hn. discriminate Hn.
  - exists s', changed. split; [exact Hs|]. refine (Hc profile_a _). apply list_elem_of_singleton. reflexivity.
Defined.
(** The first scan, one maintenance of mDNS, a signal, the end. *)
Lemma run_safe_witness :
  exists s', rtc (step text_of any_ocsp any_resolver) (start idle) (Loop s' [] [] [] (Ended (Ok tt))) /\ all_closed s'.
Proof.
  destruct (scan (Ok [profile_a]) io_a idle) as [s1 r] eqn:Hs.
  assert (r = Ok true) as Hr.
  { change r with (s1, r).2. rewrite <- Hs. vm_compute. reflexivity. }
  subst r. destruct (shutdown (fun _ => true) (Ok tt) (add_mdns [] s1)) as [s2 sd] eqn:Hd.
  assert (sd = Ok tt) as Hsd.
  { change sd with (s2, sd).2. rewrite <- Hd. unfold shutdown. cbn. by rewrite (proj2 (forallb_forall _ _)). }
  subst sd. exists s2.
  assert (rtc (step text_of any_ocsp any_resolver) (start idle) (Loop s2 [] [] [] (Ended (Ok tt)))) as Hrun.
  { eapply rtc_l; [eapply (step_start _ _ _ idle (Ok [profile_a]) io_a s1 (Ok true)); [intros profiles [= <-]; exact named_a|exact Hs]|].
    eapply rtc_l; [apply (step_maintain _ _ _ s1 [] [] [] []); intros n Hn; inversion Hn|].
    eapply rtc_l; [apply (step_signal _ _ _ _ _ _ _ (Ok tt))|].
    eapply rtc_l; [apply (step_shutdown _ _ _ _ _ _ _ (Ok tt) (fun _ => true) (Ok tt) s2 (Ok tt)); exact Hd|]. apply rtc_refl. }
  split; [exact Hrun|].
  exact (proj1 (run_safe text_of any_ocsp any_resolver idle _ (conj eq_refl eq_refl) Hrun)).
Defined.

(** ** Pages and routes *)
Definition pages_b : node := Folder 1 [("index.html", RegularFile 1 "home"); ("a.css", RegularFile 1 "css"); ("link", Unopenable)].
Lemma app_response_contained_witness :
  exists bytes, file_at 1 pages_b (split_on "/" "index.html") bytes.
Proof.
  assert (app_response pages_b "/link" (PageRq "GET" "/app/b/link" None None) = Ok (Page "index.html" 4 (Some "home"))) as Ha
    by (vm_compute; reflexivity).
  destruct (app_response_contained 1 _ "/link" _ "index.html" 4 (Some "home") Ha) as (_ & (bytes & Hb & _) & _). exists bytes. exact Hb.
Defined.
Definition opened_files (path : string) : option (option string) := if String.eqb path "n/index.html" then Some (Some "n") else None.
Lemma static_file_contained_witness :
  Forall (fun part => part <> "." /\ part <> "..") (split_on "/" "n/index.html").
Proof.
  assert (static_file true (String.eqb "n") opened_files (PageRq "HEAD" "/std/file//n" None None) = Ok (Page "n/index.html" 1 None)) as Hf
    by (vm_compute; reflexivity).
  exact (proj1 (proj2 (proj2 (proj2 (static_file_contained true (String.eqb "n") opened_files _ _ _ _ Hf))))).
Defined.
Definition toy_api : openapi := OpenApi "3.1.0" "1.0.0" None JNull.
Definition routed_sandbox : Install.sandbox := Sandbox false {["a/b" := toy_api]} {["a/b" := "1.0.0"]}.
Lemma current_dispatch_reached_witness :
  current_dispatch (fun _ => false) routed_sandbox "/b/x" = ToLib "a/b" "/x" /\
  lib_covers "/c" "a/b" = false.
Proof.
  split.
  - destruct (current_dispatch_reached (fun _ => false) routed_sandbox "/b/x" eq_refl) as [Hr _].
    destruct (current_dispatch _ _ _) as [|id p| | |] eqn:Hd in Hr; vm_compute in Hd; try discriminate Hd. vm_compute. reflexivity.
  - refine (proj1 (proj2 (proj2 (proj2 (proj2 (current_dispatch_reached (fun _ => false) routed_sandbox "/c" eq_refl) _))) "a/b" _) _).
    + vm_compute. reflexivity.
    + vm_compute. discriminate.
    + eexists. vm_compute. reflexivity.
Defined.
Lemma loopback_target_witness :
  outbound_uri (UriParts None None (Some "/std/dhttp/a/b/x?q=1"))
  = Ok (UriParts (Some "https") (Some "a") (Some "/b/x?q=1"), "a").
Proof. refine (loopback_target "a" None None "b/x?q=1" _ _ _); [repeat split; reflexivity|vm_compute; reflexivity]. Defined.

(** ** A local project *)
Definition mine (k : Development.kind) : stat := Stat 7 1 493 k.
Definition file_1 : file_id := FileId 1 2 3 4 5 6 7.
Definition project_b : project :=
  Project (mine Dir_) (Some (mine Dir_)) (Some (mine Dir_))
    (Some (mine Reg, encode (jobj [("package", jobj [("author", JStr "a"); ("name", JStr "b")])])))
    (Some (mine Dir_, pages_b)) (Some (mine Reg, (file_1, "wasm", file_1))).
Definition projects_b (name : string) : Result (option project) := Ok (if String.eqb name "b" then Some project_b else None).
Lemma dev_dispatch_owner_witness :
  exists st, dev_dispatch projects_b self (Some owner_visit) "/b/x" (DevState false ∅) = (st, Ok (DevLib "a" "b" "/x")) /\
    require_owner self (Some owner_visit) = Ok tt.
Proof.
  destruct (dev_dispatch projects_b self (Some owner_visit) "/b/x" (DevState false ∅)) as [st r] eqn:Hd.
  assert (r = Ok (DevLib "a" "b" "/x")) as Hr.
  { change r with (st, r).2. rewrite <- Hd. vm_compute. reflexivity. }
  subst r. exists st. split; [reflexivity|].
  refine (proj1 (dev_dispatch_owner projects_b self (Some owner_visit) "/b/x" _ st _ Hd _)). discriminate.
Defined.
Definition compiled (id bytes : string) : Result openapi := if String.eqb bytes "wasm" then Ok toy_api else Err Denied.
Lemma load_current_witness :
  exists st, load compiled project_b (Ok (mine Dir_)) "a" "b" (DevState false ∅) = (st, Ok toy_api) /\
    cache_ok compiled (fun _ => "wasm") st.
Proof.
  destruct (load compiled project_b (Ok (mine Dir_)) "a" "b" (DevState false ∅)) as [st r] eqn:Hl.
  assert (r = Ok toy_api) as Hr.
  { change r with (st, r).2. rewrite <- Hl. vm_compute. reflexivity. }
  subst r. exists st. split; [reflexivity|].
  refine (proj1 (load_current compiled (fun _ => "wasm") project_b (Ok (mine Dir_)) "a" "b" _ st _ _ _ Hl)).
  - intros id metadata lib Hn. cbn in Hn. rewrite lookup_empty in Hn. discriminate Hn.
  - intros s metadata bytes after [= <- <- <- <-] _. reflexivity.
Defined.
