(* ===== verification/Correspondence.v ===== *)
(** * The contact theorems at concrete inputs

    An access manager with one contact, a peer that accepts an application, and
    a clock that stands still. *)
From S2P Require Import Prelude RustStr Decimal Json Crates Errors Fixtures Capabilities ContactStore ContactSql Contact Delivery Contacts Examples.

#[local] Existing Instances json_codec toy_home toy_access toy_urls.

Definition host : endpoint := Endpoint "a.dhttp.net" (Ok (Authority "a.dhttp.net" ["leaf"])).
Definition host_visit : visitor := Visitor "a.dhttp.net" "owner".
Definition application : string := String.concat "" (replicate 64 "0").
(** The world: whether the contact [b] is recorded. *)
Definition toy_clock (w : bool) : bool * Z := (w, 1000).
Definition toy_auth (method path : string) (headers : list (string * string)) (v : visitor) (w : bool) : bool * result string auth_result :=
  (w, Ok AuthAllowed).
Definition toy_contact : json :=
  jobj [("id", JInt 7); ("name", JStr "b.dhttp.net"); ("subject_id", JStr "owner"); ("status", JStr "pending")].
Definition toy_list : json := jobj [("items", JArr [toy_contact]); ("total", JInt 1); ("deleted", JArr [])].
Definition toy_manage (rq : manager_request) (w : bool) : bool * result string (Z * string) :=
  if String.prefix "/std/contact/list" (mr_uri rq) then (w, Ok (200, encode toy_list))
  else if w then (w, Ok (200, encode toy_contact)) else (w, Ok (404, "no contact")).
Definition toy_record (c : new_contact) (w : bool) : bool * result record_error unit := (true, Ok tt).
Definition toy_accepted : json :=
  jobj [("application_id", JStr application); ("name", JStr "b.dhttp.net"); ("subject_id", JStr "owner");
        ("status", JStr "pending"); ("valid_before", JInt 9000)].
Definition toy_peer (rq : peer_request) (w : bool) : bool * peer_answer :=
  (w, PeerAnswer (Some (Authority (pr_target rq) ["peer"])) 201 [FrameData (encode toy_accepted)]).
Definition toy_find (n : string) (w : bool) : bool * result lookup_error unit := (w, if w then Ok tt else Err RecordNotFound).
Definition toy_random (w : bool) : bool * ContactResult string := (w, Ok application).
Definition toy_certificate_error (chain : list string) : string := "no key identifier".
Definition toy_serialize (params : list (string * string)) : string := "".
Definition empty_table : table := Table ∅ 0.
Definition start : state bool := State bool empty_table false None.
Definition serve (rq : contact_rq) : M (state bool) (option (Z * json)) :=
  dispatch "constraint" toy_certificate_error id (fun _ => Ok tt) (fun _ => true) id toy_serialize (Ok JNull)
    bool toy_clock toy_auth toy_manage toy_record toy_peer toy_find toy_random 2 host rq.
Lemma table_ok_empty : table_ok empty_table.
Proof. split; cbn; [lia|intros *; by rewrite lookup_empty..]. Qed.

(** ** A request to [b] is queued *)
Definition application_doc_b : json :=
  jobj [("from", JStr "a"); ("to", JStr "b"); ("description", JStr "hello"); ("requested_capabilities", JArr []); ("offered_capabilities", JArr [])].
Definition post_b : contact_rq := ContactRq (Some host_visit) "POST" "/std/contact" None false (Some (encode application_doc_b)).
Lemma dispatch_effect_witness :
  exists s' answer, serve post_b start = (s', Ok (Some (202, answer))) /\ ob_status <$> rows (st_table bool s') !! 1 = Some "queued" /\
    table_ok (st_table bool s').
Proof.
  destruct (serve post_b start) as [s' r] eqn:Hr.
  assert (match r with Ok (Some (status, _)) => status =? 202 | _ => false end = true) as Hok.
  { change r with (s', r).2. rewrite <- Hr. vm_compute. reflexivity. }
  destruct r as [[[status answer]|]|]; try discriminate Hok. apply Z.eqb_eq in Hok as ->. exists s', answer.
  split; [reflexivity|]. split.
  - change s' with (s', Ok (Some (202, answer)) : ContactResult (option (Z * json))).1. rewrite <- Hr. vm_compute. reflexivity.
  - exact (proj1 (dispatch_effect "constraint" toy_certificate_error id (fun _ => Ok tt) (fun _ => true) id toy_serialize (Ok JNull)
      toy_clock toy_auth toy_manage toy_record toy_peer toy_find toy_random 2 host post_b start s' _ table_ok_empty Hr)).
Defined.
Lemma list_pages_end_witness :
  list_pages id toy_serialize bool toy_manage 1 post_b [] 1 [] start = (start, Ok (Some ([toy_contact], JArr []))) /\
  forall s', list_pages id toy_serialize bool toy_manage (S (Z.to_nat (1 / 100))) post_b [] 1 [] start <> (s', Ok None).
Proof.
  split; [vm_compute; reflexivity|]. intros s'. apply (list_pages_end id toy_serialize toy_manage 1 post_b [] [] start s').
  intros rq w w' status bytes value. unfold toy_manage. destruct (String.prefix _ _); [|destruct w]; intros [= <- <- <-] Hv.
  - change (encode toy_list) with (@to_json_string json_codec toy_list) in Hv. rewrite json_codec_roundtrip in Hv.
    injection Hv as <-. by vm_compute.
  - change (encode toy_contact) with (@to_json_string json_codec toy_contact) in Hv. rewrite json_codec_roundtrip in Hv.
    injection Hv as <-. by vm_compute.
  - assert (@from_slice json_codec "no contact" = None) as Hn by (vm_compute; reflexivity). by rewrite Hn in Hv.
Defined.

(** ** Its delivery: the contact is recorded, the answer of the peer stored *)
Definition row_b : outbound :=
  Outbound (Draft "b.dhttp.net" "hello" (encode (JArr [])) (encode (JArr [])) (Some application) (Some (encode (jobj []))) (Some (encode (jobj [])))
              9999 1000)
    None None "queued" 9999 None 1000 0 None None None None 1000.
Definition queued_b : table := Table {[1 := row_b]} 1.
Definition before_delivery : state bool := State bool queued_b false None.
Definition toy_deliver : M (state bool) unit :=
  deliver "constraint" "column" toy_certificate_error id (fun _ => Ok tt) bool toy_clock toy_auth toy_manage toy_record toy_peer host.
Lemma queued_b_ok : table_ok queued_b.
Proof.
  split; cbn; [lia|..].
  - intros id o [<- <-]%lookup_singleton_Some. lia.
  - intros id o [<- <-]%lookup_singleton_Some. unfold STATUSES. cbn. set_solver.
  - intros id o [<- <-]%lookup_singleton_Some. by intros [].
  - by intros id1 id2 o1 o2 [<- <-]%lookup_singleton_Some [<- <-]%lookup_singleton_Some.
  - by intros id1 id2 o1 o2 [<- <-]%lookup_singleton_Some [<- <-]%lookup_singleton_Some.
Qed.
Lemma deliver_evidence_witness :
  exists s', toy_deliver before_delivery = (s', Ok tt) /\ (ob_status <$> rows (st_table bool s') !! 1) = Some "pending" /\
    forall o', rows (st_table bool s') !! 1 = Some o' -> exists o, rows queued_b !! 1 = Some o /\ same_draft o o'.
Proof.
  destruct (toy_deliver before_delivery) as [s' r] eqn:Hr.
  assert (r = Ok tt) as -> by (change r with (s', r).2; rewrite <- Hr; vm_compute; reflexivity).
  exists s'. split; [reflexivity|]. split.
  - change s' with (s', Ok tt : ContactResult unit).1. rewrite <- Hr. vm_compute. reflexivity.
  - intros o' Ho.
    destruct (proj2 (deliver_evidence "constraint" "column" toy_certificate_error id (fun _ => Ok tt) toy_clock toy_auth toy_manage toy_record toy_peer
      host before_delivery s' (Ok tt) queued_b_ok Hr) 1 o' Ho) as (o & Hl & Hd & _).
    exists o. split; [exact Hl|exact Hd].
Defined.

(** ** The same request as a row: claimed, answered, deleted and put back *)
Definition rows_b : contact_rows := ContactRows [row_of (1, row_b)] 1.
Definition series_b : list transaction :=
  [Claim 1000 1000 1001; Bind 1 1121 7 "subject"; Finish 1 1121 None (Ok toy_accepted) 1002 1002;
   Cancel [("b.dhttp.net", 1003, 1003)]; PutBack [(1, "pending", 1002)]].
Lemma queued_b_refines : refines queued_b rows_b.
Proof.
  split; [exact queued_b_ok|..].
  - intros id o Hl. cbn in Hl. apply lookup_singleton_Some in Hl as [<- <-]. split; vm_compute; reflexivity.
  - split; [reflexivity|]. exists [(1, row_b)]. split; [reflexivity|]. split; [apply NoDup_singleton|].
    intros id o. cbn. rewrite list_elem_of_singleton, lookup_singleton_Some. naive_solver.
Qed.
Lemma contact_statements_refine_witness :
  exists t' db', (run_series (run_table "constraint" "column") queued_b series_b).1 = t'
    /\ (run_series (run_rows "constraint" "column") rows_b series_b).1 = db'
    /\ refines t' db' /\ (ob_status <$> rows t' !! 1) = Some "pending" /\ map (fun r => r !! "status") (cr_rows db') = [txt "pending"].
Proof.
  destruct (run_series (run_table "constraint" "column") queued_b series_b) as [t' answers] eqn:Ht.
  destruct (run_series (run_rows "constraint" "column") rows_b series_b) as [db' replies] eqn:Hd.
  exists t', db'. split; [reflexivity|]. split; [reflexivity|].
  assert (Hp : Forall proper_transaction series_b).
  { repeat constructor; eexists; vm_compute; reflexivity. }
  split; [exact (proj1 (contact_statements_refine "constraint" "column" queued_b rows_b series_b t' answers db' replies queued_b_refines Hp Ht Hd))|].
  split.
  - change t' with (t', answers).1. rewrite <- Ht. vm_compute. reflexivity.
  - change db' with (db', replies).1. rewrite <- Hd. vm_compute. reflexivity.
Defined.

(** ** A delivery in progress, and a deletion *)
Definition claimed_b : table := Table {[1 := set_lease (Some 1121) row_b]} 1.
Definition delivery_b : job := Job 1 1121 row_b.
Lemma claimed_b_run : rtc (contact_step "constraint" "column") (quiet queued_b 1000) (World 1001 claimed_b [delivery_b] []).
Proof.
  apply rtc_once. refine (step_claim _ _ 1000 queued_b [] [] 1000 1000 1001 1001 _ 1 row_b 1121 _ _ _); [lia|lia|].
  vm_compute. reflexivity.
Qed.
Lemma lease_exclusive_witness :
  exists t', finish "constraint" 1 1121 None (Ok toy_accepted) 1002 1002 claimed_b = (t', Ok tt) /\
    (t' = claimed_b \/ exists o o', rows claimed_b !! 1 = Some o /\ held delivery_b o /\ same_draft o o' /\
      t' = Table (<[1 := o']> (rows claimed_b)) (sequence claimed_b)).
Proof.
  destruct (finish "constraint" 1 1121 None (Ok toy_accepted) 1002 1002 claimed_b) as [t' r] eqn:Hf.
  assert (r = Ok tt) as -> by (change r with (t', r).2; rewrite <- Hf; vm_compute; reflexivity).
  exists t'. split; [reflexivity|].
  exact (proj2 (proj2 (lease_exclusive "constraint" "column" queued_b 1000 _ queued_b_ok claimed_b_run))
    delivery_b None (Ok toy_accepted) 1002 1002 t' (Ok tt) (list_elem_of_here _ _) Hf).
Defined.
Definition revoked_b : outbound := set_lease None (set_status "revoked" 1000 row_b).
Definition deleted_b : ContactStore.world := World 1002 (Table {[1 := revoked_b]} 1) [] [].
Lemma deleted_b_run : rtc (contact_step "constraint" "column") (quiet queued_b 1000) deleted_b.
Proof.
  eapply rtc_l; [refine (step_cancel _ _ 1000 queued_b [] [] [("b.dhttp.net", 1000, 1000)] 1001 (Table {[1 := revoked_b]} 1) [(1, "queued", 1000)] _ _ _)|].
  - lia.
  - constructor; [cbn; lia|constructor].
  - vm_compute. reflexivity.
  - apply rtc_once. exact (step_deleted _ _ 1001 _ [] [] [(1, "queued", 1000)] [] 1002 ltac:(lia)).
Qed.
(** A delivery that starts later finds nothing to deliver. *)
Definition later_b : ContactStore.world := World 1003 (Table {[1 := revoked_b]} 1) [] [].
Lemma cancelled_final_witness :
  exists o', rows (w_table later_b) !! 1 = Some o' /\ ob_status o' = "revoked" /\ same_draft revoked_b o'.
Proof.
  apply (cancelled_final "constraint" "column" queued_b 1000 deleted_b later_b 1 revoked_b queued_b_ok deleted_b_run).
  - apply rtc_once. refine (step_no_claim _ _ 1002 _ [] [] 1002 1002 1003 1003 _ (Ok (None, 1123)) _ _ _ _); [lia|lia| |exact I].
    vm_compute. reflexivity.
  - reflexivity.
  - reflexivity.
  - cbn. apply not_elem_of_nil.
Defined.
