(* ===== verification/Confinement.v ===== *)
(** * The sandbox theorems at concrete inputs

    A Lib of the identity [a] that is called by the identity [g]. *)
From S2P Require Import Prelude RustStr Decimal Json Crates Errors Fixtures Registry Capabilities Proxy Outbound Examples Permissions.
From S2P Require Import Sqlite ContactDb Opening.
From S2P Require Import Registry Commit Install Waz Expanded Ownership Layout Legacy Guest.

#[local] Existing Instances json_codec toy_sha2 toy_base64 toy_x509 toy_wasm toy_oas toy_urls toy_access toy_home toy_valid toy_headers.

(** ** A Lib called by a guest sends a request to the identity itself and one to
    a contact; it attaches a visitor and a hop-by-hop header to both *)
Definition guest_call : handshake := Handshake (Some (Authority "a" ["leaf"])) (Some (Authority "g" ["leaf"])).
Definition forged : extensions := Extensions (Some (Visitor "a" "owner")) None None ["x"].
Definition call (to : string) : guest_rq :=
  GuestRq "GET" (UriParts (Some "https") (Some to) (Some "/std/contact")) [("te", "trailers"); ("accept", "x")] forged
    (BodyOf [Polled 0 1 (Ok (GuestData "hi"))] (Polled 1 2 tt)).
Definition toy_answer : guest_response := GuestResponse 200 no_headers (BodyOf [] (Polled 3 4 tt)).
Definition on_record (n : string) : contact_found := if String.eqb n "b" then ContactFound "owner" else NoContact.
Definition send (o : outgoing) (rq : guest_rq) :=
  send_request id (fun _ => None) Some ".dhttp.net" (fun _ => Polled 2 3 toy_answer) on_record
    (fun _ => Polled 2 3 (Ok tt)) (fun _ => Polled 3 4 (Ok toy_answer)) o None 0 2 rq.
Lemma guest_requests_confined_witness :
  exists iv s1 s2 r1 r2, new_invocation self guest_call (Granted self id) = Ok iv /\
    send (iv_outgoing iv) (call "~") = (Some s1, r1) /\ sn_extensions s1 = Extensions None None (Some guest_call) [] /\
    send (iv_outgoing iv) (call "b") = (Some s2, r2) /\ sn_expected s2 = Some "owner".
Proof.
  destruct (new_invocation self guest_call (Granted self id)) as [iv|] eqn:Hi; [|vm_compute in Hi; discriminate].
  destruct (send (iv_outgoing iv) (call "~")) as [[s1|] r1] eqn:H1;
    [|vm_compute in Hi; injection Hi as <-; vm_compute in H1; discriminate].
  destruct (send (iv_outgoing iv) (call "b")) as [[s2|] r2] eqn:H2;
    [|vm_compute in Hi; injection Hi as <-; vm_compute in H2; discriminate].
  exists iv, s1, s2, r1, r2. split_and!; try first [reflexivity | assumption].
  - destruct (guest_requests_confined id (fun _ => None) Some ".dhttp.net" _ on_record _ _ self guest_call self id iv None 0 2 (call "~") s1 r1 Hi H1)
      as (local & a & target & canonical & _ & _ & _ & _ & Ha & _ & Ht & _ & _ & _ & _ & _ & _ & Hc).
    injection Ha as <-. vm_compute in Ht. injection Ht as <-. exact (proj2 Hc).
  - destruct (guest_requests_confined id (fun _ => None) Some ".dhttp.net" _ on_record _ _ self guest_call self id iv None 0 2 (call "b") s2 r2 Hi H2)
      as (local & a & target & canonical & _ & _ & _ & _ & Ha & _ & Ht & _ & _ & _ & _ & _ & _ & Hc).
    injection Ha as <-. vm_compute in Ht. injection Ht as <-. exact (proj2 (proj2 (proj2 Hc))).
Defined.

(** ** The owner declares a permission of [a/b] *)
Definition rq_declare : request :=
  Request (Some (Visitor "a" "owner")) (Some (Authority "a" ["leaf"])) "PUT" "/std/acl/permissions" (Some "name=b")
    (Some "application/json")
    (encode (JArr [jobj [("id", JStr "all"); ("title", JStr "All");
                         ("endpoints", JArr [jobj [("method", JStr "GET"); ("path", JStr "/b/items")]])]])).
Lemma permissions_read_back_witness :
  exists db', write_request (fun _ _ => Ok api_lib) db_b rq_declare = Ok (db', 204) /\
    json_grants (catalog db') "a/b · All" "/b/items" "GET".
Proof.
  destruct (write_request (fun _ _ => Ok api_lib) db_b rq_declare) as [[db' status]|] eqn:Hw; [|vm_compute in Hw; discriminate].
  assert (status = 204) as ->.
  { assert (match write_request (fun _ _ => Ok api_lib) db_b rq_declare with Ok (_, s) => s =? 204 | _ => false end = true) as Hs
      by (vm_compute; reflexivity).
    rewrite Hw in Hs. apply Z.eqb_eq in Hs. exact Hs. }
  exists db'. split; [reflexivity|].
  destruct (permissions_read_back _ _ _ _ Hw eq_refl) as (name & groups & r & Hq & Hg & Hp & _ & Hall).
  vm_compute in Hq. injection Hq as <-. vm_compute in Hp. injection Hp as <-.
  apply Hall. right. change (from_slice (Capabilities.rq_body rq_declare)) with (from_slice (encode (JArr [jobj [("id", JStr "all"); ("title", JStr "All");
     ("endpoints", JArr [jobj [("method", JStr "GET"); ("path", JStr "/b/items")]])]]))) in Hg.
  rewrite json_codec_roundtrip in Hg. injection Hg as <-.
  eexists _, "/b/items". split; [left|]. split_and!; [|reflexivity|reflexivity].
  eexists _, _. split_and!; [reflexivity|left|reflexivity|reflexivity].
Defined.

(** ** A directory with a file of another owner, one with two links and a
    mounted file system *)
Definition inode_of (uid : Z) (kind : inode_kind) : inode := Inode 1 uid uid 448 kind.
Definition volume : filesystem :=
  {[1 := inode_of 7 (Directory [("a", 2); ("b", 3); ("c", 4)]); 2 := inode_of 0 (Directory [("d", 5)]);
    3 := inode_of 0 (Regular 2); 4 := Inode 9 0 0 448 (Directory []); 5 := inode_of 0 (Regular 1)]}.
Definition no_errno (i : Z) : option error := None.
Lemma ranked_volume : ranked volume.
Proof.
  exists (fun i => if i =? 1 then 2%nat else if i =? 2 then 1%nat else 0%nat).
  assert (forall d, d = 1 \/ d = 2 \/ entries_of volume d = []) as Hd.
  { intros d. destruct (decide (d = 1)) as [->|H1]; [auto|]. destruct (decide (d = 2)) as [->|H2]; [auto|]. right. right.
    unfold entries_of. destruct (volume !! d) as [n|] eqn:Hn; [|reflexivity].
    apply elem_of_map_to_list in Hn. vm_compute in Hn.
    repeat (apply elem_of_cons in Hn as [Hn|Hn]; [injection Hn as ? ?; subst; try congruence; reflexivity|]).
    by apply not_elem_of_nil in Hn. }
  intros d name i n He Hi Hdir. destruct (Hd d) as [->|[->|He']]; [| |by rewrite He' in He; apply not_elem_of_nil in He].
  all: vm_compute in He; repeat (apply elem_of_cons in He as [[= -> ->]|He]; [vm_compute; lia|]); by apply not_elem_of_nil in He.
Defined.
Lemma repair_ownership_exact_witness :
  exists fuel fs', repair_identity_ownership no_errno no_errno no_errno id fuel volume 1 (7, 7) = Some (fs', Ok tt) /\
    fs' !! 5 = Some (inode_of 7 (Regular 1)) /\ fs' !! 3 = volume !! 3.
Proof.
  destruct (repair_ownership_exact no_errno no_errno no_errno id volume 1 (inode_of 7 (Directory [("a", 2); ("b", 3); ("c", 4)])) (7, 7)
    ranked_volume eq_refl) as (fuel & fs' & r & Hfuel & _ & Hr).
  assert (repair_identity_ownership no_errno no_errno no_errno id (max fuel 5) volume 1 (7, 7) = Some (fs', r)) as H5 by (apply Hfuel; lia).
  assert (r = Ok tt) as ->.
  { assert (match repair_identity_ownership no_errno no_errno no_errno id 5 volume 1 (7, 7) with Some (_, Ok _) => true | _ => false end = true) as Hb
      by (vm_compute; reflexivity).
    destruct (repair_identity_ownership no_errno no_errno no_errno id 5 volume 1 (7, 7)) as [[f x]|] eqn:Hrun; [|discriminate Hb].
    unfold repair_identity_ownership in Hrun, H5. change (volume !! 1) with (Some (inode_of 7 (Directory [("a", 2); ("b", 3); ("c", 4)]))) in Hrun, H5.
    cbn beta iota in Hrun, H5.
    rewrite (walk_more _ _ _ _ _ _ 5 (max fuel 5) _ _ _ ltac:(lia) Hrun) in H5. injection H5 as _ ->. destruct r as [[]|]; [reflexivity|discriminate Hb]. }
  exists fuel, fs'. split; [apply Hfuel; lia|]. split.
  - change (inode_of 7 (Regular 1)) with (give (7, 7) (in_mode (inode_of 0 (Regular 1))) (inode_of 0 (Regular 1))).
    apply (proj1 (Hr eq_refl 5)). exists 2, "d". split_and!; try reflexivity; [|left].
    apply (reached_entry _ _ _ 1 "a" 2 (inode_of 0 (Directory [("d", 5)]))); [constructor|left|reflexivity..].
  - apply (proj2 (Hr eq_refl 3)). intros m (d & name & _ & _ & Hm & _ & _ & Hl). vm_compute in Hm. injection Hm as <-. discriminate Hl.
Defined.

(** ** The directories of an identity *)
Definition old_identity : files := tree
  [([], RealDir); (["apps"], RealDir); (["apps"; "calendar"], PlainFile "page"); (["db"], RealDir);
   (["db"; "access.db"], PlainFile "rules"); (["db"; "notes"], RealDir); (["db"; "notes"; "data"], PlainFile "kept")].
Lemma initialize_layout_keeps_witness : exists s, moved_by LEGACY_ROOTS old_identity s
  /\ settled s /\ initialize_layout Ok s = (s, Ok tt)
  /\ s ["app"; "calendar"] = Some (PlainFile "page")
  /\ s [".volume"; "sys"; "access"; "database"] = Some (PlainFile "rules").
Proof.
  assert (Hc : prefix_closed old_identity) by (apply tree_closed; vm_compute; reflexivity).
  destruct (initialize_layout Ok old_identity) as [s r] eqn:Hs.
  assert (Hr : r = Ok tt) by (change r with (snd (s, r)); rewrite <- Hs; vm_compute; reflexivity).
  destruct (initialize_layout_keeps Ok old_identity s r Hc Hs) as [H1 H2]. destruct (H2 Hr) as [H3 H4].
  exists s. split; [exact H1|]. split; [exact H3|]. split; [exact H4|].
  assert (Hf : s = fst (initialize_layout Ok old_identity)) by (rewrite Hs; reflexivity).
  rewrite Hf. split; vm_compute; reflexivity.
Defined.
(** The data of an old version is found in the volume. *)
Lemma load_data_keeps_witness : exists s,
  data_kept (data_directory "alice.example/notes") "alice.example/notes" old_identity s
  /\ s (data_directory "alice.example/notes") = Some RealDir.
Proof.
  destruct (load_data (Ok tt) old_identity [".volume"; "notes"] "alice.example/notes") as [s r] eqn:Hs.
  assert (Hr : r = Ok tt) by (change r with (snd (s, r)); rewrite <- Hs; vm_compute; reflexivity).
  assert (Hc : prefix_closed old_identity) by (apply tree_closed; vm_compute; reflexivity).
  exists s. destruct (load_data_keeps (Ok tt) old_identity [".volume"; "notes"] "alice.example/notes" s r Hc Hs) as [H1 H2].
  split; [exact H1|]. destruct (H2 Hr) as [H3 _]. exact H3.
Defined.

(** ** A package of an older release *)
Definition old_row : row := Row "b" (Some "a") "1.0.0" (Some "t") None None None (Some 5) None false true None None None.
Definition old_db : database := Database {["b" := old_row]} ∅ ∅ ∅ [].
Lemma old_db_ok : db_ok old_db.
Proof.
  split; cbn; try (intros *; rewrite lookup_empty; discriminate).
  - intros n r [<- <-]%lookup_singleton_Some. done.
  - intros n r [<- <-]%lookup_singleton_Some. done.
  - exact (ok_acyclic _ db_ok_empty).
Qed.
Definition lib_row : row := Row "b" (Some "a") "1.0.0" None None None None (Some 1) None true false None None None.
(** An operation of an ordinary Lib where an older version recorded it. *)
Definition older_db : database :=
  Database {["b" := lib_row]} ∅ {[("b", "read") := "Read"]} {[("GET", "/std/items") := ("b", "read")]} [].
Lemma migrate_registration_places_witness : exists db', migrate_registration older_db = Ok db' /\ all_in_place db'
  /\ lib_capability_operation db' !! ("GET", "/b/items") = Some ("b", "read").
Proof.
  destruct (migrate_registration older_db) as [db'|] eqn:Hm; [|vm_compute in Hm; discriminate]. exists db'.
  assert (Hn : forall name, ordinary_lib older_db name = true -> contains_char "/" name = false).
  { intros name Ho. unfold ordinary_lib in Ho. destruct (package older_db !! name) as [r|] eqn:Hr; [|discriminate].
    change (({["b" := lib_row]} : gmap string row) !! name = Some r) in Hr.
    apply lookup_singleton_Some in Hr as [<- _]. reflexivity. }
  destruct (migrate_registration_places older_db db' Hn Hm) as (_ & _ & Hp & _).
  split; [reflexivity|]. split; [exact Hp|].
  assert (He : match migrate_registration older_db with Ok db1 => lib_capability_operation db1 !! ("GET", "/b/items") | Err _ => None end = Some ("b", "read"))
    by (vm_compute; reflexivity).
  rewrite Hm in He. exact He.
Defined.
Definition facts (size : Z) : file_facts := FileFacts 1 7 1 size 0 0 0 0.
Definition old_disk : runtime_files :=
  RuntimeFiles 1 (fun d => if String.eqb d "app/b" then Ok (1, [(Some "index.html", KindFile)]) else Err RouteNotFound)
    (fun _ => Ok (Reading (facts 4) (Ok "page") (Ok (facts 4)) (Ok (facts 4)))).
Definition hash_of (c : ascii) : string := of_bytes (replicate 64 c).
Definition moved_entry : json :=
  jobj [("name", JStr "b"); ("author", JStr "a"); ("version", JStr "1.0.0"); ("author_owner_hash", JStr (hash_of "a"));
        ("package_sha256", JStr (hash_of "b")); ("target_author", JStr "c"); ("target_owner_hash", JStr (hash_of "c"));
        ("evidence", JStr "audited");
        ("files", jobj [("app/b/index.html", jobj [("size", JInt 4); ("sha256", JStr (hex_lower (sha256 "page")))])])].
Definition moved_group : json := jobj [("packages", JArr [moved_entry])].
Lemma migrate_legacy_groups_authorized_witness : exists db', db_ok db' /\
  (exists db1, opened old_db db1 /\ others_same db1 db' /\ groups_handed old_disk 3 [moved_group] db1 db')
  /\ package db' !! "b" = Some (set_author "c" (hash_of "c") old_row).
Proof.
  destruct (migrate_legacy_groups old_disk 3 no_open_faults (JArr [moved_group]) old_db) as [db' r] eqn:Hm. exists db'.
  destruct (migrate_legacy_groups_authorized old_disk 3 no_open_faults [moved_group] old_db db' r old_db_ok Hm) as [H1 H2].
  assert (Hr : r = Ok tt) by (change r with (snd (db', r)); rewrite <- Hm; vm_compute; reflexivity). rewrite Hr in H2.
  split; [exact H1|]. split; [exact H2|].
  change db' with (fst (db', r)). rewrite <- Hm. vm_compute. reflexivity.
Defined.

(** ** The routes of an installed App *)
Definition app_change : change := Change "a/b" files_b (jobj [("has_app", JBool true)]).
Definition app_disk (static : content) : gmap string content := {[resource_path "app" "a/b" := static]}.
Lemma installed_routes_accepted_witness : exists static routes,
  expanded "app" app_change = Ok (Some static) /\ installed_routes (app_disk static) "app" "a/b" = Ok routes.
Proof.
  destruct (expanded "app" app_change) as [[static|]|] eqn:Hx; [|vm_compute in Hx; discriminate..].
  exists static. assert (Hd : app_disk static !! resource_path "app" "a/b" = Some static) by (unfold app_disk; apply lookup_singleton_eq).
  assert (Hk : "app" ∈ ["lib"; "app"]) by (right; left).
  pose proof (installed_routes_accepted waz_b files_b app_change (app_disk static) "app" static waz_b_reads eq_refl Hk Hx Hd) as Hr.
  cbn [c_id app_change] in Hr. rewrite Hr. eexists. split; [reflexivity|]. vm_compute. reflexivity.
Defined.

(** ** A contact database of the first version *)
Definition first_row : values := {["id" := Integer 1; "target_name" := Text "b"; "status" := Text "queued"]}.
Definition first_database : sqlite :=
  Sqlite {[OLD := SqlTable FIRST_COLUMNS [first_row]; "saved_contacts" := SqlTable ["name"] []]} {[OLD_INDEX := pending_target OLD]} 1.
Definition first_files : contact_files := ContactFiles (File (DbFile (0, 0) 420 1 (Some first_database))) [Absent; Absent].
Lemma contact_database_opens_witness : exists s fs, ContactDb.database true (0, 0) (5, 5) no_file_errors first_files = (fs, Ok s) /\ contact_database 5 [first_row] s.
Proof.
  assert (Hc : contact_content first_files [first_row]).
  { split; [reflexivity|]. exists first_database, 1. split; [reflexivity|]. left. split; [lia|]. split.
    - reflexivity.
    - exists (SqlTable FIRST_COLUMNS [first_row]). split; [vm_compute; reflexivity|]. split; [reflexivity|].
      change (late_columns 1) with (@nil string). rewrite app_nil_r. reflexivity.
    - intros t [x Hx]. cbn [tables first_database] in Hx. apply lookup_insert_Some in Hx as [[<- _]|[_ Hx]]; [left; reflexivity|].
      apply lookup_singleton_Some in Hx as [<- _]. right. split; reflexivity.
    - reflexivity.
    - apply (bool_decide_unpack _). vm_compute. exact I. }
  assert (Hp : Forall plain_file (companions first_files)) by (repeat constructor).
  destruct (proj1 (contact_database_opens true (0, 0) (5, 5) no_file_errors first_files [first_row] Hc Hp) eq_refl) as (s & fs & H1 & H2 & _).
  exists s, fs. split; [exact H1|exact H2].
Defined.
