(* ===== verification/CallExamples.v ===== *)
(** * The path of a request at concrete inputs

    The identity [g] calls the Lib [b] of the identity [a], and [b] calls the
    Lib [c] of [a] in its turn. *)
From S2P Require Import Prelude RustStr Json Crates Errors Fixtures Manifest Install Capabilities Proxy Outbound Access Guest.
From S2P Require Import AppFiles Routing Development Calls.

#[local] Existing Instances json_codec toy_sha2 toy_base64 toy_x509 toy_wasm toy_oas toy_urls toy_access toy_home toy_valid toy_headers.

Definition here : endpoint := Endpoint "a" (Ok (Authority "a" ["leaf"; "issuer"])).
Definition caller_g : handshake := Handshake (Some (Authority "a" ["leaf"])) (Some (Authority "g" ["leaf"])).
Definition no_fields : headers := ([] : list (string * string)).
Definition outside : incoming :=
  Incoming (Some caller_g) None None "GET" (UriParts None None (Some "/b/x?q=1")) no_fields "".
Definition some_api : openapi := OpenApi "3.1.0" "1.0.0" None JNull.
Definition two_libs : Install.sandbox := Sandbox false {["a/b" := some_api; "a/c" := some_api]} ∅.
(** [g] may do both. *)
Definition rules (q : asked) (name subject : option string) : result access_error verdict :=
  if mem (ask_path q) ["/b/x?q=1"; "/c/y"] && bool_decide (name = Some "g") then Ok Allowed else Ok Refused.
Definition nothing : project := Project (Stat 7 1 493 Dir_) None None None None None.
Definition now : moment := Moment rules two_libs (DevState false ∅) (fun _ => Ok None) (fun _ => nothing) (Err Denied) true.
Definition no_paths (path : string) : bool := false.
Definition no_load (id bytes : string) : Result openapi := Err Denied.
Definition onwards : guest_rq :=
  GuestRq "GET" (UriParts (Some "https") (Some "~") (Some "/c/y")) no_fields
    (Extensions (Some (Visitor "a" "owner")) None None []) (BodyOf [] (Polled 0 1 tt)).
Definition answered : guest_response := GuestResponse 200 no_fields (BodyOf [] (Polled 3 4 tt)).
Definition send_on (o : outgoing) :=
  send_request id (fun _ => None) Some ".dhttp.net" (fun _ => Polled 2 3 answered) (fun _ => NoContact)
    (fun _ => Polled 2 3 (Ok tt)) (fun _ => Polled 3 4 (Ok answered)) o None 0 2 onwards.

(** The two calls, computed: the second one enters [c]. *)
Definition second_call : bool :=
  match entered here no_paths no_load now outside with
  | Some (c, iv, _) =>
      match send_on (iv_outgoing iv) with
      | (Some s, _) =>
          match nested here no_paths no_load now now s with
          | Some (c', _, _) => String.eqb (cl_id c) "a/b" && String.eqb (cl_id c') "a/c" && sn_to_self s
          | None => false
          end
      | (None, _) => false
      end
  | None => false
  end.
(** The Lib [c] runs for the request of [g] and sees [g] as its caller. *)
Lemma running_let_through_witness :
  exists iv, running here no_paths no_load id (fun _ => None) Some ".dhttp.net" (fun _ => NoContact) outside "a/c" iv
  /\ let_through here no_paths no_load (fun _ => "") caller_g "a/c" iv.
Proof.
  assert (second_call = true) as Hcall by (vm_compute; reflexivity). unfold second_call in Hcall.
  destruct (entered here no_paths no_load now outside) as [[[c iv] rq]|] eqn:He; [|discriminate Hcall].
  destruct (send_on (iv_outgoing iv)) as [[s|] r] eqn:Hs; [|discriminate Hcall].
  destruct (nested here no_paths no_load now now s) as [[[c' iv'] rq']|] eqn:Hn; [|discriminate Hcall].
  apply andb_prop in Hcall as [[_ Hc%String.eqb_eq]%andb_prop Hself].
  assert (running here no_paths no_load id (fun _ => None) Some ".dhttp.net" (fun _ => NoContact) outside "a/c" iv') as Hrun.
  { rewrite <- Hc. eapply run_nested; [|exact Hs|exact Hself|exact Hn]. eapply run_request. exact He. }
  exists iv'. split; [exact Hrun|].
  destruct (running_let_through here no_paths no_load (fun _ => "") _ _ _ _ _ _ _ _ Hrun) as (hs & Hhs & Hlet).
  injection Hhs as <-. exact Hlet.
Defined.
